(** * The AI decision engine of the Risk simulator

    A shallow embedding of [ai_strategy.py] (class [AIStrategy], its four
    archetypes and six historical personas) over the board of
    [game_board.py], followed by the properties the specification states
    about it.

    Conventions of the embedding.
    - Python [int] is [Z]; Python [float] is [Q], exact rational
      arithmetic, so rounding and overflow are outside the model and
      numeric results are compared with [==].
    - Python [dict] is an association list in insertion order: the engine
      depends on iteration order ([get_continent_for_territory] returns the
      first match, [max] and [sort] break ties by position).
    - An exception is a [Raise]; the two the engine can meet are
      [AttributeError] (attribute access on [None]) and
      [ZeroDivisionError].
    - [random.random()] reads an explicit source of draws. *)

From Stdlib Require Import List String ZArith QArith Bool Lia Lqa.
From Stdlib Require Import Permutation.
Import ListNotations.

Local Open Scope Q_scope.

(* ------------------------------------------------------------------ *)
(** ** Python runtime: exceptions, truthiness, dictionaries, sorting   *)
(* ------------------------------------------------------------------ *)

Inductive exn : Type :=
| AttributeError
| ZeroDivisionError.

Inductive result (A : Type) : Type :=
| Ok (a : A)
| Raise (e : exn).

Arguments Ok {A} a.
Arguments Raise {A} e.

Definition bind {A B : Type} (m : result A) (k : A -> result B) : result B :=
  match m with
  | Ok a => k a
  | Raise e => Raise e
  end.

Notation "x <- m ;; k" := (bind m (fun x => k))
  (at level 61, m at next level, right associativity).
Notation "' p <- m ;; k" := (bind m (fun p => k))
  (at level 61, p pattern, m at next level, right associativity).

(** A [for] loop whose body may raise. *)
Fixpoint for_each {A S : Type} (body : S -> A -> result S) (l : list A) (s : S)
  : result S :=
  match l with
  | [] => Ok s
  | x :: rest => s' <- body s x ;; for_each body rest s'
  end.

(** [x in l] for a list of strings. *)
Definition mem (x : string) (l : list string) : bool :=
  existsb (String.eqb x) l.

(** Truthiness of an [Optional[str]]: [None] and the empty string are falsy. *)
Definition truthy (o : option string) : bool :=
  match o with
  | Some s => negb (String.eqb s EmptyString)
  | None => false
  end.

(** [o == s] and [o != s] for [o : Optional[str]] and [s : str]. *)
Definition opt_eqb (o : option string) (s : string) : bool :=
  match o with
  | Some c => String.eqb c s
  | None => false
  end.

Definition opt_neqb (o : option string) (s : string) : bool := negb (opt_eqb o s).

(** [a / b] on two [int]s. *)
Definition truediv (a b : Z) : result Q :=
  if (b =? 0)%Z then Raise ZeroDivisionError else Ok (inject_Z a / inject_Z b).

(** [x / y] on floats. *)
Definition fdiv (x y : Q) : result Q :=
  if Qeq_bool y 0 then Raise ZeroDivisionError else Ok (x / y).

(** [min(a, b)] and [max(a, b)]: the first argument wins a tie. *)
Definition py_min (a b : Q) : Q := if Qle_bool a b then a else b.
Definition py_max (a b : Q) : Q := if Qle_bool b a then a else b.

Module Dict.
Section Defs.
Context {V : Type}.

Definition t : Type := list (string * V).

Definition empty : t := [].

Fixpoint get (d : t) (k : string) : option V :=
  match d with
  | [] => None
  | (k', v) :: rest => if String.eqb k' k then Some v else get rest k
  end.

(** [d.get(k, default)] *)
Definition get_default (d : t) (k : string) (default : V) : V :=
  match get d k with
  | Some v => v
  | None => default
  end.

(** [d[k] = v]: an existing key keeps its position, a new one goes last. *)
Fixpoint set (d : t) (k : string) (v : V) : t :=
  match d with
  | [] => [(k, v)]
  | (k', v') :: rest =>
      if String.eqb k' k then (k', v) :: rest else (k', v') :: set rest k v
  end.

Definition keys (d : t) : list string := map fst d.

Definition items (d : t) : list (string * V) := d.

Definition values (d : t) : list V := map snd d.

(** The representation invariant of a Python dictionary. *)
Definition wf (d : t) : Prop := NoDup (keys d).
End Defs.
Arguments t : clear implicits.
End Dict.

(** [for k in d: d[k] = f(k, d[k])] *)
Definition update_values (f : string -> Q -> Q) (d : Dict.t Q) : Dict.t Q :=
  fold_left (fun d k => Dict.set d k (f k (Dict.get_default d k 0)))
            (Dict.keys d) d.

(** [sorted(l, key=key, reverse=True)]: stable, descending. *)
Section Sorting.
Context {A : Type} (key : A -> Q).

Fixpoint insert_desc (x : A) (l : list A) : list A :=
  match l with
  | [] => [x]
  | y :: rest =>
      if Qle_bool (key y) (key x) then x :: y :: rest
      else y :: insert_desc x rest
  end.

Definition sort_desc (l : list A) : list A := fold_right insert_desc [] l.

(** [max(l, key=key)]: the first maximal element. *)
Definition max_by (l : list A) : option A :=
  fold_left
    (fun best x =>
       match best with
       | None => Some x
       | Some y => if Qle_bool (key x) (key y) then Some y else Some x
       end)
    l None.
End Sorting.

(** The source of [random.random()]: an infinite sequence of draws and a
    position in it. *)
Record Rng : Type := mkRng { draws : nat -> Q; pos : nat }.

Definition random (g : Rng) : Q * Rng :=
  (draws g (pos g), mkRng (draws g) (S (pos g))).

(* ------------------------------------------------------------------ *)
(** ** game_board.py                                                   *)
(* ------------------------------------------------------------------ *)

Module Territory.
Record t : Type := mk
  { name : string; continent : string; owner : option string; armies : Z }.

(** [territory.owner == player_name] *)
Definition owned_by (x : t) (player_name : string) : bool :=
  opt_eqb (owner x) player_name.
End Territory.

Module Continent.
Record t : Type := mk
  { name : string; territories : list string; bonus_armies : Z }.
End Continent.

Module GameBoard.
Record t : Type := mk
  { territories : Dict.t Territory.t;
    continents : Dict.t Continent.t;
    adjacencies : Dict.t (list string) }.

Definition get_territory (b : t) (name : string) : option Territory.t :=
  Dict.get (territories b) name.

Definition get_continent (b : t) (name : string) : option Continent.t :=
  Dict.get (continents b) name.

(** [adjacencies.get(territory_name, [])] *)
Definition get_adjacent_territories (b : t) (territory_name : string)
  : list string :=
  Dict.get_default (adjacencies b) territory_name [].
End GameBoard.

(* ------------------------------------------------------------------ *)
(** ** ai_strategy.py: the state of one agent                          *)
(* ------------------------------------------------------------------ *)

(** The attributes of an [AIStrategy] instance.  [game_board] is a
    reference to the shared board and is passed to every method instead;
    [aggression_factor] is only read by [BalancedStrategy] and below. *)
Record Agent : Type := mkAgent
  { player_name : string;
    territory_values : Dict.t Q;
    continent_priorities : Dict.t Q;
    target_continent : option string;
    aggression_factor : Q }.

Definition set_territory_values (self : Agent) (tv : Dict.t Q) : Agent :=
  mkAgent (player_name self) tv (continent_priorities self)
          (target_continent self) (aggression_factor self).

Definition set_continent_priorities (self : Agent) (cp : Dict.t Q) : Agent :=
  mkAgent (player_name self) (territory_values self) cp
          (target_continent self) (aggression_factor self).

Definition set_target_continent (self : Agent) (tc : option string) : Agent :=
  mkAgent (player_name self) (territory_values self) (continent_priorities self)
          tc (aggression_factor self).

(** The class of an agent. *)
Inductive Strategy : Type :=
| Base
| Aggressive
| Defensive
| Balanced
| Opportunistic
| Napoleon
| GenghisKhan
| Alexander
| SunTzu
| Hannibal
| Elizabeth.

(** The superclass of each class. *)
Definition parent (k : Strategy) : option Strategy :=
  match k with
  | Base => None
  | Aggressive | Defensive | Balanced | Opportunistic => Some Base
  | Napoleon | Alexander => Some Aggressive
  | GenghisKhan | Hannibal => Some Opportunistic
  | SunTzu => Some Balanced
  | Elizabeth => Some Defensive
  end.

(* ------------------------------------------------------------------ *)
(** ** class AIStrategy                                                *)
(* ------------------------------------------------------------------ *)

Module AIStrategy.
Section Methods.
Variable game_board : GameBoard.t.

Local Abbreviation get_territory := (GameBoard.get_territory game_board).
Local Abbreviation adjacent := (GameBoard.get_adjacent_territories game_board).

Fixpoint find_continent (cs : list (string * Continent.t))
  (territory_name : string) : option string :=
  match cs with
  | [] => None
  | (continent_name, continent) :: rest =>
      if mem territory_name (Continent.territories continent)
      then Some continent_name
      else find_continent rest territory_name
  end.

Definition get_continent_for_territory (territory_name : string)
  : option string :=
  find_continent (Dict.items (GameBoard.continents game_board)) territory_name.

Definition count_continent_entry_points (continent_name : string) : Z :=
  match Dict.get (GameBoard.continents game_board) continent_name with
  | None => 0%Z
  | Some continent =>
      let entry_points :=
        fold_left
          (fun entry_points territory_name =>
             (* the inner loop stops at the first outside neighbour *)
             if existsb
                  (fun adj_name =>
                     opt_neqb (get_continent_for_territory adj_name)
                              continent_name)
                  (adjacent territory_name)
             then (entry_points + 1)%Z
             else entry_points)
          (Continent.territories continent) 0%Z in
      Z.max 1 entry_points
  end.

Definition is_continent_gateway (territory_name : string) : bool :=
  let territory_continent := get_continent_for_territory territory_name in
  match territory_continent with
  | None => false
  | Some tc =>
      if String.eqb tc EmptyString then false
      else existsb
             (fun adj_name =>
                opt_neqb (get_continent_for_territory adj_name) tc)
             (adjacent territory_name)
  end.

(** [sum(1 for terr_name in members
         if self.game_board.get_territory(terr_name).owner == player_name)] *)
Definition count_owned (player_name : string) (members : list string)
  : result Z :=
  for_each
    (fun n terr_name =>
       match get_territory terr_name with
       | None => Raise AttributeError
       | Some terr =>
           Ok (if Territory.owned_by terr player_name then (n + 1)%Z else n)
       end)
    members 0%Z.

Definition continent_priority (player_name continent_name : string)
  (continent : Continent.t) : result Q :=
  let total_territories :=
    Z.of_nat (List.length (Continent.territories continent)) in
  territories_owned <-
    count_owned player_name (Continent.territories continent) ;;
  let entry_points := count_continent_entry_points continent_name in
  continent_value <-
    (if (entry_points >? 0)%Z then
       per_entry <- truediv (Continent.bonus_armies continent) entry_points ;;
       owned_share <- truediv territories_owned total_territories ;;
       Ok (per_entry * (owned_share ^ 2 + 0.1))
     else Ok 0) ;;
  let size_factor := 1.0 + inject_Z (6 - total_territories) * 0.1 in
  Ok (continent_value * size_factor).

Definition territory_value (priorities : Dict.t Q) (territory_name : string)
  : Q :=
  let base_value := 1.0 in
  let continent := get_continent_for_territory territory_name in
  let base_value :=
    match continent with
    | Some c =>
        if truthy continent
        then base_value * (Dict.get_default priorities c 1.0 * 1.5)
        else base_value
    | None => base_value
    end in
  let base_value :=
    if is_continent_gateway territory_name then base_value * 1.5
    else base_value in
  let adj_count := Z.of_nat (List.length (adjacent territory_name)) in
  let connectivity_factor := 1.0 + inject_Z (adj_count - 3) * 0.1 in
  base_value * py_max 0.8 connectivity_factor.

Definition calculate_strategic_values (self : Agent) : result Agent :=
  priorities <-
    for_each
      (fun cp '(continent_name, continent) =>
         continent_value <-
           continent_priority (player_name self) continent_name continent ;;
         Ok (Dict.set cp continent_name continent_value))
      (Dict.items (GameBoard.continents game_board))
      (continent_priorities self) ;;
  let values :=
    fold_left
      (fun tv '(territory_name, _) =>
         Dict.set tv territory_name (territory_value priorities territory_name))
      (Dict.items (GameBoard.territories game_board))
      (territory_values self) in
  Ok (set_territory_values (set_continent_priorities self priorities) values).

Definition get_player_continent_control (player_name : string)
  : result (Dict.t Q) :=
  for_each
    (fun control '(continent_name, continent) =>
       let total_territories :=
         Z.of_nat (List.length (Continent.territories continent)) in
       if (total_territories =? 0)%Z then Ok (Dict.set control continent_name 0)
       else
         owned_territories <-
           count_owned player_name (Continent.territories continent) ;;
         share <- truediv owned_territories total_territories ;;
         Ok (Dict.set control continent_name share))
    (Dict.items (GameBoard.continents game_board)) Dict.empty.

Definition choose_target_continent (self : Agent) (player_name : string)
  (g : Rng) : result (option string * Rng) :=
  continent_control <- get_player_continent_control player_name ;;
  let '(weighted_priorities, g') :=
    fold_left
      (fun '(wp, g) '(continent_name, priority) =>
         let control_level :=
           Dict.get_default continent_control continent_name 0 in
         let '(u, g1) := random g in
         let weighted_priority :=
           priority * ((control_level + 0.1) ^ 2) * (0.8 + 0.4 * u) in
         (Dict.set wp continent_name weighted_priority, g1))
      (Dict.items (continent_priorities self)) (Dict.empty, g) in
  match max_by snd (Dict.items weighted_priorities) with
  | Some (target_continent, _) => Ok (Some target_continent, g')
  | None => Ok (None, g')
  end.

Definition get_continent_completion_territories
  (continent_name player_name : string) : result (list string) :=
  match Dict.get (GameBoard.continents game_board) continent_name with
  | None => Ok []
  | Some continent =>
      for_each
        (fun needed_territories territory_name =>
           match get_territory territory_name with
           | None => Raise AttributeError
           | Some territory =>
               if Territory.owned_by territory player_name
               then Ok needed_territories
               else Ok (needed_territories ++ [territory_name])
           end)
        (Continent.territories continent) []
  end.

Definition is_front_line_territory (territory_name player_name : string)
  : bool :=
  existsb
    (fun adj_name =>
       match get_territory adj_name with
       | Some adj_terr => negb (Territory.owned_by adj_terr player_name)
       | None => false
       end)
    (adjacent territory_name).

(** [self.target_continent and
     self.get_continent_for_territory(name) == self.target_continent] *)
Definition in_target_continent (self : Agent) (territory_name : string)
  : bool :=
  match target_continent self with
  | Some tc =>
      truthy (Some tc)
      && opt_eqb (get_continent_for_territory territory_name) tc
  | None => false
  end.

(** [len(needed_territories) == 1 and needed_territories[0] == name] *)
Definition only_needs (needed_territories : list string) (name : string)
  : bool :=
  match needed_territories with
  | [x] => String.eqb x name
  | _ => false
  end.

(** The advantage ratio of an attacker over a defender. *)
Definition advantage_of (attacker_armies defender_armies : Z) : Q :=
  if (defender_armies >? 0)%Z
  then inject_Z attacker_armies / inject_Z defender_armies
  else inject_Z attacker_armies.

(** The value of capturing [name]: its strategic value, doubled in the
    target continent and tripled when it is the last territory missing
    from its continent.  [calculate_attack_opportunity_score] computes it
    as [capture_value], [calculate_attack_score] as the first part of
    [strategic_value]. *)
Definition capture_value (self : Agent) (name player_name : string)
  : result Q :=
  let capture_value := Dict.get_default (territory_values self) name 1.0 in
  let capture_value :=
    if in_target_continent self name
    then capture_value * 2.0 else capture_value in
  let continent := get_continent_for_territory name in
  match continent with
  | Some c =>
      if truthy continent then
        needed_territories <-
          get_continent_completion_territories c player_name ;;
        Ok (if only_needs needed_territories name
            then capture_value * 3.0
            else capture_value)
      else Ok capture_value
  | None => Ok capture_value
  end.

Definition calculate_attack_opportunity_score (self : Agent)
  (from_territory player_name : string) : result Q :=
  match get_territory from_territory with
  | None => Ok 0.0
  | Some territory_obj =>
      if negb (Territory.owned_by territory_obj player_name)
         || (Territory.armies territory_obj <=? 1)%Z
      then Ok 0.0
      else
        opportunity_score <-
          for_each
            (fun opportunity_score adj_name =>
               match get_territory adj_name with
               | None => Ok opportunity_score
               | Some adj_terr =>
                   if Territory.owned_by adj_terr player_name
                   then Ok opportunity_score
                   else
                     let advantage :=
                       advantage_of (Territory.armies territory_obj)
                                    (Territory.armies adj_terr) in
                     if Qle_bool 1.5 advantage then
                       capture_value <-
                         capture_value self adj_name player_name ;;
                       Ok (opportunity_score
                           + (advantage - 1.0) * capture_value)
                     else Ok opportunity_score
               end)
            (adjacent from_territory) 0.0 ;;
        Ok (py_min 3.0 opportunity_score)
  end.

Definition calculate_attack_score (self : Agent)
  (from_territory to_territory player_name : string) : result Q :=
  match get_territory from_territory, get_territory to_territory with
  | Some from_terr, Some to_terr =>
      if negb (Territory.owned_by from_terr player_name)
         || Territory.owned_by to_terr player_name
      then Ok 0.0
      else
        let advantage_ratio :=
          advantage_of (Territory.armies from_terr) (Territory.armies to_terr) in
        let win_probability :=
          py_min 0.9 (py_max 0.1 (0.5 + (advantage_ratio - 1) * 0.2)) in
        strategic_value <- capture_value self to_territory player_name ;;
        let strategic_value :=
          if (Territory.armies to_terr <=? 2)%Z
          then strategic_value * 1.5 else strategic_value in
        Ok (win_probability * strategic_value)
  | _, _ => Ok 0.0
  end.

(** [get_attack_targets]; [self_calculate_attack_score] is the method
    the call [self.calculate_attack_score] resolves to. *)
Definition get_attack_targets
  (self_calculate_attack_score : Agent -> string -> string -> string -> result Q)
  (self : Agent) (player_name : string) (owned_territories : list string)
  : result (list (string * string * Z)) :=
  attack_opportunities <-
    for_each
      (fun attack_opportunities from_terr_name =>
         match get_territory from_terr_name with
         | None => Ok attack_opportunities
         | Some from_terr =>
             if (Territory.armies from_terr <=? 1)%Z
             then Ok attack_opportunities
             else
               for_each
                 (fun attack_opportunities to_terr_name =>
                    match get_territory to_terr_name with
                    | None => Ok attack_opportunities
                    | Some to_terr =>
                        if Territory.owned_by to_terr player_name
                        then Ok attack_opportunities
                        else
                          attack_score <-
                            self_calculate_attack_score
                              self from_terr_name to_terr_name player_name ;;
                          let available_attack_armies :=
                            Z.min 3 (Territory.armies from_terr - 1) in
                          if (available_attack_armies >? 0)%Z
                          then Ok (attack_opportunities
                                   ++ [(from_terr_name, to_terr_name,
                                        available_attack_armies, attack_score)])
                          else Ok attack_opportunities
                    end)
                 (adjacent from_terr_name) attack_opportunities
         end)
      owned_territories [] ;;
  Ok (map (fun a => (fst (fst (fst a)), snd (fst (fst a)), snd (fst a)))
          (sort_desc snd attack_opportunities)).


(** [any(adj_name in needed_territories and
         self.game_board.get_territory(adj_name).owner != player_name
         for adj_name in ...)] *)
Fixpoint borders_target (needed_territories : list string)
  (player_name : string) (adjacent_territories : list string) : result bool :=
  match adjacent_territories with
  | [] => Ok false
  | adj_name :: rest =>
      if mem adj_name needed_territories then
        match get_territory adj_name with
        | None => Raise AttributeError
        | Some adj_terr =>
            if negb (Territory.owned_by adj_terr player_name) then Ok true
            else borders_target needed_territories player_name rest
        end
      else borders_target needed_territories player_name rest
  end.

(** The score of one front-line territory in
    [get_best_reinforcement_territories]. *)
Definition reinforcement_score (self : Agent) (player_name terr_name : string)
  (territory : Territory.t) : result Q :=
  let score := Dict.get_default (territory_values self) terr_name 1.0 in
  army_factor <- fdiv 2.0 (inject_Z (Territory.armies territory + 1)) ;;
  let score := score * army_factor in
  let score :=
    if in_target_continent self terr_name then score * 2.0 else score in
  let continent := get_continent_for_territory terr_name in
  score <-
    match continent with
    | Some c =>
        if truthy continent then
          match Dict.get (GameBoard.continents game_board) c with
          | Some continent_obj =>
              needed_territories <-
                get_continent_completion_territories c player_name ;;
              let n := Z.of_nat (List.length needed_territories) in
              if (1 <=? n)%Z && (n <=? 3)%Z then
                borders <-
                  borders_target needed_territories player_name
                                 (adjacent terr_name) ;;
                Ok (if borders then score * 1.5 else score)
              else Ok score
          | None => Ok score
          end
        else Ok score
    | None => Ok score
    end ;;
  vulnerability_bonus <-
    calculate_attack_opportunity_score self terr_name player_name ;;
  Ok (score * (1.0 + vulnerability_bonus)).

(** [get_best_reinforcement_territories]; the first argument is the
    method the call [self.calculate_strategic_values] resolves to. *)
Definition get_best_reinforcement_territories
  (self_calculate_strategic_values : Agent -> result Agent)
  (self : Agent) (player_name : string) (owned_territories : list string)
  (g : Rng) : result (list string * Agent * Rng) :=
  self <- self_calculate_strategic_values self ;;
  ' (target, g) <- choose_target_continent self player_name g ;;
  let self := set_target_continent self target in
  let front_line_territories :=
    filter (fun terr_name => is_front_line_territory terr_name player_name)
           owned_territories in
  match front_line_territories with
  | [] => Ok (owned_territories, self, g)
  | _ :: _ =>
      territory_scores <-
        for_each
          (fun territory_scores terr_name =>
             match get_territory terr_name with
             | None => Ok territory_scores
             | Some territory =>
                 score <-
                   reinforcement_score self player_name terr_name territory ;;
                 Ok (Dict.set territory_scores terr_name score)
             end)
          front_line_territories Dict.empty ;;
      let sorted_territories := sort_desc snd (Dict.items territory_scores) in
      Ok (map fst sorted_territories, self, g)
  end.

Definition calculate_territory_threat (territory_name player_name : string)
  : Q :=
  match get_territory territory_name with
  | None => 0.0
  | Some territory =>
      if negb (Territory.owned_by territory player_name) then 0.0
      else
        let enemy_armies :=
          fold_left
            (fun enemy_armies adj_name =>
               match get_territory adj_name with
               | Some adj_terr =>
                   if negb (Territory.owned_by adj_terr player_name)
                   then (enemy_armies + Territory.armies adj_terr)%Z
                   else enemy_armies
               | None => enemy_armies
               end)
            (adjacent territory_name) 0%Z in
        let threat_ratio :=
          if (Territory.armies territory >? 0)%Z
          then inject_Z enemy_armies / inject_Z (Territory.armies territory)
          else inject_Z enemy_armies in
        py_min 1.0 (threat_ratio / 3.0)
  end.

Definition calculate_fortification_score (self : Agent)
  (from_territory to_territory player_name : string) : result Q :=
  match get_territory to_territory with
  | None => Ok 0.0
  | Some to_terr =>
      if negb (Territory.owned_by to_terr player_name) then Ok 0.0
      else
        let score := Dict.get_default (territory_values self) to_territory 1.0 in
        let threat := calculate_territory_threat to_territory player_name in
        let score := score * (1.0 + threat * 2.0) in
        let score :=
          if in_target_continent self to_territory then score * 1.5
          else score in
        let continent := get_continent_for_territory to_territory in
        match continent with
        | Some c =>
            if truthy continent then
              control <- get_player_continent_control player_name ;;
              let continent_control := Dict.get_default control c 0 in
              Ok (if Qle_bool continent_control 0.5 then score
                  else score * 1.5)
            else Ok score
        | None => Ok score
        end
  end.

(** The graph of owned territories: each owned territory with its owned
    neighbours, in adjacency order. *)
Definition build_territory_graph (owned_territories : list string)
  : Dict.t (list string) :=
  fold_left
    (fun territory_graph terr_name =>
       Dict.set territory_graph terr_name
                (filter (fun adj_name => mem adj_name owned_territories)
                        (adjacent terr_name)))
    owned_territories Dict.empty.

(** One visit of the neighbours of [current]: the unvisited ones are
    marked and queued with their path. *)
Definition enqueue_neighbors (path : list string) (neighbors : list string)
  (visited : list string) (queue : list (string * list string))
  : list string * list (string * list string) :=
  fold_left
    (fun '(visited, queue) neighbor =>
       if mem neighbor visited then (visited, queue)
       else (neighbor :: visited, queue ++ [(neighbor, path ++ [neighbor])]))
    neighbors (visited, queue).

(** The [while queue:] loop of the breadth-first search; [fuel] bounds
    the number of iterations. *)
Fixpoint bfs (fuel : nat) (territory_graph : Dict.t (list string))
  (front_line_territories : list string) (from_terr_name : string)
  (visited : list string) (queue : list (string * list string))
  (accessible_front_lines : list (string * list string))
  : list (string * list string) :=
  match fuel with
  | O => accessible_front_lines
  | S fuel =>
      match queue with
      | [] => accessible_front_lines
      | (current, path) :: queue =>
          if negb (String.eqb current from_terr_name)
             && mem current front_line_territories
          then
            bfs fuel territory_graph front_line_territories from_terr_name
                visited queue
                (accessible_front_lines ++ [(current, path ++ [current])])
          else
            let '(visited, queue) :=
              enqueue_neighbors path
                (Dict.get_default territory_graph current [])
                visited queue in
            bfs fuel territory_graph front_line_territories from_terr_name
                visited queue accessible_front_lines
      end
  end.

(** Every node enters the queue at most once, so one iteration per owned
    territory (and one to find the queue empty) is enough. *)
Definition bfs_fuel (owned_territories : list string) : nat :=
  S (List.length owned_territories).

Definition triple_of (a : string * string * Z * Q) : string * string * Z :=
  (fst (fst (fst a)), snd (fst (fst a)), snd (fst a)).

Definition get_best_fortification_move (self : Agent) (player_name : string)
  (owned_territories : list string) : result (option (string * string * Z)) :=
  let territory_graph := build_territory_graph owned_territories in
  let front_line_territories :=
    filter (fun terr_name => is_front_line_territory terr_name player_name)
           owned_territories in
  let interior_territories :=
    filter (fun terr_name =>
              negb (is_front_line_territory terr_name player_name))
           owned_territories in
  best_fortifications <-
    for_each
      (fun best_fortifications from_terr_name =>
         match get_territory from_terr_name with
         | None => Ok best_fortifications
         | Some from_terr =>
             if (Territory.armies from_terr <=? 1)%Z
             then Ok best_fortifications
             else
               let accessible_front_lines :=
                 bfs (bfs_fuel owned_territories) territory_graph
                     front_line_territories from_terr_name
                     [from_terr_name] [(from_terr_name, [])] [] in
               for_each
                 (fun best_fortifications '(to_terr_name, path) =>
                    if (List.length path <? 1)%nat then Ok best_fortifications
                    else
                      match get_territory to_terr_name with
                      | None => Ok best_fortifications
                      | Some to_terr =>
                          score <-
                            calculate_fortification_score
                              self from_terr_name to_terr_name player_name ;;
                          let armies_to_move :=
                            Z.max 1 (Territory.armies from_terr - 1) in
                          Ok (best_fortifications
                              ++ [(from_terr_name, to_terr_name,
                                   armies_to_move, score)])
                      end)
                 accessible_front_lines best_fortifications
         end)
      interior_territories [] ;;
  best_fortifications <-
    match best_fortifications with
    | _ :: _ => Ok best_fortifications
    | [] =>
        for_each
          (fun best_fortifications from_terr_name =>
             match get_territory from_terr_name with
             | None => Ok best_fortifications
             | Some from_terr =>
                 if (Territory.armies from_terr <=? 1)%Z
                 then Ok best_fortifications
                 else
                   let from_threat :=
                     calculate_territory_threat from_terr_name player_name in
                   if negb (Qle_bool from_threat 0.5)
                   then Ok best_fortifications
                   else
                     for_each
                       (fun best_fortifications to_terr_name =>
                          if mem to_terr_name front_line_territories then
                            match get_territory to_terr_name with
                            | None => Ok best_fortifications
                            | Some to_terr =>
                                score <-
                                  calculate_fortification_score
                                    self from_terr_name to_terr_name
                                    player_name ;;
                                let to_threat :=
                                  calculate_territory_threat
                                    to_terr_name player_name in
                                if negb (Qle_bool to_threat from_threat) then
                                  let armies_to_move :=
                                    Z.max 1 (Territory.armies from_terr - 1) in
                                  Ok (best_fortifications
                                      ++ [(from_terr_name, to_terr_name,
                                           armies_to_move, score)])
                                else Ok best_fortifications
                            end
                          else Ok best_fortifications)
                       (Dict.get_default territory_graph from_terr_name [])
                       best_fortifications
             end)
          front_line_territories []
    end ;;
  match sort_desc snd best_fortifications with
  | best :: _ => Ok (Some (triple_of best))
  | [] => Ok None
  end.
End Methods.
End AIStrategy.

(* ------------------------------------------------------------------ *)
(** ** The four archetypes                                             *)
(* ------------------------------------------------------------------ *)

Module AggressiveStrategy.
Section Methods.
Variable game_board : GameBoard.t.
Local Abbreviation get_territory := (GameBoard.get_territory game_board).
Local Abbreviation adjacent := (GameBoard.get_adjacent_territories game_board).

Definition calculate_strategic_values (self : Agent) : result Agent :=
  self <- AIStrategy.calculate_strategic_values game_board self ;;
  Ok (set_territory_values self
        (update_values
           (fun territory_name value =>
              let adj_count := Z.of_nat (List.length (adjacent territory_name)) in
              value * (1.0 + inject_Z (adj_count - 3) * 0.15))
           (territory_values self))).

Definition calculate_attack_score (self : Agent)
  (from_territory to_territory player_name : string) : result Q :=
  score <-
    AIStrategy.calculate_attack_score
      game_board self from_territory to_territory player_name ;;
  let score := score * 1.3 in
  match get_territory from_territory, get_territory to_territory with
  | Some from_terr, Some to_terr =>
      if (Territory.armies from_terr >? Territory.armies to_terr * 2)%Z
      then Ok (score * 1.5) else Ok score
  | _, _ => Ok score
  end.
End Methods.
End AggressiveStrategy.

Module DefensiveStrategy.
Section Methods.
Variable game_board : GameBoard.t.

Definition calculate_strategic_values (self : Agent) : result Agent :=
  self <- AIStrategy.calculate_strategic_values game_board self ;;
  Ok (set_territory_values self
        (update_values
           (fun territory_name value =>
              if AIStrategy.is_continent_gateway game_board territory_name
              then value * 1.5 else value)
           (territory_values self))).

Definition defensive_priority (continent_control : Dict.t Q)
  (territory_name : string) : Q :=
  let continent :=
    AIStrategy.get_continent_for_territory game_board territory_name in
  match continent with
  | Some c =>
      if truthy continent then
        let control_level := Dict.get_default continent_control c 0 in
        if Qle_bool control_level 0.6 then 0.0 else control_level * 2.0
      else 0.0
  | None => 0.0
  end.

Definition get_best_reinforcement_territories
  (self_calculate_strategic_values : Agent -> result Agent)
  (self : Agent) (player_name : string) (owned_territories : list string)
  (g : Rng) : result (list string * Agent * Rng) :=
  ' (territories, self, g) <-
    AIStrategy.get_best_reinforcement_territories
      game_board self_calculate_strategic_values
      self player_name owned_territories g ;;
  continent_control <-
    AIStrategy.get_player_continent_control game_board player_name ;;
  Ok (sort_desc (defensive_priority continent_control) territories, self, g).

Definition calculate_attack_score (self : Agent)
  (from_territory to_territory player_name : string) : result Q :=
  score <-
    AIStrategy.calculate_attack_score
      game_board self from_territory to_territory player_name ;;
  let score := score * 0.7 in
  let continent :=
    AIStrategy.get_continent_for_territory game_board to_territory in
  match continent with
  | Some c =>
      if truthy continent then
        needed_territories <-
          AIStrategy.get_continent_completion_territories
            game_board c player_name ;;
        Ok (if AIStrategy.only_needs needed_territories to_territory
            then score * 3.0 else score)
      else Ok score
  | None => Ok score
  end.
End Methods.
End DefensiveStrategy.

Module BalancedStrategy.
Section Methods.
Variable game_board : GameBoard.t.

Definition _get_other_players (player_name : string) : list string :=
  fold_left
    (fun other_players territory =>
       match Territory.owner territory with
       | Some o =>
           if truthy (Some o) && negb (String.eqb o player_name)
              && negb (mem o other_players)
           then other_players ++ [o] else other_players
       | None => other_players
       end)
    (Dict.values (GameBoard.territories game_board)) [].

(** The loop over the other players: [true] when it leaves by [break]. *)
Fixpoint opponent_holds (to_continent : string) (other_players : list string)
  : result bool :=
  match other_players with
  | [] => Ok false
  | other_player :: rest =>
      control <-
        AIStrategy.get_player_continent_control game_board other_player ;;
      let other_control := Dict.get_default control to_continent 0 in
      if Qle_bool other_control 0.6 then opponent_holds to_continent rest
      else Ok true
  end.

Definition calculate_attack_score (self : Agent)
  (from_territory to_territory player_name : string) : result Q :=
  score <-
    AIStrategy.calculate_attack_score
      game_board self from_territory to_territory player_name ;;
  let score := score * aggression_factor self in
  let to_continent :=
    AIStrategy.get_continent_for_territory game_board to_territory in
  match to_continent with
  | Some c =>
      if truthy to_continent then
        held <- opponent_holds c (_get_other_players player_name) ;;
        Ok (if held then score * 1.5 else score)
      else Ok score
  | None => Ok score
  end.
End Methods.
End BalancedStrategy.

Module OpportunisticStrategy.
Section Methods.
Variable game_board : GameBoard.t.
Local Abbreviation get_territory := (GameBoard.get_territory game_board).

Definition _get_player_strength (player_name : string) : Z :=
  let '(territory_count, army_count) :=
    fold_left
      (fun '(territory_count, army_count) territory =>
         if Territory.owned_by territory player_name
         then ((territory_count + 1)%Z,
               (army_count + Territory.armies territory)%Z)
         else (territory_count, army_count))
      (Dict.values (GameBoard.territories game_board)) (0%Z, 0%Z) in
  (territory_count * 2 + army_count)%Z.

Definition calculate_attack_score (self : Agent)
  (from_territory to_territory player_name : string) : result Q :=
  score <-
    AIStrategy.calculate_attack_score
      game_board self from_territory to_territory player_name ;;
  match get_territory to_territory with
  | None => Ok score
  | Some to_terr =>
      match Territory.owner to_terr with
      | None => Ok score
      | Some target_player =>
          if negb (truthy (Some target_player)) then Ok score
          else
            let target_strength := _get_player_strength target_player in
            let player_strength := _get_player_strength player_name in
            let score :=
              if Qle_bool (inject_Z player_strength * 0.7)
                          (inject_Z target_strength)
              then score else score * 1.5 in
            match get_territory from_territory with
            | Some from_terr =>
                if (Territory.armies from_terr
                    >? Territory.armies to_terr * 2)%Z
                then Ok (score * 1.3) else Ok score
            | None => Ok score
            end
      end
  end.
End Methods.
End OpportunisticStrategy.

(* ------------------------------------------------------------------ *)
(** ** The six historical personas                                     *)
(* ------------------------------------------------------------------ *)

Module NapoleonStrategy.
Section Methods.
Variable game_board : GameBoard.t.
Local Abbreviation get_territory := (GameBoard.get_territory game_board).
Local Abbreviation adjacent := (GameBoard.get_adjacent_territories game_board).

Definition aggression_bonus : Q := 1.4.

Definition calculate_strategic_values (self : Agent) : result Agent :=
  self <- AggressiveStrategy.calculate_strategic_values game_board self ;;
  Ok (set_territory_values self
        (update_values
           (fun territory_name value =>
              let adj_count := Z.of_nat (List.length (adjacent territory_name)) in
              if (adj_count >? 4)%Z then value * 1.5 else value)
           (territory_values self))).

Definition calculate_attack_score (self : Agent)
  (from_territory to_territory player_name : string) : result Q :=
  score <-
    AggressiveStrategy.calculate_attack_score
      game_board self from_territory to_territory player_name ;;
  let score := score * aggression_bonus in
  match get_territory to_territory with
  | Some to_terr =>
      if (Territory.armies to_terr >? 3)%Z then Ok (score * 1.2) else Ok score
  | None => Ok score
  end.

Definition count_adjacent_enemies (player_name terr_name : string) : Z :=
  fold_left
    (fun enemy_count adj_name =>
       match get_territory adj_name with
       | Some adj_terr =>
           if negb (Territory.owned_by adj_terr player_name)
           then (enemy_count + 1)%Z else enemy_count
       | None => enemy_count
       end)
    (adjacent terr_name) 0%Z.

Definition get_best_reinforcement_territories
  (self_calculate_strategic_values : Agent -> result Agent)
  (self : Agent) (player_name : string) (owned_territories : list string)
  (g : Rng) : result (list string * Agent * Rng) :=
  ' (territories, self, g) <-
    AIStrategy.get_best_reinforcement_territories
      game_board self_calculate_strategic_values
      self player_name owned_territories g ;;
  Ok (sort_desc (fun t => inject_Z (count_adjacent_enemies player_name t))
                territories, self, g).
End Methods.
End NapoleonStrategy.

Module GenghisKhanStrategy.
Section Methods.
Variable game_board : GameBoard.t.
Local Abbreviation get_territory := (GameBoard.get_territory game_board).
Local Abbreviation adjacent := (GameBoard.get_adjacent_territories game_board).

Definition calculate_strategic_values (self : Agent) : result Agent :=
  self <- AIStrategy.calculate_strategic_values game_board self ;;
  Ok (set_territory_values self
        (update_values
           (fun territory_name value =>
              let adj_count := Z.of_nat (List.length (adjacent territory_name)) in
              value * (1.0 + inject_Z adj_count / 10.0))
           (territory_values self))).

Definition calculate_attack_score (self : Agent)
  (from_territory to_territory player_name : string) : result Q :=
  score <-
    OpportunisticStrategy.calculate_attack_score
      game_board self from_territory to_territory player_name ;;
  match get_territory from_territory, get_territory to_territory with
  | Some from_terr, Some to_terr =>
      if (Territory.armies to_terr >? 0)%Z then
        let advantage :=
          inject_Z (Territory.armies from_terr)
          / inject_Z (Territory.armies to_terr) in
        if Qle_bool advantage 2.0 then Ok score else Ok (score * 1.7)
      else Ok score
  | _, _ => Ok score
  end.

Definition get_best_fortification_move (self : Agent) (player_name : string)
  (owned_territories : list string) : result (option (string * string * Z)) :=
  best_move <-
    AIStrategy.get_best_fortification_move
      game_board self player_name owned_territories ;;
  match best_move with
  | None => Ok None
  | Some (source_name, dest_name, armies_to_move) =>
      match get_territory dest_name with
      | Some dest_terr =>
          let adj_count := List.length (adjacent dest_name) in
          if (adj_count <? 3)%nat then
            (* the first better-connected front-line territory, if any *)
            match
              find
                (fun terr_name =>
                   AIStrategy.is_front_line_territory
                     game_board terr_name player_name
                   && (adj_count <? List.length (adjacent terr_name))%nat
                   && (match get_territory terr_name with
                       | Some _ => true
                       | None => false
                       end)
                   && negb (String.eqb source_name terr_name))
                owned_territories
            with
            | Some terr_name => Ok (Some (source_name, terr_name, armies_to_move))
            | None => Ok best_move
            end
          else Ok best_move
      | None => Ok best_move
      end
  end.
End Methods.
End GenghisKhanStrategy.

Module AlexanderStrategy.
Section Methods.
Variable game_board : GameBoard.t.
Local Abbreviation get_territory := (GameBoard.get_territory game_board).
Local Abbreviation adjacent := (GameBoard.get_adjacent_territories game_board).

Definition calculate_strategic_values (self : Agent) : result Agent :=
  self <- AggressiveStrategy.calculate_strategic_values game_board self ;;
  let top_territories :=
    firstn 5 (sort_desc snd (Dict.items (territory_values self))) in
  Ok (set_territory_values self
        (fold_left
           (fun tv '(terr_name, _) =>
              Dict.set tv terr_name (Dict.get_default tv terr_name 0 * 1.8))
           top_territories (territory_values self))).

Definition calculate_attack_score (self : Agent)
  (from_territory to_territory player_name : string) : result Q :=
  score <-
    AggressiveStrategy.calculate_attack_score
      game_board self from_territory to_territory player_name ;;
  let ongoing_conquest :=
    existsb
      (fun adj_name =>
         match get_territory adj_name with
         | Some adj_terr => Territory.owned_by adj_terr player_name
         | None => false
         end)
      (adjacent to_territory) in
  if ongoing_conquest then Ok (score * 1.4) else Ok score.

Definition get_best_reinforcement_territories
  (self_calculate_strategic_values : Agent -> result Agent)
  (self : Agent) (player_name : string) (owned_territories : list string)
  (g : Rng) : result (list string * Agent * Rng) :=
  ' (territories, self, g) <-
    AIStrategy.get_best_reinforcement_territories
      game_board self_calculate_strategic_values
      self player_name owned_territories g ;;
  let front_line_territories :=
    filter (fun t => AIStrategy.is_front_line_territory game_board t player_name)
           territories in
  match front_line_territories with
  | _ :: _ => Ok (front_line_territories, self, g)
  | [] => Ok (territories, self, g)
  end.
End Methods.
End AlexanderStrategy.

Module SunTzuStrategy.
Section Methods.
Variable game_board : GameBoard.t.
Local Abbreviation get_territory := (GameBoard.get_territory game_board).
Local Abbreviation adjacent := (GameBoard.get_adjacent_territories game_board).

Definition calculate_strategic_values (self : Agent) : result Agent :=
  self <- AIStrategy.calculate_strategic_values game_board self ;;
  Ok (set_territory_values self
        (update_values
           (fun territory_name value =>
              let adj_count := Z.of_nat (List.length (adjacent territory_name)) in
              let gateway_bonus :=
                if AIStrategy.is_continent_gateway game_board territory_name
                then 1.6 else 1.0 in
              value * (gateway_bonus * (1 + inject_Z (adj_count - 3) * 0.1)))
           (territory_values self))).

Definition calculate_attack_score (self : Agent)
  (from_territory to_territory player_name : string) : result Q :=
  score <-
    BalancedStrategy.calculate_attack_score
      game_board self from_territory to_territory player_name ;;
  let score :=
    match get_territory from_territory, get_territory to_territory with
    | Some from_terr, Some to_terr =>
        if (Territory.armies to_terr >? 0)%Z then
          let advantage :=
            inject_Z (Territory.armies from_terr)
            / inject_Z (Territory.armies to_terr) in
          if negb (Qle_bool 1.5 advantage) then score * 0.7
          else if negb (Qle_bool advantage 2.5) then score * 1.5
          else score
        else score
    | _, _ => score
    end in
  if AIStrategy.is_continent_gateway game_board to_territory
  then Ok (score * 1.8) else Ok score.

Definition get_best_fortification_move (self : Agent) (player_name : string)
  (owned_territories : list string) : result (option (string * string * Z)) :=
  best_move <-
    AIStrategy.get_best_fortification_move
      game_board self player_name owned_territories ;;
  let gateway_territories :=
    filter
      (fun t =>
         AIStrategy.is_continent_gateway game_board t
         && AIStrategy.is_front_line_territory game_board t player_name)
      owned_territories in
  match gateway_territories, best_move with
  | _ :: _, Some (source_name, dest_name, armies_to_move) =>
      if negb (mem dest_name gateway_territories) then
        (* the first threatened gateway, if any *)
        match
          find
            (fun gateway =>
               (match get_territory gateway with
                | Some _ => true
                | None => false
                end)
               && negb (Qle_bool
                          (AIStrategy.calculate_territory_threat
                             game_board gateway player_name) 0.3))
            gateway_territories
        with
        | Some gateway => Ok (Some (source_name, gateway, armies_to_move))
        | None => Ok best_move
        end
      else Ok best_move
  | _, _ => Ok best_move
  end.
End Methods.
End SunTzuStrategy.

Module HannibalStrategy.
Section Methods.
Variable game_board : GameBoard.t.
Local Abbreviation get_territory := (GameBoard.get_territory game_board).
Local Abbreviation adjacent := (GameBoard.get_adjacent_territories game_board).

Definition calculate_strategic_values (self : Agent) : result Agent :=
  self <- AIStrategy.calculate_strategic_values game_board self ;;
  Ok (set_territory_values self
        (update_values
           (fun territory_name value =>
              if AIStrategy.is_continent_gateway game_board territory_name
              then value * 1.3 else value)
           (territory_values self))).

(** The number of neighbours of [terr_name] held by someone else. *)
Definition multi_border_value (player_name terr_name : string) : Z :=
  fold_left
    (fun enemy_borders adj_name =>
       match get_territory adj_name with
       | Some adj_terr =>
           if negb (Territory.owned_by adj_terr player_name)
           then (enemy_borders + 1)%Z else enemy_borders
       | None => enemy_borders
       end)
    (adjacent terr_name) 0%Z.

Definition calculate_attack_score (self : Agent)
  (from_territory to_territory player_name : string) : result Q :=
  score <-
    OpportunisticStrategy.calculate_attack_score
      game_board self from_territory to_territory player_name ;;
  match get_territory from_territory with
  | Some from_terr_obj =>
      let enemy_borders := multi_border_value player_name from_territory in
      if (enemy_borders >=? 2)%Z then Ok (score * 1.3) else Ok score
  | None => Ok score
  end.

Definition get_best_reinforcement_territories
  (self_calculate_strategic_values : Agent -> result Agent)
  (self : Agent) (player_name : string) (owned_territories : list string)
  (g : Rng) : result (list string * Agent * Rng) :=
  ' (territories, self, g) <-
    AIStrategy.get_best_reinforcement_territories
      game_board self_calculate_strategic_values
      self player_name owned_territories g ;;
  Ok (sort_desc (fun t => inject_Z (multi_border_value player_name t))
                territories, self, g).
End Methods.
End HannibalStrategy.

Module ElizabethStrategy.
Section Methods.
Variable game_board : GameBoard.t.
Local Abbreviation get_territory := (GameBoard.get_territory game_board).
Local Abbreviation adjacent := (GameBoard.get_adjacent_territories game_board).

Definition _calculate_security_factor (territory_name player_name : string)
  : Q :=
  let adjacent_territories := adjacent territory_name in
  match adjacent_territories with
  | [] => 0.0
  | _ :: _ =>
      let friendly_count :=
        fold_left
          (fun friendly_count adj_name =>
             match get_territory adj_name with
             | Some adj_terr =>
                 if Territory.owned_by adj_terr player_name
                 then (friendly_count + 1)%Z else friendly_count
             | None => friendly_count
             end)
          adjacent_territories 0%Z in
      inject_Z friendly_count
      / inject_Z (Z.of_nat (List.length adjacent_territories))
  end.

Definition calculate_strategic_values (self : Agent) : result Agent :=
  self <- DefensiveStrategy.calculate_strategic_values game_board self ;;
  Ok (set_territory_values self
        (update_values
           (fun territory_name value =>
              let secure_factor :=
                _calculate_security_factor territory_name (player_name self) in
              value * (1.0 + secure_factor * 0.5))
           (territory_values self))).

Definition calculate_attack_score (self : Agent)
  (from_territory to_territory player_name : string) : result Q :=
  score <-
    DefensiveStrategy.calculate_attack_score
      game_board self from_territory to_territory player_name ;;
  let consolidation_factor :=
    fold_left
      (fun consolidation_factor adj_name =>
         if String.eqb adj_name from_territory then consolidation_factor
         else
           match get_territory adj_name with
           | Some adj_terr =>
               if Territory.owned_by adj_terr player_name
               then consolidation_factor + 0.2 else consolidation_factor
           | None => consolidation_factor
           end)
      (adjacent to_territory) 0.0 in
  let score := score * (1.0 + consolidation_factor) in
  match get_territory from_territory, get_territory to_territory with
  | Some from_terr, Some to_terr =>
      if (Territory.armies to_terr >? 0)%Z then
        if negb (Qle_bool (inject_Z (Territory.armies to_terr) * 1.3)
                          (inject_Z (Territory.armies from_terr)))
        then Ok (score * 0.6) else Ok score
      else Ok score
  | _, _ => Ok score
  end.

Definition get_best_fortification_move (self : Agent) (player_name : string)
  (owned_territories : list string) : result (option (string * string * Z)) :=
  best_move <-
    AIStrategy.get_best_fortification_move
      game_board self player_name owned_territories ;;
  match best_move with
  | Some (source_name, dest_name, armies_to_move) =>
      if negb (AIStrategy.is_front_line_territory
                 game_board dest_name player_name)
      then
        let front_line_territories :=
          filter
            (fun t =>
               AIStrategy.is_front_line_territory game_board t player_name)
            owned_territories in
        match
          max_by
            (fun t =>
               AIStrategy.calculate_territory_threat game_board t player_name)
            front_line_territories
        with
        | Some most_threatened =>
            Ok (Some (source_name, most_threatened, armies_to_move))
        | None => Ok best_move
        end
      else Ok best_move
  | None => Ok best_move
  end.
End Methods.
End ElizabethStrategy.

(* ------------------------------------------------------------------ *)
(** ** Method resolution                                               *)
(* ------------------------------------------------------------------ *)

(** Each definition below is what a call [self.method(...)] runs for an
    agent of class [k]. *)

Definition calculate_strategic_values (k : Strategy) (b : GameBoard.t)
  : Agent -> result Agent :=
  match k with
  | Base | Balanced | Opportunistic => AIStrategy.calculate_strategic_values b
  | Aggressive => AggressiveStrategy.calculate_strategic_values b
  | Defensive => DefensiveStrategy.calculate_strategic_values b
  | Napoleon => NapoleonStrategy.calculate_strategic_values b
  | GenghisKhan => GenghisKhanStrategy.calculate_strategic_values b
  | Alexander => AlexanderStrategy.calculate_strategic_values b
  | SunTzu => SunTzuStrategy.calculate_strategic_values b
  | Hannibal => HannibalStrategy.calculate_strategic_values b
  | Elizabeth => ElizabethStrategy.calculate_strategic_values b
  end.

Definition calculate_attack_score (k : Strategy) (b : GameBoard.t)
  : Agent -> string -> string -> string -> result Q :=
  match k with
  | Base => AIStrategy.calculate_attack_score b
  | Aggressive => AggressiveStrategy.calculate_attack_score b
  | Defensive => DefensiveStrategy.calculate_attack_score b
  | Balanced => BalancedStrategy.calculate_attack_score b
  | Opportunistic => OpportunisticStrategy.calculate_attack_score b
  | Napoleon => NapoleonStrategy.calculate_attack_score b
  | GenghisKhan => GenghisKhanStrategy.calculate_attack_score b
  | Alexander => AlexanderStrategy.calculate_attack_score b
  | SunTzu => SunTzuStrategy.calculate_attack_score b
  | Hannibal => HannibalStrategy.calculate_attack_score b
  | Elizabeth => ElizabethStrategy.calculate_attack_score b
  end.

Definition get_attack_targets (k : Strategy) (b : GameBoard.t)
  : Agent -> string -> list string -> result (list (string * string * Z)) :=
  AIStrategy.get_attack_targets b (calculate_attack_score k b).

Definition get_best_reinforcement_territories (k : Strategy) (b : GameBoard.t)
  : Agent -> string -> list string -> Rng -> result (list string * Agent * Rng) :=
  match k with
  | Base | Aggressive | Balanced | Opportunistic | GenghisKhan | SunTzu =>
      AIStrategy.get_best_reinforcement_territories
        b (calculate_strategic_values k b)
  | Defensive | Elizabeth =>
      DefensiveStrategy.get_best_reinforcement_territories
        b (calculate_strategic_values k b)
  | Napoleon =>
      NapoleonStrategy.get_best_reinforcement_territories
        b (calculate_strategic_values k b)
  | Alexander =>
      AlexanderStrategy.get_best_reinforcement_territories
        b (calculate_strategic_values k b)
  | Hannibal =>
      HannibalStrategy.get_best_reinforcement_territories
        b (calculate_strategic_values k b)
  end.

Definition get_best_fortification_move (k : Strategy) (b : GameBoard.t)
  : Agent -> string -> list string -> result (option (string * string * Z)) :=
  match k with
  | GenghisKhan => GenghisKhanStrategy.get_best_fortification_move b
  | SunTzu => SunTzuStrategy.get_best_fortification_move b
  | Elizabeth => ElizabethStrategy.get_best_fortification_move b
  | _ => AIStrategy.get_best_fortification_move b
  end.

(** [__init__]: empty tables, then the first valuation; the balanced
    classes draw their [aggression_factor] with [random.uniform(0.9, 1.1)]. *)
Definition init (k : Strategy) (b : GameBoard.t) (player_name : string)
  (g : Rng) : result (Agent * Rng) :=
  self <-
    calculate_strategic_values k b
      (mkAgent player_name Dict.empty Dict.empty None 1) ;;
  match k with
  | Balanced | SunTzu =>
      let '(u, g) := random g in
      Ok (mkAgent (player_name) (territory_values self)
                  (continent_priorities self) (target_continent self)
                  (0.9 + (1.1 - 0.9) * u), g)
  | _ => Ok (self, g)
  end.

(* ------------------------------------------------------------------ *)
(** ** The vocabulary of the specification                             *)
(* ------------------------------------------------------------------ *)

Section Vocabulary.
Variable b : GameBoard.t.

(** [name] is a territory of the board. *)
Definition on_board (name : string) : Prop :=
  GameBoard.get_territory b name <> None.

(** A front-line territory has a neighbour on the board that the player
    does not own. *)
Definition front_line (player name : string) : Prop :=
  exists adj terr,
    In adj (GameBoard.get_adjacent_territories b name)
    /\ GameBoard.get_territory b adj = Some terr
    /\ Territory.owner terr <> Some player.

(** An attack is legal when the source is on the board with at least two
    armies and the destination is a neighbour held by someone else. *)
Definition legal_attack (player source destination : string) (force : Z)
  : Prop :=
  exists from_terr to_terr,
    GameBoard.get_territory b source = Some from_terr
    /\ GameBoard.get_territory b destination = Some to_terr
    /\ (2 <= Territory.armies from_terr)%Z
    /\ In destination (GameBoard.get_adjacent_territories b source)
    /\ Territory.owner to_terr <> Some player
    /\ force = Z.min 3 (Territory.armies from_terr - 1)
    /\ (1 <= force <= 3)%Z.
End Vocabulary.

(** Equality of two outcomes up to the value of the number returned. *)
Definition result_Qeq (r1 r2 : result Q) : Prop :=
  match r1, r2 with
  | Ok x, Ok y => x == y
  | Raise e1, Raise e2 => e1 = e2
  | _, _ => False
  end.

(** The six historical personas. *)
Definition personas : list Strategy :=
  [Napoleon; GenghisKhan; Alexander; SunTzu; Hannibal; Elizabeth].

Section PersonaFactors.
Variable b : GameBoard.t.
Variables from_territory to_territory player : string.

(** The ratio of attacker armies to defender armies when both territories
    are on the board and the defender has at least one army. *)
Definition plain_advantage : option Q :=
  match GameBoard.get_territory b from_territory,
        GameBoard.get_territory b to_territory with
  | Some from_terr, Some to_terr =>
      if (Territory.armies to_terr >? 0)%Z
      then Some (inject_Z (Territory.armies from_terr)
                 / inject_Z (Territory.armies to_terr))
      else None
  | _, _ => None
  end.

(** [name] is on the board and held by the player. *)
Definition friendly (name : string) : bool :=
  match GameBoard.get_territory b name with
  | Some t => Territory.owned_by t player
  | None => false
  end.

(** [name] is on the board and held by someone else, or by nobody. *)
Definition hostile (name : string) : bool :=
  match GameBoard.get_territory b name with
  | Some t => negb (Territory.owned_by t player)
  | None => false
  end.

(** Napoleon: 1.4, and 1.2 more against more than three armies. *)
Definition napoleon_factor : Q :=
  1.4 * match GameBoard.get_territory b to_territory with
        | Some to_terr => if (3 <? Territory.armies to_terr)%Z then 1.2 else 1
        | None => 1
        end.

(** Genghis Khan: 1.7 with more than twice the defender's armies. *)
Definition genghis_khan_factor : Q :=
  match plain_advantage with
  | Some advantage => if Qle_bool advantage 2 then 1 else 1.7
  | None => 1
  end.

(** Alexander: 1.4 when the target already touches a friendly territory. *)
Definition alexander_factor : Q :=
  if existsb friendly (GameBoard.get_adjacent_territories b to_territory)
  then 1.4 else 1.

(** Sun Tzu: 0.7 below an advantage of 1.5, 1.5 above 2.5, and 1.8 for a
    gateway target. *)
Definition sun_tzu_factor : Q :=
  match plain_advantage with
  | Some advantage =>
      if Qle_bool 1.5 advantage
      then (if Qle_bool advantage 2.5 then 1 else 1.5)
      else 0.7
  | None => 1
  end
  * (if AIStrategy.is_continent_gateway b to_territory then 1.8 else 1).

(** Hannibal: 1.3 from a source that borders at least two hostile
    territories. *)
Definition hannibal_factor : Q :=
  match GameBoard.get_territory b from_territory with
  | Some _ =>
      if (2 <=? List.length
                  (filter hostile
                          (GameBoard.get_adjacent_territories b from_territory)))%nat
      then 1.3 else 1
  | None => 1
  end.

(** Elizabeth: one fifth more for each friendly neighbour of the target
    other than the source, and 0.6 when the attacker has less than 1.3
    times the defender's armies. *)
Definition elizabeth_factor : Q :=
  (1 + 0.2 * inject_Z (Z.of_nat (List.length
         (filter (fun adj => negb (String.eqb adj from_territory) && friendly adj)
                 (GameBoard.get_adjacent_territories b to_territory)))))
  * match plain_advantage with
    | Some advantage => if Qle_bool 1.3 advantage then 1 else 0.6
    | None => 1
    end.

Definition persona_factor (k : Strategy) : Q :=
  match k with
  | Napoleon => napoleon_factor
  | GenghisKhan => genghis_khan_factor
  | Alexander => alexander_factor
  | SunTzu => sun_tzu_factor
  | Hannibal => hannibal_factor
  | Elizabeth => elizabeth_factor
  | _ => 1
  end.
End PersonaFactors.

Section Valuation.
Variable b : GameBoard.t.

(** O: the number of members held by the player. *)
Definition owned_members (player : string) (members : list string) : Z :=
  Z.of_nat (List.length (filter (friendly b player) members)).

(** A member borders a territory outside the continent when one of its
    neighbours belongs to another continent or to none. *)
Definition borders_outside (continent_name member : string) : bool :=
  existsb
    (fun adj =>
       negb (opt_eqb (AIStrategy.get_continent_for_territory b adj)
                     continent_name))
    (GameBoard.get_adjacent_territories b member).

(** E: the number of members that border a territory outside the
    continent, each counted once however many outside neighbours it has,
    and at least 1. *)
Definition entry_points (continent_name : string) (c : Continent.t) : Z :=
  Z.max 1 (Z.of_nat (List.length
             (filter (borders_outside continent_name) (Continent.territories c)))).

(** T: the number of member territories. *)
Definition member_count (c : Continent.t) : Z :=
  Z.of_nat (List.length (Continent.territories c)).

(** The continent priority of the specification. *)
Definition priority_formula (bonus E O T : Z) : Q :=
  (inject_Z bonus / inject_Z E)
  * ((inject_Z O / inject_Z T) ^ 2 + 0.1)
  * (1.0 + inject_Z (6 - T) * 0.1).

(** The fraction of a continent's territories held by the player. *)
Definition control (player : string) (c : Continent.t) : Q :=
  inject_Z (owned_members player (Continent.territories c))
  / inject_Z (member_count c).

(** Every continent of the board grants a positive bonus and has fewer
    than sixteen members, as the six continents of the standard board do. *)
Definition modest_continents : Prop :=
  forall continent_name c,
    In (continent_name, c) (GameBoard.continents b) ->
    (0 < Continent.bonus_armies c)%Z /\ (member_count c < 16)%Z.

(** [d] holds a positive value under [k]. *)
Definition positive_at (d : Dict.t Q) (k : string) : Prop :=
  exists v, Dict.get d k = Some v /\ 0 < v.
End Valuation.

Section TargetSelection.
Variable b : GameBoard.t.

(** U for the continent at position [i] of the iteration: the draw taken
    for it, mapped into the interval from 0.8 to 1.2. *)
Definition jitter (g : Rng) (i : nat) : Q := 0.8 + 0.4 * draws g (pos g + i).

(** The weight of the continent at position [i]. *)
Definition target_weight (self : Agent) (player : string) (g : Rng) (i : nat)
  (continent_name : string) (c : Continent.t) : Q :=
  Dict.get_default (continent_priorities self) continent_name 0
  * (control b player c + 0.1) ^ 2
  * jitter g i.

(** The agent has valued the continents of this board: its priority table
    has the board's continents as keys, in the board's order. *)
Definition priorities_cover (self : Agent) : Prop :=
  Dict.keys (continent_priorities self) = Dict.keys (GameBoard.continents b).
End TargetSelection.

(** The weights computed by the loop of [choose_target_continent], one
    per entry of the priority table, with the draws from position [n]. *)
Fixpoint weigh (continent_control : Dict.t Q) (d : nat -> Q) (n : nat)
  (l : list (string * Q)) : list (string * Q) :=
  match l with
  | [] => []
  | (continent_name, priority) :: rest =>
      (continent_name,
       priority
       * ((Dict.get_default continent_control continent_name 0 + 0.1) ^ 2)
       * (0.8 + 0.4 * d n))
      :: weigh continent_control d (S n) rest
  end.

(** The board with the army count of one territory replaced. *)
Definition with_armies (a : Z) (t : Territory.t) : Territory.t :=
  Territory.mk (Territory.name t) (Territory.continent t) (Territory.owner t) a.

Definition set_armies (b : GameBoard.t) (name : string) (a : Z) : GameBoard.t :=
  GameBoard.mk
    (map (fun kt : string * Territory.t =>
            if String.eqb (fst kt) name then (fst kt, with_armies a (snd kt))
            else kt)
         (GameBoard.territories b))
    (GameBoard.continents b)
    (GameBoard.adjacencies b).

(** No stored territory value is negative. *)
Definition nonnegative_values (self : Agent) : Prop :=
  forall k v, Dict.get (territory_values self) k = Some v -> 0 <= v.

Section Reachability.
Variable b : GameBoard.t.
Variable owned : list string.

(** One step between two owned territories that are neighbours. *)
Definition owned_edge (x y : string) : Prop :=
  In x owned /\ In y owned /\ In y (GameBoard.get_adjacent_territories b x).

(** [y] is reachable from [x] through a path of owned territories, of at
    least one edge; a direct adjacency is a path of length 1. *)
Inductive owned_path : string -> string -> Prop :=
| path_edge (x y : string) : owned_edge x y -> owned_path x y
| path_step (x y z : string) : owned_edge x y -> owned_path y z -> owned_path x z.
End Reachability.

(** What the specification asks of a fortification move. *)
Definition sound_move (b : GameBoard.t) (owned : list string)
  (move : string * string * Z) : Prop :=
  let '(source, destination, amount) := move in
  owned_path b owned source destination
  /\ exists t, GameBoard.get_territory b source = Some t
               /\ (amount <= Territory.armies t - 1)%Z.

(* ------------------------------------------------------------------ *)
(** ** Auxiliary notions used by the proofs                            *)
(* ------------------------------------------------------------------ *)

(** A candidate of [get_attack_targets] that is a legal attack. *)
Definition legal_candidate (b : GameBoard.t) (player : string)
  (a : string * string * Z * Q) : Prop :=
  legal_attack b player (fst (fst (fst a))) (snd (fst (fst a))) (snd (fst a)).


(** The body of a loop that stores [val x] under [key x]. *)
Definition fill_body {V X : Type} (key : X -> string) (val : X -> result V)
  (d : Dict.t V) (x : X) : result (Dict.t V) :=
  v <- val x ;; Ok (Dict.set d (key x) v).

(** The front-line territories among the owned ones, in the order of the
    owned list. *)
Definition front_line_of (b : GameBoard.t) (player : string)
  (owned : list string) : list string :=
  filter (fun t => AIStrategy.is_front_line_territory b t player) owned.

(** What the specification asks of the list returned by
    [get_best_reinforcement_territories]. *)
Definition reinforcement_order (b : GameBoard.t) (player : string)
  (owned l : list string) : Prop :=
  (front_line_of b player owned <> [] ->
   NoDup l /\ forall t, In t l <-> In t (front_line_of b player owned))
  /\ (front_line_of b player owned = [] -> Permutation l owned).

(** The body of the loop over the neighbours of the source. *)
Definition opportunity_step (b : GameBoard.t) (self : Agent)
  (player : string) (source : Territory.t)
  (opportunity_score : Q) (adj_name : string) : result Q :=
  match GameBoard.get_territory b adj_name with
  | None => Ok opportunity_score
  | Some adj_terr =>
      if Territory.owned_by adj_terr player
      then Ok opportunity_score
      else
        let advantage :=
          AIStrategy.advantage_of (Territory.armies source)
                                  (Territory.armies adj_terr) in
        if Qle_bool 1.5 advantage then
          capture_value <- AIStrategy.capture_value b self adj_name player ;;
          Ok (opportunity_score + (advantage - 1.0) * capture_value)
        else Ok opportunity_score
  end.

(** A node of the search is the source or is reachable from it. *)
Definition reached (b : GameBoard.t) (owned : list string)
  (from_terr_name node : string) : Prop :=
  node = from_terr_name \/ owned_path b owned from_terr_name node.

(** A candidate of the planner is sound and aims at a front-line
    territory. *)
Definition good_candidate (b : GameBoard.t) (player : string)
  (owned : list string) (c : string * string * Z * Q) : Prop :=
  sound_move b owned (AIStrategy.triple_of c)
  /\ AIStrategy.is_front_line_territory b (snd (fst (fst c))) player = true.

(** The owned territories the search has not visited yet. *)
Definition unvisited (owned visited : list string) : list string :=
  filter (fun x => negb (mem x visited)) (nodup string_dec owned).

(** Every territory listed by a continent is on the board. *)
Definition consistent (b : GameBoard.t) : Prop :=
  forall continent_name c m,
    In (continent_name, c) (GameBoard.continents b) ->
    In m (Continent.territories c) -> on_board b m.

(** A consistent board none of whose continents is empty. *)
Definition well_formed (b : GameBoard.t) : Prop :=
  consistent b
  /\ forall continent_name c,
       In (continent_name, c) (GameBoard.continents b) ->
       Continent.territories c <> [].

(** The outcome is a score equal to 0. *)
Definition zero_score (r : result Q) : Prop := exists v, r = Ok v /\ v == 0.

(* ------------------------------------------------------------------ *)
(** ** Boards used as examples                                         *)
(* ------------------------------------------------------------------ *)

Module Examples.
Local Open Scope string_scope.

Definition terr (name continent owner : string) (armies : Z)
  : string * Territory.t :=
  (name, Territory.mk name continent (Some owner) armies).

(** A continent of four territories, all held by "P", with one way out
    to the single territory of a second continent held by "E". *)
Definition square : GameBoard.t :=
  GameBoard.mk
    [terr "a" "C" "P" 3; terr "b" "C" "P" 1; terr "c" "C" "P" 1;
     terr "d" "C" "P" 2; terr "x" "D" "E" 1]
    [("C", Continent.mk "C" ["a"; "b"; "c"; "d"] 5);
     ("D", Continent.mk "D" ["x"] 2)]
    [("a", ["b"; "c"]); ("b", ["a"; "c"; "d"]); ("c", ["a"; "b"; "d"]);
     ("d", ["b"; "c"; "x"]); ("x", ["d"])].

(** A fresh agent, before its first valuation. *)
Definition fresh (player : string) : Agent :=
  mkAgent player Dict.empty Dict.empty None 1.

(** A source of draws that always yields one half. *)
Definition halves : Rng := mkRng (fun _ => 1 # 2) 0.

(** The agent of "P" on [square] after its first valuation. *)
Definition valued : Agent :=
  Eval vm_compute in
    match AIStrategy.calculate_strategic_values square (fresh "P") with
    | Ok s => s
    | Raise _ => fresh "P"
    end.

(** One continent without a bonus, holding one territory. *)
Definition no_bonus : GameBoard.t :=
  GameBoard.mk
    [terr "a" "C" "P" 1]
    [("C", Continent.mk "C" ["a"] 0)]
    [("a", [])].

(** A continent that lists a territory the board does not have. *)
Definition dangling : GameBoard.t :=
  GameBoard.mk
    [terr "a" "C" "P" 2; terr "x" "D" "E" 1]
    [("C", Continent.mk "C" ["a"; "ghost"] 2); ("D", Continent.mk "D" ["x"] 1)]
    [("a", ["x"]); ("x", ["a"])].

(** A continent of seventeen territories: "s" held by "P" with three
    armies, its neighbour "e" and fifteen more held by "E". *)
Definition sprawl_members : list string :=
  ["s"; "e"; "f01"; "f02"; "f03"; "f04"; "f05"; "f06"; "f07"; "f08";
   "f09"; "f10"; "f11"; "f12"; "f13"; "f14"; "f15"].

Definition sprawl : GameBoard.t :=
  GameBoard.mk
    (terr "s" "Big" "P" 3
     :: map (fun name => terr name "Big" "E" 1) (tl sprawl_members))
    [("Big", Continent.mk "Big" sprawl_members 1)]
    [("s", ["e"]); ("e", ["s"])].

(** The agent of "P" on [sprawl] after its first valuation. *)
Definition sprawl_valued : Agent :=
  Eval vm_compute in
    match AIStrategy.calculate_strategic_values sprawl (fresh "P") with
    | Ok s => s
    | Raise _ => fresh "P"
    end.

(** "P" holds "a" and "b", which touch, and "c", which touches neither:
    "a" is interior with three armies, "b" borders one enemy, "c" borders
    three.  The board has no continents. *)
Definition isolated : GameBoard.t :=
  GameBoard.mk
    [terr "a" "" "P" 3; terr "b" "" "P" 1; terr "c" "" "P" 1;
     terr "e1" "" "E" 1; terr "e2" "" "E" 1; terr "e3" "" "E" 1;
     terr "e4" "" "E" 1]
    []
    [("a", ["b"]); ("b", ["a"; "e1"]); ("c", ["e2"; "e3"; "e4"]);
     ("e1", ["b"]); ("e2", ["c"]); ("e3", ["c"]); ("e4", ["c"])].

Definition isolated_owned : list string := ["a"; "b"; "c"].

(** The same territories and borders in three continents: "c" is a
    gateway of the second one, "b" is no gateway. *)
Definition isolated_in_continents : GameBoard.t :=
  GameBoard.mk
    (GameBoard.territories isolated)
    [("K1", Continent.mk "K1" ["a"; "b"; "e1"] 2);
     ("K2", Continent.mk "K2" ["c"; "e2"] 2);
     ("K3", Continent.mk "K3" ["e3"; "e4"] 2)]
    (GameBoard.adjacencies isolated).
End Examples.

(* ------------------------------------------------------------------ *)
(** ** Further vocabulary: boards, scores and rankings                 *)
(* ------------------------------------------------------------------ *)

(** No territory of the board holds a negative number of armies. *)
Definition nonnegative_armies (b : GameBoard.t) : Prop :=
  forall name t,
    GameBoard.get_territory b name = Some t -> (0 <= Territory.armies t)%Z.

(** Every member of a continent is attributed to that continent by
    [get_continent_for_territory]: no territory is listed twice. *)
Definition disjoint_continents (b : GameBoard.t) : Prop :=
  forall continent_name c m,
    In (continent_name, c) (GameBoard.continents b) ->
    In m (Continent.territories c) ->
    AIStrategy.get_continent_for_territory b m = Some continent_name.

(** The members of a continent that the player does not hold. *)
Definition missing_members (b : GameBoard.t) (player : string)
  (c : Continent.t) : list string :=
  filter (fun m => negb (friendly b player m)) (Continent.territories c).

(** The list is in non-increasing order of [key]. *)
Definition descending {A : Type} (key : A -> Q) (l : list A) : Prop :=
  forall i j x y,
    (i < j)%nat -> nth_error l i = Some x -> nth_error l j = Some y ->
    key y <= key x.

(** Each element is followed only by elements of a key no larger. *)
Fixpoint sorted_desc {A : Type} (key : A -> Q) (l : list A) : Prop :=
  match l with
  | [] => True
  | x :: rest => Forall (fun y => key y <= key x) rest /\ sorted_desc key rest
  end.

(** A candidate of [get_attack_targets] carries the score that the
    agent's own [calculate_attack_score] gives to it. *)
Definition scored_by
  (score : Agent -> string -> string -> string -> result Q)
  (self : Agent) (player : string) (a : string * string * Z * Q) : Prop :=
  score self (fst (fst (fst a))) (snd (fst (fst a))) player = Ok (snd a).

(** No owned territory of the list has an army to spare. *)
Definition no_spare_armies (b : GameBoard.t) (owned : list string) : Prop :=
  forall name t,
    In name owned -> GameBoard.get_territory b name = Some t ->
    (Territory.armies t <= 1)%Z.

(** The move starts from a territory of the owned list that is on the
    board and takes all of its armies but one, at least one. *)
Definition all_but_one (b : GameBoard.t) (owned : list string)
  (move : string * string * Z) : Prop :=
  let '(source, _, amount) := move in
  In source owned
  /\ exists t,
       GameBoard.get_territory b source = Some t
       /\ amount = (Territory.armies t - 1)%Z
       /\ (1 <= amount)%Z.

(* ------------------------------------------------------------------ *)
(** ** game_board.py: the board of the game                            *)
(* ------------------------------------------------------------------ *)

Module StandardBoard.
Local Open Scope string_scope.

(** [key: Territory(name, continent)]: a territory starts without owner
    and without armies. *)
Definition territory (key name continent : string) : string * Territory.t :=
  (key, Territory.mk name continent None 0).

(** [{**d1, **d2}] *)
Definition merge {V : Type} (d1 d2 : Dict.t V) : Dict.t V :=
  fold_left (fun d kv => Dict.set d (fst kv) (snd kv)) d2 d1.

Definition initial_continents : Dict.t Continent.t :=
  [("NorthAmerica", Continent.mk "North America" [] 5);
   ("SouthAmerica", Continent.mk "South America" [] 2);
   ("Europe", Continent.mk "Europe" [] 5);
   ("Africa", Continent.mk "Africa" [] 3);
   ("Asia", Continent.mk "Asia" [] 7);
   ("Australia", Continent.mk "Australia" [] 2)].

Definition na_territories : Dict.t Territory.t :=
  [territory "Alaska" "Alaska" "NorthAmerica";
   territory "NorthwestTerritory" "Northwest Territory" "NorthAmerica";
   territory "Greenland" "Greenland" "NorthAmerica";
   territory "Alberta" "Alberta" "NorthAmerica";
   territory "Ontario" "Ontario" "NorthAmerica";
   territory "Quebec" "Quebec" "NorthAmerica";
   territory "WesternUS" "Western US" "NorthAmerica";
   territory "EasternUS" "Eastern US" "NorthAmerica";
   territory "CentralAmerica" "Central America" "NorthAmerica"].

Definition sa_territories : Dict.t Territory.t :=
  [territory "Venezuela" "Venezuela" "SouthAmerica";
   territory "Peru" "Peru" "SouthAmerica";
   territory "Brazil" "Brazil" "SouthAmerica";
   territory "Argentina" "Argentina" "SouthAmerica"].

Definition eu_territories : Dict.t Territory.t :=
  [territory "Iceland" "Iceland" "Europe";
   territory "Scandinavia" "Scandinavia" "Europe";
   territory "GreatBritain" "Great Britain" "Europe";
   territory "NorthernEurope" "Northern Europe" "Europe";
   territory "Ukraine" "Ukraine" "Europe";
   territory "WesternEurope" "Western Europe" "Europe";
   territory "SouthernEurope" "Southern Europe" "Europe"].

Definition af_territories : Dict.t Territory.t :=
  [territory "NorthAfrica" "North Africa" "Africa";
   territory "Egypt" "Egypt" "Africa";
   territory "EastAfrica" "East Africa" "Africa";
   territory "Congo" "Congo" "Africa";
   territory "SouthAfrica" "South Africa" "Africa";
   territory "Madagascar" "Madagascar" "Africa"].

Definition as_territories : Dict.t Territory.t :=
  [territory "Ural" "Ural" "Asia";
   territory "Siberia" "Siberia" "Asia";
   territory "Yakutsk" "Yakutsk" "Asia";
   territory "Kamchatka" "Kamchatka" "Asia";
   territory "Irkutsk" "Irkutsk" "Asia";
   territory "Mongolia" "Mongolia" "Asia";
   territory "Japan" "Japan" "Asia";
   territory "Afghanistan" "Afghanistan" "Asia";
   territory "China" "China" "Asia";
   territory "MiddleEast" "Middle East" "Asia";
   territory "India" "India" "Asia";
   territory "Siam" "Siam" "Asia"].

Definition au_territories : Dict.t Territory.t :=
  [territory "Indonesia" "Indonesia" "Australia";
   territory "NewGuinea" "New Guinea" "Australia";
   territory "WesternAustralia" "Western Australia" "Australia";
   territory "EasternAustralia" "Eastern Australia" "Australia"].

Definition adjacencies : Dict.t (list string) :=
  [("Alaska", ["NorthwestTerritory"; "Alberta"; "Kamchatka"]);
   ("NorthwestTerritory", ["Alaska"; "Greenland"; "Alberta"; "Ontario"]);
   ("Greenland", ["NorthwestTerritory"; "Ontario"; "Quebec"; "Iceland"]);
   ("Alberta", ["Alaska"; "NorthwestTerritory"; "Ontario"; "WesternUS"]);
   ("Ontario", ["NorthwestTerritory"; "Greenland"; "Alberta"; "Quebec"; "WesternUS"; "EasternUS"]);
   ("Quebec", ["Greenland"; "Ontario"; "EasternUS"]);
   ("WesternUS", ["Alberta"; "Ontario"; "EasternUS"; "CentralAmerica"]);
   ("EasternUS", ["Ontario"; "Quebec"; "WesternUS"; "CentralAmerica"]);
   ("CentralAmerica", ["WesternUS"; "EasternUS"; "Venezuela"]);
   ("Venezuela", ["CentralAmerica"; "Peru"; "Brazil"]);
   ("Peru", ["Venezuela"; "Brazil"; "Argentina"]);
   ("Brazil", ["Venezuela"; "Peru"; "Argentina"; "NorthAfrica"]);
   ("Argentina", ["Peru"; "Brazil"]);
   ("Iceland", ["Greenland"; "Scandinavia"; "GreatBritain"]);
   ("Scandinavia", ["Iceland"; "GreatBritain"; "NorthernEurope"; "Ukraine"]);
   ("GreatBritain", ["Iceland"; "Scandinavia"; "NorthernEurope"; "WesternEurope"]);
   ("NorthernEurope", ["Scandinavia"; "GreatBritain"; "Ukraine"; "WesternEurope"; "SouthernEurope"]);
   ("Ukraine", ["Scandinavia"; "NorthernEurope"; "SouthernEurope"; "Ural"; "Afghanistan"; "MiddleEast"]);
   ("WesternEurope", ["GreatBritain"; "NorthernEurope"; "SouthernEurope"; "NorthAfrica"]);
   ("SouthernEurope", ["NorthernEurope"; "Ukraine"; "WesternEurope"; "NorthAfrica"; "Egypt"; "MiddleEast"]);
   ("NorthAfrica", ["Brazil"; "WesternEurope"; "SouthernEurope"; "Egypt"; "EastAfrica"; "Congo"]);
   ("Egypt", ["SouthernEurope"; "NorthAfrica"; "EastAfrica"; "MiddleEast"]);
   ("EastAfrica", ["NorthAfrica"; "Egypt"; "Congo"; "SouthAfrica"; "Madagascar"; "MiddleEast"]);
   ("Congo", ["NorthAfrica"; "EastAfrica"; "SouthAfrica"]);
   ("SouthAfrica", ["EastAfrica"; "Congo"; "Madagascar"]);
   ("Madagascar", ["EastAfrica"; "SouthAfrica"]);
   ("Ural", ["Ukraine"; "Siberia"; "China"; "Afghanistan"]);
   ("Siberia", ["Ural"; "Yakutsk"; "Irkutsk"; "Mongolia"; "China"]);
   ("Yakutsk", ["Siberia"; "Kamchatka"; "Irkutsk"]);
   ("Kamchatka", ["Alaska"; "Yakutsk"; "Irkutsk"; "Mongolia"; "Japan"]);
   ("Irkutsk", ["Siberia"; "Yakutsk"; "Kamchatka"; "Mongolia"]);
   ("Mongolia", ["Siberia"; "Irkutsk"; "Kamchatka"; "Japan"; "China"]);
   ("Japan", ["Kamchatka"; "Mongolia"]);
   ("Afghanistan", ["Ukraine"; "Ural"; "China"; "MiddleEast"; "India"]);
   ("China", ["Ural"; "Siberia"; "Mongolia"; "Afghanistan"; "India"; "Siam"]);
   ("MiddleEast", ["Ukraine"; "SouthernEurope"; "Egypt"; "EastAfrica"; "Afghanistan"; "India"]);
   ("India", ["Afghanistan"; "China"; "MiddleEast"; "Siam"]);
   ("Siam", ["China"; "India"; "Indonesia"]);
   ("Indonesia", ["Siam"; "NewGuinea"; "WesternAustralia"]);
   ("NewGuinea", ["Indonesia"; "WesternAustralia"; "EasternAustralia"]);
   ("WesternAustralia", ["Indonesia"; "NewGuinea"; "EasternAustralia"]);
   ("EasternAustralia", ["NewGuinea"; "WesternAustralia"])].

Definition territories : Dict.t Territory.t :=
  merge (merge (merge (merge (merge na_territories sa_territories)
                             eu_territories)
                      af_territories)
               as_territories)
        au_territories.

(** The loop that gives each continent the names of its territories:
    [if terr_obj.continent in self.continents:
       self.continents[terr_obj.continent].territories.append(terr_name)] *)
Definition assign_territories (territories : Dict.t Territory.t)
  (continents : Dict.t Continent.t) : Dict.t Continent.t :=
  fold_left
    (fun continents kv =>
       let terr_name := fst kv in
       let terr_obj := snd kv in
       match Dict.get continents (Territory.continent terr_obj) with
       | Some c =>
           Dict.set continents (Territory.continent terr_obj)
             (Continent.mk (Continent.name c)
                           (Continent.territories c ++ [terr_name])
                           (Continent.bonus_armies c))
       | None => continents
       end)
    (Dict.items territories) continents.

(** [GameBoard()]: the board as [_initialize_board] leaves it. *)
Definition _initialize_board : GameBoard.t :=
  GameBoard.mk territories
               (assign_territories territories initial_continents)
               adjacencies.
End StandardBoard.

(** A state of the game on the board [b0]: the game only changes the
    owner and the armies of territories, so the continents, the
    adjacencies and the names of the territories are those of [b0]. *)
Definition state_of (b0 b : GameBoard.t) : Prop :=
  GameBoard.continents b = GameBoard.continents b0
  /\ GameBoard.adjacencies b = GameBoard.adjacencies b0
  /\ Dict.keys (GameBoard.territories b) = Dict.keys (GameBoard.territories b0).

(** Decision procedures for the shape of a board; they read the
    continents, the adjacencies and the names of the territories only. *)
Definition check_consistent (b : GameBoard.t) : bool :=
  forallb
    (fun cc : string * Continent.t =>
       forallb (fun m => mem m (Dict.keys (GameBoard.territories b)))
               (Continent.territories (snd cc)))
    (GameBoard.continents b).

Definition check_nonempty (b : GameBoard.t) : bool :=
  forallb
    (fun cc : string * Continent.t =>
       match Continent.territories (snd cc) with
       | [] => false
       | _ :: _ => true
       end)
    (GameBoard.continents b).

Definition check_modest (b : GameBoard.t) : bool :=
  forallb
    (fun cc : string * Continent.t =>
       (0 <? Continent.bonus_armies (snd cc))%Z
       && (member_count (snd cc) <? 16)%Z)
    (GameBoard.continents b).

Definition check_disjoint (b : GameBoard.t) : bool :=
  forallb
    (fun cc : string * Continent.t =>
       forallb
         (fun m =>
            opt_eqb (AIStrategy.get_continent_for_territory b m) (fst cc))
         (Continent.territories (snd cc)))
    (GameBoard.continents b).

(** The armies on the board. *)
Definition total_armies (b : GameBoard.t) : Z :=
  fold_right (fun kt n => (Territory.armies (snd kt) + n)%Z) 0%Z
             (GameBoard.territories b).

(* ------------------------------------------------------------------ *)
(** ** player.py and the cards of game_manager.py                      *)
(* ------------------------------------------------------------------ *)

(** The four card types, the constants [INFANTRY], [CAVALRY],
    [ARTILLERY] and [WILD] of game_manager.py. *)
Inductive CardType : Type :=
| INFANTRY
| CAVALRY
| ARTILLERY
| WILD.

Definition CardType_eqb (x y : CardType) : bool :=
  match x, y with
  | INFANTRY, INFANTRY | CAVALRY, CAVALRY
  | ARTILLERY, ARTILLERY | WILD, WILD => true
  | _, _ => false
  end.

Module Card.
(** [Card] defines no [__eq__], so [in] and [list.remove] compare cards
    by identity; [id] stands for the identity of the object. *)
Record t : Type := mk
  { id : nat; type : CardType; territory : option string }.

Definition same (c1 c2 : t) : bool := Nat.eqb (id c1) (id c2).
End Card.

Module Player.
(** [territories_owned] is a [set] of names: a list without duplicates
    whose order carries no meaning. *)
Record t : Type := mk
  { name : string;
    color : string;
    territories_owned : list string;
    cards : list Card.t;
    reinforcements : Z;
    conquered_territory_this_turn : bool }.

Definition add_territory (self : t) (territory_name : string) : t :=
  mk (name self) (color self)
     (if mem territory_name (territories_owned self)
      then territories_owned self
      else territories_owned self ++ [territory_name])
     (cards self) (reinforcements self) true.

Definition remove_territory (self : t) (territory_name : string) : t :=
  if mem territory_name (territories_owned self)
  then mk (name self) (color self)
          (filter (fun x => negb (String.eqb x territory_name))
                  (territories_owned self))
          (cards self) (reinforcements self)
          (conquered_territory_this_turn self)
  else self.

Definition get_controlled_territories_count (self : t) : Z :=
  Z.of_nat (List.length (territories_owned self)).

Definition add_reinforcements (self : t) (count : Z) : t :=
  mk (name self) (color self) (territories_owned self) (cards self)
     (reinforcements self + count)%Z (conquered_territory_this_turn self).

(** [place_army]: the outcome, the player and the board afterwards. *)
Definition place_army (self : t) (territory_name : string)
  (board : GameBoard.t) : bool * t * GameBoard.t :=
  if mem territory_name (territories_owned self)
     && (reinforcements self >? 0)%Z
  then
    match GameBoard.get_territory board territory_name with
    | Some territory =>
        if Territory.owned_by territory (name self)
        then (true,
              mk (name self) (color self) (territories_owned self)
                 (cards self) (reinforcements self - 1)%Z
                 (conquered_territory_this_turn self),
              set_armies board territory_name
                         (Territory.armies territory + 1)%Z)
        else (false, self, board)
    | None => (false, self, board)
    end
  else (false, self, board).

Definition is_eliminated (self : t) : bool :=
  match territories_owned self with
  | [] => (reinforcements self =? 0)%Z
  | _ :: _ => false
  end.

Definition add_card (self : t) (card : Card.t) : t :=
  mk (name self) (color self) (territories_owned self)
     (cards self ++ [card]) (reinforcements self)
     (conquered_territory_this_turn self).

(** [list.remove(card)]: the first occurrence goes. *)
Fixpoint remove_first (card : Card.t) (l : list Card.t) : list Card.t :=
  match l with
  | [] => []
  | x :: rest => if Card.same x card then rest else x :: remove_first card rest
  end.

Definition remove_cards (self : t) (cards_to_remove : list Card.t) : t :=
  mk (name self) (color self) (territories_owned self)
     (fold_left
        (fun hand card =>
           if existsb (Card.same card) hand then remove_first card hand
           else hand)
        cards_to_remove (cards self))
     (reinforcements self) (conquered_territory_this_turn self).
End Player.

(* ------------------------------------------------------------------ *)
(** ** game_manager.py: reinforcements and card trading                *)
(* ------------------------------------------------------------------ *)

Module GameManager.
(** The attributes of a [GameManager] that the methods below read or
    write. *)
Record t : Type := mk
  { game_board : GameBoard.t;
    cards_deck : list Card.t;
    cards_trade_count : nat }.

Definition _calculate_card_trade_bonus (self : t) : Z :=
  if (cards_trade_count self <? 6)%nat
  then nth (cards_trade_count self) [4; 6; 8; 10; 12; 15]%Z 0%Z
  else (15 + (Z.of_nat (cards_trade_count self) - 5) * 5)%Z.

(** [type_counts[card.type] += 1] *)
Definition bump (type_counts : CardType -> Z) (ty : CardType)
  : CardType -> Z :=
  fun ty' => if CardType_eqb ty ty' then (type_counts ty' + 1)%Z
             else type_counts ty'.

Definition _check_for_card_set (cards : list Card.t) : bool :=
  if (List.length cards <? 3)%nat then false
  else
    let type_counts :=
      fold_left (fun tc card => bump tc (Card.type card)) cards
                (fun _ => 0%Z) in
    if existsb (fun ty => (type_counts ty >=? 3)%Z)
               [INFANTRY; CAVALRY; ARTILLERY]
    then true
    else if forallb (fun ty => (type_counts ty >=? 1)%Z)
                    [INFANTRY; CAVALRY; ARTILLERY]
    then true
    else
      let wild_count := type_counts WILD in
      if (wild_count >? 0)%Z then
        if existsb (fun ty => (type_counts ty + wild_count >=? 3)%Z)
                   [INFANTRY; CAVALRY; ARTILLERY]
        then true
        else
          let missing_types :=
            Z.of_nat (List.length
                        (filter (fun ty => (type_counts ty =? 0)%Z)
                                [INFANTRY; CAVALRY; ARTILLERY])) in
          (missing_types <=? wild_count)%Z
      else false.

(** [itertools.combinations(l, r)], in its order. *)
Fixpoint combinations {A : Type} (l : list A) (r : nat) {struct l}
  : list (list A) :=
  match r, l with
  | O, _ => [[]]
  | S _, [] => []
  | S r', x :: rest =>
      map (cons x) (combinations rest r') ++ combinations rest r
  end.

(** [_handle_card_trading]: the bonus, the manager and the player
    afterwards. *)
Definition _handle_card_trading (self : t) (player : Player.t)
  : Z * t * Player.t :=
  if (List.length (Player.cards player) <? 3)%nat then (0%Z, self, player)
  else
    let valid_sets :=
      filter _check_for_card_set (combinations (Player.cards player) 3) in
    match valid_sets with
    | [] => (0%Z, self, player)
    | selected_set :: _ =>
        let bonus_armies := _calculate_card_trade_bonus self in
        let territory_bonus :=
          fold_left
            (fun territory_bonus card =>
               if truthy (Card.territory card)
                  && match Card.territory card with
                     | Some name => mem name (Player.territories_owned player)
                     | None => false
                     end
               then (territory_bonus + 2)%Z else territory_bonus)
            selected_set 0%Z in
        ((bonus_armies + territory_bonus)%Z,
         mk (game_board self) (cards_deck self ++ selected_set)
            (S (cards_trade_count self)),
         Player.remove_cards player selected_set)
    end.

(** The loop over the territories of one continent, left by [break] at
    the first one that is missing or held by someone else. *)
Definition is_owner_of_all (self : t) (player : Player.t)
  (continent_obj : Continent.t) : bool :=
  forallb
    (fun territory_name =>
       match GameBoard.get_territory (game_board self) territory_name with
       | Some territory => Territory.owned_by territory (Player.name player)
       | None => false
       end)
    (Continent.territories continent_obj).

Definition _calculate_reinforcements (self : t) (player : Player.t) : Z :=
  let territories_owned_count :=
    Player.get_controlled_territories_count player in
  let reinforcements := Z.max 3 (territories_owned_count / 3) in
  fold_left
    (fun reinforcements cc =>
       let continent_obj : Continent.t := snd cc in
       match Continent.territories continent_obj with
       | [] => reinforcements
       | _ :: _ =>
           if is_owner_of_all self player continent_obj
           then (reinforcements + Continent.bonus_armies continent_obj)%Z
           else reinforcements
       end)
    (Dict.items (GameBoard.continents (game_board self))) reinforcements.
End GameManager.

(** The continents the player holds entirely. *)
Definition held_continents (b : GameBoard.t) (player : string)
  : list (string * Continent.t) :=
  filter
    (fun cc : string * Continent.t =>
       match Continent.territories (snd cc) with
       | [] => false
       | _ :: _ => forallb (friendly b player) (Continent.territories (snd cc))
       end)
    (GameBoard.continents b).

(** The sum of a list of integers. *)
Definition sum_Z (l : list Z) : Z := fold_right Z.add 0%Z l.

(** The rule of the game for three cards: a wild card completes any
    set; otherwise the three are of one kind or of three kinds. *)
Definition standard_set (t1 t2 t3 : CardType) : bool :=
  CardType_eqb t1 WILD || CardType_eqb t2 WILD || CardType_eqb t3 WILD
  || (CardType_eqb t1 t2 && CardType_eqb t2 t3)
  || (negb (CardType_eqb t1 t2) && negb (CardType_eqb t2 t3)
      && negb (CardType_eqb t1 t3)).

(* ------------------------------------------------------------------ *)
(** ** ai_strategy.py: the factory                                     *)
(* ------------------------------------------------------------------ *)

(** [sub in s] for two strings. *)
Fixpoint contains (sub s : string) : bool :=
  if String.prefix sub s then true
  else match s with
       | EmptyString => false
       | String _ rest => contains sub rest
       end.

(** The class that [create_ai_strategy] instantiates. *)
Definition create_ai_strategy_class (player_name : string)
  (strategy_type : option string) : Strategy :=
  if contains "Napoleon" player_name then Napoleon
  else if contains "Genghis Khan" player_name then GenghisKhan
  else if contains "Alexander" player_name then Alexander
  else if contains "Sun Tzu" player_name then SunTzu
  else if contains "Hannibal" player_name then Hannibal
  else if contains "Elizabeth" player_name then Elizabeth
  else
    match strategy_type with
    | None =>
        if contains "Alpha" player_name then Aggressive
        else if contains "Beta" player_name then Defensive
        else if contains "Gamma" player_name then Balanced
        else if contains "Delta" player_name then Opportunistic
        else Balanced
    | Some ty =>
        if String.eqb ty "aggressive" then Aggressive
        else if String.eqb ty "defensive" then Defensive
        else if String.eqb ty "balanced" then Balanced
        else if String.eqb ty "opportunistic" then Opportunistic
        else Base
    end.

(** [create_ai_strategy]: the new agent with its class. *)
Definition create_ai_strategy (player_name : string) (game_board : GameBoard.t)
  (strategy_type : option string) (g : Rng)
  : result (Strategy * Agent * Rng) :=
  let k := create_ai_strategy_class player_name strategy_type in
  ' (self, g) <- init k game_board player_name g ;;
  Ok (k, self, g).

(* ------------------------------------------------------------------ *)
(** ** diplomacy.py                                                    *)
(* ------------------------------------------------------------------ *)

Inductive TreatyType : Type :=
| TERRITORY
| ALLIANCE.

Inductive TreatyStatus : Type :=
| ACTIVE
| BROKEN
| EXPIRED.

(** The class of a treaty object, which [isinstance] tests: the base
    class [Treaty], or [TerritoryTreaty] with its two territories, or
    [Alliance]. *)
Inductive TreatyClass : Type :=
| PlainTreaty
| TerritoryTreaty (territory1 territory2 : string)
| Alliance.

Module Treaty.
Record t : Type := mk
  { kind : TreatyClass;
    treaty_type : TreatyType;
    player1 : string;
    player2 : string;
    duration : Z;
    turns_remaining : Z;
    status : TreatyStatus;
    creation_turn : Z }.

(** [Treaty(treaty_type, player1, player2, duration)] *)
Definition new (treaty_type : TreatyType) (player1 player2 : string)
  (duration : Z) : t :=
  mk PlainTreaty treaty_type player1 player2 duration duration ACTIVE 0.

(** [TerritoryTreaty(player1, player2, territory1, territory2, duration)] *)
Definition new_territory_treaty (player1 player2 territory1 territory2 : string)
  (duration : Z) : t :=
  mk (TerritoryTreaty territory1 territory2) TERRITORY player1 player2
     duration duration ACTIVE 0.

(** [Alliance(player1, player2, duration)] *)
Definition new_alliance (player1 player2 : string) (duration : Z) : t :=
  mk Alliance ALLIANCE player1 player2 duration duration ACTIVE 0.

Definition is_active (self : t) : bool :=
  match status self with
  | ACTIVE => true
  | _ => false
  end.

Definition involves_player (self : t) (player_name : string) : bool :=
  String.eqb player_name (player1 self) || String.eqb player_name (player2 self).

Definition get_involved_players (self : t) : string * string :=
  (player1 self, player2 self).

Definition set_status (self : t) (s : TreatyStatus) : t :=
  mk (kind self) (treaty_type self) (player1 self) (player2 self)
     (duration self) (turns_remaining self) s (creation_turn self).

Definition set_turns_remaining (self : t) (n : Z) : t :=
  mk (kind self) (treaty_type self) (player1 self) (player2 self)
     (duration self) n (status self) (creation_turn self).

Definition set_creation_turn (self : t) (n : Z) : t :=
  mk (kind self) (treaty_type self) (player1 self) (player2 self)
     (duration self) (turns_remaining self) (status self) n.

(** [decrement_duration]: whether the treaty has expired, and the treaty
    afterwards. *)
Definition decrement_duration (self : t) : bool * t :=
  if negb (is_active self) then (true, self)
  else
    let self := set_turns_remaining self (turns_remaining self - 1)%Z in
    if (turns_remaining self <=? 0)%Z
    then (true, set_status self EXPIRED)
    else (false, self).

Definition break_treaty (self : t) : t :=
  if is_active self then set_status self BROKEN else self.

(** [covers_territories], a method of [TerritoryTreaty]. *)
Definition covers_territories (self : t) (terr1 terr2 : string) : bool :=
  match kind self with
  | TerritoryTreaty territory1 territory2 =>
      (String.eqb territory1 terr1 && String.eqb territory2 terr2)
      || (String.eqb territory1 terr2 && String.eqb territory2 terr1)
  | _ => false
  end.
End Treaty.

(** The treaty objects of the program, each at its own address: a treaty
    is shared between the lists that hold it, and compared by identity. *)
Definition Heap : Type := list Treaty.t.

Definition deref (h : Heap) (r : nat) : option Treaty.t := nth_error h r.

Fixpoint store (h : Heap) (r : nat) (x : Treaty.t) : Heap :=
  match h, r with
  | [], _ => []
  | _ :: rest, O => x :: rest
  | y :: rest, S r' => y :: store rest r' x
  end.

(** A dictionary whose keys are pairs of names. *)
Module PairDict.
Section Defs.
Context {V : Type}.

Definition t : Type := list ((string * string) * V).

Definition key_eqb (k1 k2 : string * string) : bool :=
  String.eqb (fst k1) (fst k2) && String.eqb (snd k1) (snd k2).

Fixpoint get (d : t) (k : string * string) : option V :=
  match d with
  | [] => None
  | (k', v) :: rest => if key_eqb k' k then Some v else get rest k
  end.

Definition get_default (d : t) (k : string * string) (default : V) : V :=
  match get d k with
  | Some v => v
  | None => default
  end.

Fixpoint set (d : t) (k : string * string) (v : V) : t :=
  match d with
  | [] => [(k, v)]
  | (k', v') :: rest =>
      if key_eqb k' k then (k', v) :: rest else (k', v') :: set rest k v
  end.
End Defs.
Arguments t : clear implicits.
End PairDict.

(** [tuple(sorted([player1, player2]))] *)
Definition sorted_pair (player1 player2 : string) : string * string :=
  if String.ltb player2 player1 then (player2, player1)
  else (player1, player2).

Module DiplomacyManager.
Record t : Type := mk
  { treaties : list nat;
    current_turn : Z;
    treaty_proposals : PairDict.t (list nat);
    trust_levels : PairDict.t Q }.

(** [DiplomacyManager()] *)
Definition new : t := mk [] 0 [] [].

Definition set_treaties (self : t) (l : list nat) : t :=
  mk l (current_turn self) (treaty_proposals self) (trust_levels self).

Definition set_treaty_proposals (self : t) (p : PairDict.t (list nat)) : t :=
  mk (treaties self) (current_turn self) p (trust_levels self).

Definition set_trust_levels (self : t) (d : PairDict.t Q) : t :=
  mk (treaties self) (current_turn self) (treaty_proposals self) d.

(** The body of the loop of [update_turn], for the treaty at [r]. *)
Definition turn_step (acc : list nat * Heap) (r : nat) : list nat * Heap :=
  let '(expired_treaties, h) := acc in
  match deref h r with
  | Some treaty =>
      if Treaty.is_active treaty then
        let '(expired, treaty) := Treaty.decrement_duration treaty in
        let h := store h r treaty in
        if expired then (expired_treaties ++ [r], h)
        else (expired_treaties, h)
      else (expired_treaties, h)
  | None => (expired_treaties, h)
  end.

(** [update_turn]: the expired treaties, the manager and the treaty
    objects afterwards. *)
Definition update_turn (self : t) (h : Heap) : list nat * t * Heap :=
  let self :=
    mk (treaties self) (current_turn self + 1)%Z (treaty_proposals self)
       (trust_levels self) in
  let '(expired_treaties, h) := fold_left turn_step (treaties self) ([], h) in
  (expired_treaties, self, h).

Definition propose_treaty (self : t) (h : Heap) (r : nat) : t :=
  match deref h r with
  | Some treaty =>
      let key := Treaty.get_involved_players treaty in
      let proposals :=
        match PairDict.get (treaty_proposals self) key with
        | Some l => treaty_proposals self
        | None => PairDict.set (treaty_proposals self) key []
        end in
      set_treaty_proposals self
        (PairDict.set proposals key
                      (PairDict.get_default proposals key [] ++ [r]))
  | None => self
  end.

(** [l.remove(r)]: the first occurrence goes. *)
Fixpoint remove_ref (r : nat) (l : list nat) : list nat :=
  match l with
  | [] => []
  | x :: rest => if Nat.eqb x r then rest else x :: remove_ref r rest
  end.

Definition proposed (self : t) (key : string * string) (r : nat) : bool :=
  match PairDict.get (treaty_proposals self) key with
  | Some l => existsb (Nat.eqb r) l
  | None => false
  end.

Definition accept_treaty (self : t) (h : Heap) (r : nat) : bool * t * Heap :=
  match deref h r with
  | Some treaty =>
      let key := Treaty.get_involved_players treaty in
      if proposed self key r then
        let self :=
          set_treaty_proposals self
            (PairDict.set (treaty_proposals self) key
               (remove_ref r (PairDict.get_default
                                (treaty_proposals self) key []))) in
        let h := store h r (Treaty.set_creation_turn treaty (current_turn self)) in
        (true, set_treaties self (treaties self ++ [r]), h)
      else (false, self, h)
  | None => (false, self, h)
  end.

Definition reject_treaty (self : t) (h : Heap) (r : nat) : bool * t :=
  match deref h r with
  | Some treaty =>
      let key := Treaty.get_involved_players treaty in
      if proposed self key r then
        (true,
         set_treaty_proposals self
           (PairDict.set (treaty_proposals self) key
              (remove_ref r (PairDict.get_default
                               (treaty_proposals self) key []))))
      else (false, self)
  | None => (false, self)
  end.

Definition get_trust_level (self : t) (player1 player2 : string) : Q :=
  let key := sorted_pair player1 player2 in
  PairDict.get_default (trust_levels self) key 0.5.

Definition _increase_trust (self : t) (player1 player2 : string) (amount : Q)
  : t :=
  let key := sorted_pair player1 player2 in
  let current := PairDict.get_default (trust_levels self) key 0.5 in
  set_trust_levels self
    (PairDict.set (trust_levels self) key (py_min 1.0 (current + amount))).

Definition _decrease_trust (self : t) (player1 player2 : string) (amount : Q)
  : t :=
  let key := sorted_pair player1 player2 in
  let current := PairDict.get_default (trust_levels self) key 0.5 in
  set_trust_levels self
    (PairDict.set (trust_levels self) key (py_max 0.0 (current - amount))).

(** [break_treaty]; the decrease of trust takes its default amount. *)
Definition break_treaty (self : t) (h : Heap) (r : nat) : t * Heap :=
  match deref h r with
  | Some treaty =>
      if existsb (Nat.eqb r) (treaties self) && Treaty.is_active treaty then
        let h := store h r (Treaty.break_treaty treaty) in
        let '(from_player, to_player) := Treaty.get_involved_players treaty in
        (_decrease_trust self from_player to_player 0.2, h)
      else (self, h)
  | None => (self, h)
  end.

Definition same_pair (treaty : Treaty.t) (player1 player2 : string) : bool :=
  (String.eqb (Treaty.player1 treaty) player1
   && String.eqb (Treaty.player2 treaty) player2)
  || (String.eqb (Treaty.player1 treaty) player2
      && String.eqb (Treaty.player2 treaty) player1).

Definition has_active_alliance (self : t) (h : Heap)
  (player1 player2 : string) : bool :=
  existsb
    (fun r =>
       match deref h r with
       | Some treaty =>
           (match Treaty.treaty_type treaty with
            | ALLIANCE => true
            | TERRITORY => false
            end)
           && Treaty.is_active treaty
           && same_pair treaty player1 player2
       | None => false
       end)
    (treaties self).

Definition has_territory_treaty (self : t) (h : Heap)
  (player1 territory1 player2 territory2 : string) : bool :=
  existsb
    (fun r =>
       match deref h r with
       | Some treaty =>
           (match Treaty.kind treaty with
            | TerritoryTreaty _ _ => true
            | _ => false
            end)
           && Treaty.is_active treaty
           && same_pair treaty player1 player2
           && Treaty.covers_territories treaty territory1 territory2
       | None => false
       end)
    (treaties self).

Definition get_player_treaties (self : t) (h : Heap) (player_name : string)
  : list nat :=
  filter
    (fun r =>
       match deref h r with
       | Some treaty =>
           Treaty.is_active treaty && Treaty.involves_player treaty player_name
       | None => false
       end)
    (treaties self).

(** [evaluate_treaty_proposal]; [ai_strategy] tells whether one is
    given. *)
Definition evaluate_treaty_proposal (self : t) (treaty : Treaty.t)
  (ai_strategy : bool) : Q :=
  let score := 0.5 in
  let '(player1, player2) := Treaty.get_involved_players treaty in
  let trust := get_trust_level self player1 player2 in
  let score := score + (trust - 0.5) * 0.3 in
  let score :=
    match Treaty.kind treaty with
    | TerritoryTreaty _ _ => if ai_strategy then score else score + 0.1
    | Alliance => score + 0.2
    | PlainTreaty => score
    end in
  py_min (py_max 0.0 score) 1.0.
End DiplomacyManager.

(** The treaty after [n] turns. *)
Fixpoint after_turns (n : nat) (treaty : Treaty.t) : Treaty.t :=
  match n with
  | O => treaty
  | S n => snd (Treaty.decrement_duration (after_turns n treaty))
  end.

(** Every stored trust level lies between 0 and 1. *)
Definition trust_in_range (d : DiplomacyManager.t) : Prop :=
  forall k v,
    PairDict.get (DiplomacyManager.trust_levels d) k = Some v ->
    0 <= v /\ v <= 1.

(** The manager and the treaty objects after [n] calls of
    [update_turn]. *)
Fixpoint after_updates (n : nat) (self : DiplomacyManager.t) (h : Heap)
  : DiplomacyManager.t * Heap :=
  match n with
  | O => (self, h)
  | S n =>
      let '(self, h) := after_updates n self h in
      let '(_, self, h) := DiplomacyManager.update_turn self h in
      (self, h)
  end.

(* ------------------------------------------------------------------ *)
(** ** game_manager.py: one round of an attack                         *)
(* ------------------------------------------------------------------ *)

(** The dice: the source of the values of [random.randint(1, 6)]. *)
Record Dice : Type := mkDice { faces : nat -> Z; rolled : nat }.

Definition randint_1_6 (g : Dice) : Z * Dice :=
  ((1 + faces g (rolled g) mod 6)%Z, mkDice (faces g) (S (rolled g))).

(** [territory.armies += delta], for the territory object under [name]. *)
Definition add_armies (b : GameBoard.t) (name : string) (delta : Z)
  : GameBoard.t :=
  GameBoard.mk
    (map (fun kt : string * Territory.t =>
            if String.eqb (fst kt) name
            then (fst kt,
                  with_armies (Territory.armies (snd kt) + delta)%Z (snd kt))
            else kt)
         (GameBoard.territories b))
    (GameBoard.continents b)
    (GameBoard.adjacencies b).

(** [territory.owner = owner], for the territory object under [name]. *)
Definition set_owner (b : GameBoard.t) (name : string) (owner : string)
  : GameBoard.t :=
  GameBoard.mk
    (map (fun kt : string * Territory.t =>
            if String.eqb (fst kt) name
            then (fst kt,
                  Territory.mk (Territory.name (snd kt))
                               (Territory.continent (snd kt)) (Some owner)
                               (Territory.armies (snd kt)))
            else kt)
         (GameBoard.territories b))
    (GameBoard.continents b)
    (GameBoard.adjacencies b).

(** Attribute access on an object that may be [None]. *)
Definition attr {A : Type} (o : option A) : result A :=
  match o with
  | Some a => Ok a
  | None => Raise AttributeError
  end.

(** The part of the program state that [_resolve_attack] reads and
    writes: the player objects, each at its own address; the board, whose
    territory objects are referred to by their keys; [self.diplomacy]
    with the treaty objects; the dice. *)
Record Game : Type := mkGame
  { players : list Player.t;
    board : GameBoard.t;
    diplomacy : DiplomacyManager.t;
    treaty_objects : Heap;
    dice : Dice }.

Definition player_at (ps : list Player.t) (p : nat) : option Player.t :=
  nth_error ps p.

(** A method call that changes the player object at [p]. *)
Fixpoint update_player (ps : list Player.t) (p : nat)
  (f : Player.t -> Player.t) : list Player.t :=
  match ps, p with
  | [], _ => []
  | x :: rest, O => f x :: rest
  | x :: rest, S p' => x :: update_player rest p' f
  end.

Module Attack.

(** [_roll_dice] *)
Definition _roll_dice (num_dice : Z) (g : Dice) : list Z * Dice :=
  let '(rolls, g) :=
    fold_left
      (fun '(rolls, g) _ =>
         let '(x, g) := randint_1_6 g in (rolls ++ [x], g))
      (seq 0 (Z.to_nat num_dice)) ([], g) in
  (sort_desc inject_Z rolls, g).

(** The comparison of the dice, pair by pair: the losses of the attacker
    and of the defender. *)
Definition compare_dice (attacker_rolls defender_rolls : list Z) : Z * Z :=
  fold_left
    (fun '(attacker_losses, defender_losses) '(x, y) =>
       if (x >? y)%Z then (attacker_losses, (defender_losses + 1)%Z)
       else ((attacker_losses + 1)%Z, defender_losses))
    (combine attacker_rolls defender_rolls) (0%Z, 0%Z).

(** The first alliance with the defender among the attacker's treaties is
    broken. *)
Definition break_alliance (d : DiplomacyManager.t) (h : Heap)
  (attacker defender : string) : DiplomacyManager.t * Heap :=
  if DiplomacyManager.has_active_alliance d h attacker defender then
    match
      find (fun r =>
              match deref h r with
              | Some treaty =>
                  (match Treaty.treaty_type treaty with
                   | ALLIANCE => true
                   | TERRITORY => false
                   end)
                  && Treaty.involves_player treaty defender
              | None => false
              end)
           (DiplomacyManager.get_player_treaties d h attacker)
    with
    | Some r => DiplomacyManager.break_treaty d h r
    | None => (d, h)
    end
  else (d, h).

(** The armies that move into the conquered territory. *)
Definition occupy (b : GameBoard.t)
  (attacking_territory defending_territory : string) (num_attacker_dice : Z)
  : result GameBoard.t :=
  source <- attr (GameBoard.get_territory b attacking_territory) ;;
  let min_move := num_attacker_dice in
  let armies_to_move := Z.min min_move (Territory.armies source - 1) in
  let armies_to_move := Z.max 1 armies_to_move in
  if (Territory.armies source >? armies_to_move)%Z then
    let b := set_armies b defending_territory armies_to_move in
    Ok (add_armies b attacking_territory (- armies_to_move))
  else
    let armies_to_move := (Territory.armies source - 1)%Z in
    if (armies_to_move >? 0)%Z then
      let b := set_armies b defending_territory armies_to_move in
      Ok (add_armies b attacking_territory (- armies_to_move))
    else
      let b := set_armies b defending_territory 1 in
      Ok (add_armies b attacking_territory (- 1)).

(** What follows the conquest of the defending territory. *)
Definition conquer (w : Game) (attacking_player defending_player : nat)
  (attacking_territory defending_territory : string) (num_attacker_dice : Z)
  : result Game :=
  attacker <- attr (player_at (players w) attacking_player) ;;
  defender <- attr (player_at (players w) defending_player) ;;
  let '(d, h) :=
    break_alliance (diplomacy w) (treaty_objects w)
                   (Player.name attacker) (Player.name defender) in
  let b := set_owner (board w) defending_territory (Player.name attacker) in
  target <- attr (GameBoard.get_territory b defending_territory) ;;
  let ps :=
    update_player (players w) defending_player
      (fun p => Player.remove_territory p (Territory.name target)) in
  let ps :=
    update_player ps attacking_player
      (fun p => Player.add_territory p (Territory.name target)) in
  b <- occupy b attacking_territory defending_territory num_attacker_dice ;;
  defender <- attr (player_at ps defending_player) ;;
  let '(d, h) :=
    if Player.is_eliminated defender then
      fold_left (fun '(d, h) r => DiplomacyManager.break_treaty d h r)
                (DiplomacyManager.get_player_treaties d h (Player.name defender))
                (d, h)
    else (d, h) in
  Ok (mkGame ps b d h (dice w)).

(** [_resolve_attack]: the outcome and the state afterwards. *)
Definition _resolve_attack (w : Game) (attacking_player defending_player : nat)
  (attacking_territory defending_territory : string)
  (attacker_armies_for_attack : Z) : result (bool * Game) :=
  attacker <- attr (player_at (players w) attacking_player) ;;
  defender <- attr (player_at (players w) defending_player) ;;
  if DiplomacyManager.has_active_alliance
       (diplomacy w) (treaty_objects w)
       (Player.name attacker) (Player.name defender)
  then Ok (false, w)
  else
    source <- attr (GameBoard.get_territory (board w) attacking_territory) ;;
    target <- attr (GameBoard.get_territory (board w) defending_territory) ;;
    if DiplomacyManager.has_territory_treaty
         (diplomacy w) (treaty_objects w)
         (Player.name attacker) (Territory.name source)
         (Player.name defender) (Territory.name target)
    then Ok (false, w)
    else
      let attacker_dice :=
        if (attacker_armies_for_attack >=? 3)%Z
           && (Territory.armies source >? 3)%Z then Some 3%Z
        else if (attacker_armies_for_attack >=? 2)%Z
                && (Territory.armies source >? 2)%Z then Some 2%Z
        else if (attacker_armies_for_attack >=? 1)%Z
                && (Territory.armies source >? 1)%Z then Some 1%Z
        else None in
      match attacker_dice with
      | None => Ok (false, w)
      | Some num_attacker_dice =>
          let defender_dice :=
            if (Territory.armies target >=? 2)%Z then Some 2%Z
            else if (Territory.armies target =? 1)%Z then Some 1%Z
            else None in
          match defender_dice with
          | None => Ok (false, w)
          | Some num_defender_dice =>
              if (num_attacker_dice =? 0)%Z then Ok (false, w)
              else
                let '(attacker_rolls, g) :=
                  _roll_dice num_attacker_dice (dice w) in
                let '(defender_rolls, g) := _roll_dice num_defender_dice g in
                let '(attacker_losses, defender_losses) :=
                  compare_dice attacker_rolls defender_rolls in
                let b :=
                  add_armies (board w) attacking_territory
                             (- attacker_losses) in
                let b := add_armies b defending_territory (- defender_losses) in
                let w :=
                  mkGame (players w) b (diplomacy w) (treaty_objects w) g in
                target <- attr (GameBoard.get_territory b defending_territory) ;;
                if (Territory.armies target <=? 0)%Z then
                  w <- conquer w attacking_player defending_player
                               attacking_territory defending_territory
                               num_attacker_dice ;;
                  Ok (true, w)
                else Ok (true, w)
          end
      end.
End Attack.

(** The dice the attacker rolls with [k] armies committed from a
    territory of [a] armies, and the dice the defender rolls with [d]
    armies. *)
Definition attacker_dice_count (k a : Z) : Z := Z.min 3 (Z.min k (a - 1)).
Definition defender_dice_count (d : Z) : Z := Z.min 2 d.

(* ------------------------------------------------------------------ *)
(** ** Basic facts about the runtime model                             *)
(* ------------------------------------------------------------------ *)

Lemma bind_Ok {A B : Type} (m : result A) (k : A -> result B) (y : B) :
  bind m k = Ok y -> exists x, m = Ok x /\ k x = Ok y.
Proof.
  destruct m as [x|e]; simpl; intros H; [exists x; auto | discriminate].
Qed.

Ltac inv_bind H :=
  let x := fresh "x" in
  let Hx := fresh "Hx" in
  apply bind_Ok in H; destruct H as [x [Hx H]].

(** An invariant of a loop holds when the loop ends normally. *)
Lemma for_each_invariant {A S : Type} (P : S -> Prop)
  (body : S -> A -> result S) (l : list A) :
  forall s0 s,
    (forall s x s', In x l -> P s -> body s x = Ok s' -> P s') ->
    P s0 -> for_each body l s0 = Ok s -> P s.
Proof.
  induction l as [|x l IH]; simpl; intros s0 s Hstep H0 H.
  - inversion H; subst; assumption.
  - inv_bind H.
    apply (IH x0 s); auto.
    + intros s1 y s1' Hy. apply Hstep; auto.
    + eapply Hstep; eauto.
Qed.

Lemma mem_In (x : string) (l : list string) : mem x l = true <-> In x l.
Proof.
  unfold mem. rewrite existsb_exists. split.
  - intros [y [Hy E]]. apply String.eqb_eq in E. subst; assumption.
  - intros H. exists x. split; [assumption | apply String.eqb_refl].
Qed.

Lemma owned_by_true (t : Territory.t) (p : string) :
  Territory.owned_by t p = true <-> Territory.owner t = Some p.
Proof.
  unfold Territory.owned_by, opt_eqb. destruct (Territory.owner t) as [o|].
  - rewrite String.eqb_eq. split; intros H; [subst; reflexivity | congruence].
  - split; intros H; discriminate.
Qed.

Lemma owned_by_false (t : Territory.t) (p : string) :
  Territory.owned_by t p = false <-> Territory.owner t <> Some p.
Proof.
  rewrite <- owned_by_true. destruct (Territory.owned_by t p); split; intros H;
    congruence.
Qed.

Section SortingFacts.
Context {A : Type} (key : A -> Q).

Lemma insert_desc_perm (x : A) (l : list A) :
  Permutation (insert_desc key x l) (x :: l).
Proof.
  induction l as [|y l IH]; simpl.
  - apply Permutation_refl.
  - destruct (Qle_bool (key y) (key x)).
    + apply Permutation_refl.
    + eapply Permutation_trans; [apply perm_skip, IH | apply perm_swap].
Qed.

Lemma sort_desc_perm (l : list A) : Permutation (sort_desc key l) l.
Proof.
  induction l as [|x l IH]; simpl.
  - apply perm_nil.
  - eapply Permutation_trans; [apply insert_desc_perm | apply perm_skip, IH].
Qed.

Lemma sort_desc_In (l : list A) (x : A) : In x (sort_desc key l) <-> In x l.
Proof.
  split; apply Permutation_in;
    [apply sort_desc_perm | apply Permutation_sym, sort_desc_perm].
Qed.
End SortingFacts.

(* ------------------------------------------------------------------ *)
(** ** Attack scoring and the ranking of attack targets                *)
(* ------------------------------------------------------------------ *)

(** The guard at the head of [AIStrategy.calculate_attack_score]. *)
Lemma base_attack_score_guard (b : GameBoard.t) (self : Agent)
  (f t p : string) :
  (GameBoard.get_territory b f = None
   \/ GameBoard.get_territory b t = None
   \/ (exists x, GameBoard.get_territory b f = Some x
                 /\ Territory.owner x <> Some p)
   \/ (exists x, GameBoard.get_territory b t = Some x
                 /\ Territory.owner x = Some p)) ->
  AIStrategy.calculate_attack_score b self f t p = Ok 0.0.
Proof.
  intros H. unfold AIStrategy.calculate_attack_score.
  destruct H as [H | [H | [[x [H Hx]] | [x [H Hx]]]]].
  - rewrite H. reflexivity.
  - rewrite H. destruct (GameBoard.get_territory b f); reflexivity.
  - rewrite H. destruct (GameBoard.get_territory b t) as [y|]; [|reflexivity].
    apply owned_by_false in Hx. rewrite Hx. reflexivity.
  - rewrite H. destruct (GameBoard.get_territory b f) as [y|]; [|reflexivity].
    apply owned_by_true in Hx. rewrite Hx. rewrite orb_true_r. reflexivity.
Qed.

(** C10. [AIStrategy.calculate_attack_score] returns 0.0, and neither
    raises nor yields a positive score, whenever one of the two
    territories is not on the board, the source is not owned by the
    player, or the destination is owned by the player. *)
Theorem calculate_attack_score_illegal_is_zero :
  forall (b : GameBoard.t) (self : Agent) (from_territory to_territory player : string),
    (GameBoard.get_territory b from_territory = None
     \/ GameBoard.get_territory b to_territory = None
     \/ (exists t, GameBoard.get_territory b from_territory = Some t
                   /\ Territory.owner t <> Some player)
     \/ (exists t, GameBoard.get_territory b to_territory = Some t
                   /\ Territory.owner t = Some player)) ->
    AIStrategy.calculate_attack_score b self from_territory to_territory player
    = Ok 0.0.
Proof.
  intros b self f t p H. exact (base_attack_score_guard b self f t p H).
Qed.

Lemma calculate_attack_score_illegal_is_zero_witness :
  AIStrategy.calculate_attack_score
    Examples.square (Examples.fresh "P") "nowhere" "x" "P" = Ok 0.0.
Proof.
  apply (calculate_attack_score_illegal_is_zero
           Examples.square (Examples.fresh "P") "nowhere" "x" "P").
  left. reflexivity.
Defined.

(** Every candidate collected by the two nested loops of
    [get_attack_targets] is a legal attack. *)
Lemma attack_candidates_legal (b : GameBoard.t)
  (score : Agent -> string -> string -> string -> result Q)
  (self : Agent) (player : string) (owned : list string) :
  forall acc0 acc,
    Forall (legal_candidate b player) acc0 ->
    for_each
      (fun attack_opportunities from_terr_name =>
         match GameBoard.get_territory b from_terr_name with
         | None => Ok attack_opportunities
         | Some from_terr =>
             if (Territory.armies from_terr <=? 1)%Z
             then Ok attack_opportunities
             else
               for_each
                 (fun attack_opportunities to_terr_name =>
                    match GameBoard.get_territory b to_terr_name with
                    | None => Ok attack_opportunities
                    | Some to_terr =>
                        if Territory.owned_by to_terr player
                        then Ok attack_opportunities
                        else
                          attack_score <-
                            score self from_terr_name to_terr_name player ;;
                          let available_attack_armies :=
                            Z.min 3 (Territory.armies from_terr - 1) in
                          if (available_attack_armies >? 0)%Z
                          then Ok (attack_opportunities
                                   ++ [(from_terr_name, to_terr_name,
                                        available_attack_armies, attack_score)])
                          else Ok attack_opportunities
                    end)
                 (GameBoard.get_adjacent_territories b from_terr_name)
                 attack_opportunities
         end)
      owned acc0 = Ok acc ->
    Forall (legal_candidate b player) acc.
Proof.
  intros acc0 acc H0 H.
  revert H. apply for_each_invariant; [|exact H0].
  intros s src s' _ Hs. 
  destruct (GameBoard.get_territory b src) as [from_terr|] eqn:Hfrom;
    [|intros E; inversion E; subst; exact Hs].
  destruct (Territory.armies from_terr <=? 1)%Z eqn:Harm;
    [intros E; inversion E; subst; exact Hs|].
  apply Z.leb_gt in Harm.
  apply for_each_invariant; [|exact Hs].
  intros s1 dst s1' Hadj Hs1.
  destruct (GameBoard.get_territory b dst) as [to_terr|] eqn:Hto;
    [|intros E; inversion E; subst; exact Hs1].
  destruct (Territory.owned_by to_terr player) eqn:Hown;
    [intros E; inversion E; subst; exact Hs1|].
  intros E. inv_bind E.
  cbv zeta in E.
  destruct (Z.min 3 (Territory.armies from_terr - 1) >? 0)%Z;
    inversion E; subst; [|exact Hs1].
  apply Forall_app. split; [exact Hs1|].
  constructor; [|constructor].
  unfold legal_candidate, legal_attack. simpl.
  exists from_terr, to_terr. repeat split; auto; try lia.
  apply owned_by_false. exact Hown.
Qed.

(** C4. Every triple returned by [get_attack_targets], for any class of
    agent, has a source on the board with at least two armies, a
    destination that is a neighbour of the source and is not owned by the
    player, and force [min(3, armies(source) - 1)], between 1 and 3; so no
    source with at most one army and no destination of the player's own
    appears. *)
Theorem get_attack_targets_legal :
  forall (k : Strategy) (b : GameBoard.t) (self : Agent) (player : string)
    (owned : list string) (targets : list (string * string * Z)),
    get_attack_targets k b self player owned = Ok targets ->
    forall source destination force,
      In (source, destination, force) targets ->
      legal_attack b player source destination force
      /\ ~ (exists t, GameBoard.get_territory b source = Some t
                      /\ (Territory.armies t <= 1)%Z)
      /\ ~ (exists t, GameBoard.get_territory b destination = Some t
                      /\ Territory.owner t = Some player).
Proof.
  intros k b self player owned targets H source destination force Hin.
  unfold get_attack_targets, AIStrategy.get_attack_targets in H.
  inv_bind H. inversion H; subst; clear H.
  apply attack_candidates_legal in Hx; [|constructor].
  apply in_map_iff in Hin. destruct Hin as [a [Ea Hin]].
  apply sort_desc_In in Hin.
  rewrite Forall_forall in Hx. specialize (Hx a Hin).
  unfold legal_candidate in Hx. inversion Ea; subst; clear Ea.
  split; [exact Hx|].
  destruct Hx as [ft [tt [Hf [Ht [Ha [_ [Ho _]]]]]]].
  split.
  - intros [t [Et Ht1]]. rewrite Hf in Et. inversion Et; subst. lia.
  - intros [t [Et Ht1]]. rewrite Ht in Et. inversion Et; subst. contradiction.
Qed.

Lemma get_attack_targets_legal_witness :
  legal_attack Examples.square "P" "d" "x" 1.
Proof.
  apply (get_attack_targets_legal
           Base Examples.square (Examples.fresh "P") "P" ["a"; "b"; "c"; "d"]%string
           [("d", "x", 1%Z)]%string).
  - vm_compute. reflexivity.
  - simpl. left. reflexivity.
Defined.

(* ------------------------------------------------------------------ *)
(** ** The personas extend the attack score of their archetype         *)
(* ------------------------------------------------------------------ *)

Lemma Qle_bool_false (x y : Q) : Qle_bool x y = false -> y < x.
Proof.
  intros H. apply Qnot_le_lt. intros L. apply Qle_bool_iff in L. congruence.
Qed.

(** Case analysis on every rational comparison of the goal. *)
Ltac qcases :=
  repeat match goal with
    | |- context [Qle_bool ?x ?y] =>
        let E := fresh "E" in
        destruct (Qle_bool x y) eqn:E;
        [apply Qle_bool_iff in E | apply Qle_bool_false in E]
    end.

Lemma Qle_div_iff (a c x : Q) : 0 < c -> (x <= a / c <-> x * c <= a).
Proof.
  intros Hc. split; intros H.
  - assert (E : a == a / c * c) by (field; lra).
    rewrite E. apply Qmult_le_compat_r; lra.
  - apply Qle_shift_div_l; assumption.
Qed.

Lemma inject_Z_pos (z : Z) : (z > 0)%Z -> 0 < inject_Z z.
Proof.
  intros H. change 0 with (inject_Z 0). rewrite <- Zlt_Qlt. lia.
Qed.

Lemma inject_Z_succ_nat (n : nat) :
  inject_Z (Z.of_nat (S n)) == inject_Z (Z.of_nat n) + 1.
Proof.
  rewrite Nat2Z.inj_succ. unfold Z.succ. rewrite inject_Z_plus. reflexivity.
Qed.

(** Hannibal's loop counts the hostile neighbours. *)
Lemma multi_border_value_count (b : GameBoard.t) (player : string)
  (l : list string) (acc : Z) :
  fold_left
    (fun enemy_borders adj_name =>
       match GameBoard.get_territory b adj_name with
       | Some adj_terr =>
           if negb (Territory.owned_by adj_terr player)
           then (enemy_borders + 1)%Z else enemy_borders
       | None => enemy_borders
       end) l acc
  = (acc + Z.of_nat (List.length (filter (hostile b player) l)))%Z.
Proof.
  revert acc. induction l as [|x l IH]; intros acc; simpl.
  - lia.
  - rewrite IH. unfold hostile at 2.
    destruct (GameBoard.get_territory b x) as [t|]; [|reflexivity].
    destruct (negb (Territory.owned_by t player)); simpl List.length; lia.
Qed.

(** Elizabeth's loop adds one fifth per friendly neighbour other than the
    source. *)
Lemma consolidation_factor_count (b : GameBoard.t) (src player : string)
  (l : list string) (acc : Q) :
  fold_left
    (fun consolidation_factor adj_name =>
       if String.eqb adj_name src then consolidation_factor
       else
         match GameBoard.get_territory b adj_name with
         | Some adj_terr =>
             if Territory.owned_by adj_terr player
             then consolidation_factor + 0.2 else consolidation_factor
         | None => consolidation_factor
         end) l acc
  == acc + 0.2 * inject_Z (Z.of_nat (List.length
             (filter (fun adj => negb (String.eqb adj src) && friendly b player adj)
                     l))).
Proof.
  revert acc. induction l as [|x l IH]; intros acc.
  - simpl. ring.
  - cbn [fold_left filter]. rewrite IH. unfold friendly at 2.
    destruct (String.eqb x src); cbn [negb andb]; [reflexivity|].
    destruct (GameBoard.get_territory b x) as [t|]; [|reflexivity].
    destruct (Territory.owned_by t player); [|reflexivity].
    cbn [List.length]. rewrite inject_Z_succ_nat. ring.
Qed.

(** C9. For each of the six historical personas, [calculate_attack_score]
    is the parent archetype's [calculate_attack_score] on the same inputs
    multiplied by the persona's own conditional factor, which depends on
    the board and the two territories only; when the parent's computation
    raises, so does the persona's.  The extension composes with the
    parent's formula and never bypasses it. *)
Theorem persona_attack_score_composes :
  forall (k p : Strategy) (b : GameBoard.t) (self : Agent)
    (from_territory to_territory player : string),
    In k personas -> parent k = Some p ->
    result_Qeq
      (calculate_attack_score k b self from_territory to_territory player)
      (score <- calculate_attack_score p b self from_territory to_territory player ;;
       Ok (score * persona_factor b from_territory to_territory player k)).
Proof.
  intros k p b self f t pl Hk Hp.
  assert (Hcases : k = Napoleon \/ k = GenghisKhan \/ k = Alexander
                   \/ k = SunTzu \/ k = Hannibal \/ k = Elizabeth).
  { simpl in Hk. intuition auto. }
  destruct Hcases as [E | [E | [E | [E | [E | E]]]]]; subst k;
    simpl in Hp; inversion Hp; subst p; clear Hp Hk;
    unfold calculate_attack_score, persona_factor.
  - (* Napoleon *)
    unfold NapoleonStrategy.calculate_attack_score, napoleon_factor,
      NapoleonStrategy.aggression_bonus.
    destruct (AggressiveStrategy.calculate_attack_score b self f t pl)
      as [score|e]; simpl; [|reflexivity].
    destruct (GameBoard.get_territory b t) as [tt|]; simpl; [|ring].
    rewrite Z.gtb_ltb.
    destruct (3 <? Territory.armies tt)%Z; simpl; ring.
  - (* Genghis Khan *)
    unfold GenghisKhanStrategy.calculate_attack_score, genghis_khan_factor,
      plain_advantage.
    destruct (OpportunisticStrategy.calculate_attack_score b self f t pl)
      as [score|e]; simpl; [|reflexivity].
    destruct (GameBoard.get_territory b f) as [ft|]; simpl; [|ring].
    destruct (GameBoard.get_territory b t) as [tt|]; simpl; [|ring].
    destruct (Territory.armies tt >? 0)%Z; simpl; [|ring].
    qcases; simpl; try ring; lra.
  - (* Alexander *)
    unfold AlexanderStrategy.calculate_attack_score, alexander_factor.
    destruct (AggressiveStrategy.calculate_attack_score b self f t pl)
      as [score|e]; simpl; [|reflexivity].
    change (fun adj_name : string =>
              match GameBoard.get_territory b adj_name with
              | Some adj_terr => Territory.owned_by adj_terr pl
              | None => false
              end) with (friendly b pl).
    destruct (existsb (friendly b pl) (GameBoard.get_adjacent_territories b t));
      simpl; ring.
  - (* Sun Tzu *)
    unfold SunTzuStrategy.calculate_attack_score, sun_tzu_factor,
      plain_advantage.
    destruct (BalancedStrategy.calculate_attack_score b self f t pl)
      as [score|e]; simpl; [|reflexivity].
    destruct (AIStrategy.is_continent_gateway b t);
      destruct (GameBoard.get_territory b f) as [ft|]; simpl; try ring;
      destruct (GameBoard.get_territory b t) as [tt|]; simpl; try ring;
      destruct (Territory.armies tt >? 0)%Z; simpl; try ring;
      qcases; simpl; try ring; lra.
  - (* Hannibal *)
    unfold HannibalStrategy.calculate_attack_score, hannibal_factor,
      HannibalStrategy.multi_border_value.
    destruct (OpportunisticStrategy.calculate_attack_score b self f t pl)
      as [score|e]; cbn [bind result_Qeq]; [|reflexivity].
    destruct (GameBoard.get_territory b f) as [ft|]; cbn [bind result_Qeq];
      [|ring].
    rewrite multi_border_value_count.
    set (n := List.length _).
    destruct (0 + Z.of_nat n >=? 2)%Z eqn:E1; destruct (2 <=? n)%nat eqn:E2;
      cbn [bind result_Qeq]; try ring.
    + apply Nat.leb_gt in E2. apply Z.geb_le in E1. lia.
    + apply Nat.leb_le in E2. rewrite Z.geb_leb in E1. apply Z.leb_gt in E1. lia.
  - (* Elizabeth *)
    unfold ElizabethStrategy.calculate_attack_score, elizabeth_factor,
      plain_advantage.
    destruct (DefensiveStrategy.calculate_attack_score b self f t pl)
      as [score|e]; simpl; [|reflexivity].
    pose proof (consolidation_factor_count b f pl
                  (GameBoard.get_adjacent_territories b t) 0.0) as Hc.
    set (cf := fold_left _ _ _) in *.
    set (n := inject_Z _) in *.
    destruct (GameBoard.get_territory b f) as [ft|]; simpl;
      [|rewrite Hc; ring].
    destruct (GameBoard.get_territory b t) as [tt|]; simpl;
      [|rewrite Hc; ring].
    destruct (Territory.armies tt >? 0)%Z eqn:Epos; simpl;
      [|rewrite Hc; ring].
    apply Z.gtb_lt in Epos.
    assert (Hpos : 0 < inject_Z (Territory.armies tt))
      by (apply inject_Z_pos; lia).
    pose proof (Qle_div_iff (inject_Z (Territory.armies ft))
                  (inject_Z (Territory.armies tt)) 1.3 Hpos) as Hd.
    qcases; simpl; rewrite Hc; try ring; exfalso;
      match goal with
      | H1 : 1.3 <= _ / _ |- _ => apply Hd in H1; lra
      | H1 : _ / _ < 1.3 |- _ =>
          apply Qlt_not_le in H1; apply H1; apply Hd; lra
      end.
Qed.

Lemma persona_attack_score_composes_witness :
  result_Qeq
    (calculate_attack_score Napoleon Examples.square (Examples.fresh "P")
       "d" "x" "P")
    (score <- calculate_attack_score Aggressive Examples.square
                (Examples.fresh "P") "d" "x" "P" ;;
     Ok (score * persona_factor Examples.square "d" "x" "P" Napoleon)).
Proof.
  apply (persona_attack_score_composes Napoleon Aggressive).
  - simpl. left. reflexivity.
  - reflexivity.
Defined.

(* ------------------------------------------------------------------ *)
(** ** Dictionaries and the loops that fill them                       *)
(* ------------------------------------------------------------------ *)

Section DictFacts.
Context {V : Type}.
Implicit Types (d : Dict.t V) (k : string) (v : V).

Lemma get_set_same d k v : Dict.get (Dict.set d k v) k = Some v.
Proof.
  induction d as [|[k' v'] d IH]; simpl.
  - rewrite String.eqb_refl. reflexivity.
  - destruct (String.eqb k' k) eqn:E; simpl; rewrite E; [reflexivity | exact IH].
Qed.

Lemma get_set_other d k k' v :
  k <> k' -> Dict.get (Dict.set d k v) k' = Dict.get d k'.
Proof.
  intros Hne. induction d as [|[k0 v0] d IH]; simpl.
  - apply String.eqb_neq in Hne. rewrite Hne. reflexivity.
  - destruct (String.eqb k0 k) eqn:E; simpl.
    + apply String.eqb_eq in E. subst k0.
      apply String.eqb_neq in Hne. rewrite Hne. reflexivity.
    + rewrite IH. reflexivity.
Qed.

Lemma get_None_keys d k : Dict.get d k = None <-> ~ In k (Dict.keys d).
Proof.
  induction d as [|[k' v'] d IH]; simpl.
  - tauto.
  - destruct (String.eqb k' k) eqn:E.
    + apply String.eqb_eq in E. split; [discriminate | tauto].
    + apply String.eqb_neq in E. rewrite IH. tauto.
Qed.

Lemma get_Some_keys d k v : Dict.get d k = Some v -> In k (Dict.keys d).
Proof.
  intros H. destruct (in_dec string_dec k (Dict.keys d)) as [I|N]; [exact I|].
  apply get_None_keys in N. congruence.
Qed.

Lemma keys_get_Some d k : In k (Dict.keys d) -> exists v, Dict.get d k = Some v.
Proof.
  intros H. destruct (Dict.get d k) as [v|] eqn:E; [eauto|].
  apply get_None_keys in E. contradiction.
Qed.

Lemma get_In_wf d k v : Dict.wf d -> In (k, v) d -> Dict.get d k = Some v.
Proof.
  unfold Dict.wf, Dict.keys. induction d as [|[k' v'] d IH]; simpl; intros W H.
  - contradiction.
  - inversion W as [|? ? Hn W']; subst.
    destruct H as [H|H].
    + inversion H; subst. rewrite String.eqb_refl. reflexivity.
    + destruct (String.eqb k' k) eqn:E; [|auto].
      apply String.eqb_eq in E. subst k'. exfalso. apply Hn.
      apply in_map_iff. exists (k, v). auto.
Qed.

Lemma get_Some_In d k v : Dict.get d k = Some v -> In (k, v) d.
Proof.
  induction d as [|[k' v'] d IH]; simpl; [discriminate|].
  destruct (String.eqb k' k) eqn:E; intros H.
  - apply String.eqb_eq in E. inversion H; subst. left; reflexivity.
  - right; auto.
Qed.

Lemma keys_set_known d k v :
  In k (Dict.keys d) -> Dict.keys (Dict.set d k v) = Dict.keys d.
Proof.
  unfold Dict.keys. induction d as [|[k' v'] d IH]; simpl; intros H.
  - contradiction.
  - destruct (String.eqb k' k) eqn:E; simpl; [reflexivity|].
    apply String.eqb_neq in E. f_equal. apply IH. tauto.
Qed.

Lemma keys_set_new d k v :
  ~ In k (Dict.keys d) -> Dict.keys (Dict.set d k v) = Dict.keys d ++ [k].
Proof.
  unfold Dict.keys. induction d as [|[k' v'] d IH]; simpl; intros H.
  - reflexivity.
  - destruct (String.eqb k' k) eqn:E; simpl.
    + apply String.eqb_eq in E. tauto.
    + f_equal. apply IH. tauto.
Qed.

Lemma keys_set_In d k v k' :
  In k' (Dict.keys (Dict.set d k v)) <-> k' = k \/ In k' (Dict.keys d).
Proof.
  destruct (in_dec string_dec k (Dict.keys d)) as [I|N].
  - rewrite keys_set_known by exact I. split; [tauto|].
    intros [E|H]; [subst; exact I | exact H].
  - rewrite keys_set_new by exact N. rewrite in_app_iff. simpl. intuition auto.
Qed.

Lemma wf_set d k v : Dict.wf d -> Dict.wf (Dict.set d k v).
Proof.
  unfold Dict.wf. intros W.
  destruct (in_dec string_dec k (Dict.keys d)) as [I|N].
  - rewrite keys_set_known by exact I. exact W.
  - rewrite keys_set_new by exact N.
    apply NoDup_app; [exact W | constructor; [simpl; tauto | constructor] |].
    intros x Hx [E|[]]. subst. contradiction.
Qed.
End DictFacts.

Lemma for_each_ext {A S : Type} (f g : S -> A -> result S) (l : list A) :
  (forall s x, f s x = g s x) -> forall s, for_each f l s = for_each g l s.
Proof.
  intros E. induction l as [|x l IH]; intros s; simpl.
  - reflexivity.
  - rewrite E. destruct (g s x); simpl; [apply IH | reflexivity].
Qed.

Lemma fold_left_ext {A S : Type} (f g : S -> A -> S) (l : list A) :
  (forall s x, f s x = g s x) -> forall s, fold_left f l s = fold_left g l s.
Proof.
  intros E. induction l as [|x l IH]; intros s; simpl.
  - reflexivity.
  - rewrite E. apply IH.
Qed.

Lemma for_each_pure {A S : Type} (f : S -> A -> S) (l : list A) :
  forall s, for_each (fun s x => Ok (f s x)) l s = Ok (fold_left f l s).
Proof.
  induction l as [|x l IH]; intros s; simpl; [reflexivity | apply IH].
Qed.

Lemma fold_left_invariant {A S : Type} (P : S -> Prop) (f : S -> A -> S)
  (l : list A) :
  forall s, (forall s x, In x l -> P s -> P (f s x)) -> P s -> P (fold_left f l s).
Proof.
  induction l as [|x l IH]; simpl; intros s Hstep H0.
  - exact H0.
  - apply IH.
    + intros s1 y Hy. apply Hstep. right; exact Hy.
    + apply Hstep; [left; reflexivity | exact H0].
Qed.

(** A loop that stores, for each element [x], the value [val x] under the
    key [key x]: at the end every key of the list holds the value of one
    of its elements, and the other keys are untouched. *)
Section FillLoop.
Context {V X : Type} (key : X -> string) (val : X -> result V).

Lemma fill_loop (l : list X) :
  forall d0 d,
    for_each (fill_body key val) l d0 = Ok d ->
    forall k,
      (In k (map key l) ->
       exists x v, In x l /\ key x = k /\ val x = Ok v /\ Dict.get d k = Some v)
      /\ (~ In k (map key l) -> Dict.get d k = Dict.get d0 k).
Proof.
  induction l as [|x l IH]; intros d0 d H k.
  - simpl in H. inversion H; subst. simpl. split; [contradiction | reflexivity].
  - simpl in H. inv_bind H. unfold fill_body in Hx. inv_bind Hx.
    inversion Hx; subst x0; clear Hx.
    destruct (IH _ _ H k) as [IH1 IH2].
    destruct (in_dec string_dec k (map key l)) as [I|N].
    + split; [|simpl; tauto]. intros _.
      destruct (IH1 I) as [y [v [Hy [Ek [Hv Hg]]]]].
      exists y, v. simpl. auto.
    + split.
      * intros [E|I]; [|contradiction].
        exists x, x1. rewrite (IH2 N). subst k. rewrite get_set_same.
        simpl. auto.
      * intros Hn. rewrite (IH2 N). apply get_set_other.
        intros E. apply Hn. left. exact E.
Qed.

Lemma fill_loop_all_ok (l : list X) :
  forall d0 d, for_each (fill_body key val) l d0 = Ok d ->
               forall x, In x l -> exists v, val x = Ok v.
Proof.
  induction l as [|x l IH]; intros d0 d H y Hy; [contradiction|].
  simpl in H. inv_bind H. unfold fill_body in Hx. inv_bind Hx.
  destruct Hy as [E|Hy]; [subst; eauto | eapply IH; eauto].
Qed.

Lemma fill_loop_keys (l : list X) :
  forall d0 d, for_each (fill_body key val) l d0 = Ok d ->
               forall k, In k (Dict.keys d) <-> In k (Dict.keys d0) \/ In k (map key l).
Proof.
  induction l as [|x l IH]; intros d0 d H k.
  - simpl in H. inversion H; subst. simpl. tauto.
  - simpl in H. inv_bind H. unfold fill_body in Hx. inv_bind Hx.
    inversion Hx; subst x0; clear Hx.
    rewrite (IH _ _ H k). rewrite keys_set_In. simpl. intuition auto.
Qed.

Lemma fill_loop_wf (l : list X) :
  forall d0 d, for_each (fill_body key val) l d0 = Ok d -> Dict.wf d0 -> Dict.wf d.
Proof.
  induction l as [|x l IH]; intros d0 d H W.
  - simpl in H. inversion H; subst. exact W.
  - simpl in H. inv_bind H. unfold fill_body in Hx. inv_bind Hx.
    inversion Hx; subst x0; clear Hx.
    eapply IH; [exact H | apply wf_set; exact W].
Qed.
End FillLoop.

(* ------------------------------------------------------------------ *)
(** ** The strategic valuation engine                                  *)
(* ------------------------------------------------------------------ *)

Section ValuationFacts.
Variable b : GameBoard.t.

Lemma count_owned_loop (player : string) (members : list string) :
  forall acc n,
    for_each
      (fun n terr_name =>
         match GameBoard.get_territory b terr_name with
         | None => Raise AttributeError
         | Some terr =>
             Ok (if Territory.owned_by terr player then (n + 1)%Z else n)
         end)
      members acc = Ok n ->
    n = (acc + owned_members b player members)%Z
    /\ forall m, In m members -> on_board b m.
Proof.
  unfold owned_members, on_board.
  induction members as [|m members IH]; intros acc n H; simpl in H.
  - inversion H; subst. simpl. split; [lia | contradiction].
  - inv_bind H.
    destruct (GameBoard.get_territory b m) as [terr|] eqn:Em; [|discriminate].
    inversion Hx; subst x; clear Hx.
    destruct (IH _ _ H) as [En Hb]. split.
    + rewrite En. simpl. unfold friendly at 2. rewrite Em.
      destruct (Territory.owned_by terr player); simpl List.length; lia.
    + intros m' [E|I]; [subst; congruence | auto].
Qed.

Lemma count_owned_spec (player : string) (members : list string) (n : Z) :
  AIStrategy.count_owned b player members = Ok n ->
  n = owned_members b player members
  /\ forall m, In m members -> on_board b m.
Proof.
  unfold AIStrategy.count_owned. intros H.
  apply count_owned_loop in H. destruct H as [E Hb]. split; [lia | exact Hb].
Qed.

Lemma entry_point_loop (continent_name : string) (members : list string) :
  forall acc,
    fold_left
      (fun entry_points territory_name =>
         if existsb
              (fun adj_name =>
                 opt_neqb (AIStrategy.get_continent_for_territory b adj_name)
                          continent_name)
              (GameBoard.get_adjacent_territories b territory_name)
         then (entry_points + 1)%Z
         else entry_points)
      members acc
    = (acc + Z.of_nat (List.length
                         (filter (borders_outside b continent_name) members)))%Z.
Proof.
  induction members as [|m members IH]; intros acc; simpl.
  - lia.
  - rewrite IH. unfold borders_outside at 2.
    change (fun adj : string =>
              negb (opt_eqb (AIStrategy.get_continent_for_territory b adj)
                            continent_name))
      with (fun adj : string =>
              opt_neqb (AIStrategy.get_continent_for_territory b adj)
                       continent_name).
    destruct (existsb _ (GameBoard.get_adjacent_territories b m));
      simpl List.length; lia.
Qed.

Lemma count_continent_entry_points_spec (continent_name : string)
  (c : Continent.t) :
  Dict.get (GameBoard.continents b) continent_name = Some c ->
  AIStrategy.count_continent_entry_points b continent_name
  = entry_points b continent_name c.
Proof.
  intros H. unfold AIStrategy.count_continent_entry_points, entry_points.
  rewrite H. rewrite entry_point_loop. reflexivity.
Qed.

Lemma entry_points_positive (continent_name : string) (c : Continent.t) :
  (1 <= entry_points b continent_name c)%Z.
Proof. unfold entry_points. lia. Qed.

Lemma truediv_Ok (x y : Z) (q : Q) :
  truediv x y = Ok q -> y <> 0%Z /\ q = inject_Z x / inject_Z y.
Proof.
  unfold truediv. destruct (y =? 0)%Z eqn:E; [discriminate|].
  intros H. inversion H. apply Z.eqb_neq in E. auto.
Qed.

(** The value stored for a continent is the formula of the specification. *)
Lemma continent_priority_spec (player continent_name : string)
  (c : Continent.t) (v : Q) :
  Dict.get (GameBoard.continents b) continent_name = Some c ->
  AIStrategy.continent_priority b player continent_name c = Ok v ->
  v = priority_formula
        (Continent.bonus_armies c) (entry_points b continent_name c)
        (owned_members b player (Continent.territories c)) (member_count c)
  /\ member_count c <> 0%Z
  /\ forall m, In m (Continent.territories c) -> on_board b m.
Proof.
  intros Hc H. unfold AIStrategy.continent_priority in H.
  inv_bind H. apply count_owned_spec in Hx. destruct Hx as [Ex Hb]. subst x.
  rewrite (count_continent_entry_points_spec _ _ Hc) in H.
  pose proof (entry_points_positive continent_name c) as HE.
  destruct (entry_points b continent_name c >? 0)%Z eqn:G;
    [|rewrite Z.gtb_ltb in G; apply Z.ltb_ge in G; lia].
  inv_bind H. inv_bind Hx. inv_bind Hx.
  apply truediv_Ok in Hx0. destruct Hx0 as [_ E1].
  apply truediv_Ok in Hx1. destruct Hx1 as [HT E2].
  inversion Hx; subst x; clear Hx. inversion H; subst v; clear H.
  subst x0 x1. unfold priority_formula, member_count. auto.
Qed.
End ValuationFacts.

Lemma calculate_strategic_values_base_inv (b : GameBoard.t) (self s : Agent) :
  AIStrategy.calculate_strategic_values b self = Ok s ->
  for_each
    (fill_body fst
       (fun x => AIStrategy.continent_priority b (player_name self) (fst x) (snd x)))
    (GameBoard.continents b) (continent_priorities self)
  = Ok (continent_priorities s)
  /\ territory_values s
     = fold_left
         (fun tv x =>
            Dict.set tv (fst x)
                     (AIStrategy.territory_value b (continent_priorities s) (fst x)))
         (GameBoard.territories b) (territory_values self)
  /\ player_name s = player_name self.
Proof.
  unfold AIStrategy.calculate_strategic_values. intros H. inv_bind H.
  inversion H; subst s; clear H. simpl. split; [|split; [|reflexivity]].
  - rewrite <- Hx. unfold Dict.items. apply for_each_ext.
    intros d [cn c]. reflexivity.
  - unfold Dict.items. apply fold_left_ext. intros d [tn t]. reflexivity.
Qed.

(** Every override runs its parent's valuation and then rewrites the
    territory values only. *)
Lemma revalue_inv (m : result Agent) (f : Agent -> Dict.t Q) (s : Agent) :
  (s0 <- m ;; Ok (set_territory_values s0 (f s0))) = Ok s ->
  exists s0, m = Ok s0 /\ s = set_territory_values s0 (f s0).
Proof.
  intros H. inv_bind H. inversion H; subst. eauto.
Qed.

Ltac revalue H s0 :=
  let E := fresh "E" in
  apply revalue_inv in H; destruct H as [s0 [H E]].

(** The overriding classes leave the continent priorities of the base
    valuation as they are. *)
Lemma calculate_strategic_values_priorities (k : Strategy) (b : GameBoard.t)
  (self s : Agent) :
  calculate_strategic_values k b self = Ok s ->
  exists s0,
    AIStrategy.calculate_strategic_values b self = Ok s0
    /\ continent_priorities s = continent_priorities s0
    /\ player_name s = player_name s0.
Proof.
  destruct k; simpl; intros H; try (exists s; auto; fail).
  - unfold AggressiveStrategy.calculate_strategic_values in H.
    revalue H s0. exists s0. subst s. auto.
  - unfold DefensiveStrategy.calculate_strategic_values in H.
    revalue H s0. exists s0. subst s. auto.
  - unfold NapoleonStrategy.calculate_strategic_values in H.
    revalue H s1. unfold AggressiveStrategy.calculate_strategic_values in H.
    revalue H s0. exists s0. subst s s1. auto.
  - unfold GenghisKhanStrategy.calculate_strategic_values in H.
    revalue H s0. exists s0. subst s. auto.
  - unfold AlexanderStrategy.calculate_strategic_values in H.
    revalue H s1. unfold AggressiveStrategy.calculate_strategic_values in H.
    revalue H s0. exists s0. subst s s1. auto.
  - unfold SunTzuStrategy.calculate_strategic_values in H.
    revalue H s0. exists s0. subst s. auto.
  - unfold HannibalStrategy.calculate_strategic_values in H.
    revalue H s0. exists s0. subst s. auto.
  - unfold ElizabethStrategy.calculate_strategic_values in H.
    revalue H s1. unfold DefensiveStrategy.calculate_strategic_values in H.
    revalue H s0. exists s0. subst s s1. auto.
Qed.

(** C3. For every class of agent and every continent C of the board, with
    T members, O of them held by the player, bonus b and E entry points
    (members that border a territory outside C, at least 1), a completed
    [calculate_strategic_values] stores
    [priority(C) = (b / E) * ((O / T)^2 + 0.1) * (1.0 + (6 - T) * 0.1)];
    with b = 5, E = 1 and O = T = 4 the stored priority is 6.6. *)
Theorem continent_priority_formula :
  forall (k : Strategy) (b : GameBoard.t) (self s : Agent)
    (continent_name : string) (c : Continent.t),
    Dict.wf (GameBoard.continents b) ->
    calculate_strategic_values k b self = Ok s ->
    In (continent_name, c) (GameBoard.continents b) ->
    let T := member_count c in
    let O := owned_members b (player_name self) (Continent.territories c) in
    let E := entry_points b continent_name c in
    exists v,
      Dict.get (continent_priorities s) continent_name = Some v
      /\ v == (inject_Z (Continent.bonus_armies c) / inject_Z E)
              * ((inject_Z O / inject_Z T) ^ 2 + 0.1)
              * (1.0 + inject_Z (6 - T) * 0.1)
      /\ (Continent.bonus_armies c = 5%Z -> E = 1%Z -> O = 4%Z -> T = 4%Z ->
          v == 6.6).
Proof.
  intros k b self s cn c W H Hin T O E.
  apply calculate_strategic_values_priorities in H.
  destruct H as [s0 [H0 [Ep _]]]. rewrite Ep.
  apply calculate_strategic_values_base_inv in H0. destruct H0 as [Hloop _].
  pose proof (get_In_wf _ _ _ W Hin) as Hget.
  destruct (fill_loop _ _ _ _ _ Hloop cn) as [Hk _].
  destruct Hk as [x [v [Hx [Ek [Hv Hg]]]]].
  { apply in_map_iff. exists (cn, c). auto. }
  destruct x as [cn' c']. simpl in Ek, Hv. subst cn'.
  pose proof (get_In_wf _ _ _ W Hx) as Hget'.
  rewrite Hget in Hget'. inversion Hget'; subst c'; clear Hget'.
  apply (continent_priority_spec b _ _ _ _ Hget) in Hv.
  destruct Hv as [Ev _].
  exists v. split; [exact Hg|]. split.
  - rewrite Ev. unfold priority_formula. reflexivity.
  - intros Hb HE HO HT. rewrite Ev. unfold priority_formula.
    fold T O E. rewrite Hb, HE, HO, HT. vm_compute. reflexivity.
Qed.

Lemma continent_priority_formula_witness :
  exists v,
    Dict.get
      (continent_priorities
         (match calculate_strategic_values Base Examples.square
                  (Examples.fresh "P") with
          | Ok s => s
          | Raise _ => Examples.fresh "P"
          end)) "C" = Some v
    /\ v == 6.6.
Proof.
  destruct (continent_priority_formula
              Base Examples.square (Examples.fresh "P")
              (match calculate_strategic_values Base Examples.square
                       (Examples.fresh "P") with
               | Ok s => s
               | Raise _ => Examples.fresh "P"
               end)
              "C" (Continent.mk "C" ["a"; "b"; "c"; "d"]%string 5))
    as [v [Hg [_ Hv]]].
  - unfold Dict.wf. vm_compute.
    repeat (constructor; [simpl; intuition discriminate|]). constructor.
  - vm_compute. reflexivity.
  - simpl. left. reflexivity.
  - exists v. split; [exact Hg|]. apply Hv; vm_compute; reflexivity.
Defined.

(* ------------------------------------------------------------------ *)
(** ** Territory values are positive on boards with modest continents  *)
(* ------------------------------------------------------------------ *)

Lemma inject_Z_le (x y : Z) : (x <= y)%Z -> inject_Z x <= inject_Z y.
Proof. intros H. rewrite <- Zle_Qle. exact H. Qed.

Lemma degree_offset_bound (n : nat) : -3 <= inject_Z (Z.of_nat n - 3).
Proof. change (-3) with (inject_Z (-3)). apply inject_Z_le. lia. Qed.

Lemma py_max_lower (x y : Q) : x <= py_max x y.
Proof. unfold py_max. qcases; lra. Qed.

Lemma positive_at_set_same (d : Dict.t Q) (k : string) (v : Q) :
  0 < v -> positive_at (Dict.set d k v) k.
Proof. intros H. exists v. split; [apply get_set_same | exact H]. Qed.

Lemma positive_at_set_other (d : Dict.t Q) (k t : string) (v : Q) :
  k <> t -> positive_at d t -> positive_at (Dict.set d k v) t.
Proof.
  intros Hne [w [Hg Hw]]. exists w. split; [|exact Hw].
  rewrite get_set_other by exact Hne. exact Hg.
Qed.

(** Multiplying the stored values by positive factors keeps a positive
    value positive. *)
Lemma update_values_positive (f : string -> Q -> Q) (d : Dict.t Q) (t : string) :
  (forall k v, 0 < v -> 0 < f k v) ->
  positive_at d t -> positive_at (update_values f d) t.
Proof.
  intros Hf. unfold update_values. generalize (Dict.keys d) as ks.
  intros ks H.
  apply fold_left_invariant with (P := fun d0 => positive_at d0 t); [|exact H].
  intros d' k _ [v [Hg Hv]].
  destruct (string_dec k t) as [E|N].
  - subst k. apply positive_at_set_same. apply Hf.
    unfold Dict.get_default. rewrite Hg. exact Hv.
  - apply positive_at_set_other; [exact N | exists v; auto].
Qed.

Lemma scale_top_positive (top : list (string * Q)) (d : Dict.t Q) (t : string) :
  positive_at d t ->
  positive_at
    (fold_left
       (fun tv '(terr_name, _) =>
          Dict.set tv terr_name (Dict.get_default tv terr_name 0 * 1.8))
       top d) t.
Proof.
  intros H.
  apply fold_left_invariant with (P := fun d0 => positive_at d0 t); [|exact H].
  intros d' [k w] _ [v [Hg Hv]].
  destruct (string_dec k t) as [E|N].
  - subst k. apply positive_at_set_same.
    unfold Dict.get_default. rewrite Hg. lra.
  - apply positive_at_set_other; [exact N | exists v; auto].
Qed.

Section PositiveValues.
Variable b : GameBoard.t.
Hypothesis modest : modest_continents b.

Lemma find_continent_key (cs : list (string * Continent.t)) (t c : string) :
  AIStrategy.find_continent cs t = Some c -> In c (map fst cs).
Proof.
  induction cs as [|[cn cont] cs IH]; simpl; [discriminate|].
  destruct (mem t (Continent.territories cont)); intros H.
  - inversion H. left; reflexivity.
  - right; auto.
Qed.

Lemma entry_point_count_positive (continent_name : string) :
  In continent_name (Dict.keys (GameBoard.continents b)) ->
  (1 <= AIStrategy.count_continent_entry_points b continent_name)%Z.
Proof.
  intros H. apply keys_get_Some in H. destruct H as [c Hc].
  rewrite (count_continent_entry_points_spec b _ _ Hc).
  apply entry_points_positive.
Qed.

Lemma continent_priority_positive (player continent_name : string)
  (c : Continent.t) (v : Q) :
  In (continent_name, c) (GameBoard.continents b) ->
  AIStrategy.continent_priority b player continent_name c = Ok v ->
  0 < v.
Proof.
  intros Hin H. destruct (modest _ _ Hin) as [Hbonus Hsize].
  assert (HE : (1 <= AIStrategy.count_continent_entry_points b continent_name)%Z).
  { apply entry_point_count_positive. apply in_map_iff.
    exists (continent_name, c). auto. }
  unfold AIStrategy.continent_priority in H. inv_bind H.
  destruct (AIStrategy.count_continent_entry_points b continent_name >? 0)%Z
    eqn:G; [|rewrite Z.gtb_ltb in G; apply Z.ltb_ge in G; lia].
  inv_bind H. inv_bind Hx0. inv_bind Hx0.
  apply truediv_Ok in Hx1. destruct Hx1 as [_ E1].
  inversion Hx0; subst x0; clear Hx0. inversion H; subst v; clear H.
  assert (Hper : 0 < x1).
  { subst x1. apply Qlt_shift_div_l.
    - apply inject_Z_pos. lia.
    - rewrite Qmult_0_l. apply inject_Z_pos. lia. }
  assert (Hsq : 0 < x2 ^ 2 + 0.1) by nra.
  assert (Hsf : 0 < 1.0 + inject_Z (6 - Z.of_nat (List.length
                                       (Continent.territories c))) * 0.1).
  { unfold member_count in Hsize.
    assert (-9 <= inject_Z (6 - Z.of_nat (List.length (Continent.territories c)))).
    { change (-9) with (inject_Z (-9)). apply inject_Z_le. lia. }
    lra. }
  apply Qmult_lt_0_compat; [apply Qmult_lt_0_compat|]; assumption.
Qed.

Lemma territory_value_positive (priorities : Dict.t Q) (t : string) :
  (forall c, In c (Dict.keys (GameBoard.continents b)) ->
             positive_at priorities c) ->
  0 < AIStrategy.territory_value b priorities t.
Proof.
  intros Hp. unfold AIStrategy.territory_value.
  set (base :=
         match AIStrategy.get_continent_for_territory b t with
         | Some c =>
             if truthy (AIStrategy.get_continent_for_territory b t)
             then 1.0 * (Dict.get_default priorities c 1.0 * 1.5) else 1.0
         | None => 1.0
         end).
  assert (Hbase : 0 < base).
  { unfold base.
    destruct (AIStrategy.get_continent_for_territory b t) as [c|] eqn:Ec;
      [|lra].
    destruct (truthy (Some c)); [|lra].
    apply find_continent_key in Ec. destruct (Hp c Ec) as [v [Hg Hv]].
    unfold Dict.get_default. rewrite Hg. lra. }
  set (gated := if AIStrategy.is_continent_gateway b t then base * 1.5 else base).
  assert (Hgated : 0 < gated).
  { unfold gated. destruct (AIStrategy.is_continent_gateway b t); lra. }
  cbv zeta.
  pose proof (py_max_lower 0.8
                (1.0 + inject_Z (Z.of_nat (List.length
                          (GameBoard.get_adjacent_territories b t)) - 3) * 0.1)).
  fold base. fold gated.
  apply Qmult_lt_0_compat; [exact Hgated | lra].
Qed.

(** The base valuation stores a positive value for every territory. *)
Lemma base_values_positive (self s : Agent) (t : string) :
  AIStrategy.calculate_strategic_values b self = Ok s ->
  In t (Dict.keys (GameBoard.territories b)) ->
  positive_at (territory_values s) t.
Proof.
  intros H Ht. apply calculate_strategic_values_base_inv in H.
  destruct H as [Hloop [Hval _]].
  assert (Hprio : forall c, In c (Dict.keys (GameBoard.continents b)) ->
                            positive_at (continent_priorities s) c).
  { intros c Hc. destruct (fill_loop _ _ _ _ _ Hloop c) as [Hk _].
    destruct (Hk Hc) as [[cn cont] [v [Hin [Ek [Hv Hg]]]]].
    simpl in Ek, Hv. subst cn. exists v. split; [exact Hg|].
    eapply continent_priority_positive; eauto. }
  assert (Hfill :
    for_each
      (fill_body fst
         (fun x : string * Territory.t =>
            Ok (AIStrategy.territory_value b (continent_priorities s) (fst x))))
      (GameBoard.territories b) (territory_values self)
    = Ok (territory_values s)).
  { rewrite Hval. rewrite <- for_each_pure. apply for_each_ext.
    intros d x. reflexivity. }
  destruct (fill_loop _ _ _ _ _ Hfill t) as [Hk _].
  destruct (Hk Ht) as [x [v [_ [_ [Hv Hg]]]]].
  inversion Hv; subst v. exists (AIStrategy.territory_value b
                                   (continent_priorities s) (fst x)).
  split; [exact Hg | apply territory_value_positive; exact Hprio].
Qed.

(** Every class of agent stores a positive value for every territory. *)
Lemma all_values_positive (k : Strategy) (self s : Agent) (t : string) :
  calculate_strategic_values k b self = Ok s ->
  In t (Dict.keys (GameBoard.territories b)) ->
  positive_at (territory_values s) t.
Proof.
  intros H Ht.
  assert (Hagg : forall s0 s1,
             AggressiveStrategy.calculate_strategic_values b s0 = Ok s1 ->
             positive_at (territory_values s1) t).
  { intros s0 s1 H1. unfold AggressiveStrategy.calculate_strategic_values in H1.
    revalue H1 s2. subst s1. simpl. apply update_values_positive.
    - intros k0 v Hv. pose proof (degree_offset_bound
        (List.length (GameBoard.get_adjacent_territories b k0))).
      apply Qmult_lt_0_compat; [exact Hv | lra].
    - eapply base_values_positive; eauto. }
  assert (Hdef : forall s0 s1,
             DefensiveStrategy.calculate_strategic_values b s0 = Ok s1 ->
             positive_at (territory_values s1) t).
  { intros s0 s1 H1. unfold DefensiveStrategy.calculate_strategic_values in H1.
    revalue H1 s2. subst s1. simpl. apply update_values_positive.
    - intros k0 v Hv. destruct (AIStrategy.is_continent_gateway b k0); lra.
    - eapply base_values_positive; eauto. }
  destruct k; simpl in H;
    try (eapply base_values_positive; eauto; fail);
    try (eapply Hagg; eauto; fail); try (eapply Hdef; eauto; fail).
  - unfold NapoleonStrategy.calculate_strategic_values in H.
    revalue H s1. subst s. simpl. apply update_values_positive.
    + intros k0 v Hv. destruct (_ >? 4)%Z; lra.
    + eapply Hagg; eauto.
  - unfold GenghisKhanStrategy.calculate_strategic_values in H.
    revalue H s1. subst s. simpl. apply update_values_positive.
    + intros k0 v Hv.
      assert (0 <= inject_Z (Z.of_nat (List.length
                      (GameBoard.get_adjacent_territories b k0)))).
      { change 0 with (inject_Z 0). apply inject_Z_le. lia. }
      apply Qmult_lt_0_compat; [exact Hv|].
      assert (0 <= inject_Z (Z.of_nat (List.length
                      (GameBoard.get_adjacent_territories b k0))) / 10.0).
      { apply Qle_shift_div_l; lra. }
      lra.
    + eapply base_values_positive; eauto.
  - unfold AlexanderStrategy.calculate_strategic_values in H.
    inv_bind H. inversion H; subst s; clear H. simpl.
    apply scale_top_positive. eapply Hagg; eauto.
  - unfold SunTzuStrategy.calculate_strategic_values in H.
    revalue H s1. subst s. simpl. apply update_values_positive.
    + intros k0 v Hv. pose proof (degree_offset_bound
        (List.length (GameBoard.get_adjacent_territories b k0))).
      apply Qmult_lt_0_compat; [exact Hv|].
      destruct (AIStrategy.is_continent_gateway b k0);
        apply Qmult_lt_0_compat; lra.
    + eapply base_values_positive; eauto.
  - unfold HannibalStrategy.calculate_strategic_values in H.
    revalue H s1. subst s. simpl. apply update_values_positive.
    + intros k0 v Hv. destruct (AIStrategy.is_continent_gateway b k0); lra.
    + eapply base_values_positive; eauto.
  - unfold ElizabethStrategy.calculate_strategic_values in H.
    revalue H s1. subst s. simpl. apply update_values_positive.
    + intros k0 v Hv. apply Qmult_lt_0_compat; [exact Hv|].
      assert (0 <= ElizabethStrategy._calculate_security_factor
                     b k0 (player_name s1)).
      { unfold ElizabethStrategy._calculate_security_factor.
        destruct (GameBoard.get_adjacent_territories b k0) as [|a l] eqn:Ea;
          [lra|].
        apply Qle_shift_div_l.
        - apply inject_Z_pos. simpl List.length. lia.
        - rewrite Qmult_0_l. change 0 with (inject_Z 0). apply inject_Z_le.
          generalize (a :: l). intros l0.
          assert (G : forall acc, (0 <= acc)%Z ->
                     (0 <= fold_left
                        (fun (friendly_count : Z) (adj_name : string) =>
                           match GameBoard.get_territory b adj_name with
                           | Some adj_terr =>
                               if Territory.owned_by adj_terr (player_name s1)
                               then (friendly_count + 1)%Z else friendly_count
                           | None => friendly_count
                           end) l0 acc)%Z).
          { induction l0 as [|y l0 IH]; intros acc Hacc; simpl; [exact Hacc|].
            apply IH. destruct (GameBoard.get_territory b y) as [ty|]; [|lia].
            destruct (Territory.owned_by ty (player_name s1)); lia. }
          apply G. lia. }
      lra.
    + eapply Hdef; eauto.
Qed.
End PositiveValues.

(** C2, as amended.  On a board whose continents all grant a positive
    bonus and have fewer than sixteen members, after a completed
    [calculate_strategic_values] of any class of agent the stored value of
    every territory of the board is strictly positive. *)
Theorem territory_values_positive :
  forall (k : Strategy) (b : GameBoard.t) (self s : Agent),
    modest_continents b ->
    calculate_strategic_values k b self = Ok s ->
    forall t, In t (Dict.keys (GameBoard.territories b)) ->
              exists v, Dict.get (territory_values s) t = Some v /\ 0 < v.
Proof.
  intros k b self s Hm H t Ht.
  exact (all_values_positive b Hm k self s t H Ht).
Qed.

Lemma square_modest : modest_continents Examples.square.
Proof.
  intros cn c H. simpl in H.
  destruct H as [H | [H | []]]; inversion H; subst; clear H;
    unfold member_count; simpl; lia.
Qed.

Lemma territory_values_positive_witness :
  exists v,
    Dict.get
      (territory_values
         (match calculate_strategic_values Alexander Examples.square
                  (Examples.fresh "P") with
          | Ok s => s
          | Raise _ => Examples.fresh "P"
          end)) "d" = Some v
    /\ 0 < v.
Proof.
  apply (territory_values_positive Alexander Examples.square (Examples.fresh "P")).
  - exact square_modest.
  - vm_compute. reflexivity.
  - simpl. auto 10.
Defined.

(** C2 as stated fails: a continent without a bonus has priority 0, and
    the value of its territories is 0, which is not strictly positive. *)
Lemma territory_value_zero_without_bonus :
  exists s v,
    calculate_strategic_values Base Examples.no_bonus (Examples.fresh "P") = Ok s
    /\ In "a"%string (Dict.keys (GameBoard.territories Examples.no_bonus))
    /\ Dict.get (territory_values s) "a" = Some v
    /\ ~ 0 < v.
Proof.
  eexists. eexists. split; [vm_compute; reflexivity|].
  split; [simpl; auto|]. split; [vm_compute; reflexivity|].
  vm_compute. discriminate.
Qed.

(* ------------------------------------------------------------------ *)
(** ** A continent that names a territory missing from the board       *)
(* ------------------------------------------------------------------ *)

(** Whatever the class of agent, the valuation raises as soon as a
    continent lists a territory that the board does not have. *)
Lemma missing_member_raises (k : Strategy) (b : GameBoard.t) (self : Agent)
  (continent_name : string) (c : Continent.t) (m : string) :
  In (continent_name, c) (GameBoard.continents b) ->
  In m (Continent.territories c) ->
  GameBoard.get_territory b m = None ->
  exists e, calculate_strategic_values k b self = Raise e.
Proof.
  intros Hc Hm Hnone.
  destruct (calculate_strategic_values k b self) as [s|e] eqn:E; [|eauto].
  exfalso.
  apply calculate_strategic_values_priorities in E.
  destruct E as [s0 [E _]].
  apply calculate_strategic_values_base_inv in E. destruct E as [Hloop _].
  destruct (fill_loop_all_ok _ _ _ _ _ Hloop _ Hc) as [v Hv]. simpl in Hv.
  unfold AIStrategy.continent_priority in Hv. inv_bind Hv.
  apply count_owned_spec in Hx. destruct Hx as [_ Hb].
  apply (Hb m Hm). exact Hnone.
Qed.

(** C6, on the code.  On the board [Examples.dangling], whose continent
    "C" lists the territory "ghost" that the board does not have,
    [calculate_strategic_values] and [get_best_reinforcement_territories]
    both end with [AttributeError] instead of skipping the entry. *)
Theorem dangling_member_attribute_error :
  calculate_strategic_values Base Examples.dangling (Examples.fresh "P")
  = Raise AttributeError
  /\ get_best_reinforcement_territories
       Base Examples.dangling (Examples.fresh "P") "P" ["a"%string]
       Examples.halves
     = Raise AttributeError.
Proof.
  split; vm_compute; reflexivity.
Qed.

(* ------------------------------------------------------------------ *)
(** ** The reinforcement prioritizer                                   *)
(* ------------------------------------------------------------------ *)

Lemma for_each_ext_in {A S : Type} (f g : S -> A -> result S) (l : list A) :
  (forall s x, In x l -> f s x = g s x) ->
  forall s, for_each f l s = for_each g l s.
Proof.
  induction l as [|x l IH]; intros E s; simpl.
  - reflexivity.
  - rewrite E by (left; reflexivity).
    destruct (g s x); simpl; [|reflexivity].
    apply IH. intros s1 y Hy. apply E. right; exact Hy.
Qed.

Lemma is_front_line_territory_spec (b : GameBoard.t) (t player : string) :
  AIStrategy.is_front_line_territory b t player = true <-> front_line b player t.
Proof.
  unfold AIStrategy.is_front_line_territory, front_line.
  rewrite existsb_exists. split.
  - intros [adj [Hin H]].
    destruct (GameBoard.get_territory b adj) as [terr|] eqn:E; [|discriminate].
    exists adj, terr. repeat split; auto.
    apply owned_by_false. apply negb_true_iff. exact H.
  - intros [adj [terr [Hin [E Ho]]]]. exists adj. split; [exact Hin|].
    rewrite E. apply negb_true_iff. apply owned_by_false. exact Ho.
Qed.

Lemma filter_all (A : Type) (p : A -> bool) (l : list A) :
  (forall x, In x l -> p x = true) -> filter p l = l.
Proof.
  induction l as [|x l IH]; simpl; intros H; [reflexivity|].
  rewrite H by auto. f_equal. apply IH. auto.
Qed.

Lemma filter_none (A : Type) (p : A -> bool) (l : list A) :
  filter p l = [] -> forall x, In x l -> p x = false.
Proof.
  induction l as [|x l IH]; simpl; intros H y Hy; [contradiction|].
  destruct (p x) eqn:E; [discriminate|].
  destruct Hy as [Ey|Hy]; [subst; exact E | auto].
Qed.

Section Reinforcement.
Variable b : GameBoard.t.
Variable player : string.
Variable owned : list string.

Lemma reinforcement_order_perm (l l' : list string) :
  Permutation l l' -> reinforcement_order b player owned l -> reinforcement_order b player owned l'.
Proof.
  intros Hp [H1 H2]. split.
  - intros Hne. destruct (H1 Hne) as [Hnd Hin]. split.
    + eapply Permutation_NoDup; eauto.
    + intros t. rewrite <- Hin. split; apply Permutation_in;
        [apply Permutation_sym|]; exact Hp.
  - intros He. eapply Permutation_trans; [apply Permutation_sym; exact Hp|].
    apply H2. exact He.
Qed.

Lemma reinforcement_order_sorted (key : string -> Q) (l : list string) :
  reinforcement_order b player owned l -> reinforcement_order b player owned (sort_desc key l).
Proof.
  apply reinforcement_order_perm. apply Permutation_sym, sort_desc_perm.
Qed.

Hypothesis owned_on_board : forall t, In t owned -> on_board b t.

(** The base method returns the owned list when there is no front line,
    and else the front-line territories, once each. *)
Lemma base_reinforcement_order
  (csv : Agent -> result Agent) (self s : Agent) (g g' : Rng) (l : list string) :
  AIStrategy.get_best_reinforcement_territories b csv self player owned g
  = Ok (l, s, g') ->
  reinforcement_order b player owned l.
Proof.
  unfold AIStrategy.get_best_reinforcement_territories. intros H.
  apply bind_Ok in H. destruct H as [s1 [Hs1 H]].
  apply bind_Ok in H. destruct H as [[target g1] [Htarget H]].
  fold (front_line_of b player owned) in H. unfold reinforcement_order.
  destruct (front_line_of b player owned) as [|t0 fl] eqn:Efl.
  - inversion H; subst. split; [congruence | intros _; apply Permutation_refl].
  - apply bind_Ok in H. destruct H as [ts [Hts H]].
    inversion H; subst l s g'; clear H.
    split; [intros _ | discriminate].
    assert (Hfill :
      for_each
        (fill_body (fun t : string => t)
           (fun t =>
              match GameBoard.get_territory b t with
              | Some territory =>
                  AIStrategy.reinforcement_score
                    b (set_target_continent s1 target) player t territory
              | None => Raise AttributeError
              end))
        (t0 :: fl) Dict.empty = Ok ts).
    { rewrite <- Hts. apply for_each_ext_in. intros d t Ht.
      unfold fill_body.
      assert (Hb : on_board b t).
      { apply owned_on_board. rewrite <- Efl in Ht. unfold front_line_of in Ht.
        apply filter_In in Ht. tauto. }
      unfold on_board in Hb.
      destruct (GameBoard.get_territory b t); [reflexivity | congruence]. }
    pose proof (fill_loop_wf _ _ _ _ _ Hfill) as Hwf.
    pose proof (fill_loop_keys _ _ _ _ _ Hfill) as Hkeys.
    assert (Hperm : Permutation (map fst (sort_desc snd (Dict.items ts)))
                                (Dict.keys ts)).
    { unfold Dict.keys, Dict.items. apply Permutation_map. apply sort_desc_perm. }
    split.
    + eapply Permutation_NoDup; [apply Permutation_sym; exact Hperm|].
      apply Hwf. unfold Dict.wf, Dict.empty. simpl. constructor.
    + intros t. split; intros Ht.
      * apply (Permutation_in _ Hperm) in Ht. apply Hkeys in Ht.
        rewrite map_id in Ht. destruct Ht as [Ht|Ht]; [inversion Ht | exact Ht].
      * apply (Permutation_in _ (Permutation_sym Hperm)). apply Hkeys.
        rewrite map_id. right. exact Ht.
Qed.

Lemma reinforcement_order_any (k : Strategy) (self s : Agent) (g g' : Rng)
  (l : list string) :
  get_best_reinforcement_territories k b self player owned g = Ok (l, s, g') ->
  reinforcement_order b player owned l.
Proof.
  destruct k; simpl; intros H;
    try (eapply base_reinforcement_order; eauto; fail).
  - (* Defensive *)
    unfold DefensiveStrategy.get_best_reinforcement_territories in H.
    inv_bind H. destruct x as [[l0 s0] g0]. inv_bind H.
    inversion H; subst; clear H.
    apply reinforcement_order_sorted. eapply base_reinforcement_order; eauto.
  - (* Napoleon *)
    unfold NapoleonStrategy.get_best_reinforcement_territories in H.
    inv_bind H. destruct x as [[l0 s0] g0]. inversion H; subst; clear H.
    apply reinforcement_order_sorted. eapply base_reinforcement_order; eauto.
  - (* Alexander *)
    unfold AlexanderStrategy.get_best_reinforcement_territories in H.
    inv_bind H. destruct x as [[l0 s0] g0].
    apply base_reinforcement_order in Hx.
    assert (Hl0 : filter (fun t => AIStrategy.is_front_line_territory b t player) l0
                  = l0 \/ filter (fun t => AIStrategy.is_front_line_territory
                                             b t player) l0 = []).
    { destruct Hx as [H1 H2].
      destruct (front_line_of b player owned) as [|t0 fl] eqn:Efl.
      - right. specialize (H2 eq_refl).
        destruct (filter _ l0) as [|y ys] eqn:Ef; [reflexivity|].
        exfalso. assert (Hy : In y (filter (fun t =>
                  AIStrategy.is_front_line_territory b t player) l0))
          by (rewrite Ef; left; reflexivity).
        apply filter_In in Hy. destruct Hy as [Hy1 Hy2].
        apply (Permutation_in _ H2) in Hy1.
        pose proof (filter_none _ _ _ Efl y Hy1) as Hf. simpl in Hf. congruence.
      - left. apply filter_all. intros y Hy.
        destruct H1 as [_ H1]; [discriminate|]. apply H1 in Hy.
        rewrite <- Efl in Hy. unfold front_line_of in Hy.
        apply filter_In in Hy. tauto. }
    destruct Hl0 as [E|E]; rewrite E in H.
    + destruct l0; inversion H; subst; exact Hx.
    + inversion H; subst; exact Hx.
  - (* Hannibal *)
    unfold HannibalStrategy.get_best_reinforcement_territories in H.
    inv_bind H. destruct x as [[l0 s0] g0]. inversion H; subst; clear H.
    apply reinforcement_order_sorted. eapply base_reinforcement_order; eauto.
  - (* Elizabeth *)
    unfold DefensiveStrategy.get_best_reinforcement_territories in H.
    inv_bind H. destruct x as [[l0 s0] g0]. inv_bind H.
    inversion H; subst; clear H.
    apply reinforcement_order_sorted. eapply base_reinforcement_order; eauto.
Qed.
End Reinforcement.

(** C7. For every class of agent and owned list whose members are all on
    the board, the list returned by [get_best_reinforcement_territories]
    is a permutation of the set of front-line owned territories (owned
    territories with a neighbour on the board that the player does not
    own), each listed once; when there is no such territory it is a
    permutation of the full owned list.  In both cases it holds no
    identifier from outside the input. *)
Theorem reinforcement_is_permutation :
  forall (k : Strategy) (b : GameBoard.t) (self s : Agent) (player : string)
    (owned l : list string) (g g' : Rng),
    (forall t, In t owned -> on_board b t) ->
    get_best_reinforcement_territories k b self player owned g = Ok (l, s, g') ->
    ((exists t, In t owned /\ front_line b player t) ->
     NoDup l
     /\ (forall t, In t l <-> In t owned /\ front_line b player t)
     /\ Permutation l (nodup string_dec (front_line_of b player owned)))
    /\ (~ (exists t, In t owned /\ front_line b player t) -> Permutation l owned)
    /\ (forall t, In t l -> In t owned).
Proof.
  intros k b self s player owned l g g' Hb H.
  pose proof (reinforcement_order_any b player owned Hb k self s g g' l H)
    as [H1 H2].
  assert (Hfl : forall t, In t (front_line_of b player owned)
                          <-> In t owned /\ front_line b player t).
  { intros t. unfold front_line_of. rewrite filter_In.
    rewrite is_front_line_territory_spec. tauto. }
  assert (Hcase : front_line_of b player owned <> []
                  <-> exists t, In t owned /\ front_line b player t).
  { split.
    - intros Hne. destruct (front_line_of b player owned) as [|t fl] eqn:E;
        [congruence|]. exists t. apply Hfl. try rewrite E. left; reflexivity.
    - intros [t Ht] E. apply Hfl in Ht. rewrite E in Ht. contradiction. }
  split; [|split].
  - intros Hex. apply Hcase in Hex. destruct (H1 Hex) as [Hnd Hin].
    split; [exact Hnd|]. split.
    + intros t. rewrite Hin. apply Hfl.
    + apply NoDup_Permutation; [exact Hnd | apply NoDup_nodup|].
      intros t. rewrite Hin. rewrite nodup_In. tauto.
  - intros Hnex. apply H2.
    destruct (list_eq_dec string_dec (front_line_of b player owned) [])
      as [E|E]; [exact E|].
    exfalso. apply Hnex. apply Hcase. exact E.
  - intros t Ht.
    destruct (list_eq_dec string_dec (front_line_of b player owned) [])
      as [E|E].
    + apply (Permutation_in _ (H2 E)). exact Ht.
    + destruct (H1 E) as [_ H3]. apply H3 in Ht. apply Hfl in Ht. tauto.
Qed.

Lemma square_owned_on_board :
  forall t, In t ["a"; "b"; "c"; "d"]%string -> on_board Examples.square t.
Proof.
  intros t Ht. simpl in Ht.
  destruct Ht as [E | [E | [E | [E | []]]]]; subst t; unfold on_board;
    vm_compute; discriminate.
Qed.

Lemma reinforcement_is_permutation_witness :
  In "d"%string ["a"; "b"; "c"; "d"]%string.
Proof.
  assert (Hrun : exists s g',
             get_best_reinforcement_territories
               Base Examples.square (Examples.fresh "P") "P"
               ["a"; "b"; "c"; "d"]%string Examples.halves
             = Ok (["d"]%string, s, g')).
  { eexists. eexists. vm_compute. reflexivity. }
  destruct Hrun as [s [g' Hrun]].
  apply (proj2 (proj2 (reinforcement_is_permutation
                         Base Examples.square (Examples.fresh "P") s "P"
                         ["a"; "b"; "c"; "d"]%string ["d"]%string
                         Examples.halves g' square_owned_on_board Hrun))).
  left. reflexivity.
Defined.

(* ------------------------------------------------------------------ *)
(** ** The target continent selector                                   *)
(* ------------------------------------------------------------------ *)

Section MaxBy.
Context {A : Type} (key : A -> Q).

Lemma max_by_loop (l : list A) :
  forall y0 x,
    fold_left
      (fun best x =>
         match best with
         | None => Some x
         | Some y => if Qle_bool (key x) (key y) then Some y else Some x
         end) l (Some y0) = Some x ->
    (x = y0 \/ In x l) /\ key y0 <= key x /\ forall y, In y l -> key y <= key x.
Proof.
  induction l as [|z l IH]; simpl; intros y0 x H.
  - inversion H; subst. split; [auto|]. split; [lra | contradiction].
  - destruct (Qle_bool (key z) (key y0)) eqn:E.
    + apply Qle_bool_iff in E. destruct (IH _ _ H) as [Hin [Hle Hall]].
      split; [tauto|]. split; [exact Hle|].
      intros y [Ey|Hy]; [subst; lra | auto].
    + apply Qle_bool_false in E. destruct (IH _ _ H) as [Hin [Hle Hall]].
      split; [destruct Hin as [Ex|Ix]; [subst; auto | auto]|]. split; [lra|].
      intros y [Ey|Hy]; [subst; exact Hle | auto].
Qed.

Lemma max_by_Some (l : list A) (x : A) :
  max_by key l = Some x -> In x l /\ forall y, In y l -> key y <= key x.
Proof.
  unfold max_by. destruct l as [|z l]; simpl; [discriminate|].
  intros H. apply max_by_loop in H. destruct H as [Hin [Hle Hall]].
  split; [destruct Hin as [Ex|Ix]; [subst; auto | auto]|].
  intros y [Ey|Hy]; [subst; exact Hle | auto].
Qed.

Lemma max_by_None (l : list A) : max_by key l = None -> l = [].
Proof.
  unfold max_by. destruct l as [|z l]; simpl; [reflexivity|].
  assert (G : forall l0 y0,
             fold_left
               (fun best x =>
                  match best with
                  | None => Some x
                  | Some y => if Qle_bool (key x) (key y) then Some y else Some x
                  end) l0 (Some y0) <> None).
  { induction l0 as [|w l0 IH]; simpl; intros y0; [discriminate|].
    destruct (Qle_bool (key w) (key y0)); apply IH. }
  intros H. exfalso. exact (G l z H).
Qed.
End MaxBy.

Lemma set_new_appends {V : Type} (d : Dict.t V) (k : string) (v : V) :
  ~ In k (Dict.keys d) -> Dict.set d k v = d ++ [(k, v)].
Proof.
  unfold Dict.keys. induction d as [|[k' v'] d IH]; simpl; intros H.
  - reflexivity.
  - destruct (String.eqb k' k) eqn:E.
    + apply String.eqb_eq in E. tauto.
    + f_equal. apply IH. tauto.
Qed.

(** With distinct keys the loop appends one weight per entry and takes
    one draw per entry. *)
Lemma weigh_loop (continent_control : Dict.t Q) (d : nat -> Q)
  (l : list (string * Q)) :
  forall (wp0 : Dict.t Q) (n : nat),
    NoDup (map fst l) ->
    (forall k, In k (map fst l) -> ~ In k (Dict.keys wp0)) ->
    fold_left
      (fun '(wp, g) '(continent_name, priority) =>
         let control_level :=
           Dict.get_default continent_control continent_name 0 in
         let '(u, g1) := random g in
         let weighted_priority :=
           priority * ((control_level + 0.1) ^ 2) * (0.8 + 0.4 * u) in
         (Dict.set wp continent_name weighted_priority, g1))
      l (wp0, mkRng d n)
    = (wp0 ++ weigh continent_control d n l, mkRng d (n + List.length l)).
Proof.
  induction l as [|[cn p] l IH]; intros wp0 n Hnd Hfresh.
  - simpl. rewrite app_nil_r. rewrite Nat.add_0_r. reflexivity.
  - simpl in Hnd. inversion Hnd as [|? ? Hn Hnd']; subst.
    cbn [fold_left weigh random draws pos].
    rewrite set_new_appends by (apply Hfresh; left; reflexivity).
    rewrite IH.
    + rewrite <- app_assoc. simpl. rewrite Nat.add_succ_r. reflexivity.
    + exact Hnd'.
    + intros k Hk. unfold Dict.keys. rewrite map_app, in_app_iff. simpl.
      intros [H|[H|[]]].
      * apply (Hfresh k); [right; exact Hk | exact H].
      * subst k. contradiction.
Qed.

Lemma weigh_nth (continent_control : Dict.t Q) (d : nat -> Q)
  (l : list (string * Q)) :
  forall n i cn w,
    nth_error (weigh continent_control d n l) i = Some (cn, w) ->
    exists p,
      nth_error l i = Some (cn, p)
      /\ w = p * ((Dict.get_default continent_control cn 0 + 0.1) ^ 2)
             * (0.8 + 0.4 * d (n + i)%nat).
Proof.
  induction l as [|[cn0 p0] l IH]; intros n i cn w H.
  - destruct i; discriminate.
  - destruct i as [|i]; simpl in H.
    + inversion H; subst. exists p0. rewrite Nat.add_0_r. auto.
    + apply IH in H. destruct H as [p [Hp Hw]]. exists p.
      split; [exact Hp|]. rewrite Hw.
      replace (n + S i)%nat with (S n + i)%nat by lia. reflexivity.
Qed.

Lemma weigh_nth_inv (continent_control : Dict.t Q) (d : nat -> Q)
  (l : list (string * Q)) :
  forall n i cn p,
    nth_error l i = Some (cn, p) ->
    nth_error (weigh continent_control d n l) i
    = Some (cn, p * ((Dict.get_default continent_control cn 0 + 0.1) ^ 2)
                * (0.8 + 0.4 * d (n + i)%nat)).
Proof.
  induction l as [|[cn0 p0] l IH]; intros n i cn p H.
  - destruct i; discriminate.
  - destruct i as [|i]; simpl in H.
    + inversion H; subst. simpl. rewrite Nat.add_0_r. reflexivity.
    + simpl. rewrite (IH (S n) i cn p H).
      replace (n + S i)%nat with (S n + i)%nat by lia. reflexivity.
Qed.

Lemma player_control_spec (b : GameBoard.t) (player : string) (ctl : Dict.t Q) :
  AIStrategy.get_player_continent_control b player = Ok ctl ->
  Dict.wf (GameBoard.continents b) ->
  forall cn c,
    In (cn, c) (GameBoard.continents b) ->
    exists v, Dict.get ctl cn = Some v /\ v == control b player c.
Proof.
  intros H W cn c Hin.
  unfold AIStrategy.get_player_continent_control in H.
  set (val := fun x : string * Continent.t =>
                if (member_count (snd x) =? 0)%Z then Ok 0
                else
                  owned <- AIStrategy.count_owned
                             b player (Continent.territories (snd x)) ;;
                  truediv owned (member_count (snd x))).
  assert (Hfill : for_each (fill_body fst val)
                           (GameBoard.continents b) Dict.empty = Ok ctl).
  { rewrite <- H. unfold Dict.items. apply for_each_ext.
    intros d [cn0 c0]. unfold fill_body, val, member_count. simpl.
    destruct (Z.of_nat (List.length (Continent.territories c0)) =? 0)%Z;
      [reflexivity|].
    destruct (AIStrategy.count_owned b player (Continent.territories c0));
      simpl; [|reflexivity].
    destruct (truediv a (Z.of_nat (List.length (Continent.territories c0))));
      reflexivity. }
  destruct (fill_loop _ _ _ _ _ Hfill cn) as [Hk _].
  destruct Hk as [[cn' c'] [v [Hx [Ek [Hv Hg]]]]].
  { apply in_map_iff. exists (cn, c). auto. }
  simpl in Ek. subst cn'.
  pose proof (get_In_wf _ _ _ W Hin) as G1.
  pose proof (get_In_wf _ _ _ W Hx) as G2.
  rewrite G1 in G2. inversion G2; subst c'; clear G2.
  exists v. split; [exact Hg|].
  unfold val in Hv. simpl in Hv. unfold control.
  destruct (member_count c =? 0)%Z eqn:ET.
  - inversion Hv; subst v. apply Z.eqb_eq in ET. rewrite ET.
    unfold Qdiv. change (/ inject_Z 0) with 0. ring.
  - inv_bind Hv. apply count_owned_spec in Hx0. destruct Hx0 as [Eo _].
    apply truediv_Ok in Hv. destruct Hv as [_ Ev]. subst. reflexivity.
Qed.

Lemma nth_error_keys {V : Type} (d : Dict.t V) (i : nat) (k : string) :
  nth_error (Dict.keys d) i = Some k -> exists v, nth_error d i = Some (k, v).
Proof.
  unfold Dict.keys. rewrite nth_error_map.
  destruct (nth_error d i) as [[k' v]|]; simpl; intros H; inversion H; subst.
  eauto.
Qed.

Lemma keys_nth_error {V : Type} (d : Dict.t V) (i : nat) (k : string) (v : V) :
  nth_error d i = Some (k, v) -> nth_error (Dict.keys d) i = Some k.
Proof.
  intros H. unfold Dict.keys. rewrite nth_error_map. rewrite H. reflexivity.
Qed.

Lemma Qsquare (x : Q) : x ^ 2 == x * x.
Proof. simpl. reflexivity. Qed.

Lemma jitter_bounds (g : Rng) (i : nat) :
  (forall n, 0 <= draws g n /\ draws g n < 1) ->
  0.8 <= jitter g i /\ jitter g i <= 1.2.
Proof.
  intros H. unfold jitter. destruct (H (pos g + i)%nat). split; lra.
Qed.

(** C5. When the agent has valued the continents of the board,
    [choose_target_continent] returns a continent whose weight
    [priority(C) * (control(C) + 0.1)^2 * U] is the greatest, where
    [control(C)] is the fraction of C's territories held by the player
    and each continent has its own U, [0.8 + 0.4 * r] for the draw [r]
    taken for it, so every U lies between 0.8 and 1.2; on a board without
    continents it returns none. *)
Theorem choose_target_continent_maximal :
  forall (b : GameBoard.t) (self : Agent) (player : string) (g g' : Rng)
    (r : option string),
    Dict.wf (GameBoard.continents b) ->
    priorities_cover b self ->
    (forall n, 0 <= draws g n /\ draws g n < 1) ->
    AIStrategy.choose_target_continent b self player g = Ok (r, g') ->
    (GameBoard.continents b = [] -> r = None)
    /\ (GameBoard.continents b <> [] ->
        exists i cn c,
          r = Some cn
          /\ nth_error (GameBoard.continents b) i = Some (cn, c)
          /\ forall j cn' c',
               nth_error (GameBoard.continents b) j = Some (cn', c') ->
               target_weight b self player g j cn' c'
               <= target_weight b self player g i cn c)
    /\ (forall i, 0.8 <= jitter g i /\ jitter g i <= 1.2).
Proof.
  intros b self player g g' r W Hcov Hdraws H.
  split; [|split]; [| |intros i; apply jitter_bounds; exact Hdraws].
  - (* no continents *)
    intros He. unfold priorities_cover in Hcov. rewrite He in Hcov.
    unfold AIStrategy.choose_target_continent in H.
    apply bind_Ok in H. destruct H as [ctl [Hctl H]].
    destruct (continent_priorities self) as [|x l]; [|discriminate].
    simpl in H. inversion H. reflexivity.
  - (* at least one continent *)
    intros Hne. unfold AIStrategy.choose_target_continent in H.
    apply bind_Ok in H. destruct H as [ctl [Hctl H]].
    assert (Wp : NoDup (map fst (continent_priorities self))).
    { unfold priorities_cover, Dict.keys in Hcov. rewrite Hcov. exact W. }
    destruct g as [d n]. unfold Dict.items in H.
    pose proof (weigh_loop ctl d (continent_priorities self) Dict.empty n Wp)
      as Hloop.
    cbv zeta in Hloop, H. rewrite Hloop in H by (intros k _ []). clear Hloop.
    unfold Dict.empty in H. simpl app in H.
    set (wp := weigh ctl d n (continent_priorities self)) in *.
    destruct (max_by snd wp) as [[cn w]|] eqn:Emax.
    + inversion H; subst r g'; clear H.
      apply max_by_Some in Emax. destruct Emax as [Hin Hmax].
      apply In_nth_error in Hin. destruct Hin as [i Hi].
      destruct (weigh_nth _ _ _ _ _ _ _ Hi) as [p [Hp Hw]].
      pose proof (keys_nth_error _ _ _ _ Hp) as Hk.
      unfold priorities_cover in Hcov. rewrite Hcov in Hk.
      destruct (nth_error_keys _ _ _ Hk) as [c Hc].
      exists i, cn, c. split; [reflexivity|]. split; [exact Hc|].
      assert (Hweight : forall j cn' c' p',
                 nth_error (GameBoard.continents b) j = Some (cn', c') ->
                 nth_error (continent_priorities self) j = Some (cn', p') ->
                 p' * ((Dict.get_default ctl cn' 0 + 0.1) ^ 2)
                 * (0.8 + 0.4 * d (n + j)%nat)
                 == target_weight b self player (mkRng d n) j cn' c').
      { intros j cn' c' p' Hc' Hp'.
        unfold target_weight, jitter, Dict.get_default. cbn [draws pos].
        apply nth_error_In in Hc'. apply nth_error_In in Hp'.
        rewrite (get_In_wf (continent_priorities self) cn' p' Wp Hp').
        destruct (player_control_spec b player ctl Hctl W cn' c' Hc')
          as [v [Hg Hv]].
        rewrite Hg. rewrite !Qsquare. rewrite Hv. reflexivity. }
      intros j cn' c' Hc'.
      pose proof (keys_nth_error _ _ _ _ Hc') as Hk'.
      rewrite <- Hcov in Hk'.
      destruct (nth_error_keys _ _ _ Hk') as [p' Hp'].
      rewrite <- (Hweight j cn' c' p' Hc' Hp').
      rewrite <- (Hweight i cn c p Hc Hp).
      rewrite <- Hw.
      pose proof (weigh_nth_inv ctl d _ n j cn' p' Hp') as Hj.
      apply nth_error_In in Hj. apply Hmax in Hj. simpl in Hj. exact Hj.
    + exfalso. apply max_by_None in Emax.
      unfold priorities_cover in Hcov.
      destruct (continent_priorities self) as [|[cn0 p0] l] eqn:Ecp.
      * simpl in Hcov. destruct (GameBoard.continents b); [congruence|].
        discriminate.
      * unfold wp in Emax. simpl in Emax. discriminate.
Qed.

(** A completed valuation leaves the priority table covering the
    continents of the board, whether it started empty or covering. *)
Lemma fill_loop_keys_fresh {V X : Type} (key : X -> string) (val : X -> result V)
  (l : list X) :
  forall d0 d,
    for_each (fill_body key val) l d0 = Ok d ->
    NoDup (map key l) ->
    (forall k, In k (map key l) -> ~ In k (Dict.keys d0)) ->
    Dict.keys d = Dict.keys d0 ++ map key l.
Proof.
  induction l as [|x l IH]; intros d0 d H Hnd Hfresh.
  - simpl in H. inversion H; subst. simpl. rewrite app_nil_r. reflexivity.
  - simpl in H. apply bind_Ok in H. destruct H as [d1 [H1 H]].
    unfold fill_body in H1. apply bind_Ok in H1. destruct H1 as [v [Hv H1]].
    inversion H1; subst d1; clear H1.
    inversion Hnd as [|? ? Hn Hnd']; subst.
    rewrite (IH _ _ H Hnd').
    + rewrite keys_set_new by (apply Hfresh; left; reflexivity).
      rewrite <- app_assoc. reflexivity.
    + intros k Hk. rewrite keys_set_In. intros [E|I].
      * subst k. contradiction.
      * apply (Hfresh k); [right; exact Hk | exact I].
Qed.

Lemma fill_loop_keys_known {V X : Type} (key : X -> string) (val : X -> result V)
  (l : list X) :
  forall d0 d,
    for_each (fill_body key val) l d0 = Ok d ->
    (forall k, In k (map key l) -> In k (Dict.keys d0)) ->
    Dict.keys d = Dict.keys d0.
Proof.
  induction l as [|x l IH]; intros d0 d H Hknown.
  - simpl in H. inversion H; subst. reflexivity.
  - simpl in H. apply bind_Ok in H. destruct H as [d1 [H1 H]].
    unfold fill_body in H1. apply bind_Ok in H1. destruct H1 as [v [Hv H1]].
    inversion H1; subst d1; clear H1.
    rewrite (IH _ _ H).
    + apply keys_set_known. apply Hknown. left; reflexivity.
    + intros k Hk. rewrite keys_set_In. right. apply Hknown. right; exact Hk.
Qed.

Lemma valuation_covers (k : Strategy) (b : GameBoard.t) (self s : Agent) :
  Dict.wf (GameBoard.continents b) ->
  continent_priorities self = Dict.empty \/ priorities_cover b self ->
  calculate_strategic_values k b self = Ok s ->
  priorities_cover b s.
Proof.
  intros W Hstart H.
  apply calculate_strategic_values_priorities in H.
  destruct H as [s0 [H0 [Ep _]]]. unfold priorities_cover. rewrite Ep.
  apply calculate_strategic_values_base_inv in H0. destruct H0 as [Hloop _].
  destruct Hstart as [He|Hc].
  - rewrite He in Hloop.
    rewrite (fill_loop_keys_fresh _ _ _ _ _ Hloop W) by (intros k0 _ []).
    reflexivity.
  - rewrite (fill_loop_keys_known _ _ _ _ _ Hloop).
    + exact Hc.
    + intros k0 Hk0. rewrite Hc. exact Hk0.
Qed.

Lemma halves_in_range : forall n, 0 <= draws Examples.halves n
                                  /\ draws Examples.halves n < 1.
Proof. intros n. simpl. split; lra. Qed.

Lemma square_continents_wf : Dict.wf (GameBoard.continents Examples.square).
Proof.
  unfold Dict.wf. simpl.
  repeat (constructor; [simpl; intuition discriminate|]). constructor.
Qed.

Lemma choose_target_continent_maximal_witness :
  0.8 <= jitter Examples.halves 0 /\ jitter Examples.halves 0 <= 1.2.
Proof.
  generalize 0%nat.
  eapply (choose_target_continent_maximal
            Examples.square Examples.valued "P" Examples.halves _ _).
  - exact square_continents_wf.
  - vm_compute. reflexivity.
  - exact halves_in_range.
  - vm_compute. reflexivity.
Defined.

(** A freshly created agent covers the continents of its board. *)
Lemma init_covers (k : Strategy) (b : GameBoard.t) (player : string)
  (g g' : Rng) (self : Agent) :
  Dict.wf (GameBoard.continents b) ->
  init k b player g = Ok (self, g') ->
  priorities_cover b self.
Proof.
  intros W H. unfold init in H.
  apply bind_Ok in H. destruct H as [s [Hs H]].
  assert (Hc : priorities_cover b s).
  { apply (valuation_covers k b
             (mkAgent player Dict.empty Dict.empty None 1) s W);
      [left; reflexivity | exact Hs]. }
  destruct k; try (inversion H; subst; exact Hc);
    destruct (random g) as [u g1]; inversion H; subst; exact Hc.
Qed.

(* ------------------------------------------------------------------ *)
(** ** The attack opportunity score                                    *)
(* ------------------------------------------------------------------ *)

Lemma for_each_related {A S : Type} (R : S -> S -> Prop)
  (f g : S -> A -> result S) (l : list A) :
  (forall s s' x r r',
      In x l -> R s s' -> f s x = Ok r -> g s' x = Ok r' -> R r r') ->
  forall s s' r r',
    R s s' -> for_each f l s = Ok r -> for_each g l s' = Ok r' -> R r r'.
Proof.
  induction l as [|x l IH]; intros Hstep s s' r r' HR Hf Hg; simpl in Hf, Hg.
  - inversion Hf; inversion Hg; subst. exact HR.
  - apply bind_Ok in Hf. destruct Hf as [s1 [Hf1 Hf]].
    apply bind_Ok in Hg. destruct Hg as [s1' [Hg1 Hg]].
    apply (IH (fun s0 s0' y r0 r0' Hy => Hstep s0 s0' y r0 r0' (or_intror Hy))
              s1 s1' r r'); auto.
    eapply Hstep; eauto. left; reflexivity.
Qed.

Lemma py_min_upper (x y : Q) : py_min x y <= x.
Proof. unfold py_min. qcases; lra. Qed.

Lemma py_min_monotone (x y z : Q) : y <= z -> py_min x y <= py_min x z.
Proof. intros H. unfold py_min. qcases; lra. Qed.

Lemma py_min_nonneg (x y : Q) : 0 <= x -> 0 <= y -> 0 <= py_min x y.
Proof. intros Hx Hy. unfold py_min. qcases; lra. Qed.

Section ArmyUpdate.
Variable b : GameBoard.t.
Variable n : string.
Variable a : Z.

Lemma get_territory_set_armies (x : string) :
  GameBoard.get_territory (set_armies b n a) x
  = if String.eqb x n
    then option_map (with_armies a) (GameBoard.get_territory b x)
    else GameBoard.get_territory b x.
Proof.
  unfold GameBoard.get_territory, set_armies. simpl.
  induction (GameBoard.territories b) as [|[k t] d IH]; simpl.
  - destruct (String.eqb x n); reflexivity.
  - destruct (String.eqb k n) eqn:Ekn; simpl.
    + destruct (String.eqb k x) eqn:Ekx.
      * apply String.eqb_eq in Ekn, Ekx. subst k x.
        rewrite String.eqb_refl. reflexivity.
      * exact IH.
    + destruct (String.eqb k x) eqn:Ekx.
      * apply String.eqb_eq in Ekx. subst k. rewrite Ekn. reflexivity.
      * exact IH.
Qed.

Lemma owned_by_with_armies (t : Territory.t) (p : string) :
  Territory.owned_by (with_armies a t) p = Territory.owned_by t p.
Proof. reflexivity. Qed.

(** Changing an army count changes neither who holds what nor which
    territories a continent still needs. *)
Lemma completion_set_armies (c player : string) :
  AIStrategy.get_continent_completion_territories (set_armies b n a) c player
  = AIStrategy.get_continent_completion_territories b c player.
Proof.
  unfold AIStrategy.get_continent_completion_territories.
  change (GameBoard.continents (set_armies b n a)) with (GameBoard.continents b).
  destruct (Dict.get (GameBoard.continents b) c) as [cont|]; [|reflexivity].
  apply for_each_ext. intros needed t.
  rewrite get_territory_set_armies.
  destruct (String.eqb t n); [|reflexivity].
  destruct (GameBoard.get_territory b t); reflexivity.
Qed.

Lemma capture_value_set_armies (self : Agent) (x player : string) :
  AIStrategy.capture_value (set_armies b n a) self x player
  = AIStrategy.capture_value b self x player.
Proof.
  unfold AIStrategy.capture_value.
  change (AIStrategy.get_continent_for_territory (set_armies b n a) x)
    with (AIStrategy.get_continent_for_territory b x).
  change (AIStrategy.in_target_continent (set_armies b n a) self x)
    with (AIStrategy.in_target_continent b self x).
  destruct (AIStrategy.get_continent_for_territory b x) as [c|]; [|reflexivity].
  rewrite completion_set_armies. reflexivity.
Qed.
End ArmyUpdate.

Lemma capture_value_nonneg (b : GameBoard.t) (self : Agent) (x player : string)
  (cv : Q) :
  nonnegative_values self ->
  AIStrategy.capture_value b self x player = Ok cv -> 0 <= cv.
Proof.
  intros Hnn H. unfold AIStrategy.capture_value in H.
  assert (H0 : 0 <= Dict.get_default (territory_values self) x 1.0).
  { unfold Dict.get_default.
    destruct (Dict.get (territory_values self) x) as [v|] eqn:E;
      [exact (Hnn x v E) | lra]. }
  set (v0 := Dict.get_default (territory_values self) x 1.0) in *.
  assert (H1 : 0 <= (if AIStrategy.in_target_continent b self x
                     then v0 * 2.0 else v0)).
  { destruct (AIStrategy.in_target_continent b self x); lra. }
  set (v1 := if AIStrategy.in_target_continent b self x then v0 * 2.0 else v0)
    in *.
  destruct (AIStrategy.get_continent_for_territory b x) as [c|];
    [|inversion H; subst; exact H1].
  destruct (truthy (Some c)); [|inversion H; subst; exact H1].
  apply bind_Ok in H. destruct H as [needed [_ H]].
  inversion H; subst. destruct (AIStrategy.only_needs needed x); lra.
Qed.

Lemma opportunity_score_unfold (b : GameBoard.t) (self : Agent)
  (from_territory player : string) :
  AIStrategy.calculate_attack_opportunity_score b self from_territory player
  = match GameBoard.get_territory b from_territory with
    | None => Ok 0.0
    | Some territory_obj =>
        if negb (Territory.owned_by territory_obj player)
           || (Territory.armies territory_obj <=? 1)%Z
        then Ok 0.0
        else
          opportunity_score <-
            for_each (opportunity_step b self player territory_obj)
                     (GameBoard.get_adjacent_territories b from_territory) 0.0 ;;
          Ok (py_min 3.0 opportunity_score)
    end.
Proof. reflexivity. Qed.

Lemma opportunity_step_nonneg (b : GameBoard.t) (self : Agent)
  (player : string) (source : Territory.t) (s : Q) (x : string) (r : Q) :
  nonnegative_values self ->
  0 <= s -> opportunity_step b self player source s x = Ok r -> 0 <= r.
Proof.
  intros Hnn Hs H. unfold opportunity_step in H.
  destruct (GameBoard.get_territory b x) as [t|]; [|inversion H; subst; exact Hs].
  destruct (Territory.owned_by t player); [inversion H; subst; exact Hs|].
  cbv zeta in H.
  destruct (Qle_bool 1.5 _) eqn:E; [|inversion H; subst; exact Hs].
  apply Qle_bool_iff in E.
  apply bind_Ok in H. destruct H as [cv [Hcv H]]. inversion H; subst.
  apply (capture_value_nonneg _ _ _ _ _ Hnn) in Hcv. nra.
Qed.

(** C8, as amended.  When no stored territory value is negative, the
    result of [calculate_attack_opportunity_score] lies between 0 and 3.0,
    and it does not decrease when the army count of one neighbour [n] of
    the source changes so that its advantage ratio (source armies over
    that neighbour's armies) does not decrease, everything else, and so
    every capture value, being unchanged. *)
Theorem opportunity_score_monotone_bounded :
  forall (b : GameBoard.t) (self : Agent) (from_territory player n : string)
    (a : Z) (v v' : Q),
    nonnegative_values self ->
    n <> from_territory ->
    (forall source neighbour,
        GameBoard.get_territory b from_territory = Some source ->
        GameBoard.get_territory b n = Some neighbour ->
        AIStrategy.advantage_of (Territory.armies source)
                                (Territory.armies neighbour)
        <= AIStrategy.advantage_of (Territory.armies source) a) ->
    AIStrategy.calculate_attack_opportunity_score b self from_territory player
    = Ok v ->
    AIStrategy.calculate_attack_opportunity_score
      (set_armies b n a) self from_territory player = Ok v' ->
    v <= v' /\ 0 <= v /\ v <= 3.0.
Proof.
  intros b self f p n a v v' Hnn Hne Hadv H H'.
  rewrite opportunity_score_unfold in H, H'.
  rewrite get_territory_set_armies in H'.
  assert (Efn : String.eqb f n = false)
    by (apply String.eqb_neq; congruence).
  rewrite Efn in H'.
  destruct (GameBoard.get_territory b f) as [src|] eqn:Esrc;
    [|inversion H; inversion H'; subst; repeat split; lra].
  destruct (negb (Territory.owned_by src p) || (Territory.armies src <=? 1)%Z);
    [inversion H; inversion H'; subst; repeat split; lra|].
  apply bind_Ok in H. destruct H as [s [Hs H]].
  apply bind_Ok in H'. destruct H' as [s' [Hs' H']].
  inversion H; subst v; clear H. inversion H'; subst v'; clear H'.
  change (GameBoard.get_adjacent_territories (set_armies b n a) f)
    with (GameBoard.get_adjacent_territories b f) in Hs'.
  assert (Hs0 : 0 <= s).
  { revert Hs. apply for_each_invariant; [|lra].
    intros s0 x s1 _ H0 H1. eapply opportunity_step_nonneg; eauto. }
  assert (Hle : s <= s').
  { revert Hs Hs'.
    apply (for_each_related Qle); [|lra].
    intros s0 s0' x r r' _ HR Hr Hr'.
    unfold opportunity_step in Hr, Hr'.
    rewrite get_territory_set_armies in Hr'.
    rewrite capture_value_set_armies in Hr'.
    destruct (String.eqb x n) eqn:Exn.
    - apply String.eqb_eq in Exn. subst x.
      destruct (GameBoard.get_territory b n) as [nt|] eqn:Ent;
        [|inversion Hr; inversion Hr'; subst; exact HR].
      cbn [option_map] in Hr'.
      try rewrite owned_by_with_armies in Hr'.
      try change (Territory.owned_by (with_armies a nt) p)
        with (Territory.owned_by nt p) in Hr'.
      destruct (Territory.owned_by nt p);
        [inversion Hr; inversion Hr'; subst; exact HR|].
      cbv zeta in Hr, Hr'.
      change (Territory.armies (with_armies a nt)) with a in Hr'.
      specialize (Hadv src nt eq_refl eq_refl).
      destruct (Qle_bool 1.5 (AIStrategy.advantage_of (Territory.armies src) a))
        eqn:E'; [apply Qle_bool_iff in E' | apply Qle_bool_false in E'];
        (destruct (Qle_bool 1.5 (AIStrategy.advantage_of
                                   (Territory.armies src) (Territory.armies nt)))
           eqn:E; [apply Qle_bool_iff in E | apply Qle_bool_false in E]).
      + apply bind_Ok in Hr. destruct Hr as [cv [Hcv Hr]].
        apply bind_Ok in Hr'. destruct Hr' as [cv' [Hcv' Hr']].
        rewrite Hcv in Hcv'. inversion Hcv'; subst cv'.
        inversion Hr; inversion Hr'; subst.
        apply (capture_value_nonneg _ _ _ _ _ Hnn) in Hcv. nra.
      + apply bind_Ok in Hr'. destruct Hr' as [cv' [Hcv' Hr']].
        inversion Hr; inversion Hr'; subst.
        apply (capture_value_nonneg _ _ _ _ _ Hnn) in Hcv'. nra.
      + exfalso. lra.
      + inversion Hr; inversion Hr'; subst. exact HR.
    - destruct (GameBoard.get_territory b x) as [xt|];
        [|inversion Hr; inversion Hr'; subst; exact HR].
      destruct (Territory.owned_by xt p);
        [inversion Hr; inversion Hr'; subst; exact HR|].
      cbv zeta in Hr, Hr'.
      destruct (Qle_bool 1.5 _);
        [|inversion Hr; inversion Hr'; subst; exact HR].
      apply bind_Ok in Hr. destruct Hr as [cv [Hcv Hr]].
      apply bind_Ok in Hr'. destruct Hr' as [cv' [Hcv' Hr']].
      rewrite Hcv in Hcv'. inversion Hcv'; subst cv'.
      inversion Hr; inversion Hr'; subst. lra. }
  split; [apply py_min_monotone; exact Hle|]. split.
  - apply py_min_nonneg; [lra | exact Hs0].
  - apply py_min_upper.
Qed.

Lemma nonnegative_values_of_list (self : Agent) :
  Forall (fun kv : string * Q => 0 <= snd kv) (territory_values self) ->
  nonnegative_values self.
Proof.
  intros H k v Hg. apply get_Some_In in Hg.
  rewrite Forall_forall in H. exact (H (k, v) Hg).
Qed.

Lemma valued_nonnegative : nonnegative_values Examples.valued.
Proof.
  apply nonnegative_values_of_list. unfold Examples.valued. simpl.
  repeat (constructor; [simpl; unfold Qle; simpl; lia|]). constructor.
Qed.

Lemma opportunity_score_monotone_bounded_witness :
  exists v,
    AIStrategy.calculate_attack_opportunity_score
      Examples.square Examples.valued "d" "P" = Ok v
    /\ 0 <= v /\ v <= 3.0.
Proof.
  assert (H : exists v,
             AIStrategy.calculate_attack_opportunity_score
               Examples.square Examples.valued "d" "P" = Ok v)
    by (eexists; vm_compute; reflexivity).
  destruct H as [v Hv].
  assert (H' : exists v',
             AIStrategy.calculate_attack_opportunity_score
               (set_armies Examples.square "x" 0) Examples.valued "d" "P"
             = Ok v')
    by (eexists; vm_compute; reflexivity).
  destruct H' as [v' Hv'].
  exists v. split; [exact Hv|].
  apply (opportunity_score_monotone_bounded
           Examples.square Examples.valued "d" "P" "x" 0 v v').
  - exact valued_nonnegative.
  - intros E. discriminate E.
  - intros source neighbour Hs Hn.
    vm_compute in Hs, Hn. inversion Hs; inversion Hn; subst.
    vm_compute. intros E. discriminate E.
  - exact Hv.
  - exact Hv'.
Defined.

(** C8 as stated fails: the lower end of the interval is not enforced.  On
    the board [Examples.sprawl], whose continent has seventeen members,
    the valuation stores negative territory values and the opportunity
    score of "s" is negative. *)
Lemma opportunity_score_negative :
  AIStrategy.calculate_strategic_values Examples.sprawl (Examples.fresh "P")
  = Ok Examples.sprawl_valued
  /\ exists v,
       AIStrategy.calculate_attack_opportunity_score
         Examples.sprawl Examples.sprawl_valued "s" "P" = Ok v
       /\ ~ (0 <= v /\ v <= 3.0).
Proof.
  split; [vm_compute; reflexivity|].
  eexists. split; [vm_compute; reflexivity|].
  intros [H _]. vm_compute in H. apply H. reflexivity.
Qed.

(* ------------------------------------------------------------------ *)
(** ** The fortification planner                                       *)
(* ------------------------------------------------------------------ *)

(** On a board with the borders of [Examples.isolated] every owned path
    that starts in "a" or "b" stays there. *)
Lemma isolated_paths_stay (b : GameBoard.t) (x y : string) :
  GameBoard.adjacencies b = GameBoard.adjacencies Examples.isolated ->
  owned_path b Examples.isolated_owned x y ->
  x = "a"%string \/ x = "b"%string -> y = "a"%string \/ y = "b"%string.
Proof.
  intros Hb.
  assert (Hedge : forall u w,
             owned_edge b Examples.isolated_owned u w ->
             u = "a"%string \/ u = "b"%string ->
             w = "a"%string \/ w = "b"%string).
  { intros u w [_ [Hw Hadj]] Hu.
    unfold GameBoard.get_adjacent_territories in Hadj. rewrite Hb in Hadj.
    destruct Hu as [E|E]; subst u; vm_compute in Hadj.
    - destruct Hadj as [E|[]]. right. symmetry. exact E.
    - destruct Hadj as [E|[E|[]]]; [left; symmetry; exact E|].
      subst w. vm_compute in Hw.
      destruct Hw as [E|[E|[E|[]]]]; discriminate E. }
  intros H. induction H as [u w He | u w z He _ IH]; intros Hu.
  - exact (Hedge u w He Hu).
  - apply IH. exact (Hedge u w He Hu).
Qed.

(** C1, on the code.  On the board [Examples.isolated] the base planner
    moves two armies from "a" to its neighbour "b"; the planner of Genghis
    Khan replaces the destination by "c", the better connected front-line
    territory, which no path of owned territories joins to "a". *)
Theorem genghis_khan_fortifies_unreachable :
  get_best_fortification_move
    Base Examples.isolated (Examples.fresh "P") "P" Examples.isolated_owned
  = Ok (Some ("a", "b", 2%Z))%string
  /\ get_best_fortification_move
       GenghisKhan Examples.isolated (Examples.fresh "P") "P"
       Examples.isolated_owned
     = Ok (Some ("a", "c", 2%Z))%string
  /\ ~ owned_path Examples.isolated Examples.isolated_owned "a" "c".
Proof.
  split; [vm_compute; reflexivity|]. split; [vm_compute; reflexivity|].
  intros H. apply isolated_paths_stay in H; [|reflexivity|left; reflexivity].
  destruct H as [E|E]; discriminate E.
Qed.

(** The planner of Sun Tzu has the same defect: it replaces the
    destination by the threatened gateway "c". *)
Lemma sun_tzu_fortifies_unreachable :
  get_best_fortification_move
    SunTzu Examples.isolated_in_continents (Examples.fresh "P") "P"
    Examples.isolated_owned
  = Ok (Some ("a", "c", 2%Z))%string
  /\ ~ owned_path Examples.isolated_in_continents Examples.isolated_owned
        "a" "c".
Proof.
  split; [vm_compute; reflexivity|].
  intros H. apply isolated_paths_stay in H; [|reflexivity|left; reflexivity].
  destruct H as [E|E]; discriminate E.
Qed.

Section FortificationSound.
Variable b : GameBoard.t.
Variable player : string.
Variable owned : list string.

Lemma path_snoc (x y z : string) :
  owned_path b owned x y -> owned_edge b owned y z -> owned_path b owned x z.
Proof.
  intros H. induction H as [u w He | u w v He _ IH]; intros Hz.
  - eapply path_step; [exact He | apply path_edge; exact Hz].
  - eapply path_step; [exact He | apply IH; exact Hz].
Qed.

(** The graph built by the planner only has edges between owned
    neighbours. *)
Lemma graph_neighbors (x y : string) :
  In y (Dict.get_default (AIStrategy.build_territory_graph b owned) x []) ->
  owned_edge b owned x y.
Proof.
  unfold AIStrategy.build_territory_graph.
  set (val := fun t : string =>
                @Ok (list string)
                    (filter (fun adj_name => mem adj_name owned)
                            (GameBoard.get_adjacent_territories b t))).
  assert (Hfill :
    for_each (fill_body (fun t : string => t) val) owned Dict.empty
    = Ok (fold_left
            (fun territory_graph terr_name =>
               Dict.set territory_graph terr_name
                 (filter (fun adj_name => mem adj_name owned)
                         (GameBoard.get_adjacent_territories b terr_name)))
            owned Dict.empty)).
  { rewrite <- for_each_pure. apply for_each_ext. intros d t. reflexivity. }
  destruct (fill_loop _ _ _ _ _ Hfill x) as [Hin Hout].
  unfold Dict.get_default.
  destruct (in_dec string_dec x (map (fun t : string => t) owned)) as [I|N].
  - destruct (Hin I) as [t [v [Ht [Et [Hv Hg]]]]]. subst t.
    rewrite Hg. unfold val in Hv. inversion Hv; subst v. intros Hy.
    apply filter_In in Hy. destruct Hy as [Hadj Hmem].
    apply mem_In in Hmem. rewrite map_id in I. repeat split; assumption.
  - rewrite (Hout N). simpl. contradiction.
Qed.

Variable from_terr_name : string.

Lemma reached_step (current neighbor : string) :
  reached b owned from_terr_name current -> owned_edge b owned current neighbor ->
  owned_path b owned from_terr_name neighbor.
Proof.
  intros [E|H] He.
  - subst current. apply path_edge. exact He.
  - eapply path_snoc; eauto.
Qed.

Lemma enqueue_neighbors_reached (path neighbors : list string)
  (current : string) :
  reached b owned from_terr_name current ->
  (forall nb, In nb neighbors -> owned_edge b owned current nb) ->
  forall visited queue,
    Forall (fun e : string * list string => reached b owned from_terr_name (fst e)) queue ->
    Forall (fun e : string * list string => reached b owned from_terr_name (fst e))
           (snd (AIStrategy.enqueue_neighbors path neighbors visited queue)).
Proof.
  intros Hcur Hedges visited queue Hq.
  unfold AIStrategy.enqueue_neighbors.
  apply fold_left_invariant
    with (P := fun vq : list string * list (string * list string) =>
                 Forall (fun e => reached b owned from_terr_name (fst e)) (snd vq));
    [|exact Hq].
  intros [v q] nb Hnb Hvq. simpl in Hvq.
  destruct (mem nb v); simpl; [exact Hvq|].
  apply Forall_app. split; [exact Hvq|].
  constructor; [|constructor]. simpl. right.
  apply (reached_step current); [exact Hcur | apply Hedges; exact Hnb].
Qed.

(** Every front-line territory found by the search is reachable from
    the source. *)
Lemma bfs_sound (front : list string) :
  forall fuel visited queue acc,
    Forall (fun e : string * list string => reached b owned from_terr_name (fst e)) queue ->
    Forall (fun e : string * list string =>
              owned_path b owned from_terr_name (fst e) /\ In (fst e) front) acc ->
    Forall (fun e : string * list string =>
              owned_path b owned from_terr_name (fst e) /\ In (fst e) front)
           (AIStrategy.bfs fuel (AIStrategy.build_territory_graph b owned)
                           front from_terr_name visited queue acc).
Proof.
  induction fuel as [|fuel IH]; intros visited queue acc Hq Hacc; simpl.
  - exact Hacc.
  - destruct queue as [|[current path] queue]; [exact Hacc|].
    inversion Hq as [|? ? Hcur Hq']; subst. simpl in Hcur.
    destruct (negb (String.eqb current from_terr_name) && mem current front)
      eqn:E.
    + apply IH; [exact Hq'|].
      apply Forall_app. split; [exact Hacc|].
      constructor; [|constructor]. simpl.
      apply andb_true_iff in E. destruct E as [E1 E2].
      apply negb_true_iff in E1. apply String.eqb_neq in E1.
      apply mem_In in E2. split; [|exact E2].
      destruct Hcur as [Ec|Hp]; [contradiction | exact Hp].
    + pose proof (enqueue_neighbors_reached path
                    (Dict.get_default (AIStrategy.build_territory_graph b owned)
                                      current [])
                    current Hcur (fun nb Hnb => graph_neighbors current nb Hnb)
                    visited queue Hq') as Hnext.
      destruct (AIStrategy.enqueue_neighbors path _ visited queue)
        as [visited' queue'].
      apply IH; [exact Hnext | exact Hacc].
Qed.
End FortificationSound.

Section PlannerSound.
Variable b : GameBoard.t.
Variable player : string.
Variable owned : list string.

Lemma good_candidate_intro (source destination : string) (t : Territory.t)
  (score : Q) :
  owned_path b owned source destination ->
  GameBoard.get_territory b source = Some t ->
  (1 < Territory.armies t)%Z ->
  AIStrategy.is_front_line_territory b destination player = true ->
  good_candidate b player owned
    (source, destination, Z.max 1 (Territory.armies t - 1), score).
Proof.
  intros Hp Hg Ha Hf. split; [|exact Hf]. simpl. split; [exact Hp|].
  exists t. split; [exact Hg | lia].
Qed.

Lemma base_fortification_sound (self : Agent) (move : string * string * Z) :
  AIStrategy.get_best_fortification_move b self player owned = Ok (Some move) ->
  sound_move b owned move
  /\ AIStrategy.is_front_line_territory b (snd (fst move)) player = true.
Proof.
  unfold AIStrategy.get_best_fortification_move. intros H.
  set (front := filter (fun t => AIStrategy.is_front_line_territory b t player)
                       owned) in *.
  assert (Hfront : forall t, In t front ->
                   In t owned
                   /\ AIStrategy.is_front_line_territory b t player = true).
  { intros t Ht. unfold front in Ht. apply filter_In in Ht. exact Ht. }
  apply bind_Ok in H. destruct H as [best1 [H1 H]].
  apply bind_Ok in H. destruct H as [best2 [H2 H]].
  assert (G1 : Forall (good_candidate b player owned) best1).
  { revert H1. apply for_each_invariant; [|constructor].
    intros s src s' Hsrc Hs.
    apply filter_In in Hsrc. destruct Hsrc as [Hsrc _].
    destruct (GameBoard.get_territory b src) as [from_terr|] eqn:Efrom;
      [|intros E; inversion E; subst; exact Hs].
    destruct (Territory.armies from_terr <=? 1)%Z eqn:Ea;
      [intros E; inversion E; subst; exact Hs|].
    apply Z.leb_gt in Ea.
    pose proof (bfs_sound b owned src front
                  (AIStrategy.bfs_fuel owned) [src] [(src, [])] []) as Hbfs.
    assert (Hfound :
      forall e, In e (AIStrategy.bfs (AIStrategy.bfs_fuel owned)
                        (AIStrategy.build_territory_graph b owned)
                        front src [src] [(src, [])] []) ->
                owned_path b owned src (fst e) /\ In (fst e) front).
    { apply Forall_forall. apply Hbfs.
      - constructor; [left; reflexivity | constructor].
      - constructor. }
    clear Hbfs.
    apply for_each_invariant; [|exact Hs].
    intros s1 [dst path] s1' Hdst Hs1.
    destruct (List.length path <? 1)%nat;
      [intros E; inversion E; subst; exact Hs1|].
    destruct (GameBoard.get_territory b dst) as [to_terr|];
      [|intros E; inversion E; subst; exact Hs1].
    intros E. apply bind_Ok in E. destruct E as [score [_ E]].
    inversion E; subst s1'; clear E.
    apply Forall_app. split; [exact Hs1|]. constructor; [|constructor].
    destruct (Hfound (dst, path) Hdst) as [Hp Hf].
    simpl in Hp, Hf.
    apply good_candidate_intro; auto. apply Hfront. exact Hf. }
  assert (G2 : Forall (good_candidate b player owned) best2).
  { destruct best1 as [|c1 best1]; [|inversion H2; subst; exact G1].
    revert H2. apply for_each_invariant; [|constructor].
    intros s src s' Hsrc Hs.
    destruct (Hfront src Hsrc) as [Hso _].
    destruct (GameBoard.get_territory b src) as [from_terr|] eqn:Efrom;
      [|intros E; inversion E; subst; exact Hs].
    destruct (Territory.armies from_terr <=? 1)%Z eqn:Ea;
      [intros E; inversion E; subst; exact Hs|].
    apply Z.leb_gt in Ea. cbv zeta.
    destruct (negb (Qle_bool _ 0.5));
      [intros E; inversion E; subst; exact Hs|].
    apply for_each_invariant; [|exact Hs].
    intros s1 dst s1' Hdst Hs1.
    destruct (mem dst front) eqn:Em;
      [|intros E; inversion E; subst; exact Hs1].
    apply mem_In in Em.
    destruct (GameBoard.get_territory b dst) as [to_terr|];
      [|intros E; inversion E; subst; exact Hs1].
    intros E. apply bind_Ok in E. destruct E as [score [_ E]].
    destruct (negb (Qle_bool _ _));
      inversion E; subst s1'; clear E; [|exact Hs1].
    apply Forall_app. split; [exact Hs1|]. constructor; [|constructor].
    apply good_candidate_intro; auto.
    - apply path_edge. apply graph_neighbors. exact Hdst.
    - apply Hfront. exact Em. }
  destruct (sort_desc snd best2) as [|c l] eqn:Es; inversion H; subst move.
  assert (Hc : In c best2).
  { apply (sort_desc_In snd). rewrite Es. left; reflexivity. }
  rewrite Forall_forall in G2. destruct (G2 c Hc) as [Hs Hf].
  split; [exact Hs|]. exact Hf.
Qed.

(** The classes that inherit the planner, and Elizabeth, whose override
    only acts on a destination that is not on the front line, return a
    destination reachable from the source and leave an army behind. *)
Lemma inherited_fortification_sound (k : Strategy) (self : Agent)
  (move : string * string * Z) :
  k <> GenghisKhan -> k <> SunTzu ->
  get_best_fortification_move k b self player owned = Ok (Some move) ->
  sound_move b owned move.
Proof.
  intros Hg Hs H.
  destruct k; try congruence; simpl in H;
    try (apply base_fortification_sound in H; tauto).
  unfold ElizabethStrategy.get_best_fortification_move in H.
  apply bind_Ok in H. destruct H as [best [Hbase H]].
  destruct best as [[[src dst] amt]|]; [|discriminate].
  apply base_fortification_sound in Hbase. destruct Hbase as [Hsound Hf].
  simpl in Hf. rewrite Hf in H. simpl in H. inversion H; subst. exact Hsound.
Qed.
End PlannerSound.

(* ------------------------------------------------------------------ *)
(** ** The search always ends within its fuel                          *)
(* ------------------------------------------------------------------ *)

Section SearchTerminates.
Variable b : GameBoard.t.
Variable owned : list string.

Lemma unvisited_bound (visited : list string) :
  (List.length (unvisited owned visited) <= List.length owned)%nat.
Proof.
  unfold unvisited.
  eapply Nat.le_trans; [apply filter_length_le|].
  apply NoDup_incl_length; [apply NoDup_nodup|].
  intros x Hx. apply nodup_In in Hx. exact Hx.
Qed.

Lemma mem_cons (x y : string) (l : list string) :
  mem x (y :: l) = String.eqb x y || mem x l.
Proof. reflexivity. Qed.

Lemma visit_shrinks (universe visited : list string) (nb : string) :
  In nb universe -> mem nb visited = false ->
  (S (List.length (filter (fun x => negb (mem x (nb :: visited))) universe))
   <= List.length (filter (fun x => negb (mem x visited)) universe))%nat.
Proof.
  intros Hin Hnew.
  assert (Hmono : forall l,
             (List.length (filter (fun x => negb (mem x (nb :: visited))) l)
              <= List.length (filter (fun x => negb (mem x visited)) l))%nat).
  { induction l as [|z l IHl]; [simpl; lia|].
    cbn [filter]. rewrite mem_cons.
    destruct (String.eqb z nb); destruct (mem z visited);
      cbn [orb negb Datatypes.length]; lia. }
  induction universe as [|u universe IH]; [contradiction|].
  cbn [filter]. rewrite mem_cons.
  destruct (string_dec u nb) as [E|N].
  - subst u. rewrite String.eqb_refl. rewrite Hnew.
    cbn [orb negb Datatypes.length]. specialize (Hmono universe). lia.
  - destruct Hin as [E|Hin]; [congruence|]. specialize (IH Hin).
    apply String.eqb_neq in N. rewrite N.
    destruct (mem u visited); cbn [orb negb Datatypes.length]; lia.
Qed.

Lemma enqueue_neighbors_measure (path neighbors : list string) :
  (forall nb, In nb neighbors -> In nb owned) ->
  forall visited queue,
    (List.length (snd (AIStrategy.enqueue_neighbors path neighbors visited queue))
     + List.length
         (unvisited owned (fst (AIStrategy.enqueue_neighbors
                            path neighbors visited queue)))
     <= List.length queue + List.length (unvisited owned visited))%nat.
Proof.
  unfold AIStrategy.enqueue_neighbors.
  induction neighbors as [|nb neighbors IH]; intros Hown visited queue;
    simpl; [lia|].
  destruct (mem nb visited) eqn:Em.
  - apply IH. intros x Hx. apply Hown. right; exact Hx.
  - eapply Nat.le_trans; [apply IH; intros x Hx; apply Hown; right; exact Hx|].
    rewrite length_app. simpl List.length.
    assert (Hu : In nb (nodup string_dec owned))
      by (apply nodup_In; apply Hown; left; reflexivity).
    pose proof (visit_shrinks _ visited nb Hu Em) as Hs.
    unfold unvisited. lia.
Qed.

(** Once the fuel covers the queue and the unvisited owned territories, more
    fuel changes nothing: the loop has ended with an empty queue. *)
Lemma bfs_fuel_enough (front : list string) (from_terr_name : string) :
  forall fuel extra visited queue acc,
    (List.length queue + List.length (unvisited owned visited) <= fuel)%nat ->
    AIStrategy.bfs (fuel + extra) (AIStrategy.build_territory_graph b owned)
                   front from_terr_name visited queue acc
    = AIStrategy.bfs fuel (AIStrategy.build_territory_graph b owned)
                     front from_terr_name visited queue acc.
Proof.
  induction fuel as [|fuel IH]; intros extra visited queue acc Hm.
  - destruct queue as [|e queue]; [|simpl in Hm; lia].
    destruct extra; reflexivity.
  - simpl. destruct queue as [|[current path] queue]; [reflexivity|].
    simpl in Hm.
    destruct (negb (String.eqb current from_terr_name) && mem current front).
    + apply IH. lia.
    + pose proof (enqueue_neighbors_measure path
                    (Dict.get_default (AIStrategy.build_territory_graph b owned)
                                      current [])
                    (fun nb Hnb =>
                       proj1 (proj2 (graph_neighbors b owned current nb Hnb)))
                    visited queue) as Hq.
      destruct (AIStrategy.enqueue_neighbors path _ visited queue)
        as [visited' queue'].
      simpl in Hq. apply IH. lia.
Qed.

(** The fuel given by the planner is enough for every source. *)
Lemma bfs_total (front : list string) (from_terr_name : string) (extra : nat) :
  AIStrategy.bfs (AIStrategy.bfs_fuel owned + extra)
                 (AIStrategy.build_territory_graph b owned)
                 front from_terr_name [from_terr_name]
                 [(from_terr_name, [])] []
  = AIStrategy.bfs (AIStrategy.bfs_fuel owned)
                   (AIStrategy.build_territory_graph b owned)
                   front from_terr_name [from_terr_name]
                   [(from_terr_name, [])] [].
Proof.
  apply bfs_fuel_enough. unfold AIStrategy.bfs_fuel. simpl List.length.
  pose proof (unvisited_bound [from_terr_name]). lia.
Qed.
End SearchTerminates.

(* ------------------------------------------------------------------ *)
(** ** On a consistent board the engine does not raise                 *)
(* ------------------------------------------------------------------ *)

Lemma for_each_total {A S : Type} (body : S -> A -> result S) (l : list A) :
  (forall s x, In x l -> exists s', body s x = Ok s') ->
  forall s, exists s', for_each body l s = Ok s'.
Proof.
  induction l as [|x l IH]; intros Hbody s; simpl.
  - eauto.
  - destruct (Hbody s x (or_introl eq_refl)) as [s1 H1]. rewrite H1. simpl.
    apply IH. intros s0 y Hy. apply Hbody. right; exact Hy.
Qed.

Lemma bind_total {A B : Type} (m : result A) (k : A -> result B) :
  (exists x, m = Ok x) -> (forall x, exists y, k x = Ok y) ->
  exists y, bind m k = Ok y.
Proof.
  intros [x Hx] Hk. rewrite Hx. simpl. apply Hk.
Qed.

Section Totality.
Variable b : GameBoard.t.
Hypothesis board_consistent : consistent b.

Lemma count_owned_total (player : string) (members : list string) :
  (forall m, In m members -> on_board b m) ->
  exists n, AIStrategy.count_owned b player members = Ok n.
Proof.
  intros H. unfold AIStrategy.count_owned. apply for_each_total.
  intros n m Hm. specialize (H m Hm). unfold on_board in H.
  destruct (GameBoard.get_territory b m); [eauto | congruence].
Qed.

Lemma completion_total (continent_name player : string) :
  exists needed,
    AIStrategy.get_continent_completion_territories b continent_name player
    = Ok needed.
Proof.
  unfold AIStrategy.get_continent_completion_territories.
  destruct (Dict.get (GameBoard.continents b) continent_name) as [c|] eqn:E;
    [|eauto].
  apply get_Some_In in E. apply for_each_total. intros needed m Hm.
  pose proof (board_consistent _ _ _ E Hm) as Hb. unfold on_board in Hb.
  destruct (GameBoard.get_territory b m) as [t|]; [|congruence].
  destruct (Territory.owned_by t player); eauto.
Qed.

Lemma capture_value_total (self : Agent) (name player : string) :
  exists v, AIStrategy.capture_value b self name player = Ok v.
Proof.
  unfold AIStrategy.capture_value.
  destruct (AIStrategy.get_continent_for_territory b name) as [c|]; [|eauto].
  destruct (truthy (Some c)); [|eauto].
  destruct (completion_total c player) as [needed H]. rewrite H. simpl. eauto.
Qed.

Lemma player_control_total (player : string) :
  exists control, AIStrategy.get_player_continent_control b player = Ok control.
Proof.
  unfold AIStrategy.get_player_continent_control. apply for_each_total.
  intros d [cn c] Hc. unfold Dict.items in Hc.
  destruct (Z.of_nat (List.length (Continent.territories c)) =? 0)%Z eqn:E;
    [eauto|].
  destruct (count_owned_total player (Continent.territories c)) as [n Hn].
  { intros m Hm. exact (board_consistent _ _ _ Hc Hm). }
  rewrite Hn. simpl. unfold truediv. rewrite E. simpl. eauto.
Qed.

Lemma opponent_holds_total (c : string) (others : list string) :
  exists held, BalancedStrategy.opponent_holds b c others = Ok held.
Proof.
  induction others as [|o others IH]; simpl; [eauto|].
  destruct (player_control_total o) as [ctl H]. rewrite H. simpl.
  destruct (Qle_bool (Dict.get_default ctl c 0) 0.6); [exact IH | eauto].
Qed.

Lemma base_attack_score_total (self : Agent) (f t player : string) :
  exists v, AIStrategy.calculate_attack_score b self f t player = Ok v.
Proof.
  unfold AIStrategy.calculate_attack_score.
  destruct (GameBoard.get_territory b f) as [ft|]; [|eauto].
  destruct (GameBoard.get_territory b t) as [tt|]; [|eauto].
  destruct (negb (Territory.owned_by ft player) || Territory.owned_by tt player);
    [eauto|].
  destruct (capture_value_total self t player) as [v H]. rewrite H. simpl.
  eauto.
Qed.

Lemma aggressive_attack_score_total (self : Agent) (f t player : string) :
  exists v, AggressiveStrategy.calculate_attack_score b self f t player = Ok v.
Proof.
  unfold AggressiveStrategy.calculate_attack_score.
  destruct (base_attack_score_total self f t player) as [v H]. rewrite H. simpl.
  destruct (GameBoard.get_territory b f) as [ft|]; [|eauto].
  destruct (GameBoard.get_territory b t) as [tt|]; [|eauto].
  destruct (Territory.armies ft >? Territory.armies tt * 2)%Z; eauto.
Qed.

Lemma defensive_attack_score_total (self : Agent) (f t player : string) :
  exists v, DefensiveStrategy.calculate_attack_score b self f t player = Ok v.
Proof.
  unfold DefensiveStrategy.calculate_attack_score.
  destruct (base_attack_score_total self f t player) as [v H]. rewrite H. simpl.
  destruct (AIStrategy.get_continent_for_territory b t) as [c|]; [|eauto].
  destruct (truthy (Some c)); [|eauto].
  destruct (completion_total c player) as [needed Hn]. rewrite Hn. simpl. eauto.
Qed.

Lemma balanced_attack_score_total (self : Agent) (f t player : string) :
  exists v, BalancedStrategy.calculate_attack_score b self f t player = Ok v.
Proof.
  unfold BalancedStrategy.calculate_attack_score.
  destruct (base_attack_score_total self f t player) as [v H]. rewrite H. simpl.
  destruct (AIStrategy.get_continent_for_territory b t) as [c|]; [|eauto].
  destruct (truthy (Some c)); [|eauto].
  destruct (opponent_holds_total c (BalancedStrategy._get_other_players b player))
    as [held Hh].
  rewrite Hh. simpl. eauto.
Qed.

Lemma opportunistic_attack_score_total (self : Agent) (f t player : string) :
  exists v, OpportunisticStrategy.calculate_attack_score b self f t player = Ok v.
Proof.
  unfold OpportunisticStrategy.calculate_attack_score.
  destruct (base_attack_score_total self f t player) as [v H]. rewrite H. cbn [bind].
  destruct (GameBoard.get_territory b t) as [tt|]; [|eauto].
  destruct (Territory.owner tt) as [o|]; [|eauto].
  destruct (negb (truthy (Some o))); [eauto|]. cbv zeta.
  destruct (GameBoard.get_territory b f) as [ft|]; [|eauto].
  destruct (Territory.armies ft >? Territory.armies tt * 2)%Z;
    eexists; reflexivity.
Qed.

(** No class of agent raises while scoring an attack. *)
Lemma calculate_attack_score_total (k : Strategy) (self : Agent)
  (f t player : string) :
  exists v, calculate_attack_score k b self f t player = Ok v.
Proof.
  destruct k; simpl.
  - apply base_attack_score_total.
  - apply aggressive_attack_score_total.
  - apply defensive_attack_score_total.
  - apply balanced_attack_score_total.
  - apply opportunistic_attack_score_total.
  - unfold NapoleonStrategy.calculate_attack_score.
    destruct (aggressive_attack_score_total self f t player) as [v H].
    rewrite H. simpl.
    destruct (GameBoard.get_territory b t) as [tt|]; [|eauto].
    destruct (Territory.armies tt >? 3)%Z; eauto.
  - unfold GenghisKhanStrategy.calculate_attack_score.
    destruct (opportunistic_attack_score_total self f t player) as [v H].
    rewrite H. simpl.
    destruct (GameBoard.get_territory b f) as [ft|]; [|eauto].
    destruct (GameBoard.get_territory b t) as [tt|]; [|eauto].
    destruct (Territory.armies tt >? 0)%Z; [|eauto].
    destruct (Qle_bool _ 2.0); eauto.
  - unfold AlexanderStrategy.calculate_attack_score.
    destruct (aggressive_attack_score_total self f t player) as [v H].
    rewrite H. simpl. destruct (existsb _ _); eauto.
  - unfold SunTzuStrategy.calculate_attack_score.
    destruct (balanced_attack_score_total self f t player) as [v H].
    rewrite H. simpl. destruct (AIStrategy.is_continent_gateway b t); eauto.
  - unfold HannibalStrategy.calculate_attack_score.
    destruct (opportunistic_attack_score_total self f t player) as [v H].
    rewrite H. simpl.
    destruct (GameBoard.get_territory b f) as [ft|]; [|eauto].
    destruct (_ >=? 2)%Z; eauto.
  - unfold ElizabethStrategy.calculate_attack_score.
    destruct (defensive_attack_score_total self f t player) as [v H].
    rewrite H. simpl.
    destruct (GameBoard.get_territory b f) as [ft|]; [|eauto].
    destruct (GameBoard.get_territory b t) as [tt|]; [|eauto].
    destruct (Territory.armies tt >? 0)%Z; [|eauto].
    destruct (negb _); eauto.
Qed.

(** [get_attack_targets] returns a list for every class of agent and
    every owned list. *)
Lemma get_attack_targets_total (k : Strategy) (self : Agent) (player : string)
  (owned : list string) :
  exists targets, get_attack_targets k b self player owned = Ok targets.
Proof.
  unfold get_attack_targets, AIStrategy.get_attack_targets.
  apply bind_total; [|intros acc; eauto].
  apply for_each_total. intros s src _.
  destruct (GameBoard.get_territory b src) as [ft|]; [|eauto].
  destruct (Territory.armies ft <=? 1)%Z; [eauto|].
  apply for_each_total. intros s1 dst _.
  destruct (GameBoard.get_territory b dst) as [tt|]; [|eauto].
  destruct (Territory.owned_by tt player); [eauto|].
  destruct (calculate_attack_score_total k self src dst player) as [v Hv].
  rewrite Hv. cbn [bind]. cbv zeta. destruct (_ >? 0)%Z; eauto.
Qed.
End Totality.

(** On a consistent board the overrides keep a zero score at zero: every
    class of agent returns a score equal to 0 for an attack that the base
    guard rejects. *)
Section ZeroScore.
Variable b : GameBoard.t.
Hypothesis board_consistent : consistent b.
Variable self : Agent.
Variables f t player : string.

Ltac from_parent P :=
  let v0 := fresh "v0" in
  let H0 := fresh "H0" in
  let Hz := fresh "Hz" in
  destruct P as [v0 [H0 Hz]]; rewrite H0; cbn [bind].

Ltac zero_now Hz := eexists; split; [reflexivity | rewrite Hz; ring].

Hypothesis base_zero :
  zero_score (AIStrategy.calculate_attack_score b self f t player).

Lemma aggressive_zero :
  zero_score (AggressiveStrategy.calculate_attack_score b self f t player).
Proof.
  unfold zero_score, AggressiveStrategy.calculate_attack_score.
  from_parent base_zero.
  destruct (GameBoard.get_territory b f) as [ft|]; [|zero_now Hz].
  destruct (GameBoard.get_territory b t) as [tt|]; [|zero_now Hz].
  destruct (Territory.armies ft >? Territory.armies tt * 2)%Z; zero_now Hz.
Qed.

Lemma defensive_zero :
  zero_score (DefensiveStrategy.calculate_attack_score b self f t player).
Proof.
  unfold zero_score, DefensiveStrategy.calculate_attack_score.
  from_parent base_zero.
  destruct (AIStrategy.get_continent_for_territory b t) as [c|];
    [|zero_now Hz].
  destruct (truthy (Some c)); [|zero_now Hz].
  destruct (completion_total b board_consistent c player) as [needed Hn].
  rewrite Hn. cbn [bind].
  destruct (AIStrategy.only_needs needed t); zero_now Hz.
Qed.

Lemma balanced_zero :
  zero_score (BalancedStrategy.calculate_attack_score b self f t player).
Proof.
  unfold zero_score, BalancedStrategy.calculate_attack_score.
  from_parent base_zero.
  destruct (AIStrategy.get_continent_for_territory b t) as [c|];
    [|zero_now Hz].
  destruct (truthy (Some c)); [|zero_now Hz].
  destruct (opponent_holds_total b board_consistent c
              (BalancedStrategy._get_other_players b player)) as [held Hh].
  rewrite Hh. cbn [bind]. destruct held; zero_now Hz.
Qed.

Lemma opportunistic_zero :
  zero_score (OpportunisticStrategy.calculate_attack_score b self f t player).
Proof.
  unfold zero_score, OpportunisticStrategy.calculate_attack_score.
  from_parent base_zero.
  destruct (GameBoard.get_territory b t) as [tt|]; [|zero_now Hz].
  destruct (Territory.owner tt) as [o|]; [|zero_now Hz].
  destruct (negb (truthy (Some o))); [zero_now Hz|]. cbv zeta.
  destruct (Qle_bool _ _);
    (destruct (GameBoard.get_territory b f) as [ft|]; [|zero_now Hz]);
    destruct (Territory.armies ft >? Territory.armies tt * 2)%Z; zero_now Hz.
Qed.

Lemma every_class_zero (k : Strategy) :
  zero_score (calculate_attack_score k b self f t player).
Proof.
  destruct k; simpl.
  - exact base_zero.
  - exact aggressive_zero.
  - exact defensive_zero.
  - exact balanced_zero.
  - exact opportunistic_zero.
  - unfold zero_score, NapoleonStrategy.calculate_attack_score,
      NapoleonStrategy.aggression_bonus.
    from_parent aggressive_zero.
    destruct (GameBoard.get_territory b t) as [tt|]; [|zero_now Hz].
    destruct (Territory.armies tt >? 3)%Z; zero_now Hz.
  - unfold zero_score, GenghisKhanStrategy.calculate_attack_score.
    from_parent opportunistic_zero.
    destruct (GameBoard.get_territory b f) as [ft|]; [|zero_now Hz].
    destruct (GameBoard.get_territory b t) as [tt|]; [|zero_now Hz].
    destruct (Territory.armies tt >? 0)%Z; [|zero_now Hz].
    destruct (Qle_bool _ 2.0); zero_now Hz.
  - unfold zero_score, AlexanderStrategy.calculate_attack_score.
    from_parent aggressive_zero. destruct (existsb _ _); zero_now Hz.
  - unfold zero_score, SunTzuStrategy.calculate_attack_score.
    from_parent balanced_zero.
    destruct (AIStrategy.is_continent_gateway b t);
      destruct (GameBoard.get_territory b f) as [ft|]; try zero_now Hz;
      destruct (GameBoard.get_territory b t) as [tt|]; try zero_now Hz;
      destruct (Territory.armies tt >? 0)%Z; try zero_now Hz;
      destruct (negb (Qle_bool 1.5 _)); try zero_now Hz;
      destruct (negb (Qle_bool _ 2.5)); zero_now Hz.
  - unfold zero_score, HannibalStrategy.calculate_attack_score.
    from_parent opportunistic_zero.
    destruct (GameBoard.get_territory b f) as [ft|]; [|zero_now Hz].
    destruct (_ >=? 2)%Z; zero_now Hz.
  - unfold zero_score, ElizabethStrategy.calculate_attack_score.
    from_parent defensive_zero. cbv zeta.
    destruct (GameBoard.get_territory b f) as [ft|]; [|zero_now Hz].
    destruct (GameBoard.get_territory b t) as [tt|]; [|zero_now Hz].
    destruct (Territory.armies tt >? 0)%Z; [|zero_now Hz].
    destruct (negb _); zero_now Hz.
Qed.
End ZeroScore.

Lemma illegal_attack_scores_zero (k : Strategy) (b : GameBoard.t)
  (self : Agent) (f t player : string) :
  consistent b ->
  (GameBoard.get_territory b f = None
   \/ GameBoard.get_territory b t = None
   \/ (exists x, GameBoard.get_territory b f = Some x
                 /\ Territory.owner x <> Some player)
   \/ (exists x, GameBoard.get_territory b t = Some x
                 /\ Territory.owner x = Some player)) ->
  exists v, calculate_attack_score k b self f t player = Ok v /\ v == 0.
Proof.
  intros Hc H. apply every_class_zero; [exact Hc|].
  exists 0.0. split; [apply base_attack_score_guard; exact H | reflexivity].
Qed.

Section ReinforcementTotal.
Variable b : GameBoard.t.
Hypothesis board_ok : well_formed b.
Hypothesis armies_ok :
  forall name t, GameBoard.get_territory b name = Some t ->
                 Territory.armies t <> (-1)%Z.

Lemma continent_priority_total (player continent_name : string)
  (c : Continent.t) :
  In (continent_name, c) (GameBoard.continents b) ->
  exists v, AIStrategy.continent_priority b player continent_name c = Ok v.
Proof.
  intros Hin. destruct board_ok as [Hcons Hne].
  unfold AIStrategy.continent_priority.
  apply bind_total.
  - apply count_owned_total. intros m Hm. exact (Hcons _ _ _ Hin Hm).
  - intros owned_count.
    assert (HE : (1 <= AIStrategy.count_continent_entry_points b continent_name)%Z).
    { apply entry_point_count_positive. apply in_map_iff.
      exists (continent_name, c). auto. }
    destruct (AIStrategy.count_continent_entry_points b continent_name >? 0)%Z
      eqn:G; [|rewrite Z.gtb_ltb in G; apply Z.ltb_ge in G; lia].
    apply bind_total; [|intros v; eauto].
    apply bind_total.
    + unfold truediv.
      destruct (AIStrategy.count_continent_entry_points b continent_name =? 0)%Z
        eqn:E0; [apply Z.eqb_eq in E0; lia | eauto].
    + intros per_entry. apply bind_total; [|intros share; eauto].
      unfold truediv.
      destruct (Z.of_nat (List.length (Continent.territories c)) =? 0)%Z eqn:E0;
        [|eauto].
      apply Z.eqb_eq in E0. specialize (Hne _ _ Hin).
      destruct (Continent.territories c); [congruence | simpl in E0; lia].
Qed.

Lemma base_valuation_total (self : Agent) :
  exists s, AIStrategy.calculate_strategic_values b self = Ok s.
Proof.
  unfold AIStrategy.calculate_strategic_values.
  apply bind_total; [|intros p; eauto].
  apply for_each_total. intros cp [cn c] Hin. unfold Dict.items in Hin.
  destruct (continent_priority_total (player_name self) cn c Hin) as [v Hv].
  rewrite Hv. simpl. eauto.
Qed.

Lemma valuation_total (k : Strategy) (self : Agent) :
  exists s, calculate_strategic_values k b self = Ok s.
Proof.
  assert (Hagg : forall s0, exists s,
             AggressiveStrategy.calculate_strategic_values b s0 = Ok s).
  { intros s0. unfold AggressiveStrategy.calculate_strategic_values.
    apply bind_total; [apply base_valuation_total | intros; eauto]. }
  assert (Hdef : forall s0, exists s,
             DefensiveStrategy.calculate_strategic_values b s0 = Ok s).
  { intros s0. unfold DefensiveStrategy.calculate_strategic_values.
    apply bind_total; [apply base_valuation_total | intros; eauto]. }
  destruct k; simpl; try apply base_valuation_total; auto.
  - unfold NapoleonStrategy.calculate_strategic_values.
    apply bind_total; [apply Hagg | intros; eauto].
  - unfold GenghisKhanStrategy.calculate_strategic_values.
    apply bind_total; [apply base_valuation_total | intros; eauto].
  - unfold AlexanderStrategy.calculate_strategic_values.
    apply bind_total; [apply Hagg | intros; eauto].
  - unfold SunTzuStrategy.calculate_strategic_values.
    apply bind_total; [apply base_valuation_total | intros; eauto].
  - unfold HannibalStrategy.calculate_strategic_values.
    apply bind_total; [apply base_valuation_total | intros; eauto].
  - unfold ElizabethStrategy.calculate_strategic_values.
    apply bind_total; [apply Hdef | intros; eauto].
Qed.

Lemma choose_target_continent_total (self : Agent) (player : string) (g : Rng) :
  exists r, AIStrategy.choose_target_continent b self player g = Ok r.
Proof.
  unfold AIStrategy.choose_target_continent.
  apply bind_total; [apply player_control_total; apply board_ok|].
  intros ctl. destruct (fold_left _ _ _) as [wp g'].
  destruct (max_by snd (Dict.items wp)) as [[c w]|]; eauto.
Qed.

Lemma completion_on_board (continent_name player : string)
  (needed : list string) :
  AIStrategy.get_continent_completion_territories b continent_name player
  = Ok needed ->
  forall m, In m needed -> on_board b m.
Proof.
  unfold AIStrategy.get_continent_completion_territories.
  destruct (Dict.get (GameBoard.continents b) continent_name) as [c|];
    [|intros H; inversion H; subst; contradiction].
  intros Hrun. revert Hrun.
  apply (for_each_invariant (fun l => forall m, In m l -> on_board b m));
    [|intros m []].
  intros l x l' _ Hl.
  destruct (GameBoard.get_territory b x) as [t|] eqn:E; [|discriminate].
  destruct (Territory.owned_by t player); intros H; inversion H; subst;
    [exact Hl|].
  intros m Hm. apply in_app_iff in Hm. destruct Hm as [Hm|[Hm|[]]];
    [auto | subst m; unfold on_board; congruence].
Qed.

Lemma borders_target_total (needed : list string) (player : string) :
  (forall m, In m needed -> on_board b m) ->
  forall adjs, exists r, AIStrategy.borders_target b needed player adjs = Ok r.
Proof.
  intros Hn. induction adjs as [|a adjs IH]; simpl; [eauto|].
  destruct (mem a needed) eqn:Em; [|exact IH].
  apply mem_In in Em. specialize (Hn a Em). unfold on_board in Hn.
  destruct (GameBoard.get_territory b a) as [t|]; [|congruence].
  destruct (negb (Territory.owned_by t player)); [eauto | exact IH].
Qed.

Lemma opportunity_score_total (self : Agent) (name player : string) :
  exists v,
    AIStrategy.calculate_attack_opportunity_score b self name player = Ok v.
Proof.
  rewrite opportunity_score_unfold.
  destruct (GameBoard.get_territory b name) as [t|]; [|eauto].
  destruct (negb (Territory.owned_by t player) || (Territory.armies t <=? 1)%Z);
    [eauto|].
  apply bind_total; [|intros s; eauto].
  apply for_each_total. intros s x _. unfold opportunity_step.
  destruct (GameBoard.get_territory b x) as [xt|]; [|eauto].
  destruct (Territory.owned_by xt player); [eauto|]. cbv zeta.
  destruct (Qle_bool 1.5 _); [|eauto].
  apply bind_total; [|intros cv; eauto].
  apply capture_value_total. apply board_ok.
Qed.

Lemma reinforcement_score_total (self : Agent) (player name : string)
  (t : Territory.t) :
  GameBoard.get_territory b name = Some t ->
  exists v, AIStrategy.reinforcement_score b self player name t = Ok v.
Proof.
  intros Ht. unfold AIStrategy.reinforcement_score.
  apply bind_total.
  - unfold fdiv.
    destruct (Qeq_bool (inject_Z (Territory.armies t + 1)) 0) eqn:E; [|eauto].
    apply Qeq_bool_iff in E. exfalso.
    unfold Qeq in E. simpl in E.
    apply (armies_ok name t Ht). lia.
  - intros army_factor. cbv zeta.
    apply bind_total.
    + destruct (AIStrategy.get_continent_for_territory b name) as [c|];
        [|eauto].
      destruct (truthy (Some c)); [|eauto].
      destruct (Dict.get (GameBoard.continents b) c) as [cont|]; [|eauto].
      destruct (completion_total b (proj1 board_ok) c player) as [needed Hn].
      rewrite Hn. cbn [bind]. cbv zeta.
      destruct ((1 <=? Z.of_nat (List.length needed))%Z
                && (Z.of_nat (List.length needed) <=? 3)%Z); [|eauto].
      apply bind_total; [|intros r; eauto].
      apply borders_target_total. eapply completion_on_board; eauto.
    + intros score. apply bind_total; [|intros v; eauto].
      apply opportunity_score_total.
Qed.

Lemma base_reinforcement_total (csv : Agent -> result Agent) (self : Agent)
  (player : string) (owned : list string) (g : Rng) :
  (forall s0, exists s, csv s0 = Ok s) ->
  exists r,
    AIStrategy.get_best_reinforcement_territories b csv self player owned g
    = Ok r.
Proof.
  intros Hcsv. unfold AIStrategy.get_best_reinforcement_territories.
  apply bind_total; [apply Hcsv|]. intros s1.
  apply bind_total; [apply choose_target_continent_total|].
  intros [target g1].
  destruct (filter _ owned) as [|t0 fl]; [eauto|].
  apply bind_total; [|intros ts; eauto].
  apply for_each_total. intros ts x _.
  destruct (GameBoard.get_territory b x) as [t|] eqn:E; [|eauto].
  destruct (reinforcement_score_total (set_target_continent s1 target)
              player x t E) as [v Hv].
  rewrite Hv. simpl. eauto.
Qed.

(** On a well-formed board where no territory has -1 armies,
    [get_best_reinforcement_territories] returns a list for every class of
    agent. *)
Lemma reinforcement_total (k : Strategy) (self : Agent) (player : string)
  (owned : list string) (g : Rng) :
  exists r, get_best_reinforcement_territories k b self player owned g = Ok r.
Proof.
  pose proof (base_reinforcement_total (calculate_strategic_values k b)
                self player owned g (valuation_total k)) as Hbase.
  destruct k; simpl; try exact Hbase.
  - unfold DefensiveStrategy.get_best_reinforcement_territories.
    apply bind_total; [exact Hbase|]. intros [[l s] g'].
    apply bind_total; [apply player_control_total; apply board_ok|].
    intros ctl. eauto.
  - unfold NapoleonStrategy.get_best_reinforcement_territories.
    apply bind_total; [exact Hbase|]. intros [[l s] g']. eauto.
  - unfold AlexanderStrategy.get_best_reinforcement_territories.
    apply bind_total; [exact Hbase|]. intros [[l s] g'].
    destruct (filter _ l); eauto.
  - unfold HannibalStrategy.get_best_reinforcement_territories.
    apply bind_total; [exact Hbase|]. intros [[l s] g']. eauto.
  - unfold DefensiveStrategy.get_best_reinforcement_territories.
    apply bind_total; [exact Hbase|]. intros [[l s] g'].
    apply bind_total; [apply player_control_total; apply board_ok|].
    intros ctl. eauto.
Qed.
End ReinforcementTotal.

(* ------------------------------------------------------------------ *)
(** ** Threat, control and completion                                  *)
(* ------------------------------------------------------------------ *)

Lemma nonnegative_armies_of_list (b : GameBoard.t) :
  Forall (fun kt : string * Territory.t => (0 <= Territory.armies (snd kt))%Z)
         (GameBoard.territories b) ->
  nonnegative_armies b.
Proof.
  intros H name t G. apply get_Some_In in G.
  rewrite Forall_forall in H. exact (H _ G).
Qed.

Lemma square_nonnegative_armies : nonnegative_armies Examples.square.
Proof.
  apply nonnegative_armies_of_list. repeat constructor; simpl; lia.
Qed.

Lemma fraction_bounds (o t : Z) :
  (0 <= o <= t)%Z ->
  0 <= inject_Z o / inject_Z t /\ inject_Z o / inject_Z t <= 1.
Proof.
  intros [Ho Hot].
  destruct (Z.eq_dec t 0) as [E|E].
  - subst t. assert (o = 0%Z) by lia. subst o.
    unfold Qdiv. change (/ inject_Z 0) with 0. split; lra.
  - assert (Ht : 0 < inject_Z t) by (apply inject_Z_pos; lia).
    assert (Ho' : 0 <= inject_Z o) by (apply (inject_Z_le 0); exact Ho).
    assert (Hot' : inject_Z o <= inject_Z t) by (apply inject_Z_le; exact Hot).
    split.
    + apply Qle_shift_div_l; [exact Ht | lra].
    + apply Qle_shift_div_r; [exact Ht | lra].
Qed.

Lemma enemy_armies_nonneg (b : GameBoard.t) (player : string)
  (l : list string) :
  nonnegative_armies b ->
  forall acc,
    (0 <= acc)%Z ->
    (0 <= fold_left
            (fun enemy_armies adj_name =>
               match GameBoard.get_territory b adj_name with
               | Some adj_terr =>
                   if negb (Territory.owned_by adj_terr player)
                   then (enemy_armies + Territory.armies adj_terr)%Z
                   else enemy_armies
               | None => enemy_armies
               end) l acc)%Z.
Proof.
  intros Hb. induction l as [|x l IH]; simpl; intros acc Hacc; [exact Hacc|].
  apply IH.
  destruct (GameBoard.get_territory b x) as [t|] eqn:E; [|exact Hacc].
  destruct (negb (Territory.owned_by t player)); [|exact Hacc].
  specialize (Hb _ _ E). lia.
Qed.

Lemma threat_range (b : GameBoard.t) (territory_name player : string) :
  nonnegative_armies b ->
  0 <= AIStrategy.calculate_territory_threat b territory_name player
  /\ AIStrategy.calculate_territory_threat b territory_name player <= 1.
Proof.
  intros Hb. unfold AIStrategy.calculate_territory_threat.
  destruct (GameBoard.get_territory b territory_name) as [t|] eqn:Et;
    [|split; lra].
  destruct (Territory.owned_by t player) eqn:Eo; cbn [negb]; [|split; lra].
  cbv zeta.
  match goal with
  | |- context [fold_left ?f ?l 0%Z] =>
      pose proof (enemy_armies_nonneg b player l Hb 0%Z (Z.le_refl 0)) as He;
      set (enemy := fold_left f l 0%Z) in *
  end.
  assert (Hr : 0 <= (if (Territory.armies t >? 0)%Z
                     then inject_Z enemy / inject_Z (Territory.armies t)
                     else inject_Z enemy)).
  { assert (He' : 0 <= inject_Z enemy) by (apply (inject_Z_le 0); exact He).
    destruct (Territory.armies t >? 0)%Z eqn:Ea; [|exact He'].
    apply Z.gtb_lt in Ea.
    apply Qle_shift_div_l; [apply inject_Z_pos; lia | lra]. }
  split.
  - apply py_min_nonneg; [lra|].
    apply Qle_shift_div_l; [lra | lra].
  - eapply Qle_trans; [apply py_min_upper | lra].
Qed.

(** X1. [calculate_territory_threat] is a level between 0 and 1 on a
    board without negative army counts, and it is 0 for a territory that
    is not on the board or is not held by the player. *)
Theorem territory_threat_bounded :
  forall (b : GameBoard.t) (territory_name player : string),
    nonnegative_armies b ->
    0 <= AIStrategy.calculate_territory_threat b territory_name player
    /\ AIStrategy.calculate_territory_threat b territory_name player <= 1
    /\ (~ (exists t, GameBoard.get_territory b territory_name = Some t
                     /\ Territory.owner t = Some player) ->
        AIStrategy.calculate_territory_threat b territory_name player == 0).
Proof.
  intros b name player Hb.
  destruct (threat_range b name player Hb) as [H1 H2].
  split; [exact H1|]. split; [exact H2|]. intros Hno.
  unfold AIStrategy.calculate_territory_threat.
  destruct (GameBoard.get_territory b name) as [t|] eqn:Et; [|lra].
  destruct (Territory.owned_by t player) eqn:Eo; cbn [negb]; [|lra].
  exfalso. apply Hno. exists t. split; [reflexivity|].
  apply owned_by_true. exact Eo.
Qed.

Lemma territory_threat_bounded_witness :
  0 <= AIStrategy.calculate_territory_threat Examples.square "d" "P"
  /\ AIStrategy.calculate_territory_threat Examples.square "d" "P" <= 1.
Proof.
  destruct (territory_threat_bounded Examples.square "d" "P"
              square_nonnegative_armies) as [H1 [H2 _]].
  split; [exact H1 | exact H2].
Defined.

Lemma owned_members_bounds (b : GameBoard.t) (player : string)
  (members : list string) :
  (0 <= owned_members b player members
   <= Z.of_nat (List.length members))%Z.
Proof.
  unfold owned_members. split; [lia|].
  apply Nat2Z.inj_le. apply filter_length_le.
Qed.

Lemma player_control_fill (b : GameBoard.t) (player : string) (ctl : Dict.t Q) :
  AIStrategy.get_player_continent_control b player = Ok ctl ->
  for_each
    (fill_body fst
       (fun x : string * Continent.t =>
          if (member_count (snd x) =? 0)%Z then Ok 0
          else
            owned <- AIStrategy.count_owned
                       b player (Continent.territories (snd x)) ;;
            truediv owned (member_count (snd x))))
    (GameBoard.continents b) Dict.empty = Ok ctl.
Proof.
  intros H. rewrite <- H. unfold AIStrategy.get_player_continent_control.
  unfold Dict.items. apply for_each_ext.
  intros d [cn0 c0]. unfold fill_body, member_count. simpl.
  destruct (Z.of_nat (List.length (Continent.territories c0)) =? 0)%Z;
    [reflexivity|].
  destruct (AIStrategy.count_owned b player (Continent.territories c0));
    simpl; [|reflexivity].
  destruct (truediv a (Z.of_nat (List.length (Continent.territories c0))));
    reflexivity.
Qed.

(** X2. [get_player_continent_control] returns one entry per continent
    of the board, in the board's order; each entry is the fraction of
    the continent's territories held by the player, a number between 0
    and 1 (0 for a continent without territories). *)
Theorem continent_control_fractions :
  forall (b : GameBoard.t) (player : string) (ctl : Dict.t Q),
    Dict.wf (GameBoard.continents b) ->
    AIStrategy.get_player_continent_control b player = Ok ctl ->
    Dict.keys ctl = Dict.keys (GameBoard.continents b)
    /\ forall continent_name c,
         In (continent_name, c) (GameBoard.continents b) ->
         exists v,
           Dict.get ctl continent_name = Some v
           /\ v == control b player c /\ 0 <= v /\ v <= 1.
Proof.
  intros b player ctl W H. split.
  - pose proof (player_control_fill b player ctl H) as Hfill.
    apply fill_loop_keys_fresh in Hfill; [exact Hfill | exact W |].
    intros k _ [].
  - intros cn c Hin.
    destruct (player_control_spec b player ctl H W cn c Hin) as [v [Hg Hv]].
    exists v. split; [exact Hg|]. split; [exact Hv|].
    pose proof (fraction_bounds
                  (owned_members b player (Continent.territories c))
                  (member_count c)
                  (owned_members_bounds b player (Continent.territories c)))
      as [B1 B2].
    unfold control in Hv. rewrite Hv. split; [exact B1 | exact B2].
Qed.

Lemma continent_control_fractions_witness :
  exists ctl,
    AIStrategy.get_player_continent_control Examples.square "P" = Ok ctl
    /\ Dict.keys ctl = Dict.keys (GameBoard.continents Examples.square).
Proof.
  assert (E : exists ctl,
             AIStrategy.get_player_continent_control Examples.square "P"
             = Ok ctl) by (eexists; vm_compute; reflexivity).
  destruct E as [ctl E]. exists ctl. split; [exact E|].
  exact (proj1 (continent_control_fractions
                  Examples.square "P" ctl square_continents_wf E)).
Defined.

Lemma completion_loop (b : GameBoard.t) (player : string)
  (members : list string) :
  forall acc needed,
    for_each
      (fun needed_territories territory_name =>
         match GameBoard.get_territory b territory_name with
         | None => Raise AttributeError
         | Some territory =>
             if Territory.owned_by territory player
             then Ok needed_territories
             else Ok (needed_territories ++ [territory_name])
         end)
      members acc = Ok needed ->
    needed = acc ++ filter (fun m => negb (friendly b player m)) members.
Proof.
  induction members as [|m members IH]; simpl; intros acc needed H.
  - inversion H. rewrite app_nil_r. reflexivity.
  - unfold friendly at 1.
    destruct (GameBoard.get_territory b m) as [t|]; [|discriminate].
    simpl in H. destruct (Territory.owned_by t player); simpl in H |- *.
    + apply IH. exact H.
    + apply IH in H. rewrite H, <- app_assoc. reflexivity.
Qed.

(** X3. For a continent of the board, a successful
    [get_continent_completion_territories] returns exactly the members
    that the player does not hold, in the continent's order. *)
Theorem completion_is_missing_members :
  forall (b : GameBoard.t) (continent_name player : string) (c : Continent.t)
    (needed : list string),
    Dict.get (GameBoard.continents b) continent_name = Some c ->
    AIStrategy.get_continent_completion_territories b continent_name player
    = Ok needed ->
    needed = missing_members b player c.
Proof.
  intros b cn player c needed Hc H.
  unfold AIStrategy.get_continent_completion_territories in H.
  rewrite Hc in H. apply completion_loop in H. exact H.
Qed.

Lemma completion_is_missing_members_witness :
  [] = missing_members Examples.square "P" (Continent.mk "C" ["a"; "b"; "c"; "d"]%string 5).
Proof.
  apply (completion_is_missing_members Examples.square "C" "P");
    reflexivity.
Defined.

Lemma square_disjoint : disjoint_continents Examples.square.
Proof.
  intros cn c m Hc Hm. simpl in Hc.
  destruct Hc as [E|[E|[]]]; inversion E; subst; simpl in Hm;
    repeat (destruct Hm as [<-|Hm]; [reflexivity|]); destruct Hm.
Qed.

(** X4. On a board whose continents are disjoint, the entry points of a
    continent are its members that [is_continent_gateway] accepts,
    counted as at least 1. *)
Theorem entry_points_count_gateways :
  forall (b : GameBoard.t) (continent_name : string) (c : Continent.t),
    disjoint_continents b ->
    continent_name <> EmptyString ->
    Dict.get (GameBoard.continents b) continent_name = Some c ->
    AIStrategy.count_continent_entry_points b continent_name
    = Z.max 1 (Z.of_nat (List.length
                 (filter (AIStrategy.is_continent_gateway b)
                         (Continent.territories c)))).
Proof.
  intros b cn c Hd Hne Hc.
  rewrite (count_continent_entry_points_spec b cn c Hc).
  unfold entry_points. f_equal. f_equal. f_equal.
  apply filter_ext_in. intros m Hm.
  unfold AIStrategy.is_continent_gateway, borders_outside.
  rewrite (Hd cn c m (get_Some_In _ _ _ Hc) Hm).
  destruct (String.eqb cn EmptyString) eqn:E;
    [apply String.eqb_eq in E; contradiction | reflexivity].
Qed.

Lemma entry_points_count_gateways_witness :
  AIStrategy.count_continent_entry_points Examples.square "C"
  = Z.max 1 (Z.of_nat (List.length
               (filter (AIStrategy.is_continent_gateway Examples.square)
                       ["a"; "b"; "c"; "d"]%string))).
Proof.
  apply (entry_points_count_gateways
           Examples.square "C" (Continent.mk "C" ["a"; "b"; "c"; "d"]%string 5)).
  - exact square_disjoint.
  - discriminate.
  - reflexivity.
Defined.
(* ------------------------------------------------------------------ *)
(** ** The ranking of attacks                                          *)
(* ------------------------------------------------------------------ *)

Section SortedFacts.
Context {A : Type} (key : A -> Q).

Lemma insert_desc_sorted (x : A) (l : list A) :
  sorted_desc key l -> sorted_desc key (insert_desc key x l).
Proof.
  induction l as [|y l IH]; simpl; intros Hs.
  - split; [constructor | exact I].
  - destruct Hs as [Hy Hl].
    destruct (Qle_bool (key y) (key x)) eqn:E.
    + apply Qle_bool_iff in E. simpl.
      split; [|split; assumption].
      constructor; [exact E|].
      rewrite Forall_forall in *. intros z Hz.
      eapply Qle_trans; [apply (Hy z Hz) | exact E].
    + apply Qle_bool_false in E. simpl.
      split; [|apply IH; exact Hl].
      rewrite Forall_forall in *. intros z Hz.
      apply (Permutation_in _ (insert_desc_perm key x l)) in Hz.
      destruct Hz as [<-|Hz]; [apply Qlt_le_weak; exact E | apply Hy; exact Hz].
Qed.

Lemma sort_desc_sorted (l : list A) : sorted_desc key (sort_desc key l).
Proof.
  induction l as [|x l IH]; simpl; [exact I|].
  apply insert_desc_sorted. exact IH.
Qed.

Lemma sorted_descending (l : list A) : sorted_desc key l -> descending key l.
Proof.
  induction l as [|a l IH]; intros Hs i j x y Hij Hi Hj.
  - destruct i; discriminate.
  - destruct Hs as [Ha Hl].
    destruct j as [|j]; [lia|]. simpl in Hj.
    destruct i as [|i]; simpl in Hi.
    + inversion Hi; subst a. rewrite Forall_forall in Ha.
      apply Ha. eapply nth_error_In. exact Hj.
    + apply (IH Hl i j x y); [lia | exact Hi | exact Hj].
Qed.

Lemma sort_desc_descending (l : list A) : descending key (sort_desc key l).
Proof. apply sorted_descending. apply sort_desc_sorted. Qed.
End SortedFacts.

(** A loop that only adds to a list reaches what one of its iterations
    adds. *)
Lemma for_each_reaches {A S : Type} (P : S -> Prop)
  (body : S -> A -> result S) (l : list A) (x : A) :
  In x l ->
  (forall s s', body s x = Ok s' -> P s') ->
  (forall s y s', In y l -> body s y = Ok s' -> P s -> P s') ->
  forall s r, for_each body l s = Ok r -> P r.
Proof.
  induction l as [|y l IH]; intros Hin Hx Hmono s r H; [destruct Hin|].
  simpl in H. apply bind_Ok in H. destruct H as [s1 [H1 H]].
  destruct Hin as [E|Hin].
  - subst y. assert (P1 : P s1) by (apply (Hx s s1); exact H1).
    revert H. apply for_each_invariant; [|exact P1].
    intros s2 z s2' Hz P2 Hb. apply (Hmono s2 z s2'); auto. right. exact Hz.
  - apply (IH Hin Hx) with (s := s1); [|exact H].
    intros s2 z s2' Hz. apply Hmono. right. exact Hz.
Qed.

Section AttackRanking.
Variable b : GameBoard.t.
Variable score : Agent -> string -> string -> string -> result Q.
Variable self : Agent.
Variable player : string.

(** The inner loop of [get_attack_targets], over the neighbours of one
    source. *)
Local Abbreviation inner source_name from_terr :=
  (fun attack_opportunities to_terr_name =>
     match GameBoard.get_territory b to_terr_name with
     | None => Ok attack_opportunities
     | Some to_terr =>
         if Territory.owned_by to_terr player
         then Ok attack_opportunities
         else
           attack_score <-
             score self source_name to_terr_name player ;;
           let available_attack_armies :=
             Z.min 3 (Territory.armies from_terr - 1) in
           if (available_attack_armies >? 0)%Z
           then Ok (attack_opportunities
                    ++ [(source_name%string, to_terr_name,
                         available_attack_armies, attack_score)])
           else Ok attack_opportunities
     end).

Local Abbreviation outer :=
  (fun attack_opportunities from_terr_name =>
     match GameBoard.get_territory b from_terr_name with
     | None => Ok attack_opportunities
     | Some from_terr =>
         if (Territory.armies from_terr <=? 1)%Z
         then Ok attack_opportunities
         else
           for_each (inner from_terr_name from_terr)
                    (GameBoard.get_adjacent_territories b from_terr_name)
                    attack_opportunities
     end).

Lemma inner_keeps (P : list (string * string * Z * Q) -> Prop)
  (from_terr_name : string) (from_terr : Territory.t) :
  (forall s e, P s -> P (s ++ [e])) ->
  forall s y s',
    inner from_terr_name from_terr s y = Ok s' -> P s -> P s'.
Proof.
  intros Hgrow s y s' H Ps. revert H. cbv beta.
  destruct (GameBoard.get_territory b y) as [to_terr|];
    [|intros H; inversion H; subst; exact Ps].
  destruct (Territory.owned_by to_terr player);
    [intros H; inversion H; subst; exact Ps|].
  intros H. apply bind_Ok in H. destruct H as [v [_ H]]. cbv zeta in H.
  destruct (Z.min 3 (Territory.armies from_terr - 1) >? 0)%Z;
    inversion H; subst; [apply Hgrow|]; exact Ps.
Qed.

Lemma outer_keeps (P : list (string * string * Z * Q) -> Prop) :
  (forall s e, P s -> P (s ++ [e])) ->
  forall s y s', outer s y = Ok s' -> P s -> P s'.
Proof.
  intros Hgrow s y s' H Ps. revert H. cbv beta.
  destruct (GameBoard.get_territory b y) as [from_terr|];
    [|intros H; inversion H; subst; exact Ps].
  destruct (Territory.armies from_terr <=? 1)%Z;
    [intros H; inversion H; subst; exact Ps|].
  apply for_each_invariant; [|exact Ps].
  intros s1 z s1' _ P1 Hb. exact (inner_keeps P y from_terr Hgrow _ _ _ Hb P1).
Qed.

Lemma attack_loop_complete (owned : list string)
  (source destination : string) (force : Z) :
  In source owned ->
  legal_attack b player source destination force ->
  forall acc0 acc,
    for_each outer owned acc0 = Ok acc ->
    exists v, In (source, destination, force, v) acc.
Proof.
  intros Hsrc [from_terr [to_terr [Gf [Gt [Ha [Hadj [Hown [Hforce Hrange]]]]]]]].
  assert (Hgrow : forall (s : list (string * string * Z * Q)) e,
             (exists v, In (source, destination, force, v) s) ->
             exists v, In (source, destination, force, v) (s ++ [e])).
  { intros s e [v Hv]. exists v. apply in_or_app. left. exact Hv. }
  apply (for_each_reaches
           (fun acc => exists v, In (source, destination, force, v) acc)
           outer owned source Hsrc).
  - intros s s'. cbv beta. rewrite Gf.
    destruct (Territory.armies from_terr <=? 1)%Z eqn:E;
      [apply Z.leb_le in E; lia|].
    apply (for_each_reaches
             (fun acc => exists v, In (source, destination, force, v) acc)
             (inner source from_terr) _ destination Hadj).
    + intros s1 s1' H. cbv beta in H. rewrite Gt in H.
      apply owned_by_false in Hown. rewrite Hown in H.
      apply bind_Ok in H. destruct H as [v [_ H]]. cbv zeta in H.
      rewrite <- Hforce in H.
      destruct (force >? 0)%Z eqn:Ef;
        [|rewrite Z.gtb_ltb in Ef; apply Z.ltb_ge in Ef; lia].
      inversion H; subst s1'. exists v. apply in_or_app. right. left.
      reflexivity.
    + intros s1 y s1' _ Hb. exact (inner_keeps _ source from_terr Hgrow _ _ _ Hb).
  - intros s y s' _ Hb. exact (outer_keeps _ Hgrow _ _ _ Hb).
Qed.

Lemma attack_loop_scored (owned : list string) :
  forall acc0 acc,
    Forall (scored_by score self player) acc0 ->
    for_each outer owned acc0 = Ok acc ->
    Forall (scored_by score self player) acc.
Proof.
  intros acc0 acc H0 H. revert H.
  apply for_each_invariant; [|exact H0].
  intros s src s' _ Hs. cbv beta.
  destruct (GameBoard.get_territory b src) as [from_terr|];
    [|intros Hb; inversion Hb; subst; exact Hs].
  destruct (Territory.armies from_terr <=? 1)%Z;
    [intros Hb; inversion Hb; subst; exact Hs|].
  apply for_each_invariant; [|exact Hs].
  intros s1 dst s1' _ Hs1. cbv beta.
  destruct (GameBoard.get_territory b dst) as [to_terr|];
    [|intros Hb; inversion Hb; subst; exact Hs1].
  destruct (Territory.owned_by to_terr player);
    [intros Hb; inversion Hb; subst; exact Hs1|].
  intros Hb. apply bind_Ok in Hb. destruct Hb as [v [Hv Hb]]. cbv zeta in Hb.
  destruct (Z.min 3 (Territory.armies from_terr - 1) >? 0)%Z;
    inversion Hb; subst; [|exact Hs1].
  apply Forall_app. split; [exact Hs1|]. constructor; [|constructor].
  exact Hv.
Qed.
End AttackRanking.

(** X5. [get_attack_targets] misses no attack: every legal attack from
    a territory of the list it is given is among the targets it
    returns. *)
Theorem attack_targets_complete :
  forall (k : Strategy) (b : GameBoard.t) (self : Agent) (player : string)
    (owned : list string) (targets : list (string * string * Z))
    (source destination : string) (force : Z),
    get_attack_targets k b self player owned = Ok targets ->
    In source owned ->
    legal_attack b player source destination force ->
    In (source, destination, force) targets.
Proof.
  intros k b self player owned targets source destination force H Hsrc Hlegal.
  unfold get_attack_targets, AIStrategy.get_attack_targets in H.
  apply bind_Ok in H. destruct H as [acc [Hloop H]].
  inversion H; subst targets; clear H.
  destruct (attack_loop_complete b (calculate_attack_score k b) self player
              owned source destination force Hsrc Hlegal [] acc Hloop)
    as [v Hv].
  apply in_map_iff. exists (source, destination, force, v).
  split; [reflexivity|]. apply sort_desc_In. exact Hv.
Qed.

Lemma attack_targets_complete_witness :
  In ("d", "x", 1%Z)%string
     (match get_attack_targets Base Examples.square (Examples.fresh "P") "P"
              ["a"; "b"; "c"; "d"]%string with
      | Ok targets => targets
      | Raise _ => []
      end).
Proof.
  assert (E : exists targets,
             get_attack_targets Base Examples.square (Examples.fresh "P") "P"
               ["a"; "b"; "c"; "d"]%string = Ok targets)
    by (eexists; vm_compute; reflexivity).
  destruct E as [targets E]. rewrite E.
  apply (attack_targets_complete Base Examples.square (Examples.fresh "P") "P"
           ["a"; "b"; "c"; "d"]%string targets "d" "x" 1 E).
  - simpl. auto.
  - exists (Territory.mk "d" "C" (Some "P"%string) 2),
           (Territory.mk "x" "D" (Some "E"%string) 1).
    repeat split; try reflexivity; simpl; auto; try lia; discriminate.
Defined.

(** X6. The targets returned by [get_attack_targets] are in
    non-increasing order of the score that the agent's
    [calculate_attack_score] gives them: of two targets, the earlier one
    scores at least as much as the later one. *)
Theorem attack_targets_ranked :
  forall (k : Strategy) (b : GameBoard.t) (self : Agent) (player : string)
    (owned : list string) (targets : list (string * string * Z))
    (i j : nat) (s1 d1 s2 d2 : string) (f1 f2 : Z),
    get_attack_targets k b self player owned = Ok targets ->
    (i < j)%nat ->
    nth_error targets i = Some (s1, d1, f1) ->
    nth_error targets j = Some (s2, d2, f2) ->
    exists v1 v2,
      calculate_attack_score k b self s1 d1 player = Ok v1
      /\ calculate_attack_score k b self s2 d2 player = Ok v2
      /\ v2 <= v1.
Proof.
  intros k b self player owned targets i j s1 d1 s2 d2 f1 f2 H Hij Hi Hj.
  unfold get_attack_targets, AIStrategy.get_attack_targets in H.
  apply bind_Ok in H. destruct H as [acc [Hloop H]].
  inversion H; subst targets; clear H.
  pose proof (attack_loop_scored b (calculate_attack_score k b) self player
                owned [] acc (Forall_nil _) Hloop) as Hscored.
  rewrite nth_error_map in Hi, Hj.
  destruct (nth_error (sort_desc snd acc) i) as [[[[a1 b1] c1] v1]|] eqn:Ei;
    [|discriminate].
  destruct (nth_error (sort_desc snd acc) j) as [[[[a2 b2] c2] v2]|] eqn:Ej;
    [|discriminate].
  simpl in Hi, Hj. inversion Hi; subst. inversion Hj; subst.
  exists v1, v2.
  rewrite Forall_forall in Hscored.
  split; [|split].
  - apply (Hscored (s1, d1, f1, v1)).
    apply (sort_desc_In snd). eapply nth_error_In. exact Ei.
  - apply (Hscored (s2, d2, f2, v2)).
    apply (sort_desc_In snd). eapply nth_error_In. exact Ej.
  - exact (sort_desc_descending snd acc i j _ _ Hij Ei Ej).
Qed.

Lemma attack_targets_ranked_witness :
  exists v1 v2,
    calculate_attack_score Base (set_armies Examples.isolated "c" 3)
      (Examples.fresh "P") "c" "e2" "P" = Ok v1
    /\ calculate_attack_score Base (set_armies Examples.isolated "c" 3)
         (Examples.fresh "P") "c" "e3" "P" = Ok v2
    /\ v2 <= v1.
Proof.
  assert (E : exists targets,
             get_attack_targets Base (set_armies Examples.isolated "c" 3)
               (Examples.fresh "P") "P" Examples.isolated_owned = Ok targets
             /\ nth_error targets 0 = Some ("c", "e2", 2%Z)%string
             /\ nth_error targets 1 = Some ("c", "e3", 2%Z)%string)
    by (eexists; vm_compute; repeat split; reflexivity).
  destruct E as [targets [E [E0 E1]]].
  apply (attack_targets_ranked Base (set_armies Examples.isolated "c" 3)
           (Examples.fresh "P") "P" Examples.isolated_owned targets
           0 1 "c" "e2" "c" "e3" 2 2 E); [lia | exact E0 | exact E1].
Defined.

Lemma square_consistent : consistent Examples.square.
Proof.
  intros cn c m Hc Hm. simpl in Hc.
  destruct Hc as [E|[E|[]]]; inversion E; subst; simpl in Hm;
    repeat (destruct Hm as [<-|Hm]; [discriminate|]); destruct Hm.
Qed.


(* ------------------------------------------------------------------ *)
(** ** The sign of attack scores                                       *)
(* ------------------------------------------------------------------ *)

Ltac break_match :=
  repeat match goal with
    | |- context [match ?e with Some _ => _ | None => _ end] => destruct e
    | |- context [if ?c then _ else _] => destruct c
    end.

Ltac run_binds H :=
  repeat (let x := fresh "x" in
          let Hx := fresh "Hx" in
          apply bind_Ok in H; destruct H as [x [Hx H]]).

Ltac sign_done :=
  let H := fresh "H" in
  break_match; intros H; run_binds H; revert H; break_match;
  intros H; inversion H; subst; clear H; nra.

Section ScoreSign.
Variable b : GameBoard.t.
Variable self : Agent.
Hypothesis values_ok : nonnegative_values self.
Hypothesis aggression_ok : 0 <= aggression_factor self.
Variables f t player : string.

Lemma base_score_nonneg (v : Q) :
  AIStrategy.calculate_attack_score b self f t player = Ok v -> 0 <= v.
Proof.
  unfold AIStrategy.calculate_attack_score.
  destruct (GameBoard.get_territory b f) as [ft|];
    [|intros H; inversion H; lra].
  destruct (GameBoard.get_territory b t) as [tt|];
    [|intros H; inversion H; lra].
  destruct (negb (Territory.owned_by ft player) || Territory.owned_by tt player);
    [intros H; inversion H; lra|].
  cbv zeta. intros H. apply bind_Ok in H. destruct H as [sv [Hsv H]].
  apply capture_value_nonneg in Hsv; [|exact values_ok].
  revert H.
  match goal with
  | |- context [py_min 0.9 ?x] =>
      assert (Hwp : 0 <= py_min 0.9 x)
        by (apply py_min_nonneg; [lra|];
            eapply Qle_trans; [|apply py_max_lower]; lra);
      set (wp := py_min 0.9 x) in *
  end.
  destruct (Territory.armies tt <=? 2)%Z; intros H; inversion H; nra.
Qed.

Lemma aggressive_score_nonneg (v : Q) :
  AggressiveStrategy.calculate_attack_score b self f t player = Ok v -> 0 <= v.
Proof.
  unfold AggressiveStrategy.calculate_attack_score. intros H.
  apply bind_Ok in H. destruct H as [s0 [H0 H]].
  apply base_score_nonneg in H0. cbv zeta in H. revert H. sign_done.
Qed.

Lemma defensive_score_nonneg (v : Q) :
  DefensiveStrategy.calculate_attack_score b self f t player = Ok v -> 0 <= v.
Proof.
  unfold DefensiveStrategy.calculate_attack_score. intros H.
  apply bind_Ok in H. destruct H as [s0 [H0 H]].
  apply base_score_nonneg in H0. cbv zeta in H. revert H. sign_done.
Qed.

Lemma balanced_score_nonneg (v : Q) :
  BalancedStrategy.calculate_attack_score b self f t player = Ok v -> 0 <= v.
Proof.
  unfold BalancedStrategy.calculate_attack_score. intros H.
  apply bind_Ok in H. destruct H as [s0 [H0 H]].
  apply base_score_nonneg in H0. cbv zeta in H. revert H. sign_done.
Qed.

Lemma opportunistic_score_nonneg (v : Q) :
  OpportunisticStrategy.calculate_attack_score b self f t player = Ok v ->
  0 <= v.
Proof.
  unfold OpportunisticStrategy.calculate_attack_score. intros H.
  apply bind_Ok in H. destruct H as [s0 [H0 H]].
  apply base_score_nonneg in H0. cbv zeta in H. revert H. sign_done.
Qed.

Lemma every_score_nonneg (k : Strategy) (v : Q) :
  calculate_attack_score k b self f t player = Ok v -> 0 <= v.
Proof.
  destruct k; simpl.
  - apply base_score_nonneg.
  - apply aggressive_score_nonneg.
  - apply defensive_score_nonneg.
  - apply balanced_score_nonneg.
  - apply opportunistic_score_nonneg.
  - unfold NapoleonStrategy.calculate_attack_score,
      NapoleonStrategy.aggression_bonus. intros H.
    apply bind_Ok in H. destruct H as [s0 [H0 H]].
    apply aggressive_score_nonneg in H0. cbv zeta in H. revert H. sign_done.
  - unfold GenghisKhanStrategy.calculate_attack_score. intros H.
    apply bind_Ok in H. destruct H as [s0 [H0 H]].
    apply opportunistic_score_nonneg in H0. cbv zeta in H. revert H. sign_done.
  - unfold AlexanderStrategy.calculate_attack_score. intros H.
    apply bind_Ok in H. destruct H as [s0 [H0 H]].
    apply aggressive_score_nonneg in H0. cbv zeta in H. revert H. sign_done.
  - unfold SunTzuStrategy.calculate_attack_score. intros H.
    apply bind_Ok in H. destruct H as [s0 [H0 H]].
    apply balanced_score_nonneg in H0. cbv zeta in H. revert H. sign_done.
  - unfold HannibalStrategy.calculate_attack_score. intros H.
    apply bind_Ok in H. destruct H as [s0 [H0 H]].
    apply opportunistic_score_nonneg in H0. cbv zeta in H. revert H. sign_done.
  - unfold ElizabethStrategy.calculate_attack_score. intros H.
    apply bind_Ok in H. destruct H as [s0 [H0 H]].
    apply defensive_score_nonneg in H0. cbv zeta in H. revert H.
    match goal with
    | |- context [fold_left ?g ?l 0.0] =>
        pose proof (consolidation_factor_count b f player l 0.0) as Hc;
        set (cf := fold_left g l 0.0) in *
    end.
    assert (Hcf : 0 <= cf).
    { rewrite Hc.
      match goal with
      | |- context [inject_Z (Z.of_nat ?n)] =>
          pose proof (inject_Z_le 0 (Z.of_nat n) (Nat2Z.is_nonneg n)) as Hn
      end.
      change (inject_Z 0) with 0 in Hn. lra. }
    clear Hc. sign_done.
Qed.
End ScoreSign.

(** X8. No class of agent gives a negative score to an attack, as long
    as the stored territory values and the aggression factor of the
    agent are not negative. *)
Theorem attack_scores_nonnegative :
  forall (k : Strategy) (b : GameBoard.t) (self : Agent)
    (from_territory to_territory player : string) (v : Q),
    nonnegative_values self ->
    0 <= aggression_factor self ->
    calculate_attack_score k b self from_territory to_territory player = Ok v ->
    0 <= v.
Proof.
  intros k b self f t player v Hv Ha H.
  exact (every_score_nonneg b self Hv Ha f t player k v H).
Qed.

Lemma attack_scores_nonnegative_witness :
  exists v,
    calculate_attack_score Elizabeth Examples.square Examples.valued
      "d" "x" "P" = Ok v
    /\ 0 <= v.
Proof.
  assert (E : exists v,
             calculate_attack_score Elizabeth Examples.square Examples.valued
               "d" "x" "P" = Ok v) by (eexists; vm_compute; reflexivity).
  destruct E as [v E]. exists v. split; [exact E|].
  apply (attack_scores_nonnegative Elizabeth Examples.square Examples.valued
           "d" "x" "P" v valued_nonnegative); [|exact E].
  vm_compute. discriminate.
Defined.

(* ------------------------------------------------------------------ *)
(** ** When the valuation succeeds                                     *)
(* ------------------------------------------------------------------ *)

Lemma known_continent_entry_points (b : GameBoard.t) (continent_name : string)
  (c : Continent.t) :
  In (continent_name, c) (GameBoard.continents b) ->
  (1 <= AIStrategy.count_continent_entry_points b continent_name)%Z.
Proof.
  intros Hin.
  destruct (keys_get_Some (GameBoard.continents b) continent_name) as [c' Hc'].
  { apply in_map_iff. exists (continent_name, c). auto. }
  rewrite (count_continent_entry_points_spec b continent_name c' Hc').
  apply entry_points_positive.
Qed.

(** Whatever the class of agent, the valuation raises when a continent
    has no territories: the owned share is a division by zero. *)
Lemma empty_continent_raises (k : Strategy) (b : GameBoard.t) (self : Agent)
  (continent_name : string) (c : Continent.t) :
  In (continent_name, c) (GameBoard.continents b) ->
  Continent.territories c = [] ->
  exists e, calculate_strategic_values k b self = Raise e.
Proof.
  intros Hc Hempty.
  destruct (calculate_strategic_values k b self) as [s|e] eqn:E; [|eauto].
  exfalso.
  apply calculate_strategic_values_priorities in E.
  destruct E as [s0 [E _]].
  apply calculate_strategic_values_base_inv in E. destruct E as [Hloop _].
  destruct (fill_loop_all_ok _ _ _ _ _ Hloop _ Hc) as [v Hv]. simpl in Hv.
  pose proof (known_continent_entry_points b continent_name c Hc) as HE.
  unfold AIStrategy.continent_priority in Hv. rewrite Hempty in Hv.
  simpl in Hv.
  destruct (AIStrategy.count_continent_entry_points b continent_name >? 0)%Z
    eqn:G; [|rewrite Z.gtb_ltb in G; apply Z.ltb_ge in G; lia].
  unfold truediv at 1 in Hv.
  destruct (AIStrategy.count_continent_entry_points b continent_name =? 0)%Z
    eqn:G0; [apply Z.eqb_eq in G0; lia|].
  simpl in Hv. discriminate.
Qed.

Lemma square_well_formed : well_formed Examples.square.
Proof.
  split; [exact square_consistent|].
  intros cn c Hc. simpl in Hc.
  destruct Hc as [E|[E|[]]]; inversion E; subst; discriminate.
Qed.


(* ------------------------------------------------------------------ *)
(** ** More on the fortification planner                               *)
(* ------------------------------------------------------------------ *)

Lemma for_each_skip {A S : Type} (body : S -> A -> result S) (l : list A) :
  (forall s x, In x l -> body s x = Ok s) ->
  forall s, for_each body l s = Ok s.
Proof.
  induction l as [|x l IH]; intros H s; [reflexivity|].
  simpl. rewrite (H s x (or_introl eq_refl)). simpl.
  apply IH. intros s' y Hy. apply H. right. exact Hy.
Qed.

Section PlannerFacts.
Variable b : GameBoard.t.
Variable player : string.
Variable owned : list string.

(** The override of [ElizabethStrategy] never fires: the destination
    chosen by the base planner is always on the front line. *)
Lemma elizabeth_planner_is_base (self : Agent) :
  ElizabethStrategy.get_best_fortification_move b self player owned
  = AIStrategy.get_best_fortification_move b self player owned.
Proof.
  unfold ElizabethStrategy.get_best_fortification_move.
  destruct (AIStrategy.get_best_fortification_move b self player owned)
    as [[[[src dst] amt]|]|e] eqn:E; simpl; try reflexivity.
  apply base_fortification_sound in E. destruct E as [_ Hf]. simpl in Hf.
  rewrite Hf. reflexivity.
Qed.

Lemma planner_candidates_all_but_one (self : Agent)
  (move : string * string * Z) :
  AIStrategy.get_best_fortification_move b self player owned = Ok (Some move) ->
  all_but_one b owned move.
Proof.
  unfold AIStrategy.get_best_fortification_move. intros H.
  set (front := filter (fun t => AIStrategy.is_front_line_territory b t player)
                       owned) in *.
  apply bind_Ok in H. destruct H as [best1 [H1 H]].
  apply bind_Ok in H. destruct H as [best2 [H2 H]].
  assert (Hnew : forall src from_terr dst score,
             In src owned ->
             GameBoard.get_territory b src = Some from_terr ->
             (1 < Territory.armies from_terr)%Z ->
             all_but_one b owned
               (AIStrategy.triple_of
                  (src, dst, Z.max 1 (Territory.armies from_terr - 1), score))).
  { intros src from_terr dst score Hsrc Hg Ha. simpl. split; [exact Hsrc|].
    exists from_terr. split; [exact Hg|]. lia. }
  assert (G1 : Forall (fun c => all_but_one b owned (AIStrategy.triple_of c))
                      best1).
  { revert H1. apply for_each_invariant; [|constructor].
    intros s src s' Hsrc Hs.
    apply filter_In in Hsrc. destruct Hsrc as [Hsrc _].
    destruct (GameBoard.get_territory b src) as [from_terr|] eqn:Efrom;
      [|intros E; inversion E; subst; exact Hs].
    destruct (Territory.armies from_terr <=? 1)%Z eqn:Ea;
      [intros E; inversion E; subst; exact Hs|].
    apply Z.leb_gt in Ea.
    apply for_each_invariant; [|exact Hs].
    intros s1 [dst path] s1' _ Hs1.
    destruct (List.length path <? 1)%nat;
      [intros E; inversion E; subst; exact Hs1|].
    destruct (GameBoard.get_territory b dst) as [to_terr|];
      [|intros E; inversion E; subst; exact Hs1].
    intros E. apply bind_Ok in E. destruct E as [score [_ E]].
    inversion E; subst s1'; clear E.
    apply Forall_app. split; [exact Hs1|]. constructor; [|constructor].
    apply Hnew; assumption. }
  assert (G2 : Forall (fun c => all_but_one b owned (AIStrategy.triple_of c))
                      best2).
  { destruct best1 as [|c1 best1]; [|inversion H2; subst; exact G1].
    revert H2. apply for_each_invariant; [|constructor].
    intros s src s' Hsrc Hs.
    apply filter_In in Hsrc. destruct Hsrc as [Hsrc _].
    destruct (GameBoard.get_territory b src) as [from_terr|] eqn:Efrom;
      [|intros E; inversion E; subst; exact Hs].
    destruct (Territory.armies from_terr <=? 1)%Z eqn:Ea;
      [intros E; inversion E; subst; exact Hs|].
    apply Z.leb_gt in Ea. cbv zeta.
    destruct (negb (Qle_bool _ 0.5));
      [intros E; inversion E; subst; exact Hs|].
    apply for_each_invariant; [|exact Hs].
    intros s1 dst s1' _ Hs1.
    destruct (mem dst front);
      [|intros E; inversion E; subst; exact Hs1].
    destruct (GameBoard.get_territory b dst) as [to_terr|];
      [|intros E; inversion E; subst; exact Hs1].
    intros E. apply bind_Ok in E. destruct E as [score [_ E]].
    destruct (negb (Qle_bool _ _));
      inversion E; subst s1'; clear E; [|exact Hs1].
    apply Forall_app. split; [exact Hs1|]. constructor; [|constructor].
    apply Hnew; assumption. }
  destruct (sort_desc snd best2) as [|c l] eqn:Es; inversion H; subst move.
  assert (Hc : In c best2).
  { apply (sort_desc_In snd). rewrite Es. left; reflexivity. }
  rewrite Forall_forall in G2. exact (G2 c Hc).
Qed.

Lemma every_planner_all_but_one (k : Strategy) (self : Agent)
  (move : string * string * Z) :
  get_best_fortification_move k b self player owned = Ok (Some move) ->
  all_but_one b owned move.
Proof.
  destruct k; simpl; try apply planner_candidates_all_but_one.
  - (* Genghis Khan *)
    unfold GenghisKhanStrategy.get_best_fortification_move. intros H.
    apply bind_Ok in H. destruct H as [best [Hbase H]].
    destruct best as [[[src dst] amt]|]; [|discriminate].
    apply planner_candidates_all_but_one in Hbase.
    revert H. break_match; intros H; inversion H; subst; exact Hbase.
  - (* Sun Tzu *)
    unfold SunTzuStrategy.get_best_fortification_move. intros H.
    apply bind_Ok in H. destruct H as [best [Hbase H]]. cbv zeta in H.
    destruct best as [[[src dst] amt]|];
      [|destruct (filter _ owned); discriminate].
    apply planner_candidates_all_but_one in Hbase.
    revert H. destruct (filter _ owned);
      break_match; intros H; inversion H; subst; exact Hbase.
  - (* Elizabeth *)
    rewrite elizabeth_planner_is_base. apply planner_candidates_all_but_one.
Qed.

Lemma planner_without_spare_armies (self : Agent) :
  no_spare_armies b owned ->
  AIStrategy.get_best_fortification_move b self player owned = Ok None.
Proof.
  intros Hno. unfold AIStrategy.get_best_fortification_move.
  rewrite for_each_skip.
  2:{ intros s src Hsrc. apply filter_In in Hsrc. destruct Hsrc as [Hsrc _].
      destruct (GameBoard.get_territory b src) as [from_terr|] eqn:Efrom;
        [|reflexivity].
      specialize (Hno src from_terr Hsrc Efrom). apply Z.leb_le in Hno.
      rewrite Hno. reflexivity. }
  cbn [bind]. rewrite for_each_skip.
  2:{ intros s src Hsrc. apply filter_In in Hsrc. destruct Hsrc as [Hsrc _].
      destruct (GameBoard.get_territory b src) as [from_terr|] eqn:Efrom;
        [|reflexivity].
      specialize (Hno src from_terr Hsrc Efrom). apply Z.leb_le in Hno.
      rewrite Hno. reflexivity. }
  reflexivity.
Qed.
End PlannerFacts.

(** X10. The base planner, inherited unchanged by the four archetypes
    and by Napoleon, Alexander and Hannibal, and the planner of
    Elizabeth only propose moves to a front-line territory that is
    reachable from the source through owned territories, and leave an
    army behind. *)
Theorem planner_moves_reach_front_line :
  forall (k : Strategy) (b : GameBoard.t) (self : Agent) (player : string)
    (owned : list string) (source destination : string) (amount : Z),
    k <> GenghisKhan -> k <> SunTzu ->
    get_best_fortification_move k b self player owned
    = Ok (Some (source, destination, amount)) ->
    sound_move b owned (source, destination, amount)
    /\ front_line b player destination.
Proof.
  intros k b self player owned source destination amount Hg Hs H.
  assert (Hbase : AIStrategy.get_best_fortification_move b self player owned
                  = Ok (Some (source, destination, amount))).
  { destruct k; try congruence; try exact H.
    simpl in H. rewrite elizabeth_planner_is_base in H. exact H. }
  apply base_fortification_sound in Hbase. destruct Hbase as [Hsound Hf].
  split; [exact Hsound|]. apply is_front_line_territory_spec. exact Hf.
Qed.

Lemma planner_moves_reach_front_line_witness :
  sound_move Examples.isolated Examples.isolated_owned ("a", "b", 2%Z)%string
  /\ front_line Examples.isolated "P" "b".
Proof.
  apply (planner_moves_reach_front_line Elizabeth Examples.isolated
           (Examples.fresh "P") "P" Examples.isolated_owned "a" "b" 2).
  - discriminate.
  - discriminate.
  - vm_compute. reflexivity.
Defined.

(** X11. Whatever the class of agent, a proposed fortification move
    starts from a territory of the owned list that is on the board, and
    moves all of its armies but one, at least one army. *)
Theorem fortification_moves_all_but_one :
  forall (k : Strategy) (b : GameBoard.t) (self : Agent) (player : string)
    (owned : list string) (source destination : string) (amount : Z),
    get_best_fortification_move k b self player owned
    = Ok (Some (source, destination, amount)) ->
    In source owned
    /\ exists t,
         GameBoard.get_territory b source = Some t
         /\ amount = (Territory.armies t - 1)%Z
         /\ (1 <= amount)%Z.
Proof.
  intros k b self player owned source destination amount H.
  exact (every_planner_all_but_one b player owned k self _ H).
Qed.

Lemma fortification_moves_all_but_one_witness :
  In "a"%string Examples.isolated_owned
  /\ exists t,
       GameBoard.get_territory Examples.isolated "a" = Some t
       /\ 2%Z = (Territory.armies t - 1)%Z
       /\ (1 <= 2)%Z.
Proof.
  apply (fortification_moves_all_but_one GenghisKhan Examples.isolated
           (Examples.fresh "P") "P" Examples.isolated_owned "a" "c" 2).
  vm_compute. reflexivity.
Defined.

(** X12. The fortification override of [ElizabethStrategy] never changes
    the move of the base planner: its redirection to the most threatened
    front-line territory is guarded by a test that the base planner's
    destination always fails. *)
Theorem elizabeth_fortification_is_base :
  forall (b : GameBoard.t) (self : Agent) (player : string)
    (owned : list string),
    get_best_fortification_move Elizabeth b self player owned
    = get_best_fortification_move Base b self player owned.
Proof.
  intros b self player owned. simpl. apply elizabeth_planner_is_base.
Qed.

(** X13. When no territory of the owned list has more than one army,
    no class of agent proposes a fortification move. *)
Theorem no_fortification_without_spare_armies :
  forall (k : Strategy) (b : GameBoard.t) (self : Agent) (player : string)
    (owned : list string),
    no_spare_armies b owned ->
    get_best_fortification_move k b self player owned = Ok None.
Proof.
  intros k b self player owned Hno.
  pose proof (planner_without_spare_armies b player owned self Hno) as Hbase.
  destruct k; simpl; try exact Hbase.
  - unfold GenghisKhanStrategy.get_best_fortification_move.
    rewrite Hbase. reflexivity.
  - unfold SunTzuStrategy.get_best_fortification_move.
    rewrite Hbase. cbn [bind]. cbv zeta. destruct (filter _ owned); reflexivity.
  - rewrite elizabeth_planner_is_base. exact Hbase.
Qed.

Lemma square_rear_has_no_spare_armies :
  no_spare_armies Examples.square ["b"; "c"]%string.
Proof.
  intros name t Hin Hg. simpl in Hin.
  destruct Hin as [<-|[<-|[]]]; vm_compute in Hg; inversion Hg; subst;
    simpl; lia.
Qed.

Lemma no_fortification_without_spare_armies_witness :
  get_best_fortification_move SunTzu Examples.square (Examples.fresh "P") "P"
    ["b"; "c"]%string = Ok None.
Proof.
  apply (no_fortification_without_spare_armies SunTzu Examples.square
           (Examples.fresh "P") "P" ["b"; "c"]%string).
  exact square_rear_has_no_spare_armies.
Defined.

(* ------------------------------------------------------------------ *)
(** ** The reinforcement override of Alexander                         *)
(* ------------------------------------------------------------------ *)

Lemma base_reinforcement_front_line (b : GameBoard.t)
  (csv : Agent -> result Agent) (self s : Agent) (player : string)
  (owned l : list string) (g g' : Rng) :
  AIStrategy.get_best_reinforcement_territories b csv self player owned g
  = Ok (l, s, g') ->
  filter (fun t => AIStrategy.is_front_line_territory b t player) l = l
  \/ filter (fun t => AIStrategy.is_front_line_territory b t player) l = [].
Proof.
  unfold AIStrategy.get_best_reinforcement_territories. intros H.
  apply bind_Ok in H. destruct H as [s1 [Hs1 H]].
  apply bind_Ok in H. destruct H as [[target g1] [Htarget H]].
  destruct (filter (fun t => AIStrategy.is_front_line_territory b t player)
                   owned) as [|t0 fl] eqn:Efl.
  - inversion H; subst. right. exact Efl.
  - apply bind_Ok in H. destruct H as [ts [Hts H]].
    inversion H; subst l s g'; clear H. left.
    apply filter_all. intros t Ht.
    apply in_map_iff in Ht. destruct Ht as [[t' v] [Et Ht]]. simpl in Et.
    subst t'. apply (proj1 (sort_desc_In snd _ _)) in Ht.
    assert (Hkeys : forall k, In k (Dict.keys ts) -> In k (t0 :: fl)).
    { revert Hts.
      apply (for_each_invariant
               (fun d : Dict.t Q => forall k, In k (Dict.keys d) -> In k (t0 :: fl))).
      - intros d x d' Hx Hd.
        destruct (GameBoard.get_territory b x) as [territory|];
          [|intros E; inversion E; subst; exact Hd].
        intros E. apply bind_Ok in E. destruct E as [score [_ E]].
        inversion E; subst d'; clear E.
        intros k Hk. apply keys_set_In in Hk.
        destruct Hk as [->|Hk]; [exact Hx | apply Hd; exact Hk].
      - intros k []. }
    assert (Hin : In t (t0 :: fl)).
    { apply Hkeys. apply in_map_iff. exists (t, v).
      split; [reflexivity | exact Ht]. }
    rewrite <- Efl in Hin. apply filter_In in Hin. tauto.
Qed.

(** X14. The reinforcement override of [AlexanderStrategy] never changes
    the ranking of the base method: the territories it filters for are
    the only ones the base method ranks. *)
Theorem alexander_reinforcement_is_base :
  forall (b : GameBoard.t) (self : Agent) (player : string)
    (owned : list string) (g : Rng),
    get_best_reinforcement_territories Alexander b self player owned g
    = AIStrategy.get_best_reinforcement_territories
        b (calculate_strategic_values Alexander b) self player owned g.
Proof.
  intros b self player owned g. simpl.
  unfold AlexanderStrategy.get_best_reinforcement_territories.
  destruct (AIStrategy.get_best_reinforcement_territories
              b (AlexanderStrategy.calculate_strategic_values b)
              self player owned g) as [[[l s] g']|e] eqn:E; [|reflexivity].
  cbn [bind]. cbv zeta.
  destruct (base_reinforcement_front_line _ _ _ _ _ _ _ _ _ E) as [F|F];
    rewrite F.
  - destruct l; reflexivity.
  - reflexivity.
Qed.
(* ------------------------------------------------------------------ *)
(** ** Helpers of the archetypes and personas                          *)
(* ------------------------------------------------------------------ *)

Lemma friendly_count_loop (b : GameBoard.t) (player : string)
  (l : list string) :
  forall acc,
    fold_left
      (fun friendly_count adj_name =>
         match GameBoard.get_territory b adj_name with
         | Some adj_terr =>
             if Territory.owned_by adj_terr player
             then (friendly_count + 1)%Z else friendly_count
         | None => friendly_count
         end) l acc
    = (acc + Z.of_nat (List.length (filter (friendly b player) l)))%Z.
Proof.
  induction l as [|x l IH]; intros acc; simpl; [lia|].
  rewrite IH. unfold friendly at 2.
  destruct (GameBoard.get_territory b x) as [t|]; [|reflexivity].
  destruct (Territory.owned_by t player); simpl List.length; lia.
Qed.

(** X15. The security factor of [ElizabethStrategy] is the fraction of
    the neighbours of a territory that the player holds: a number
    between 0 and 1, and 0 for a territory without neighbours. *)
Theorem security_factor_is_a_fraction :
  forall (b : GameBoard.t) (territory_name player : string),
    ElizabethStrategy._calculate_security_factor b territory_name player
    == inject_Z (Z.of_nat (List.length
                   (filter (friendly b player)
                           (GameBoard.get_adjacent_territories b territory_name))))
       / inject_Z (Z.of_nat (List.length
                     (GameBoard.get_adjacent_territories b territory_name)))
    /\ 0 <= ElizabethStrategy._calculate_security_factor b territory_name player
    /\ ElizabethStrategy._calculate_security_factor b territory_name player <= 1.
Proof.
  intros b name player.
  assert (E : ElizabethStrategy._calculate_security_factor b name player
              == inject_Z (Z.of_nat (List.length
                    (filter (friendly b player)
                            (GameBoard.get_adjacent_territories b name))))
                 / inject_Z (Z.of_nat (List.length
                      (GameBoard.get_adjacent_territories b name)))).
  { unfold ElizabethStrategy._calculate_security_factor.
    destruct (GameBoard.get_adjacent_territories b name) as [|a l].
    - simpl. unfold Qdiv. change (/ inject_Z 0) with 0. ring.
    - rewrite friendly_count_loop. rewrite Z.add_0_l. reflexivity. }
  split; [exact E|]. rewrite E.
  apply fraction_bounds. split; [lia|].
  apply Nat2Z.inj_le. apply filter_length_le.
Qed.

Lemma other_players_loop (player : string) (l : list Territory.t) :
  forall acc,
    NoDup acc ->
    NoDup
      (fold_left
         (fun other_players territory =>
            match Territory.owner territory with
            | Some o =>
                if truthy (Some o) && negb (String.eqb o player)
                   && negb (mem o other_players)
                then other_players ++ [o] else other_players
            | None => other_players
            end) l acc)
    /\ forall o,
         In o (fold_left
                 (fun other_players territory =>
                    match Territory.owner territory with
                    | Some o =>
                        if truthy (Some o) && negb (String.eqb o player)
                           && negb (mem o other_players)
                        then other_players ++ [o] else other_players
                    | None => other_players
                    end) l acc)
         <-> In o acc
             \/ (o <> player /\ o <> EmptyString
                 /\ exists t, In t l /\ Territory.owner t = Some o).
Proof.
  induction l as [|t l IH]; intros acc Hacc; cbn [fold_left].
  - split; [exact Hacc|]. intros o. split; [auto|].
    intros [H|[_ [_ [t [[] _]]]]]. exact H.
  - destruct (Territory.owner t) as [o'|] eqn:Eo.
    + destruct (truthy (Some o') && negb (String.eqb o' player)
                && negb (mem o' acc)) eqn:Ec.
      * apply andb_true_iff in Ec. destruct Ec as [Ec Em].
        apply andb_true_iff in Ec. destruct Ec as [Et Ep].
        apply negb_true_iff in Em, Ep. simpl in Et.
        apply negb_true_iff in Et.
        apply String.eqb_neq in Et, Ep.
        assert (Hnew : NoDup (acc ++ [o'])).
        { apply NoDup_app; [exact Hacc | repeat constructor; intros [] |].
          intros x Hx [<-|[]].
          apply mem_In in Hx. congruence. }
        destruct (IH (acc ++ [o']) Hnew) as [N I]. split; [exact N|].
        intros o. rewrite I. rewrite in_app_iff. simpl. split.
        -- intros [[H|[H|[]]]|[H1 [H2 [t' [H3 H4]]]]].
           ++ left. exact H.
           ++ subst o'. right. split; [exact Ep|]. split; [exact Et|].
              exists t. split; [left; reflexivity | exact Eo].
           ++ right. split; [exact H1|]. split; [exact H2|].
              exists t'. split; [right; exact H3 | exact H4].
        -- intros [H|[H1 [H2 [t' [[<-|H3] H4]]]]].
           ++ left. left. exact H.
           ++ left. right. left. congruence.
           ++ right. split; [exact H1|]. split; [exact H2|].
              exists t'. split; assumption.
      * destruct (IH acc Hacc) as [N I]. split; [exact N|].
        intros o. rewrite I. split.
        -- intros [H|[H1 [H2 [t' [H3 H4]]]]]; [left; exact H|].
           right. split; [exact H1|]. split; [exact H2|].
           exists t'. split; [right; exact H3 | exact H4].
        -- intros [H|[H1 [H2 [t' [[<-|H3] H4]]]]]; [left; exact H| |].
           ++ left. rewrite Eo in H4. inversion H4; subst o'.
              apply andb_false_iff in Ec. destruct Ec as [Ec|Ec].
              ** apply andb_false_iff in Ec. destruct Ec as [Ec|Ec].
                 --- simpl in Ec. apply negb_false_iff in Ec.
                     apply String.eqb_eq in Ec. contradiction.
                 --- apply negb_false_iff in Ec.
                     apply String.eqb_eq in Ec. contradiction.
              ** apply negb_false_iff in Ec. apply mem_In. exact Ec.
           ++ right. split; [exact H1|]. split; [exact H2|].
              exists t'. split; assumption.
    + destruct (IH acc Hacc) as [N I]. split; [exact N|].
      intros o. rewrite I. split.
      * intros [H|[H1 [H2 [t' [H3 H4]]]]]; [left; exact H|].
        right. split; [exact H1|]. split; [exact H2|].
        exists t'. split; [right; exact H3 | exact H4].
      * intros [H|[H1 [H2 [t' [[<-|H3] H4]]]]]; [left; exact H| |].
        -- congruence.
        -- right. split; [exact H1|]. split; [exact H2|].
           exists t'. split; assumption.
Qed.

(** X16. [BalancedStrategy._get_other_players] lists, once each, the
    owners of the territories of the board other than the player
    itself; an unowned territory and an owner with an empty name add
    nobody. *)
Theorem other_players_are_the_opponents :
  forall (b : GameBoard.t) (player : string),
    NoDup (BalancedStrategy._get_other_players b player)
    /\ forall o,
         In o (BalancedStrategy._get_other_players b player)
         <-> o <> player /\ o <> EmptyString
             /\ exists name t,
                  In (name, t) (GameBoard.territories b)
                  /\ Territory.owner t = Some o.
Proof.
  intros b player. unfold BalancedStrategy._get_other_players.
  destruct (other_players_loop player (Dict.values (GameBoard.territories b))
              [] (NoDup_nil _)) as [N I].
  split; [exact N|]. intros o. rewrite I. split.
  - intros [[]|[H1 [H2 [t [H3 H4]]]]].
    split; [exact H1|]. split; [exact H2|].
    unfold Dict.values in H3. apply in_map_iff in H3.
    destruct H3 as [[name t'] [Et H3]]. simpl in Et. subst t'.
    exists name, t. split; assumption.
  - intros [H1 [H2 [name [t [H3 H4]]]]]. right.
    split; [exact H1|]. split; [exact H2|].
    exists t. split; [|exact H4].
    unfold Dict.values. apply in_map_iff. exists (name, t). auto.
Qed.

(* ------------------------------------------------------------------ *)
(** ** The tables of a fresh agent                                     *)
(* ------------------------------------------------------------------ *)

Lemma firstn_subset {A : Type} (n : nat) (l : list A) (x : A) :
  In x (firstn n l) -> In x l.
Proof.
  revert l. induction n as [|n IH]; intros [|y l]; simpl; try tauto.
  intros [E|H]; [left; exact E | right; apply IH; exact H].
Qed.

Lemma update_values_keys (f : string -> Q -> Q) (d : Dict.t Q) :
  Dict.keys (update_values f d) = Dict.keys d.
Proof.
  unfold update_values.
  apply (fold_left_invariant
           (fun d' : Dict.t Q => Dict.keys d' = Dict.keys d)).
  - intros d' k Hk E. rewrite keys_set_known; [exact E|].
    rewrite E. exact Hk.
  - reflexivity.
Qed.

Lemma scale_top_keys (top : list (string * Q)) (d : Dict.t Q) :
  (forall kv, In kv top -> In (fst kv) (Dict.keys d)) ->
  Dict.keys
    (fold_left
       (fun tv '(terr_name, _) =>
          Dict.set tv terr_name (Dict.get_default tv terr_name 0 * 1.8))
       top d)
  = Dict.keys d.
Proof.
  intros Htop.
  apply (fold_left_invariant
           (fun d' : Dict.t Q => Dict.keys d' = Dict.keys d)).
  - intros d' [k v] Hk E. rewrite keys_set_known; [exact E|].
    rewrite E. exact (Htop (k, v) Hk).
  - reflexivity.
Qed.

Lemma base_valuation_frame (b : GameBoard.t) (self s : Agent) :
  AIStrategy.calculate_strategic_values b self = Ok s ->
  target_continent s = target_continent self
  /\ aggression_factor s = aggression_factor self.
Proof.
  unfold AIStrategy.calculate_strategic_values. intros H.
  apply bind_Ok in H. destruct H as [p [_ H]].
  inversion H; subst s. simpl. auto.
Qed.

Lemma base_valuation_territory_keys (b : GameBoard.t) (self s : Agent) :
  Dict.wf (GameBoard.territories b) ->
  territory_values self = Dict.empty ->
  AIStrategy.calculate_strategic_values b self = Ok s ->
  Dict.keys (territory_values s) = Dict.keys (GameBoard.territories b).
Proof.
  intros W He H. apply calculate_strategic_values_base_inv in H.
  destruct H as [_ [Hval _]].
  assert (Hfill :
    for_each
      (fill_body fst
         (fun x : string * Territory.t =>
            Ok (AIStrategy.territory_value b (continent_priorities s) (fst x))))
      (GameBoard.territories b) (territory_values self)
    = Ok (territory_values s)).
  { rewrite Hval. rewrite <- for_each_pure. apply for_each_ext.
    intros d x. reflexivity. }
  rewrite He in Hfill.
  rewrite (fill_loop_keys_fresh _ _ _ _ _ Hfill W) by (intros k0 _ []).
  reflexivity.
Qed.

(** The overriding classes rescale stored values only: they add no key,
    remove none, and leave the other attributes alone. *)
Lemma valuation_frame (k : Strategy) (b : GameBoard.t) (self s : Agent) :
  calculate_strategic_values k b self = Ok s ->
  exists s0,
    AIStrategy.calculate_strategic_values b self = Ok s0
    /\ Dict.keys (territory_values s) = Dict.keys (territory_values s0)
    /\ target_continent s = target_continent s0
    /\ aggression_factor s = aggression_factor s0.
Proof.
  assert (Hagg : forall s1,
             AggressiveStrategy.calculate_strategic_values b self = Ok s1 ->
             exists s0,
               AIStrategy.calculate_strategic_values b self = Ok s0
               /\ Dict.keys (territory_values s1) = Dict.keys (territory_values s0)
               /\ target_continent s1 = target_continent s0
               /\ aggression_factor s1 = aggression_factor s0).
  { intros s1 H1. unfold AggressiveStrategy.calculate_strategic_values in H1.
    revalue H1 s0. exists s0. subst s1. simpl.
    rewrite update_values_keys. auto. }
  assert (Hdef : forall s1,
             DefensiveStrategy.calculate_strategic_values b self = Ok s1 ->
             exists s0,
               AIStrategy.calculate_strategic_values b self = Ok s0
               /\ Dict.keys (territory_values s1) = Dict.keys (territory_values s0)
               /\ target_continent s1 = target_continent s0
               /\ aggression_factor s1 = aggression_factor s0).
  { intros s1 H1. unfold DefensiveStrategy.calculate_strategic_values in H1.
    revalue H1 s0. exists s0. subst s1. simpl.
    rewrite update_values_keys. auto. }
  destruct k; simpl; intros H;
    try (exists s; auto; fail); try (apply Hagg; exact H; fail);
    try (apply Hdef; exact H; fail).
  - unfold NapoleonStrategy.calculate_strategic_values in H.
    revalue H s1. destruct (Hagg s1 H) as [s0 [H0 [K [T A]]]].
    exists s0. subst s. simpl. rewrite update_values_keys. auto.
  - unfold GenghisKhanStrategy.calculate_strategic_values in H.
    revalue H s0. exists s0. subst s. simpl. rewrite update_values_keys. auto.
  - unfold AlexanderStrategy.calculate_strategic_values in H.
    revalue H s1. destruct (Hagg s1 H) as [s0 [H0 [K [T A]]]].
    exists s0. subst s. simpl. rewrite scale_top_keys; [auto|].
    intros [k v] Hkv. apply (firstn_subset 5 (sort_desc snd (Dict.items (territory_values s1)))) in Hkv.
    apply (proj1 (sort_desc_In snd _ _)) in Hkv.
    simpl. apply in_map_iff. exists (k, v). auto.
  - unfold SunTzuStrategy.calculate_strategic_values in H.
    revalue H s0. exists s0. subst s. simpl. rewrite update_values_keys. auto.
  - unfold HannibalStrategy.calculate_strategic_values in H.
    revalue H s0. exists s0. subst s. simpl. rewrite update_values_keys. auto.
  - unfold ElizabethStrategy.calculate_strategic_values in H.
    revalue H s1. destruct (Hdef s1 H) as [s0 [H0 [K [T A]]]].
    exists s0. subst s. simpl. rewrite update_values_keys. auto.
Qed.

Lemma square_territories_wf : Dict.wf (GameBoard.territories Examples.square).
Proof.
  unfold Dict.wf. simpl.
  repeat (constructor; [simpl; intuition discriminate|]). constructor.
Qed.

Lemma init_tables :
  forall (k : Strategy) (b : GameBoard.t) (player : string) (g g' : Rng)
    (self : Agent),
    Dict.wf (GameBoard.continents b) ->
    Dict.wf (GameBoard.territories b) ->
    0 <= draws g (pos g) /\ draws g (pos g) < 1 ->
    init k b player g = Ok (self, g') ->
    Dict.keys (continent_priorities self) = Dict.keys (GameBoard.continents b)
    /\ Dict.keys (territory_values self) = Dict.keys (GameBoard.territories b)
    /\ player_name self = player
    /\ target_continent self = None
    /\ 0.9 <= aggression_factor self /\ aggression_factor self <= 1.1.
Proof.
  intros k b player g g' self Wc Wt Hu H.
  pose proof (init_covers k b player g g' self Wc H) as Hc.
  split; [exact Hc|]. unfold init in H.
  apply bind_Ok in H. destruct H as [s [Hs H]].
  destruct (valuation_frame k b _ s Hs) as [s0 [H0 [K [T A]]]].
  pose proof (base_valuation_territory_keys
                b (mkAgent player Dict.empty Dict.empty None 1) s0 Wt eq_refl H0)
    as Kt.
  destruct (base_valuation_frame b _ s0 H0) as [T0 A0]. simpl in T0, A0.
  destruct (calculate_strategic_values_priorities k b _ s Hs)
    as [s0' [H0' [_ Pn]]].
  rewrite H0 in H0'. inversion H0'; subst s0'; clear H0'.
  apply calculate_strategic_values_base_inv in H0.
  destruct H0 as [_ [_ Pn0]]. simpl in Pn0.
  assert (Hplain : forall x, (s, g) = x -> Ok (s, g) = Ok (self, g') ->
             Dict.keys (territory_values self) = Dict.keys (GameBoard.territories b)
             /\ player_name self = player
             /\ target_continent self = None
             /\ 0.9 <= aggression_factor self /\ aggression_factor self <= 1.1).
  { intros x _ E. inversion E; subst self g'. rewrite K, Kt, Pn, Pn0, T, T0, A, A0.
    repeat split; try reflexivity; lra. }
  assert (Hdrawn :
            (let '(u, g1) := random g in
             Ok (mkAgent player (territory_values s) (continent_priorities s)
                         (target_continent s) (0.9 + (1.1 - 0.9) * u), g1))
            = Ok (self, g') ->
            Dict.keys (territory_values self) = Dict.keys (GameBoard.territories b)
            /\ player_name self = player
            /\ target_continent self = None
            /\ 0.9 <= aggression_factor self /\ aggression_factor self <= 1.1).
  { unfold random. intros E. inversion E; subst self g'. simpl.
    rewrite K, Kt, T, T0. destruct Hu as [U1 U2].
    repeat split; try reflexivity; lra. }
  destruct k; try (apply (Hplain (s, g) eq_refl); exact H);
    apply Hdrawn; exact H.
Qed.

(** X17. A freshly created agent of any class, on a board whose two
    dictionaries have distinct keys, holds one priority per continent
    and one value per territory of the board, in the board's order; it
    is named after its player and has no target continent yet.  The
    aggression factor drawn by the balanced classes lies between 0.9 and
    1.1 when the draw lies between 0 and 1. *)
Theorem init_tables_cover_board :
  forall (k : Strategy) (b : GameBoard.t) (player : string) (g g' : Rng)
    (self : Agent),
    Dict.wf (GameBoard.continents b) ->
    Dict.wf (GameBoard.territories b) ->
    0 <= draws g (pos g) /\ draws g (pos g) < 1 ->
    init k b player g = Ok (self, g') ->
    Dict.keys (continent_priorities self) = Dict.keys (GameBoard.continents b)
    /\ Dict.keys (territory_values self) = Dict.keys (GameBoard.territories b)
    /\ player_name self = player
    /\ target_continent self = None
    /\ (k = Balanced \/ k = SunTzu ->
        0.9 <= aggression_factor self /\ aggression_factor self <= 1.1).
Proof.
  intros k b player g g' self Wc Wt Hu H.
  destruct (init_tables k b player g g' self Wc Wt Hu H)
    as [H1 [H2 [H3 [H4 H5]]]].
  repeat (split; [assumption|]). intros _. exact H5.
Qed.

Lemma init_tables_cover_board_witness :
  exists self g',
    init SunTzu Examples.square "P" Examples.halves = Ok (self, g')
    /\ Dict.keys (territory_values self)
       = Dict.keys (GameBoard.territories Examples.square)
    /\ 0.9 <= aggression_factor self /\ aggression_factor self <= 1.1.
Proof.
  assert (E : exists self g',
             init SunTzu Examples.square "P" Examples.halves = Ok (self, g'))
    by (eexists; eexists; vm_compute; reflexivity).
  destruct E as [self [g' E]]. exists self, g'. split; [exact E|].
  destruct (init_tables_cover_board SunTzu Examples.square "P"
              Examples.halves g' self square_continents_wf
              square_territories_wf (halves_in_range 0) E)
    as [_ [K [_ [_ A]]]].
  split; [exact K | apply A; right; reflexivity].
Defined.


Lemma square_armies_not_minus_one :
  forall name t,
    GameBoard.get_territory Examples.square name = Some t ->
    Territory.armies t <> (-1)%Z.
Proof.
  intros name t H. pose proof (square_nonnegative_armies name t H). lia.
Qed.

(* ------------------------------------------------------------------ *)
(** ** The board of the game                                           *)
(* ------------------------------------------------------------------ *)

Lemma check_consistent_sound (b : GameBoard.t) :
  check_consistent b = true -> consistent b.
Proof.
  unfold check_consistent. intros H cn c m Hc Hm.
  rewrite forallb_forall in H. specialize (H (cn, c) Hc). simpl in H.
  rewrite forallb_forall in H. specialize (H m Hm).
  apply mem_In in H. unfold on_board, GameBoard.get_territory. intros Hnone.
  apply get_None_keys in Hnone. contradiction.
Qed.

Lemma check_nonempty_sound (b : GameBoard.t) :
  check_nonempty b = true ->
  forall cn c, In (cn, c) (GameBoard.continents b) ->
               Continent.territories c <> [].
Proof.
  unfold check_nonempty. intros H cn c Hc He.
  rewrite forallb_forall in H. specialize (H (cn, c) Hc). simpl in H.
  rewrite He in H. discriminate.
Qed.

Lemma check_modest_sound (b : GameBoard.t) :
  check_modest b = true -> modest_continents b.
Proof.
  unfold check_modest. intros H cn c Hc.
  rewrite forallb_forall in H. specialize (H (cn, c) Hc). simpl in H.
  apply andb_true_iff in H. destruct H as [H1 H2].
  apply Z.ltb_lt in H1, H2. split; assumption.
Qed.

Lemma check_disjoint_sound (b : GameBoard.t) :
  check_disjoint b = true -> disjoint_continents b.
Proof.
  unfold check_disjoint. intros H cn c m Hc Hm.
  rewrite forallb_forall in H. specialize (H (cn, c) Hc). simpl in H.
  rewrite forallb_forall in H. specialize (H m Hm).
  destruct (AIStrategy.get_continent_for_territory b m) as [x|];
    [|discriminate].
  simpl in H. apply String.eqb_eq in H. subst x. reflexivity.
Qed.

Section States.
Variables b0 b : GameBoard.t.
Hypothesis same : state_of b0 b.

Lemma state_check_consistent : check_consistent b = check_consistent b0.
Proof.
  destruct same as [Ec [_ Ek]]. unfold check_consistent.
  rewrite Ec, Ek. reflexivity.
Qed.

Lemma state_check_nonempty : check_nonempty b = check_nonempty b0.
Proof.
  destruct same as [Ec _]. unfold check_nonempty. rewrite Ec. reflexivity.
Qed.

Lemma state_check_modest : check_modest b = check_modest b0.
Proof.
  destruct same as [Ec _]. unfold check_modest. rewrite Ec. reflexivity.
Qed.

Lemma state_check_disjoint : check_disjoint b = check_disjoint b0.
Proof.
  destruct same as [Ec _].
  unfold check_disjoint, AIStrategy.get_continent_for_territory.
  rewrite Ec. reflexivity.
Qed.
End States.

Lemma standard_state_shape (b : GameBoard.t) :
  state_of StandardBoard._initialize_board b ->
  well_formed b /\ modest_continents b /\ disjoint_continents b.
Proof.
  intros Hs. split; [split|split].
  - apply check_consistent_sound.
    rewrite (state_check_consistent _ _ Hs). vm_compute. reflexivity.
  - apply check_nonempty_sound.
    rewrite (state_check_nonempty _ _ Hs). vm_compute. reflexivity.
  - apply check_modest_sound.
    rewrite (state_check_modest _ _ Hs). vm_compute. reflexivity.
  - apply check_disjoint_sound.
    rewrite (state_check_disjoint _ _ Hs). vm_compute. reflexivity.
Qed.

Lemma standard_board_is_a_state :
  state_of StandardBoard._initialize_board StandardBoard._initialize_board.
Proof. repeat split. Qed.

Lemma standard_board_nonnegative_armies :
  nonnegative_armies StandardBoard._initialize_board.
Proof.
  apply nonnegative_armies_of_list. vm_compute.
  repeat (constructor; [discriminate|]). constructor.
Qed.


(* ------------------------------------------------------------------ *)
(** ** Placing armies                                                  *)
(* ------------------------------------------------------------------ *)

Lemma set_armies_is_a_state (b : GameBoard.t) (name : string) (a : Z) :
  state_of b (set_armies b name a).
Proof.
  unfold state_of, set_armies. simpl. split; [reflexivity|].
  split; [reflexivity|].
  unfold Dict.keys. rewrite map_map. apply map_ext.
  intros [k t]. simpl. destruct (String.eqb k name); reflexivity.
Qed.

Lemma total_armies_set_armies_list (name : string) (a : Z)
  (l : list (string * Territory.t)) (t : Territory.t) :
  NoDup (map fst l) ->
  Dict.get l name = Some t ->
  fold_right (fun kt n => (Territory.armies (snd kt) + n)%Z) 0%Z
    (map (fun kt : string * Territory.t =>
            if String.eqb (fst kt) name then (fst kt, with_armies a (snd kt))
            else kt) l)
  = (fold_right (fun kt n => (Territory.armies (snd kt) + n)%Z) 0%Z l
     - Territory.armies t + a)%Z.
Proof.
  induction l as [|[k v] l IH]; simpl; intros Hnd Hg; [discriminate|].
  inversion Hnd as [|? ? Hk Hl]; subst.
  destruct (String.eqb k name) eqn:E.
  - inversion Hg; subst v. apply String.eqb_eq in E. subst k. simpl.
    assert (Hsame :
      map (fun kt : string * Territory.t =>
             if String.eqb (fst kt) name then (fst kt, with_armies a (snd kt))
             else kt) l = l).
    { clear IH Hl Hnd Hg. induction l as [|[k' v'] l IHl]; [reflexivity|].
      simpl. destruct (String.eqb k' name) eqn:E'.
      - apply String.eqb_eq in E'. subst k'. exfalso. apply Hk. left.
        reflexivity.
      - f_equal. apply IHl. intros Hin. apply Hk. right. exact Hin. }
    rewrite Hsame. lia.
  - simpl. rewrite (IH Hl Hg). lia.
Qed.

Lemma total_armies_set_armies (b : GameBoard.t) (name : string) (a : Z)
  (t : Territory.t) :
  Dict.wf (GameBoard.territories b) ->
  GameBoard.get_territory b name = Some t ->
  total_armies (set_armies b name a)
  = (total_armies b - Territory.armies t + a)%Z.
Proof.
  intros W G. unfold total_armies, set_armies. simpl.
  apply total_armies_set_armies_list; assumption.
Qed.

(** X20. [Player.place_army] moves one army from the player's
    reinforcements to the territory, or does nothing: the armies on the
    board and in reserve stay the same in number.  It succeeds exactly
    when the territory is in the player's set, the player has a
    reinforcement left, and the board knows the territory as the
    player's; a refusal leaves player and board as they were. *)
Theorem place_army_conserves_armies :
  forall (self self' : Player.t) (territory_name : string)
    (board board' : GameBoard.t) (placed : bool),
    Dict.wf (GameBoard.territories board) ->
    Player.place_army self territory_name board = (placed, self', board') ->
    (Player.reinforcements self' + total_armies board'
     = Player.reinforcements self + total_armies board)%Z
    /\ state_of board board'
    /\ (placed = true <->
        In territory_name (Player.territories_owned self)
        /\ (0 < Player.reinforcements self)%Z
        /\ exists t, GameBoard.get_territory board territory_name = Some t
                     /\ Territory.owner t = Some (Player.name self))
    /\ (placed = true ->
        Player.reinforcements self' = (Player.reinforcements self - 1)%Z
        /\ exists t, GameBoard.get_territory board territory_name = Some t
                     /\ GameBoard.get_territory board' territory_name
                        = Some (with_armies (Territory.armies t + 1) t))
    /\ (placed = false -> self' = self /\ board' = board).
Proof.
  intros self self' name board board' placed W H.
  unfold Player.place_army in H.
  assert (Hrefl : state_of board board) by (repeat split).
  destruct (mem name (Player.territories_owned self)) eqn:Em; simpl in H.
  2:{ inversion H; subst. split; [reflexivity|]. split; [exact Hrefl|].
      split; [|split; [discriminate | auto]].
      split; [discriminate|]. intros [Hin _]. apply mem_In in Hin. congruence. }
  apply mem_In in Em.
  destruct (Player.reinforcements self >? 0)%Z eqn:Er.
  2:{ inversion H; subst. split; [reflexivity|]. split; [exact Hrefl|].
      split; [|split; [discriminate | auto]].
      split; [discriminate|]. intros [_ [Hr _]].
      rewrite Z.gtb_ltb in Er. apply Z.ltb_ge in Er. lia. }
  apply Z.gtb_lt in Er.
  destruct (GameBoard.get_territory board name) as [t|] eqn:Et.
  2:{ inversion H; subst. split; [reflexivity|]. split; [exact Hrefl|].
      split; [|split; [discriminate | auto]].
      split; [discriminate|]. intros [_ [_ [t [Ht _]]]]. discriminate. }
  destruct (Territory.owned_by t (Player.name self)) eqn:Eo.
  2:{ inversion H; subst. split; [reflexivity|]. split; [exact Hrefl|].
      split; [|split; [discriminate | auto]].
      split; [discriminate|]. intros [_ [_ [t' [Ht Ho]]]].
      inversion Ht; subst t'. apply owned_by_true in Ho. congruence. }
  inversion H; subst placed self' board'; clear H. simpl.
  split; [|split; [|split; [|split]]].
  - rewrite (total_armies_set_armies board name _ t W Et). lia.
  - apply set_armies_is_a_state.
  - split; [|reflexivity]. intros _. split; [exact Em|]. split; [lia|].
    exists t. split; [reflexivity|]. apply owned_by_true. exact Eo.
  - intros _. split; [reflexivity|]. exists t. split; [reflexivity|].
    rewrite get_territory_set_armies. rewrite String.eqb_refl.
    rewrite Et. reflexivity.
  - discriminate.
Qed.

Lemma place_army_conserves_armies_witness :
  (1 + total_armies (set_armies Examples.square "d" 3)
   = 2 + total_armies Examples.square)%Z.
Proof.
  destruct (place_army_conserves_armies
              (Player.mk "P" "Red" ["d"]%string [] 2 false)
              (Player.mk "P" "Red" ["d"]%string [] 1 false)
              "d" Examples.square (set_armies Examples.square "d" 3) true
              square_territories_wf eq_refl) as [H _].
  exact H.
Defined.

(* ------------------------------------------------------------------ *)
(** ** The reinforcements of a turn                                    *)
(* ------------------------------------------------------------------ *)

Lemma continent_bonus_loop (m : GameManager.t) (player : Player.t)
  (l : list (string * Continent.t)) :
  forall acc,
    fold_left
      (fun reinforcements cc =>
         let continent_obj : Continent.t := snd cc in
         match Continent.territories continent_obj with
         | [] => reinforcements
         | _ :: _ =>
             if GameManager.is_owner_of_all m player continent_obj
             then (reinforcements + Continent.bonus_armies continent_obj)%Z
             else reinforcements
         end) l acc
    = (acc
       + sum_Z (map (fun cc : string * Continent.t =>
                       Continent.bonus_armies (snd cc))
                    (filter
                       (fun cc : string * Continent.t =>
                          match Continent.territories (snd cc) with
                          | [] => false
                          | _ :: _ =>
                              forallb
                                (friendly (GameManager.game_board m)
                                          (Player.name player))
                                (Continent.territories (snd cc))
                          end) l)))%Z.
Proof.
  induction l as [|[cn c] l IH]; intros acc; simpl; [lia|].
  rewrite IH. unfold GameManager.is_owner_of_all. simpl.
  destruct (Continent.territories c) as [|m0 ms] eqn:Ec; [reflexivity|].
  change (forallb
            (fun territory_name =>
               match GameBoard.get_territory (GameManager.game_board m)
                                             territory_name with
               | Some territory =>
                   Territory.owned_by territory (Player.name player)
               | None => false
               end) (m0 :: ms))
    with (forallb (friendly (GameManager.game_board m) (Player.name player))
                  (m0 :: ms)).
  destruct (forallb (friendly (GameManager.game_board m) (Player.name player))
                    (m0 :: ms)); simpl; lia.
Qed.

Lemma sum_Z_nonneg (l : list Z) :
  Forall (fun z => (0 <= z)%Z) l -> (0 <= sum_Z l)%Z.
Proof.
  induction 1 as [|z l Hz Hl IH]; simpl; lia.
Qed.

(** X21. [_calculate_reinforcements] grants the larger of 3 and a third
    of the number of territories of the player, rounded down, plus the
    bonus of every continent with territories that the player holds
    entirely; it is at least 3 when no bonus is negative. *)
Theorem reinforcements_formula :
  forall (m : GameManager.t) (player : Player.t),
    GameManager._calculate_reinforcements m player
    = (Z.max 3 (Z.of_nat (List.length (Player.territories_owned player)) / 3)
       + sum_Z (map (fun cc : string * Continent.t =>
                       Continent.bonus_armies (snd cc))
                    (held_continents (GameManager.game_board m)
                                     (Player.name player))))%Z
    /\ ((forall cn c,
            In (cn, c) (GameBoard.continents (GameManager.game_board m)) ->
            (0 <= Continent.bonus_armies c)%Z) ->
        (3 <= GameManager._calculate_reinforcements m player)%Z).
Proof.
  intros m player.
  assert (E : GameManager._calculate_reinforcements m player
              = (Z.max 3 (Z.of_nat (List.length
                            (Player.territories_owned player)) / 3)
                 + sum_Z (map (fun cc : string * Continent.t =>
                                 Continent.bonus_armies (snd cc))
                              (held_continents (GameManager.game_board m)
                                               (Player.name player))))%Z).
  { unfold GameManager._calculate_reinforcements. cbv zeta.
    rewrite continent_bonus_loop. reflexivity. }
  split; [exact E|]. intros Hb. rewrite E.
  assert (0 <= sum_Z (map (fun cc : string * Continent.t =>
                             Continent.bonus_armies (snd cc))
                          (held_continents (GameManager.game_board m)
                                           (Player.name player))))%Z.
  { apply sum_Z_nonneg. apply Forall_forall. intros z Hz.
    apply in_map_iff in Hz. destruct Hz as [[cn c] [Ez Hin]]. subst z.
    unfold held_continents in Hin. apply filter_In in Hin.
    destruct Hin as [Hin _]. simpl. exact (Hb cn c Hin). }
  lia.
Qed.

(* ------------------------------------------------------------------ *)
(** ** Trading cards                                                   *)
(* ------------------------------------------------------------------ *)

Lemma card_trade_bonus_bounds (b : GameBoard.t) (deck : list Card.t)
  (n : nat) :
  (4 <= GameManager._calculate_card_trade_bonus (GameManager.mk b deck n))%Z
  /\ (GameManager._calculate_card_trade_bonus (GameManager.mk b deck n)
      < GameManager._calculate_card_trade_bonus (GameManager.mk b deck (S n)))%Z.
Proof.
  unfold GameManager._calculate_card_trade_bonus.
  cbn [GameManager.cards_trade_count].
  do 6 (destruct n as [|n]; [vm_compute; split; [discriminate | reflexivity]|]).
  replace (S (S (S (S (S (S n))))) <? 6)%nat with false by reflexivity.
  replace (S (S (S (S (S (S (S n)))))) <? 6)%nat with false by reflexivity.
  lia.
Qed.

(** X22. The bonus for trading a set of cards grows with every trade:
    4, 6, 8, 10, 12 and 15 armies for the first six sets, then 5 more
    for each further set. *)
Theorem card_trade_bonus_increases :
  forall (m : GameManager.t),
    (4 <= GameManager._calculate_card_trade_bonus m)%Z
    /\ (GameManager._calculate_card_trade_bonus m
        < GameManager._calculate_card_trade_bonus
            (GameManager.mk (GameManager.game_board m)
                            (GameManager.cards_deck m)
                            (S (GameManager.cards_trade_count m))))%Z
    /\ ((6 <= GameManager.cards_trade_count m)%nat ->
        GameManager._calculate_card_trade_bonus
          (GameManager.mk (GameManager.game_board m)
                          (GameManager.cards_deck m)
                          (S (GameManager.cards_trade_count m)))
        = (GameManager._calculate_card_trade_bonus m + 5)%Z).
Proof.
  intros [b deck n]. cbn [GameManager.game_board GameManager.cards_deck
                            GameManager.cards_trade_count].
  destruct (card_trade_bonus_bounds b deck n) as [H1 H2].
  split; [exact H1|]. split; [exact H2|]. intros Hn.
  unfold GameManager._calculate_card_trade_bonus.
  cbn [GameManager.cards_trade_count].
  destruct (n <? 6)%nat eqn:E1; [apply Nat.ltb_lt in E1; lia|].
  destruct (S n <? 6)%nat eqn:E2; [apply Nat.ltb_lt in E2; lia|].
  lia.
Qed.
(* ------------------------------------------------------------------ *)
(** ** Sets of cards                                                   *)
(* ------------------------------------------------------------------ *)

(** X23. [_check_for_card_set] accepts three cards exactly when they
    form a set of the game: one of them is wild, or the three are of
    one kind, or of three different kinds.  Fewer than three cards are
    never a set. *)
Theorem three_cards_form_a_set :
  forall (c1 c2 c3 : Card.t),
    GameManager._check_for_card_set [c1; c2; c3]
    = standard_set (Card.type c1) (Card.type c2) (Card.type c3)
    /\ GameManager._check_for_card_set [c1; c2] = false
    /\ GameManager._check_for_card_set [c1] = false
    /\ GameManager._check_for_card_set [] = false.
Proof.
  intros [i1 t1 n1] [i2 t2 n2] [i3 t3 n3].
  destruct t1, t2, t3; repeat split; reflexivity.
Qed.

Lemma combinations_app {A : Type} (l1 l2 : list A) :
  forall (r : nat) (c : list A),
    In c (GameManager.combinations l1 r) ->
    In c (GameManager.combinations (l1 ++ l2) r).
Proof.
  induction l1 as [|x l1 IH]; intros r c H.
  - destruct r as [|r]; simpl in H.
    + destruct H as [<-|[]]. destruct l2; left; reflexivity.
    + destruct H.
  - destruct r as [|r]; simpl in H |- *.
    + exact H.
    + apply in_app_or in H. apply in_or_app. destruct H as [H|H].
      * left. apply in_map_iff in H. destruct H as [c' [<- H]].
        apply in_map. apply IH. exact H.
      * right. apply IH. exact H.
Qed.

Lemma five_cards_contain_a_set (c1 c2 c3 c4 c5 : Card.t) :
  existsb GameManager._check_for_card_set
          (GameManager.combinations [c1; c2; c3; c4; c5] 3) = true.
Proof.
  destruct c1 as [i1 t1 n1], c2 as [i2 t2 n2], c3 as [i3 t3 n3],
           c4 as [i4 t4 n4], c5 as [i5 t5 n5].
  destruct t1, t2, t3, t4, t5; reflexivity.
Qed.

Lemma combinations_spec (l : list Card.t) :
  forall (r : nat) (s : list Card.t),
    In s (GameManager.combinations l r) ->
    List.length s = r
    /\ incl s l
    /\ (NoDup (map Card.id l) -> NoDup (map Card.id s)).
Proof.
  induction l as [|x l IH]; intros r s H.
  - destruct r as [|r]; simpl in H; [|destruct H].
    destruct H as [<-|[]]. repeat split; [apply incl_nil_l | constructor].
  - destruct r as [|r]; simpl in H.
    + destruct H as [<-|[]]. repeat split; [apply incl_nil_l | constructor].
    + apply in_app_or in H. destruct H as [H|H].
      * apply in_map_iff in H. destruct H as [s' [<- H]].
        destruct (IH r s' H) as [L [I N]]. split; [simpl; lia|].
        split.
        -- intros y [<-|Hy]; [left; reflexivity | right; apply I; exact Hy].
        -- intros Hnd. simpl in Hnd |- *. inversion Hnd as [|? ? Hx Hl]; subst.
           constructor; [|apply N; exact Hl].
           intros Hin. apply Hx. apply in_map_iff in Hin.
           destruct Hin as [y [Ey Hy]]. apply in_map_iff. exists y.
           split; [exact Ey | apply I; exact Hy].
      * destruct (IH (S r) s H) as [L [I N]]. split; [exact L|].
        split.
        -- intros y Hy. right. apply I. exact Hy.
        -- intros Hnd. inversion Hnd; subst. apply N. assumption.
Qed.

Lemma remove_first_perm (card : Card.t) (hand : list Card.t) :
  NoDup (map Card.id hand) ->
  In card hand ->
  Permutation hand (card :: Player.remove_first card hand).
Proof.
  induction hand as [|x hand IH]; intros Hnd Hin; [destruct Hin|].
  simpl in Hnd. inversion Hnd as [|? ? Hx Hl]; subst. simpl.
  unfold Card.same. destruct (Nat.eqb (Card.id x) (Card.id card)) eqn:E.
  - apply Nat.eqb_eq in E. destruct Hin as [<-|Hin]; [apply Permutation_refl|].
    exfalso. apply Hx. rewrite E. apply in_map. exact Hin.
  - apply Nat.eqb_neq in E. destruct Hin as [<-|Hin]; [congruence|].
    eapply Permutation_trans; [|apply perm_swap].
    apply perm_skip. apply IH; assumption.
Qed.

Lemma same_card_found (card : Card.t) (hand : list Card.t) :
  In card hand -> existsb (Card.same card) hand = true.
Proof.
  intros H. apply existsb_exists. exists card. split; [exact H|].
  unfold Card.same. apply Nat.eqb_refl.
Qed.

Lemma remove_cards_perm (s : list Card.t) :
  forall hand,
    NoDup (map Card.id hand) ->
    NoDup (map Card.id s) ->
    incl s hand ->
    Permutation hand
      (s ++ fold_left
              (fun hand card =>
                 if existsb (Card.same card) hand
                 then Player.remove_first card hand else hand)
              s hand).
Proof.
  induction s as [|c s IH]; intros hand Hh Hs Hi; [apply Permutation_refl|].
  simpl. assert (Hc : In c hand) by (apply Hi; left; reflexivity).
  rewrite (same_card_found c hand Hc).
  pose proof (remove_first_perm c hand Hh Hc) as P.
  simpl in Hs. inversion Hs as [|? ? Hcs Hs']; subst.
  assert (Hh1 : NoDup (map Card.id (Player.remove_first c hand))).
  { assert (N : NoDup (map Card.id (c :: Player.remove_first c hand))).
    { eapply Permutation_NoDup; [apply Permutation_map; exact P | exact Hh]. }
    inversion N; assumption. }
  assert (Hi1 : incl s (Player.remove_first c hand)).
  { intros y Hy. assert (Hyh : In y hand) by (apply Hi; right; exact Hy).
    apply (Permutation_in _ P) in Hyh. destruct Hyh as [<-|Hyh]; [|exact Hyh].
    exfalso. apply Hcs. apply in_map. exact Hy. }
  eapply Permutation_trans; [exact P|].
  apply perm_skip. apply IH; assumption.
Qed.

Lemma territory_bonus_nonneg (owned : list string) (s : list Card.t) :
  (0 <= fold_left
          (fun territory_bonus card =>
             if truthy (Card.territory card)
                && match Card.territory card with
                   | Some name => mem name owned
                   | None => false
                   end
             then (territory_bonus + 2)%Z else territory_bonus)
          s 0%Z)%Z.
Proof.
  apply (fold_left_invariant (fun z => (0 <= z)%Z)); [|lia].
  intros z c _ Hz. destruct (_ && _); lia.
Qed.

(** X24. A player with five or more cards always holds a set of three:
    [_handle_card_trading] then trades the first one it finds, grants at
    least four armies, counts the trade, and moves the three cards from
    the hand to the bottom of the deck without losing or duplicating a
    card. *)
Theorem mandatory_trade_succeeds :
  forall (m : GameManager.t) (player : Player.t),
    (5 <= List.length (Player.cards player))%nat ->
    NoDup (map Card.id (Player.cards player)) ->
    exists bonus m' player' selected,
      GameManager._handle_card_trading m player = (bonus, m', player')
      /\ (4 <= bonus)%Z
      /\ List.length selected = 3%nat
      /\ GameManager._check_for_card_set selected = true
      /\ GameManager.cards_trade_count m'
         = S (GameManager.cards_trade_count m)
      /\ GameManager.cards_deck m' = GameManager.cards_deck m ++ selected
      /\ Permutation (Player.cards player) (selected ++ Player.cards player').
Proof.
  intros m player Hlen Hnd.
  destruct (Player.cards player) as [|c1 [|c2 [|c3 [|c4 [|c5 rest]]]]] eqn:Eh;
    simpl in Hlen; try lia.
  pose proof (five_cards_contain_a_set c1 c2 c3 c4 c5) as Hex.
  apply existsb_exists in Hex. destruct Hex as [s [Hs Hv]].
  apply (combinations_app _ rest) in Hs. simpl app in Hs.
  unfold GameManager._handle_card_trading. rewrite Eh.
  replace (List.length (c1 :: c2 :: c3 :: c4 :: c5 :: rest) <? 3)%nat
    with false by reflexivity.
  cbv zeta.
  destruct (filter GameManager._check_for_card_set
              (GameManager.combinations
                 (c1 :: c2 :: c3 :: c4 :: c5 :: rest) 3))
    as [|selected others] eqn:Ef.
  - exfalso.
    assert (Hin : In s (filter GameManager._check_for_card_set
                          (GameManager.combinations
                             (c1 :: c2 :: c3 :: c4 :: c5 :: rest) 3)))
      by (apply filter_In; split; assumption).
    rewrite Ef in Hin. destruct Hin.
  - assert (Hsel : In selected
                      (filter GameManager._check_for_card_set
                         (GameManager.combinations
                            (c1 :: c2 :: c3 :: c4 :: c5 :: rest) 3)))
      by (rewrite Ef; left; reflexivity).
    apply filter_In in Hsel. destruct Hsel as [Hcomb Hvalid].
    destruct (combinations_spec _ _ _ Hcomb) as [L [I N]].
    eexists. eexists. eexists. exists selected.
    split; [reflexivity|].
    split.
    { pose proof (card_trade_bonus_bounds (GameManager.game_board m)
                    (GameManager.cards_deck m)
                    (GameManager.cards_trade_count m)) as [B _].
      destruct m as [b deck n]. simpl in B |- *.
      pose proof (territory_bonus_nonneg
                    (Player.territories_owned player) selected).
      lia. }
    split; [exact L|]. split; [exact Hvalid|].
    split; [reflexivity|]. split; [reflexivity|].
    simpl. rewrite Eh. apply remove_cards_perm; [exact Hnd | apply N; exact Hnd | exact I].
Qed.

Lemma mandatory_trade_succeeds_witness :
  exists bonus m' player',
    GameManager._handle_card_trading
      (GameManager.mk Examples.square [] 0)
      (Player.mk "P" "Red" ["d"]%string
         [Card.mk 1 INFANTRY (Some "a"%string);
          Card.mk 2 CAVALRY (Some "d"%string);
          Card.mk 3 INFANTRY (Some "b"%string);
          Card.mk 4 CAVALRY (Some "c"%string);
          Card.mk 5 WILD None] 0 false)
    = (bonus, m', player')
    /\ (4 <= bonus)%Z.
Proof.
  destruct (mandatory_trade_succeeds
              (GameManager.mk Examples.square [] 0)
              (Player.mk "P" "Red" ["d"]%string
                 [Card.mk 1 INFANTRY (Some "a"%string);
                  Card.mk 2 CAVALRY (Some "d"%string);
                  Card.mk 3 INFANTRY (Some "b"%string);
                  Card.mk 4 CAVALRY (Some "c"%string);
                  Card.mk 5 WILD None] 0 false))
    as [bonus [m' [player' [selected [E [B _]]]]]].
  - simpl. lia.
  - simpl. repeat (constructor; [simpl; intuition discriminate|]). constructor.
  - exists bonus, m', player'. split; [exact E | exact B].
Defined.
(* ------------------------------------------------------------------ *)
(** ** The fortification score                                         *)
(* ------------------------------------------------------------------ *)

(** X25. [calculate_fortification_score] does not read the source of
    the move.  It is 0 for a destination that is not on the board or
    not held by the player; otherwise, on a board without negative army
    counts and for a destination of non-negative value, it lies between
    that value and 6.75 times that value. *)
Theorem fortification_score_bounds :
  forall (b : GameBoard.t) (self : Agent)
    (from_territory to_territory player : string) (score : Q),
    nonnegative_armies b ->
    0 <= Dict.get_default (territory_values self) to_territory 1.0 ->
    AIStrategy.calculate_fortification_score
      b self from_territory to_territory player = Ok score ->
    (forall other_source,
        AIStrategy.calculate_fortification_score
          b self other_source to_territory player = Ok score)
    /\ (~ (exists t, GameBoard.get_territory b to_territory = Some t
                     /\ Territory.owner t = Some player) ->
        score == 0)
    /\ ((exists t, GameBoard.get_territory b to_territory = Some t
                   /\ Territory.owner t = Some player) ->
        Dict.get_default (territory_values self) to_territory 1.0 <= score
        /\ score
           <= 6.75 * Dict.get_default (territory_values self) to_territory 1.0).
Proof.
  intros b self f t player score Hb Hv H.
  split; [intros f'; exact H|].
  unfold AIStrategy.calculate_fortification_score in H.
  destruct (GameBoard.get_territory b t) as [to_terr|] eqn:Et.
  2:{ inversion H; subst score. split; [intros _; lra|].
      intros [x [Hx _]]. discriminate. }
  destruct (Territory.owned_by to_terr player) eqn:Eo; cbn [negb] in H.
  2:{ inversion H; subst score. split; [intros _; lra|].
      intros [x [Hx Ho]]. inversion Hx; subst x.
      apply owned_by_true in Ho. congruence. }
  split.
  { intros Hno. exfalso. apply Hno. exists to_terr.
    split; [reflexivity | apply owned_by_true; exact Eo]. }
  intros _. cbv zeta in H.
  destruct (threat_range b t player Hb) as [T1 T2].
  set (v := Dict.get_default (territory_values self) t 1.0) in *.
  set (threat := AIStrategy.calculate_territory_threat b t player) in *.
  revert H.
  destruct (AIStrategy.in_target_continent b self t);
    destruct (AIStrategy.get_continent_for_territory b t) as [c|];
    try destruct (truthy (Some c));
    intros H; run_binds H; revert H; break_match;
    intros H; inversion H; subst score; clear H; split; nra.
Qed.

Lemma fortification_score_bounds_witness :
  exists score,
    AIStrategy.calculate_fortification_score
      Examples.square Examples.valued "a" "d" "P" = Ok score
    /\ Dict.get_default (territory_values Examples.valued) "d" 1.0 <= score.
Proof.
  assert (E : exists score,
             AIStrategy.calculate_fortification_score
               Examples.square Examples.valued "a" "d" "P" = Ok score)
    by (eexists; vm_compute; reflexivity).
  destruct E as [score E]. exists score. split; [exact E|].
  destruct (fortification_score_bounds Examples.square Examples.valued
              "a" "d" "P" score square_nonnegative_armies) as [_ [_ H]].
  - vm_compute. discriminate.
  - exact E.
  - apply H. eexists. split; reflexivity.
Defined.
(* ------------------------------------------------------------------ *)
(** ** The factory of agents                                           *)
(* ------------------------------------------------------------------ *)

Lemma prefix_app (sub post : string) :
  String.prefix sub (sub ++ post)%string = true.
Proof.
  induction sub as [|a sub IH]; simpl; [destruct post; reflexivity|].
  destruct (Ascii.ascii_dec a a); [exact IH | congruence].
Qed.

Lemma contains_prefix (sub s : string) :
  String.prefix sub s = true -> contains sub s = true.
Proof.
  intros H. destruct s; cbn [contains]; rewrite H; reflexivity.
Qed.

Lemma contains_app (sub pre post : string) :
  contains sub (pre ++ sub ++ post)%string = true.
Proof.
  induction pre as [|a pre IH].
  - apply contains_prefix. exact (prefix_app sub post).
  - change (String a pre ++ sub ++ post)%string
      with (String a (pre ++ sub ++ post))%string.
    cbn [contains]. rewrite IH.
    destruct (String.prefix sub (String a (pre ++ sub ++ post)));
      reflexivity.
Qed.

Lemma init_player_name (k : Strategy) (b : GameBoard.t) (player : string)
  (g g' : Rng) (self : Agent) :
  init k b player g = Ok (self, g') -> player_name self = player.
Proof.
  unfold init. intros H. apply bind_Ok in H. destruct H as [s [Hs H]].
  destruct (calculate_strategic_values_priorities k b _ s Hs)
    as [s0 [H0 [_ Pn]]].
  apply calculate_strategic_values_base_inv in H0.
  destruct H0 as [_ [_ Pn0]]. simpl in Pn0.
  destruct k; try (inversion H; subst; congruence);
    destruct (random g) as [u g1]; inversion H; subst; reflexivity.
Qed.

(** X26. [create_ai_strategy] names the agent after the player.  A name
    that contains "Napoleon" anywhere gets a [NapoleonStrategy], and a
    name that selects one of the six personas selects it whatever the
    [strategy_type]; without a [strategy_type], as the game manager
    calls it, the plain [AIStrategy] is never instantiated. *)
Theorem create_ai_strategy_choice :
  forall (name : string) (b : GameBoard.t) (strategy_type : option string)
    (g g' : Rng) (k : Strategy) (self : Agent),
    create_ai_strategy name b strategy_type g = Ok (k, self, g') ->
    player_name self = name
    /\ k = create_ai_strategy_class name strategy_type
    /\ (forall pre post,
           name = (pre ++ "Napoleon" ++ post)%string -> k = Napoleon)
    /\ (In k personas ->
        forall other_type, create_ai_strategy_class name other_type = k)
    /\ (strategy_type = None -> k <> Base).
Proof.
  intros name b ty g g' k self H. unfold create_ai_strategy in H.
  cbv zeta in H. apply bind_Ok in H. destruct H as [[s g1] [Hinit H]].
  inversion H; subst k self g'; clear H.
  split; [exact (init_player_name _ _ _ _ _ _ Hinit)|].
  split; [reflexivity|].
  unfold create_ai_strategy_class.
  split; [|split].
  - intros pre post E. subst name. rewrite contains_app. reflexivity.
  - intros Hp other.
    destruct (contains "Napoleon" name); [reflexivity|].
    destruct (contains "Genghis Khan" name); [reflexivity|].
    destruct (contains "Alexander" name); [reflexivity|].
    destruct (contains "Sun Tzu" name); [reflexivity|].
    destruct (contains "Hannibal" name); [reflexivity|].
    destruct (contains "Elizabeth" name); [reflexivity|].
    exfalso. revert Hp. unfold personas.
    destruct ty as [t|]; break_match; simpl; intuition discriminate.
  - intros ->. break_match; discriminate.
Qed.

Lemma create_ai_strategy_choice_witness :
  exists self g',
    create_ai_strategy "General Napoleon" Examples.square None Examples.halves
    = Ok (Napoleon, self, g')
    /\ player_name self = "General Napoleon"%string.
Proof.
  assert (E : exists self g',
             create_ai_strategy "General Napoleon" Examples.square None
               Examples.halves = Ok (Napoleon, self, g'))
    by (eexists; eexists; vm_compute; reflexivity).
  destruct E as [self [g' E]]. exists self, g'. split; [exact E|].
  exact (proj1 (create_ai_strategy_choice "General Napoleon" Examples.square
                  None Examples.halves g' Napoleon self E)).
Defined.
(* ------------------------------------------------------------------ *)
(** ** Treaties and trust                                              *)
(* ------------------------------------------------------------------ *)

Lemma deref_store_same (h : Heap) (r : nat) (x y : Treaty.t) :
  deref h r = Some y -> deref (store h r x) r = Some x.
Proof.
  unfold deref. revert r. induction h as [|z h IH]; intros [|r] H;
    simpl in *; try discriminate; [reflexivity | apply IH; exact H].
Qed.

Lemma deref_store_other (h : Heap) (r r' : nat) (x : Treaty.t) :
  r <> r' -> deref (store h r x) r' = deref h r'.
Proof.
  unfold deref. revert r r'. induction h as [|z h IH]; intros [|r] [|r'] H;
    simpl; try reflexivity; try congruence.
  apply IH. congruence.
Qed.

Lemma decrement_inactive (t : Treaty.t) :
  Treaty.is_active t = false -> snd (Treaty.decrement_duration t) = t.
Proof.
  intros H. unfold Treaty.decrement_duration. rewrite H. reflexivity.
Qed.

Lemma turn_step_same (e : list nat) (h : Heap) (r : nat) (t : Treaty.t) :
  deref h r = Some t ->
  deref (snd (DiplomacyManager.turn_step (e, h) r)) r
  = Some (snd (Treaty.decrement_duration t)).
Proof.
  intros H. unfold DiplomacyManager.turn_step. rewrite H.
  destruct (Treaty.is_active t) eqn:Ea.
  - destruct (Treaty.decrement_duration t) as [expired t'] eqn:Ed.
    cbv zeta. simpl snd at 2.
    destruct expired; simpl; apply (deref_store_same _ _ _ t); exact H.
  - rewrite (decrement_inactive t Ea). simpl. exact H.
Qed.

Lemma turn_step_other (e : list nat) (h : Heap) (r r' : nat) :
  r <> r' -> deref (snd (DiplomacyManager.turn_step (e, h) r)) r' = deref h r'.
Proof.
  intros H. unfold DiplomacyManager.turn_step.
  destruct (deref h r) as [t|]; [|reflexivity].
  destruct (Treaty.is_active t); [|reflexivity].
  destruct (Treaty.decrement_duration t) as [expired t']. cbv zeta.
  destruct expired; simpl; apply deref_store_other; exact H.
Qed.

Lemma turn_loop (l : list nat) :
  NoDup l ->
  forall e h,
    (forall r t,
        In r l -> deref h r = Some t ->
        deref (snd (fold_left DiplomacyManager.turn_step l (e, h))) r
        = Some (snd (Treaty.decrement_duration t)))
    /\ (forall r,
           ~ In r l ->
           deref (snd (fold_left DiplomacyManager.turn_step l (e, h))) r = deref h r).
Proof.
  induction 1 as [|x l Hx Hl IH]; intros e h.
  - split; [intros r t [] | reflexivity].
  - cbn [fold_left].
    destruct (DiplomacyManager.turn_step (e, h) x) as [e1 h1] eqn:E1.
    destruct (IH e1 h1) as [I1 I2].
    assert (Hsame : forall t, deref h x = Some t ->
                      deref h1 x = Some (snd (Treaty.decrement_duration t))).
    { intros t Ht. pose proof (turn_step_same e h x t Ht) as S.
      rewrite E1 in S. exact S. }
    assert (Hother : forall r, x <> r -> deref h1 r = deref h r).
    { intros r Hr. pose proof (turn_step_other e h x r Hr) as S.
      rewrite E1 in S. exact S. }
    split.
    + intros r t [<-|Hin] Ht.
      * rewrite (I2 x Hx). apply Hsame. exact Ht.
      * assert (x <> r) by (intros <-; contradiction).
        apply I1; [exact Hin|]. rewrite Hother; assumption.
    + intros r Hr. rewrite I2 by (intros Hin; apply Hr; right; exact Hin).
      apply Hother. intros <-. apply Hr. left. reflexivity.
Qed.

Lemma update_turn_object (self : DiplomacyManager.t) (h : Heap) (r : nat)
  (t : Treaty.t) :
  NoDup (DiplomacyManager.treaties self) ->
  In r (DiplomacyManager.treaties self) ->
  deref h r = Some t ->
  DiplomacyManager.treaties (snd (fst (DiplomacyManager.update_turn self h)))
  = DiplomacyManager.treaties self
  /\ deref (snd (DiplomacyManager.update_turn self h)) r
     = Some (snd (Treaty.decrement_duration t)).
Proof.
  intros Hnd Hin Ht. unfold DiplomacyManager.update_turn. cbv zeta.
  cbn [DiplomacyManager.treaties].
  match goal with
  | |- context [fold_left ?f ?l ([], h)] =>
      destruct (turn_loop l Hnd [] h) as [I _];
      specialize (I r t Hin Ht);
      destruct (fold_left f l ([], h)) as [e1 h1]
  end.
  simpl in I |- *. split; [reflexivity | exact I].
Qed.

Lemma after_turns_state (t : Treaty.t) :
  Treaty.status t = ACTIVE ->
  Treaty.turns_remaining t = Treaty.duration t ->
  forall n,
    ((Z.of_nat n < Z.max 1 (Treaty.duration t))%Z ->
     Treaty.status (after_turns n t) = ACTIVE
     /\ Treaty.turns_remaining (after_turns n t)
        = (Treaty.duration t - Z.of_nat n)%Z)
    /\ ((Z.max 1 (Treaty.duration t) <= Z.of_nat n)%Z ->
        Treaty.status (after_turns n t) = EXPIRED).
Proof.
  intros Hs Hr. induction n as [|n [IH1 IH2]].
  - simpl. split; [intros _; split; [exact Hs | lia] | lia].
  - cbn [after_turns]. unfold Treaty.decrement_duration, Treaty.is_active.
    destruct (Z_lt_le_dec (Z.of_nat n) (Z.max 1 (Treaty.duration t)))
      as [Hlt|Hge].
    + destruct (IH1 Hlt) as [Sa Ra]. rewrite Sa. cbn [negb]. cbv zeta.
      cbn [Treaty.set_turns_remaining Treaty.turns_remaining].
      rewrite Ra.
      destruct (Treaty.duration t - Z.of_nat n - 1 <=? 0)%Z eqn:E.
      * apply Z.leb_le in E. simpl. split; [lia | reflexivity].
      * apply Z.leb_gt in E. simpl. rewrite Sa.
        split; [intros _; split; [reflexivity | lia] | lia].
    + rewrite (IH2 Hge). simpl. rewrite (IH2 Hge).
      split; [lia | reflexivity].
Qed.

(** The manager and the treaty objects after [n] calls of
    [update_turn]. *)
Lemma updates_object (n : nat) :
  forall (self : DiplomacyManager.t) (h : Heap) (r : nat) (t : Treaty.t),
    NoDup (DiplomacyManager.treaties self) ->
    In r (DiplomacyManager.treaties self) ->
    deref h r = Some t ->
    DiplomacyManager.treaties (fst (after_updates n self h))
    = DiplomacyManager.treaties self
    /\ deref (snd (after_updates n self h)) r = Some (after_turns n t).
Proof.
  induction n as [|n IH]; intros self h r t Hnd Hin Ht.
  - simpl. auto.
  - cbn [after_updates after_turns].
    destruct (IH self h r t Hnd Hin Ht) as [E1 E2].
    destruct (after_updates n self h) as [self1 h1]. simpl in E1, E2.
    rewrite <- E1 in Hnd, Hin.
    destruct (update_turn_object self1 h1 r _ Hnd Hin E2) as [U1 U2].
    destruct (DiplomacyManager.update_turn self1 h1) as [[e self2] h2].
    simpl in U1, U2 |- *. split; [congruence | exact U2].
Qed.

(** X27. A treaty in force is decremented once per [update_turn], as
    long as it is listed once: created with duration d, it is still
    active after n turns exactly when n is less than d (less than 1 for
    a duration below 1), and it has expired, not been broken, from then
    on. *)
Theorem treaty_lifetime :
  forall (self : DiplomacyManager.t) (h : Heap) (r : nat) (t : Treaty.t)
    (n : nat),
    NoDup (DiplomacyManager.treaties self) ->
    In r (DiplomacyManager.treaties self) ->
    deref h r = Some t ->
    Treaty.status t = ACTIVE ->
    Treaty.turns_remaining t = Treaty.duration t ->
    exists t',
      deref (snd (after_updates n self h)) r = Some t'
      /\ (Treaty.is_active t' = true
          <-> (Z.of_nat n < Z.max 1 (Treaty.duration t))%Z)
      /\ (Treaty.is_active t' = false -> Treaty.status t' = EXPIRED).
Proof.
  intros self h r t n Hnd Hin Ht Hs Hr.
  destruct (updates_object n self h r t Hnd Hin Ht) as [_ E].
  exists (after_turns n t). split; [exact E|].
  destruct (after_turns_state t Hs Hr n) as [A1 A2].
  unfold Treaty.is_active.
  destruct (Z_lt_le_dec (Z.of_nat n) (Z.max 1 (Treaty.duration t)))
    as [Hlt|Hge].
  - destruct (A1 Hlt) as [Sa _]. rewrite Sa.
    split; [split; auto | discriminate].
  - rewrite (A2 Hge). split; [split; [discriminate | lia] | reflexivity].
Qed.

Lemma treaty_lifetime_witness :
  exists t',
    deref (snd (after_updates 4 (DiplomacyManager.mk [0%nat] 0 [] [])
                  [Treaty.new_alliance "A" "B" 5])) 0
    = Some t'
    /\ (Treaty.is_active t' = true <-> (Z.of_nat 4 < Z.max 1 5)%Z).
Proof.
  destruct (treaty_lifetime (DiplomacyManager.mk [0%nat] 0 [] [])
              [Treaty.new_alliance "A" "B" 5] 0
              (Treaty.new_alliance "A" "B" 5) 4) as [t' [E [A _]]].
  - repeat constructor. intros [].
  - left. reflexivity.
  - reflexivity.
  - reflexivity.
  - reflexivity.
  - exists t'. split; [exact E | exact A].
Defined.

(* ------------------------------------------------------------------ *)

Lemma key_eqb_eq (k1 k2 : string * string) :
  PairDict.key_eqb k1 k2 = true <-> k1 = k2.
Proof.
  destruct k1 as [a b], k2 as [c d]. unfold PairDict.key_eqb. simpl.
  rewrite andb_true_iff, !String.eqb_eq. split.
  - intros [-> ->]. reflexivity.
  - intros E. inversion E. auto.
Qed.

Lemma pair_get_set_same {V : Type} (d : PairDict.t V) (k : string * string)
  (v : V) :
  PairDict.get (PairDict.set d k v) k = Some v.
Proof.
  assert (R : PairDict.key_eqb k k = true) by (apply key_eqb_eq; reflexivity).
  induction d as [|[k' v'] d IH]; simpl.
  - rewrite R. reflexivity.
  - destruct (PairDict.key_eqb k' k) eqn:E; simpl; rewrite E;
      [reflexivity | exact IH].
Qed.

Lemma pair_get_set_other {V : Type} (d : PairDict.t V)
  (k k' : string * string) (v : V) :
  k <> k' -> PairDict.get (PairDict.set d k v) k' = PairDict.get d k'.
Proof.
  intros Hne.
  assert (R : PairDict.key_eqb k k' = false).
  { destruct (PairDict.key_eqb k k') eqn:E; [|reflexivity].
    apply key_eqb_eq in E. contradiction. }
  induction d as [|[k0 v0] d IH]; simpl.
  - rewrite R. reflexivity.
  - destruct (PairDict.key_eqb k0 k) eqn:E; simpl.
    + apply key_eqb_eq in E. subst k0. rewrite R. reflexivity.
    + destruct (PairDict.key_eqb k0 k'); [reflexivity | exact IH].
Qed.

Lemma sorted_pair_sym (a b : string) : sorted_pair a b = sorted_pair b a.
Proof.
  unfold sorted_pair, String.ltb.
  rewrite (String.compare_antisym a b).
  destruct (String.compare b a) eqn:E; simpl; try reflexivity.
  apply String.compare_eq_iff in E. subst. reflexivity.
Qed.

Lemma trust_level_in_range (self : DiplomacyManager.t) (a b : string) :
  trust_in_range self ->
  0 <= DiplomacyManager.get_trust_level self a b
  /\ DiplomacyManager.get_trust_level self a b <= 1.
Proof.
  intros H. unfold DiplomacyManager.get_trust_level, PairDict.get_default.
  cbv zeta.
  destruct (PairDict.get (DiplomacyManager.trust_levels self)
                         (sorted_pair a b)) as [v|] eqn:E.
  - exact (H _ _ E).
  - split; lra.
Qed.

Lemma set_trust_in_range (self : DiplomacyManager.t) (k : string * string)
  (v : Q) :
  trust_in_range self -> 0 <= v -> v <= 1 ->
  trust_in_range
    (DiplomacyManager.set_trust_levels self
       (PairDict.set (DiplomacyManager.trust_levels self) k v)).
Proof.
  intros H H0 H1 k' v' G. simpl in G.
  destruct (key_eqb_eq k k') as [_ D].
  destruct (PairDict.key_eqb k k') eqn:E.
  - apply key_eqb_eq in E. subst k'. rewrite pair_get_set_same in G.
    inversion G; subst v'. split; assumption.
  - rewrite pair_get_set_other in G.
    + exact (H _ _ G).
    + intros E'. specialize (D E'). discriminate.
Qed.

(** X28. The trust between two players does not depend on the order in
    which they are named, is 0.5 until it is changed, and stays between
    0 and 1 under [_increase_trust] and [_decrease_trust] with a
    non-negative amount; a decrease is read back as the old level less
    the amount, not below 0.  With trust in that range,
    [evaluate_treaty_proposal] lies between 0.35 and 0.85, so that its
    clamping to the interval from 0 to 1 never acts. *)
Theorem trust_stays_in_range :
  forall (self : DiplomacyManager.t) (player1 player2 : string) (amount : Q)
    (treaty : Treaty.t) (ai_strategy : bool),
    trust_in_range self ->
    0 <= amount ->
    DiplomacyManager.get_trust_level self player1 player2
    = DiplomacyManager.get_trust_level self player2 player1
    /\ trust_in_range (DiplomacyManager._increase_trust self player1 player2 amount)
    /\ trust_in_range (DiplomacyManager._decrease_trust self player1 player2 amount)
    /\ DiplomacyManager.get_trust_level
         (DiplomacyManager._decrease_trust self player1 player2 amount)
         player2 player1
       = py_max 0.0 (DiplomacyManager.get_trust_level self player1 player2
                     - amount)
    /\ 0.35 <= DiplomacyManager.evaluate_treaty_proposal self treaty ai_strategy
    /\ DiplomacyManager.evaluate_treaty_proposal self treaty ai_strategy <= 0.85.
Proof.
  intros self a b amount treaty ai H Ha.
  pose proof (trust_level_in_range self a b H) as [L0 L1].
  split; [|split; [|split; [|split]]].
  - unfold DiplomacyManager.get_trust_level. rewrite (sorted_pair_sym a b).
    reflexivity.
  - unfold DiplomacyManager._increase_trust. cbv zeta.
    apply set_trust_in_range; [exact H | |].
    + apply py_min_nonneg; [lra|].
      unfold DiplomacyManager.get_trust_level in L0. cbv zeta in L0. lra.
    + eapply Qle_trans; [apply py_min_upper | lra].
  - unfold DiplomacyManager._decrease_trust. cbv zeta.
    apply set_trust_in_range; [exact H | |].
    + eapply Qle_trans; [|apply py_max_lower]. lra.
    + unfold DiplomacyManager.get_trust_level in L1. cbv zeta in L1.
      unfold py_max. destruct (Qle_bool _ _); lra.
  - unfold DiplomacyManager._decrease_trust,
      DiplomacyManager.get_trust_level. cbv zeta. simpl.
    rewrite (sorted_pair_sym b a).
    unfold PairDict.get_default at 1. rewrite pair_get_set_same.
    reflexivity.
  - unfold DiplomacyManager.evaluate_treaty_proposal. cbv zeta.
    unfold Treaty.get_involved_players.
    pose proof (trust_level_in_range self (Treaty.player1 treaty)
                  (Treaty.player2 treaty) H) as [T0 T1].
    set (trust := DiplomacyManager.get_trust_level self
                    (Treaty.player1 treaty) (Treaty.player2 treaty)) in *.
    destruct (Treaty.kind treaty); try destruct ai;
      unfold py_max; qcases; unfold py_min; qcases; split; lra.
Qed.

Lemma new_manager_trust_in_range : trust_in_range DiplomacyManager.new.
Proof. intros k v G. discriminate. Qed.

Lemma trust_stays_in_range_witness :
  DiplomacyManager.get_trust_level
    (DiplomacyManager._decrease_trust DiplomacyManager.new "A" "B" 0.2)
    "B" "A"
  = py_max 0.0 (DiplomacyManager.get_trust_level DiplomacyManager.new "A" "B"
                - 0.2).
Proof.
  destruct (trust_stays_in_range DiplomacyManager.new "A" "B" 0.2
              (Treaty.new_alliance "A" "B" 5) false
              new_manager_trust_in_range) as [_ [_ [_ [E _]]]].
  - lra.
  - exact E.
Defined.
(* ------------------------------------------------------------------ *)
(** ** One round of an attack                                          *)
(* ------------------------------------------------------------------ *)

Lemma get_updated (f : Territory.t -> Territory.t) (d : Dict.t Territory.t)
  (n x : string) :
  Dict.get
    (map (fun kt : string * Territory.t =>
            if String.eqb (fst kt) n then (fst kt, f (snd kt)) else kt) d) x
  = if String.eqb x n then option_map f (Dict.get d x) else Dict.get d x.
Proof.
  induction d as [|[k t] d IH]; simpl.
  - destruct (String.eqb x n); reflexivity.
  - destruct (String.eqb k n) eqn:Ekn; simpl.
    + destruct (String.eqb k x) eqn:Ekx.
      * apply String.eqb_eq in Ekn, Ekx. subst k x.
        rewrite String.eqb_refl. reflexivity.
      * exact IH.
    + destruct (String.eqb k x) eqn:Ekx.
      * apply String.eqb_eq in Ekx. subst k. rewrite Ekn. reflexivity.
      * exact IH.
Qed.

Lemma get_territory_add_armies (b : GameBoard.t) (n x : string) (delta : Z) :
  GameBoard.get_territory (add_armies b n delta) x
  = if String.eqb x n
    then option_map (fun t => with_armies (Territory.armies t + delta)%Z t)
                    (GameBoard.get_territory b x)
    else GameBoard.get_territory b x.
Proof.
  unfold GameBoard.get_territory, add_armies. simpl.
  exact (get_updated
           (fun t => with_armies (Territory.armies t + delta)%Z t) _ n x).
Qed.

Lemma get_territory_set_owner (b : GameBoard.t) (n x owner : string) :
  GameBoard.get_territory (set_owner b n owner) x
  = if String.eqb x n
    then option_map
           (fun t => Territory.mk (Territory.name t) (Territory.continent t)
                                  (Some owner) (Territory.armies t))
           (GameBoard.get_territory b x)
    else GameBoard.get_territory b x.
Proof.
  unfold GameBoard.get_territory, set_owner. simpl.
  exact (get_updated
           (fun t => Territory.mk (Territory.name t) (Territory.continent t)
                                  (Some owner) (Territory.armies t)) _ n x).
Qed.

Lemma eqb_other (x n : string) : x <> n -> String.eqb x n = false.
Proof. intros H. apply String.eqb_neq. exact H. Qed.

(** Rewriting of the lookups on an updated board. *)
Ltac board_lookups :=
  repeat (rewrite ?get_territory_add_armies, ?get_territory_set_armies,
            ?get_territory_set_owner, ?String.eqb_refl;
          repeat match goal with
            | H : ?x <> ?n |- context [String.eqb ?x ?n] =>
                rewrite (eqb_other x n H)
            | H : ?n <> ?x |- context [String.eqb ?x ?n] =>
                rewrite (eqb_other x n (not_eq_sym H))
            end).

Lemma roll_loop_length (l : list nat) :
  forall (rolls : list Z) (g : Dice),
    List.length
      (fst (fold_left
              (fun '(rolls, g) (_ : nat) =>
                 let '(x, g) := randint_1_6 g in (rolls ++ [x], g))
              l (rolls, g)))
    = (List.length rolls + List.length l)%nat.
Proof.
  induction l as [|i l IH]; intros rolls g; simpl.
  - lia.
  - rewrite IH. rewrite length_app. simpl. lia.
Qed.

Lemma roll_dice_length (n : Z) (g : Dice) :
  List.length (fst (Attack._roll_dice n g)) = Z.to_nat n.
Proof.
  unfold Attack._roll_dice.
  pose proof (roll_loop_length (seq 0 (Z.to_nat n)) [] g) as L.
  destruct (fold_left _ (seq 0 (Z.to_nat n)) ([], g)) as [rolls g'].
  simpl in L |- *.
  rewrite (Permutation_length (sort_desc_perm inject_Z rolls)).
  rewrite L, length_seq. reflexivity.
Qed.

Lemma compare_loop (l : list (Z * Z)) :
  forall al dl : Z,
    let r :=
      fold_left
        (fun '(attacker_losses, defender_losses) '(x, y) =>
           if (x >? y)%Z then (attacker_losses, (defender_losses + 1)%Z)
           else ((attacker_losses + 1)%Z, defender_losses))
        l (al, dl) in
    (al <= fst r)%Z /\ (dl <= snd r)%Z
    /\ (fst r + snd r = al + dl + Z.of_nat (List.length l))%Z.
Proof.
  induction l as [|[x y] l IH]; intros al dl; cbn [fold_left List.length].
  - cbv zeta. simpl. lia.
  - destruct (x >? y)%Z.
    + specialize (IH al (dl + 1)%Z). cbv zeta in IH |- *. lia.
    + specialize (IH (al + 1)%Z dl). cbv zeta in IH |- *. lia.
Qed.

(** The losses of one round: none is negative, and together they are as
    many as the pairs of dice compared. *)
Lemma compare_dice_losses (attacker_rolls defender_rolls : list Z) :
  (0 <= fst (Attack.compare_dice attacker_rolls defender_rolls))%Z
  /\ (0 <= snd (Attack.compare_dice attacker_rolls defender_rolls))%Z
  /\ (fst (Attack.compare_dice attacker_rolls defender_rolls)
      + snd (Attack.compare_dice attacker_rolls defender_rolls)
      = Z.of_nat (Nat.min (List.length attacker_rolls)
                          (List.length defender_rolls)))%Z.
Proof.
  unfold Attack.compare_dice.
  pose proof (compare_loop (combine attacker_rolls defender_rolls) 0 0) as L.
  cbv zeta in L. rewrite length_combine in L. lia.
Qed.

Lemma occupy_moves (b : GameBoard.t) (source_name target_name : string)
  (source target : Territory.t) (n : Z) :
  source_name <> target_name ->
  GameBoard.get_territory b source_name = Some source ->
  GameBoard.get_territory b target_name = Some target ->
  (1 <= n < Territory.armies source)%Z ->
  exists b',
    Attack.occupy b source_name target_name n = Ok b'
    /\ GameBoard.get_territory b' source_name
       = Some (with_armies (Territory.armies source - n)%Z source)
    /\ GameBoard.get_territory b' target_name = Some (with_armies n target)
    /\ (forall other,
           other <> source_name -> other <> target_name ->
           GameBoard.get_territory b' other = GameBoard.get_territory b other).
Proof.
  intros Hne Hs Ht Hn. unfold Attack.occupy. rewrite Hs. cbn [attr bind].
  cbv zeta.
  replace (Z.max 1 (Z.min n (Territory.armies source - 1))) with n by lia.
  destruct (Territory.armies source >? n)%Z eqn:E; [|lia].
  eexists. split; [reflexivity|]. split; [|split].
  - board_lookups. rewrite Hs. reflexivity.
  - board_lookups. rewrite Ht. reflexivity.
  - intros other H1 H2. board_lookups. reflexivity.
Qed.

Lemma conquer_board (w w' : Game) (attacking_player defending_player : nat)
  (source_name target_name : string) (n : Z) :
  Attack.conquer w attacking_player defending_player source_name target_name n
  = Ok w' ->
  exists p,
    player_at (players w) attacking_player = Some p
    /\ Attack.occupy (set_owner (board w) target_name (Player.name p))
                     source_name target_name n
       = Ok (board w').
Proof.
  unfold Attack.conquer. intros H.
  apply bind_Ok in H. destruct H as [p [Hp H]].
  apply bind_Ok in H. destruct H as [q [Hq H]].
  destruct (Attack.break_alliance _ _ _ _) as [d h].
  apply bind_Ok in H. destruct H as [target [Ht H]].
  apply bind_Ok in H. destruct H as [b' [Hb H]].
  apply bind_Ok in H. destruct H as [q' [Hq' H]].
  exists p. split.
  - destruct (player_at (players w) attacking_player); inversion Hp.
    reflexivity.
  - rewrite Hb. f_equal.
    destruct (Player.is_eliminated q');
      [destruct (fold_left _ _ (d, h)) as [d' h'] |];
      inversion H; reflexivity.
Qed.

Lemma attacker_dice_cases (k a : Z) :
  (if (k >=? 3)%Z && (a >? 3)%Z then Some 3%Z
   else if (k >=? 2)%Z && (a >? 2)%Z then Some 2%Z
   else if (k >=? 1)%Z && (a >? 1)%Z then Some 1%Z
   else None)
  = if (1 <=? attacker_dice_count k a)%Z then Some (attacker_dice_count k a)
    else None.
Proof.
  unfold attacker_dice_count.
  destruct (k >=? 3)%Z eqn:K3; destruct (a >? 3)%Z eqn:A3;
    destruct (k >=? 2)%Z eqn:K2; destruct (a >? 2)%Z eqn:A2;
    destruct (k >=? 1)%Z eqn:K1; destruct (a >? 1)%Z eqn:A1;
    cbn [andb];
    destruct (1 <=? Z.min 3 (Z.min k (a - 1)))%Z eqn:E;
    try (f_equal; lia); exfalso; lia.
Qed.

Lemma defender_dice_cases (d : Z) :
  (if (d >=? 2)%Z then Some 2%Z
   else if (d =? 1)%Z then Some 1%Z
   else None)
  = if (1 <=? d)%Z then Some (defender_dice_count d) else None.
Proof.
  unfold defender_dice_count.
  destruct (d >=? 2)%Z eqn:D2; destruct (d =? 1)%Z eqn:D1;
    destruct (1 <=? d)%Z eqn:E; try (f_equal; lia); exfalso; lia.
Qed.

(** The board after a round that was fought. *)
Lemma round_fought (w w' : Game) (attacking_player defending_player : nat)
  (attacking_territory defending_territory : string)
  (attacker_armies_for_attack : Z) (source target : Territory.t) :
  attacking_territory <> defending_territory ->
  GameBoard.get_territory (board w) attacking_territory = Some source ->
  GameBoard.get_territory (board w) defending_territory = Some target ->
  Attack._resolve_attack w attacking_player defending_player
    attacking_territory defending_territory attacker_armies_for_attack
  = Ok (true, w') ->
  exists source' target',
    GameBoard.get_territory (board w') attacking_territory = Some source'
    /\ GameBoard.get_territory (board w') defending_territory = Some target'
    /\ (1 <= Territory.armies source')%Z
    /\ (1 <= Territory.armies target')%Z
    /\ (Territory.armies source' + Territory.armies target'
        = Territory.armies source + Territory.armies target
          - Z.min (attacker_dice_count attacker_armies_for_attack
                                       (Territory.armies source))
                  (defender_dice_count (Territory.armies target)))%Z
    /\ (forall other,
           other <> attacking_territory -> other <> defending_territory ->
           GameBoard.get_territory (board w') other
           = GameBoard.get_territory (board w) other)
    /\ Territory.owner source' = Territory.owner source
    /\ (Territory.owner target' = Territory.owner target
        /\ (0 < Territory.armies target
                - snd (Attack.compare_dice
                         (fst (Attack._roll_dice
                                 (attacker_dice_count
                                    attacker_armies_for_attack
                                    (Territory.armies source)) (dice w)))
                         (fst (Attack._roll_dice
                                 (defender_dice_count (Territory.armies target))
                                 (snd (Attack._roll_dice
                                         (attacker_dice_count
                                            attacker_armies_for_attack
                                            (Territory.armies source))
                                         (dice w)))))))%Z
        \/ exists p,
            player_at (players w) attacking_player = Some p
            /\ Territory.owner target' = Some (Player.name p)
            /\ Territory.armies target'
               = attacker_dice_count attacker_armies_for_attack
                                     (Territory.armies source)).
Proof.
  intros Hne Hs Ht. unfold Attack._resolve_attack. intros H.
  apply bind_Ok in H. destruct H as [attacker [Ha H]].
  apply bind_Ok in H. destruct H as [defender [Hd H]].
  destruct (DiplomacyManager.has_active_alliance _ _ _ _);
    [discriminate|].
  rewrite Hs, Ht in H. cbn [attr bind] in H.
  destruct (DiplomacyManager.has_territory_treaty _ _ _ _ _ _);
    [discriminate|].
  cbv zeta in H.
  rewrite attacker_dice_cases, defender_dice_cases in H.
  set (na := attacker_dice_count attacker_armies_for_attack
                                 (Territory.armies source)) in *.
  set (nd := defender_dice_count (Territory.armies target)) in *.
  destruct (1 <=? na)%Z eqn:Ena; [|discriminate].
  destruct (1 <=? Territory.armies target)%Z eqn:End; [|discriminate].
  apply Z.leb_le in Ena, End.
  destruct (na =? 0)%Z eqn:E0; [discriminate|].
  pose proof (roll_dice_length na (dice w)) as La.
  destruct (Attack._roll_dice na (dice w)) as [attacker_rolls g1].
  pose proof (roll_dice_length nd g1) as Ld.
  cbn [fst snd] in *.
  destruct (Attack._roll_dice nd g1) as [defender_rolls g2].
  cbn [fst snd] in *.
  pose proof (compare_dice_losses attacker_rolls defender_rolls)
    as [Hal [Hdl Hsum]].
  rewrite La, Ld in Hsum.
  destruct (Attack.compare_dice attacker_rolls defender_rolls)
    as [attacker_losses defender_losses].
  cbn [fst snd] in *.
  assert (Hna : (na < Territory.armies source)%Z)
    by (unfold na, attacker_dice_count; lia).
  assert (Hnd : (1 <= nd <= Territory.armies target)%Z)
    by (unfold nd, defender_dice_count; lia).
  assert (Hlosses : (attacker_losses + defender_losses = Z.min na nd)%Z)
    by lia.
  revert H. board_lookups. rewrite Ht. cbn [option_map attr bind].
  cbn [with_armies Territory.armies].
  destruct (Territory.armies target + - defender_losses <=? 0)%Z eqn:Ec.
  - (* the territory is taken *)
    apply Z.leb_le in Ec. intros H.
    apply bind_Ok in H. destruct H as [w1 [Hw1 H]].
    inversion H; subst w1; clear H.
    apply conquer_board in Hw1. destruct Hw1 as [p [Hp Ho]].
    cbn [players board] in Hp, Ho.
    match type of Ho with
    | Attack.occupy ?b0 _ _ _ = _ =>
        destruct (occupy_moves b0 attacking_territory defending_territory
                    (with_armies (Territory.armies source + - attacker_losses)%Z
                                 source)
                    (Territory.mk (Territory.name target)
                       (Territory.continent target) (Some (Player.name p))
                       (Territory.armies target + - defender_losses)%Z)
                    na Hne) as [b' [Hb' [G1 [G2 G3]]]]
    end.
    + board_lookups. rewrite Hs. reflexivity.
    + board_lookups. rewrite Ht. reflexivity.
    + cbn [with_armies Territory.armies]. lia.
    + rewrite Hb' in Ho. inversion Ho as [Eb]. rewrite <- Eb.
      eexists. eexists. split; [exact G1|]. split; [exact G2|].
      cbn [with_armies Territory.armies Territory.owner].
      split; [lia|]. split; [lia|]. split; [lia|]. split; [|split].
      * intros other H1 H2. rewrite (G3 other H1 H2). board_lookups.
        reflexivity.
      * reflexivity.
      * right. exists p. split; [exact Hp|]. split; reflexivity.
  - (* the territory holds *)
    apply Z.leb_gt in Ec. intros H. inversion H; subst w'; clear H.
    cbn [board].
    eexists. eexists. split.
    { board_lookups. rewrite Hs. reflexivity. }
    split.
    { board_lookups. rewrite Ht. reflexivity. }
    cbn [with_armies Territory.armies Territory.owner].
    split; [lia|]. split; [lia|]. split; [lia|]. split; [|split].
    + intros other H1 H2. board_lookups. reflexivity.
    + reflexivity.
    + left. split; [reflexivity | lia].
Qed.

(** X29. A round of [_resolve_attack] that is fought between two
    different territories removes from them together as many armies as
    the smaller of the two numbers of dice, the attacker's being the
    least of 3, the armies committed and the armies of the source less
    one, the defender's the lesser of 2 and the armies of the target.
    Both territories hold at least one army afterwards, the source keeps
    its owner, the target keeps its owner or passes to the attacker, and
    no other territory changes. *)
Theorem attack_round_accounting :
  forall (w w' : Game) (attacking_player defending_player : nat)
    (attacking_territory defending_territory : string)
    (attacker_armies_for_attack : Z) (source target : Territory.t),
    attacking_territory <> defending_territory ->
    GameBoard.get_territory (board w) attacking_territory = Some source ->
    GameBoard.get_territory (board w) defending_territory = Some target ->
    Attack._resolve_attack w attacking_player defending_player
      attacking_territory defending_territory attacker_armies_for_attack
    = Ok (true, w') ->
    exists source' target',
      GameBoard.get_territory (board w') attacking_territory = Some source'
      /\ GameBoard.get_territory (board w') defending_territory = Some target'
      /\ (1 <= Territory.armies source')%Z
      /\ (1 <= Territory.armies target')%Z
      /\ (Territory.armies source' + Territory.armies target'
          = Territory.armies source + Territory.armies target
            - Z.min (attacker_dice_count attacker_armies_for_attack
                                         (Territory.armies source))
                    (defender_dice_count (Territory.armies target)))%Z
      /\ Territory.owner source' = Territory.owner source
      /\ (Territory.owner target' = Territory.owner target
          \/ exists p,
              player_at (players w) attacking_player = Some p
              /\ Territory.owner target' = Some (Player.name p))
      /\ (forall other,
             other <> attacking_territory -> other <> defending_territory ->
             GameBoard.get_territory (board w') other
             = GameBoard.get_territory (board w) other).
Proof.
  intros w w' ap dp a_t d_t k source target Hne Hs Ht H.
  destruct (round_fought w w' ap dp a_t d_t k source target Hne Hs Ht H)
    as [source' [target' [G1 [G2 [G3 [G4 [G5 [G6 [G7 G8]]]]]]]]].
  exists source', target'.
  repeat (split; [assumption|]). split; [|exact G6].
  destruct G8 as [[G8 _] | [p [Hp [G8 _]]]]; [left; exact G8 |].
  right. exists p. split; assumption.
Qed.

Lemma attack_round_accounting_witness :
  exists source' target',
    GameBoard.get_territory
      (add_armies (add_armies Examples.square "a" (- (1))) "x" (- 0)) "a"
    = Some source'
    /\ GameBoard.get_territory
         (add_armies (add_armies Examples.square "a" (- (1))) "x" (- 0)) "x"
       = Some target'
    /\ (Territory.armies source' + Territory.armies target' = 3 + 1 - 1)%Z.
Proof.
  destruct (attack_round_accounting
              (mkGame [Player.mk "P" "Red" ["a"; "b"; "c"; "d"]%string [] 0 false;
                       Player.mk "E" "Blue" ["x"]%string [] 0 false]
                      Examples.square DiplomacyManager.new []
                      (mkDice (fun _ => 0%Z) 0))
              (mkGame [Player.mk "P" "Red" ["a"; "b"; "c"; "d"]%string [] 0 false;
                       Player.mk "E" "Blue" ["x"]%string [] 0 false]
                      (add_armies (add_armies Examples.square "a" (- (1)))
                                  "x" (- 0))
                      DiplomacyManager.new []
                      (mkDice (fun _ => 0%Z) 3))
              0%nat 1%nat "a"%string "x"%string 2%Z
              (Territory.mk "a" "C" (Some "P"%string) 3)
              (Territory.mk "x" "D" (Some "E"%string) 1))
    as [source' [target' [G1 [G2 [_ [_ [G5 _]]]]]]].
  - discriminate.
  - reflexivity.
  - reflexivity.
  - vm_compute. reflexivity.
  - exists source', target'. split; [exact G1|]. split; [exact G2|].
    exact G5.
Defined.
(* ------------------------------------------------------------------ *)
(** ** Proposals and their acceptance                                  *)
(* ------------------------------------------------------------------ *)

Lemma remove_ref_last (r : nat) (l : list nat) :
  existsb (Nat.eqb r) l = false ->
  DiplomacyManager.remove_ref r (l ++ [r]) = l.
Proof.
  induction l as [|x l IH]; simpl; intros H.
  - rewrite Nat.eqb_refl. reflexivity.
  - apply orb_false_iff in H. destruct H as [Hx Hl].
    rewrite Nat.eqb_sym, Hx. rewrite (IH Hl). reflexivity.
Qed.

Lemma existsb_last (r : nat) (l : list nat) :
  existsb (Nat.eqb r) (l ++ [r]) = true.
Proof.
  rewrite existsb_app. simpl. rewrite Nat.eqb_refl.
  destruct (existsb (Nat.eqb r) l); reflexivity.
Qed.

(** The proposals of a pair of players after [propose_treaty]: the
    earlier ones, then the new one. *)
Lemma proposals_after_propose (self : DiplomacyManager.t) (h : Heap)
  (r : nat) (treaty : Treaty.t) :
  deref h r = Some treaty ->
  PairDict.get
    (DiplomacyManager.treaty_proposals
       (DiplomacyManager.propose_treaty self h r))
    (Treaty.get_involved_players treaty)
  = Some (PairDict.get_default (DiplomacyManager.treaty_proposals self)
                               (Treaty.get_involved_players treaty) []
          ++ [r]).
Proof.
  intros Hr. unfold DiplomacyManager.propose_treaty. rewrite Hr.
  cbv zeta. cbn [DiplomacyManager.treaty_proposals
                   DiplomacyManager.set_treaty_proposals].
  rewrite pair_get_set_same. unfold PairDict.get_default.
  destruct (PairDict.get (DiplomacyManager.treaty_proposals self)
                         (Treaty.get_involved_players treaty)) as [l|] eqn:E.
  - rewrite E. reflexivity.
  - rewrite pair_get_set_same. reflexivity.
Qed.

Lemma accept_after_propose (self : DiplomacyManager.t) (h : Heap) (r : nat)
  (treaty : Treaty.t) :
  deref h r = Some treaty ->
  DiplomacyManager.proposed self (Treaty.get_involved_players treaty) r = false ->
  exists self' h',
    DiplomacyManager.accept_treaty
      (DiplomacyManager.propose_treaty self h r) h r
    = (true, self', h')
    /\ DiplomacyManager.treaties self' = DiplomacyManager.treaties self ++ [r]
    /\ deref h' r
       = Some (Treaty.set_creation_turn treaty
                 (DiplomacyManager.current_turn self))
    /\ DiplomacyManager.proposed self' (Treaty.get_involved_players treaty) r
       = false
    /\ (forall r', r' <> r -> deref h' r' = deref h r').
Proof.
  intros Hr Hnew.
  pose proof (proposals_after_propose self h r treaty Hr) as P.
  assert (Hl : existsb (Nat.eqb r)
                 (PairDict.get_default (DiplomacyManager.treaty_proposals self)
                    (Treaty.get_involved_players treaty) []) = false).
  { unfold DiplomacyManager.proposed in Hnew. unfold PairDict.get_default.
    destruct (PairDict.get _ _); [exact Hnew | reflexivity]. }
  assert (T : DiplomacyManager.treaties
                (DiplomacyManager.propose_treaty self h r)
              = DiplomacyManager.treaties self
              /\ DiplomacyManager.current_turn
                   (DiplomacyManager.propose_treaty self h r)
                 = DiplomacyManager.current_turn self).
  { unfold DiplomacyManager.propose_treaty. rewrite Hr. split; reflexivity. }
  destruct T as [T1 T2].
  unfold DiplomacyManager.accept_treaty. rewrite Hr. cbv zeta.
  unfold DiplomacyManager.proposed at 1. rewrite P.
  rewrite existsb_last.
  eexists. eexists. split; [reflexivity|].
  cbn [DiplomacyManager.treaties DiplomacyManager.set_treaties
         DiplomacyManager.set_treaty_proposals
         DiplomacyManager.current_turn].
  split; [rewrite T1; reflexivity|]. split; [|split].
  - rewrite T2. apply (deref_store_same h r _ treaty Hr).
  - unfold DiplomacyManager.proposed.
    unfold DiplomacyManager.set_treaties, DiplomacyManager.set_treaty_proposals.
    cbn [DiplomacyManager.treaty_proposals].
    rewrite pair_get_set_same. unfold PairDict.get_default at 1.
    rewrite P. rewrite (remove_ref_last r _ Hl). exact Hl.
  - intros r' Hne. apply deref_store_other. congruence.
Qed.

(** X30. A treaty that is proposed and then accepted becomes one of the
    treaties of the manager, the last one, with the current turn as its
    creation turn, and leaves the proposals: accepting or rejecting it a
    second time fails, if it had not been proposed before.  For an
    alliance in force, [has_active_alliance] then holds for its two
    players, named in either order. *)
Theorem accepted_proposal_is_in_force :
  forall (self : DiplomacyManager.t) (h : Heap) (r : nat) (treaty : Treaty.t),
    deref h r = Some treaty ->
    DiplomacyManager.proposed self (Treaty.get_involved_players treaty) r
    = false ->
    exists self' h',
      DiplomacyManager.accept_treaty
        (DiplomacyManager.propose_treaty self h r) h r
      = (true, self', h')
      /\ DiplomacyManager.treaties self' = DiplomacyManager.treaties self ++ [r]
      /\ deref h' r
         = Some (Treaty.set_creation_turn treaty
                   (DiplomacyManager.current_turn self))
      /\ DiplomacyManager.accept_treaty self' h' r = (false, self', h')
      /\ DiplomacyManager.reject_treaty self' h' r = (false, self')
      /\ (Treaty.treaty_type treaty = ALLIANCE ->
          Treaty.status treaty = ACTIVE ->
          DiplomacyManager.has_active_alliance self' h'
            (Treaty.player1 treaty) (Treaty.player2 treaty) = true
          /\ DiplomacyManager.has_active_alliance self' h'
               (Treaty.player2 treaty) (Treaty.player1 treaty) = true).
Proof.
  intros self h r treaty Hr Hnew.
  destruct (accept_after_propose self h r treaty Hr Hnew)
    as [self' [h' [E [T [D [P _]]]]]].
  exists self', h'. split; [exact E|]. split; [exact T|]. split; [exact D|].
  split; [|split].
  - unfold DiplomacyManager.accept_treaty. rewrite D. cbv zeta.
    change (Treaty.get_involved_players
              (Treaty.set_creation_turn treaty
                 (DiplomacyManager.current_turn self)))
      with (Treaty.get_involved_players treaty).
    rewrite P. reflexivity.
  - unfold DiplomacyManager.reject_treaty. rewrite D. cbv zeta.
    change (Treaty.get_involved_players
              (Treaty.set_creation_turn treaty
                 (DiplomacyManager.current_turn self)))
      with (Treaty.get_involved_players treaty).
    rewrite P. reflexivity.
  - intros Ha Hs. unfold DiplomacyManager.has_active_alliance.
    rewrite T, !existsb_app. cbn [existsb]. rewrite D.
    unfold Treaty.is_active, DiplomacyManager.same_pair.
    cbn [Treaty.set_creation_turn Treaty.treaty_type Treaty.status
           Treaty.player1 Treaty.player2].
    rewrite Ha, Hs, !String.eqb_refl. cbn [andb orb].
    rewrite !orb_true_r. split; reflexivity.
Qed.

Lemma accepted_proposal_is_in_force_witness :
  exists self' h',
    DiplomacyManager.accept_treaty
      (DiplomacyManager.propose_treaty DiplomacyManager.new
         [Treaty.new_alliance "A" "B" 5] 0)
      [Treaty.new_alliance "A" "B" 5] 0
    = (true, self', h')
    /\ DiplomacyManager.has_active_alliance self' h' "B" "A" = true.
Proof.
  destruct (accepted_proposal_is_in_force DiplomacyManager.new
              [Treaty.new_alliance "A" "B" 5] 0
              (Treaty.new_alliance "A" "B" 5))
    as [self' [h' [E [_ [_ [_ [_ A]]]]]]].
  - reflexivity.
  - reflexivity.
  - exists self', h'. split; [exact E|].
    exact (proj2 (A eq_refl eq_refl)).
Defined.
